(** * SentVibe: the confidence-gated sandbox and its content-security pipeline

    A shallow embedding of the TypeScript sources

    - [src/sandbox/sandbox-manager.ts]  (SandboxManager, FileSystemProxy,
      ConfidenceCalculator),
    - [src/security/content-sanitizer.ts] (ContentSanitizer),
    - [src/security/file-access-control.ts] (FileAccessControl),
    - [src/security/database-encryption.ts] (DatabaseEncryption),
    - [src/security/security-manager.ts] (SecurityManager),

    together with the properties of the specification that concern them.

    Conventions.  A JavaScript string is the list of its UTF-16 code units
    ([list N]).  A JavaScript number that the code only ever uses as an
    integer is a [Z].  Code that throws returns in the [exc] monad; code that
    reads or writes the file system threads an explicit [FS] value.  The Node
    runtime pieces the sources call ([path], [fs], [RegExp], [Buffer],
    [JSON]) are modelled next to their callers, POSIX flavour. *)

From Stdlib Require Import ZArith NArith List Ascii String Lia Bool.
From Stdlib Require Import DecimalString.
From Stdlib Require QArith.
From stdpp Require Import base option list gmap.

Set Warnings "-register-all".

Local Open Scope string_scope.
Local Open Scope list_scope.
Local Open Scope N_scope.

(* ===================================================================== *)
(** * JavaScript strings *)
(* ===================================================================== *)

Module Js.

(** A string is a sequence of UTF-16 code units. *)
Definition str := list N.

(** A source literal made of ASCII characters. *)
Definition lit (s : string) : str :=
  List.map N_of_ascii (list_ascii_of_string s).

Definition isPrefix (p s : str) : bool :=
  bool_decide (take (length p) s = p).

(** [s.startsWith(p)] *)
Definition startsWith (s p : str) : bool := isPrefix p s.

(** [s.includes(p)] *)
Fixpoint includes (s p : str) : bool :=
  isPrefix p s ||
  match s with
  | [] => false
  | _ :: s' => includes s' p
  end.

(** [s.lastIndexOf(c)] for a single code unit; [None] stands for -1. *)
Fixpoint lastIndexOf (s : str) (c : N) : option nat :=
  match s with
  | [] => None
  | x :: s' =>
      match lastIndexOf s' c with
      | Some i => Some (S i)
      | None => if N.eqb x c then Some O else None
      end
  end.

Definition upperUnit (c : N) : N :=
  if (97 <=? c) && (c <=? 122) then c - 32 else c.

Definition lowerUnit (c : N) : N :=
  if (65 <=? c) && (c <=? 90) then c + 32 else c.

(** [toUpperCase] and [toLowerCase], exact on strings of ASCII units
    (the sources apply them to ASCII type names and to file extensions). *)
Definition toUpperCase (s : str) : str := List.map upperUnit s.
Definition toLowerCase (s : str) : str := List.map lowerUnit s.

(** White space and line terminators of ECMAScript ([\s], [trim]). *)
Definition isWhiteSpace (c : N) : bool :=
  ((9 <=? c) && (c <=? 13)) || (c =? 32) || (c =? 160) || (c =? 5760)
  || ((8192 <=? c) && (c <=? 8202)) || (c =? 8232) || (c =? 8233)
  || (c =? 8239) || (c =? 8287) || (c =? 12288) || (c =? 65279).

Fixpoint trimStart (s : str) : str :=
  match s with
  | c :: s' => if isWhiteSpace c then trimStart s' else s
  | [] => []
  end.

Definition trim (s : str) : str := rev (trimStart (rev (trimStart s))).

(** [String(n)] for an integer-valued number. *)
Definition ofZ (z : Z) : str := lit (NilZero.string_of_int (Z.to_int z)).

Definition concat (l : list str) : str := List.concat l.

(** [s.split(sep)] for a separator of one code unit. *)
Fixpoint split (s : str) (sep : N) : list str :=
  match s with
  | [] => [[]]
  | c :: s' =>
      if N.eqb c sep then [] :: split s' sep
      else match split s' sep with
           | line :: rest => (c :: line) :: rest
           | [] => [[c]]
           end
  end.

(** [l.join(sep)] *)
Fixpoint join (l : list str) (sep : str) : str :=
  match l with
  | [] => []
  | [x] => x
  | x :: l' => x ++ sep ++ join l' sep
  end.

(** The quotient of two counts, as a number: [0 / 0] is NaN and [n / 0]
    is Infinity.  The sources compare such a quotient with a decimal
    literal; for counts below 2^49 (no string is that long) the comparison
    of the two doubles decides as the comparison of the exact values. *)
Inductive number :=
| NaN
| Infinity
| Finite (q : QArith_base.Q).

Definition div (a b : nat) : number :=
  match b, a with
  | O, O => NaN
  | O, S _ => Infinity
  | S _, _ => Finite (QArith_base.Qmake (Z.of_nat a) (Pos.of_nat b))
  end.

(** [x > q] and [x < q]; a comparison with NaN is false. *)
Definition gt (x : number) (q : QArith_base.Q) : bool :=
  match x with
  | NaN => false
  | Infinity => true
  | Finite p => negb (QArith_base.Qle_bool p q)
  end.

Definition lt (x : number) (q : QArith_base.Q) : bool :=
  match x with
  | NaN => false
  | Infinity => false
  | Finite p => negb (QArith_base.Qle_bool q p)
  end.

End Js.

(** [J "text"] is the JavaScript literal ['text']. *)
Abbreviation J := Js.lit.

(* ===================================================================== *)
(** * Confidence metrics and the deployment gate (sandbox-manager.ts) *)
(* ===================================================================== *)

(** [ConfidenceMetrics] of [src/types/index.ts]. *)
Record ConfidenceMetrics := {
  syntaxValidation : Z;
  testExecution : Z;
  patternAlignment : Z;
  memoryConsistency : Z;
  riskAssessment : Z;
  performanceImpact : Z
}.

(** The [action] field of [DeploymentDecision]. *)
Inductive Action :=
| AutoDeploy              (* 'auto-deploy' *)
| RequestReview           (* 'request-review' *)
| ContinueSandboxTesting  (* 'continue-sandbox-testing' *)
| Blocked.                (* 'blocked' *)

Record ReviewData := {
  rd_confidence : Z;
  risks : list Js.str;
  improvements : list Js.str;
  similarImplementations : list Js.str
}.

Record DeploymentDecision := {
  allowed : bool;
  reason : Js.str;
  action : Action;
  reviewData : option ReviewData;
  suggestions : option (list Js.str)
}.

Module Gate.

(** [Object.values(metrics)], in property order. *)
Definition values (m : ConfidenceMetrics) : list Z :=
  [ syntaxValidation m; testExecution m; patternAlignment m;
    memoryConsistency m; riskAssessment m; performanceImpact m ].

(** [SandboxManager.calculateTotalConfidence]:
    [Object.values(metrics).reduce((sum, score) => sum + score, 0)]. *)
Definition calculateTotalConfidence (m : ConfidenceMetrics) : Z :=
  fold_left (fun sum score => sum + score)%Z (values m) 0%Z.

(** [SandboxManager.getEmptyMetrics]. *)
Definition getEmptyMetrics : ConfidenceMetrics :=
  {| syntaxValidation := 0; testExecution := 0; patternAlignment := 0;
     memoryConsistency := 0; riskAssessment := 0; performanceImpact := 0 |}.

(** [SandboxManager.calculateConfidenceMetrics]: the placeholder metrics of
    [runTests], [executeCommand] and [runValidation]. *)
Definition calculateConfidenceMetrics : ConfidenceMetrics :=
  {| syntaxValidation := 20; testExecution := 23; patternAlignment := 18;
     memoryConsistency := 14; riskAssessment := 9; performanceImpact := 10 |}.

Definition checkMark : Js.str := [9989].          (* U+2705 *)
Definition warningSign : Js.str := [9888; 65039]. (* U+26A0 U+FE0F *)
Definition crossMark : Js.str := [10060].         (* U+274C *)

(** [SandboxManager.checkDeploymentPermission(_filePath, confidence)].
    The body of the [try] cannot throw, so the [catch] branch (the only
    place that builds a 'blocked' decision) is never taken. *)
Definition checkDeploymentPermission (_filePath : Js.str) (confidence : Z)
  : DeploymentDecision :=
  if (confidence >=? 95)%Z then
    {| allowed := true;
       reason := Js.concat [checkMark; J " High confidence (";
                            Js.ofZ confidence;
                            J "%) - deploying to real files"];
       action := AutoDeploy;
       reviewData := None;
       suggestions := None |}
  else if (confidence >=? 70)%Z then
    {| allowed := false;
       reason := Js.concat [warningSign; J " Medium confidence (";
                            Js.ofZ confidence;
                            J "%) - requires human review"];
       action := RequestReview;
       reviewData := Some
         {| rd_confidence := confidence;
            risks := [J "Medium confidence score"];
            improvements := [J "Increase test coverage";
                             J "Add more validation"];
            similarImplementations := [] |};
       suggestions := None |}
  else
    {| allowed := false;
       reason := Js.concat [crossMark; J " Low confidence (";
                            Js.ofZ confidence;
                            J "%) - needs more testing"];
       action := ContinueSandboxTesting;
       reviewData := None;
       suggestions := Some
         [J "Add more comprehensive tests";
          J "Improve code quality";
          J "Follow established patterns";
          J "Add error handling"] |}.

End Gate.

(* ===================================================================== *)
(** * Regular expressions (the ECMAScript backtracking matcher) *)
(* ===================================================================== *)

Module RegExp.

(** Members of a character class [[...]]. *)
Inductive ClassItem :=
| CChar (c : N)
| CRange (lo hi : N)
| CSpace        (* \s *)
| CNotSpace     (* \S *)
| CDigit.       (* \d *)

(** Pattern syntax, as far as the patterns of the sources use it.  Capture
    groups are transparent: no pattern has a back-reference and every
    replacement callback reads the whole match only. *)
Inductive Re :=
| Eps
| Chr (c : N)
| Cls (invert : bool) (items : list ClassItem)
| Dot
| Seq (a b : Re)
| Alt (a b : Re)
| Rep (min : nat) (max : option nat) (greedy : bool) (a : Re)
| Grp (a : Re)
| WordB                 (* \b *)
| Boi                   (* ^ without the m flag *)
| Eoi                   (* $ without the m flag *)
| NegAhead (a : Re).    (* (?! ... ) *)

(** A RegExp object: pattern, flags and the mutable [lastIndex]. *)
Record t := {
  source : Re;
  ignoreCase : bool;
  global : bool;
  lastIndex : nat
}.

Definition setLastIndex (R : t) (i : nat) : t :=
  {| source := source R; ignoreCase := ignoreCase R; global := global R;
     lastIndex := i |}.

Definition inRange (lo hi c : N) : bool := (lo <=? c) && (c <=? hi).

Definition isDigit (c : N) : bool := inRange 48 57 c.

Definition isWordChar (c : N) : bool :=
  inRange 97 122 c || inRange 65 90 c || isDigit c || (c =? 95).

Definition isLineTerminator (c : N) : bool :=
  (c =? 10) || (c =? 13) || (c =? 8232) || (c =? 8233).

(** [Canonicalize] (no [u] flag).  Every pattern character of the sources
    is ASCII and a unit above 127 never canonicalizes to an ASCII unit, so
    upper-casing the ASCII letters decides the same comparisons. *)
Definition canon (ic : bool) (c : N) : N :=
  if ic then Js.upperUnit c else c.

Definition itemMatch (ic : bool) (c : N) (it : ClassItem) : bool :=
  match it with
  | CChar a => canon ic c =? canon ic a
  | CRange lo hi =>
      inRange lo hi c
      || (ic && (inRange lo hi (Js.upperUnit c)
                 || inRange lo hi (Js.lowerUnit c)))
  | CSpace => Js.isWhiteSpace c
  | CNotSpace => negb (Js.isWhiteSpace c)
  | CDigit => isDigit c
  end.

Definition Matcher := nat -> (nat -> option nat) -> option nat.

(** [RepeatMatcher] of ECMA-262: an iteration that matches the empty
    string once [min] is exhausted is rejected, hence [fuel] bounded by
    [min] plus the input length is never exhausted. *)
Fixpoint repeatMatcher (fuel : nat) (m : Matcher) (min : nat)
    (max : option nat) (greedy : bool) (x : nat) (c : nat -> option nat)
    : option nat :=
  match fuel with
  | O => None
  | S fuel' =>
      match max with
      | Some O => c x
      | _ =>
          let d := fun y =>
            if Nat.eqb min 0 && Nat.eqb y x then None
            else repeatMatcher fuel' m (Nat.pred min) (Nat.pred <$> max)
                   greedy y c in
          if negb (Nat.eqb min 0) then m x d
          else if negb greedy then
            match c x with
            | Some z => Some z
            | None => m x d
            end
          else
            match m x d with
            | Some z => Some z
            | None => c x
            end
      end
  end.

Section Matching.
Variable ic : bool.
Variable input : Js.str.

Definition wordAt (i : nat) : bool :=
  match input !! i with
  | Some c => isWordChar c
  | None => false
  end.

Definition wordBefore (i : nat) : bool :=
  match i with
  | O => false
  | S j => wordAt j
  end.

(** The matcher of a pattern: [compile r x c] tries to match [r] at
    index [x] and hands the end index to the continuation [c]. *)
Fixpoint compile (r : Re) (x : nat) (c : nat -> option nat) {struct r}
  : option nat :=
  match r with
  | Eps => c x
  | Chr a =>
      match input !! x with
      | Some ch => if canon ic ch =? canon ic a then c (S x) else None
      | None => None
      end
  | Cls invert items =>
      match input !! x with
      | Some ch =>
          if xorb invert (existsb (itemMatch ic ch) items)
          then c (S x) else None
      | None => None
      end
  | Dot =>
      match input !! x with
      | Some ch => if isLineTerminator ch then None else c (S x)
      | None => None
      end
  | Seq a b => compile a x (fun y => compile b y c)
  | Alt a b =>
      match compile a x c with
      | Some z => Some z
      | None => compile b x c
      end
  | Rep min max greedy a =>
      repeatMatcher (min + length input + 2) (compile a) min max greedy
        x c
  | Grp a => compile a x c
  | WordB => if xorb (wordBefore x) (wordAt x) then c x else None
  | Boi => if Nat.eqb x 0 then c x else None
  | Eoi => if Nat.eqb x (length input) then c x else None
  | NegAhead a =>
      match compile a x (fun y => Some y) with
      | Some _ => None
      | None => c x
      end
  end.

(** End index of the match that starts exactly at [i]. *)
Definition matchAt (r : Re) (i : nat) : option nat :=
  compile r i (fun y => Some y).

(** The scan of [RegExpBuiltinExec]: first index from [i] on at which
    the pattern matches, with the end of the match. *)
Fixpoint scan (fuel : nat) (r : Re) (i : nat) : option (nat * nat) :=
  match fuel with
  | O => None
  | S fuel' =>
      match matchAt r i with
      | Some e => Some (i, e)
      | None => scan fuel' r (S i)
      end
  end.

End Matching.

(** [RegExpBuiltinExec(R, S)]: the match as (index, end) and the object
    with its [lastIndex] updated. *)
Definition exec (R : t) (S : Js.str) : option (nat * nat) * t :=
  let start := if global R then lastIndex R else O in
  match scan (ignoreCase R) S (Datatypes.S (length S) - start)
             (source R) start with
  | Some (i, e) => (Some (i, e), if global R then setLastIndex R e else R)
  | None => (None, if global R then setLastIndex R O else R)
  end.

(** [R.test(S)] *)
Definition test (R : t) (S : Js.str) : bool * t :=
  let '(m, R') := exec R S in (bool_decide (is_Some m), R').

Definition slice (S : Js.str) (i e : nat) : Js.str := take (e - i) (drop i S).

(** The loop shared by [@@match] and [@@replace] for a global pattern:
    all successive matches, an empty match advancing [lastIndex] by one. *)
Fixpoint collect (fuel : nat) (R : t) (S : Js.str)
  : list (nat * nat) * t :=
  match fuel with
  | O => ([], R)
  | Datatypes.S fuel' =>
      match exec R S with
      | (None, R') => ([], R')
      | (Some (i, e), R') =>
          let R'' := if Nat.eqb e i
                     then setLastIndex R' (Datatypes.S (lastIndex R'))
                     else R' in
          let '(ms, Rf) := collect fuel' R'' S in
          ((i, e) :: ms, Rf)
      end
  end.

Definition results (R : t) (S : Js.str) : list (nat * nat) * t :=
  if global R then collect (length S + 2) (setLastIndex R O) S
  else match exec R S with
       | (Some m, R') => ([m], R')
       | (None, R') => ([], R')
       end.

(** [S.match(R)]: [None] is [null], otherwise the matched substrings. *)
Definition symMatch (S : Js.str) (R : t) : option (list Js.str) * t :=
  let '(ms, R') := results R S in
  match ms with
  | [] => (None, R')
  | _ => (Some (List.map (fun m => slice S (fst m) (snd m)) ms), R')
  end.

(** The assembly step of [@@replace]. *)
Fixpoint assemble (S : Js.str) (f : Js.str -> Js.str)
    (ms : list (nat * nat)) (next : nat) (acc : Js.str) : Js.str :=
  match ms with
  | [] => if Nat.leb (length S) next then acc else acc ++ drop next S
  | (i, e) :: ms' =>
      if Nat.leb next i
      then assemble S f ms' e (acc ++ slice S next i ++ f (slice S i e))
      else assemble S f ms' next acc
  end.

(** [S.replace(R, f)] with a replacement function of the match. *)
Definition replace (S : Js.str) (R : t) (f : Js.str -> Js.str)
  : Js.str * t :=
  let '(ms, R') := results R S in (assemble S f ms O [], R').

(** Pattern-building shorthands. *)
Fixpoint seqs (l : list Re) : Re :=
  match l with
  | [] => Eps
  | [r] => r
  | r :: l' => Seq r (seqs l')
  end.

Fixpoint alts (l : list Re) : Re :=
  match l with
  | [] => Eps
  | [r] => r
  | r :: l' => Alt r (alts l')
  end.

Definition txt (s : string) : Re := seqs (List.map Chr (Js.lit s)).
Definition words (l : list string) : Re := alts (List.map txt l).
Definition opt (r : Re) : Re := Rep 0 (Some 1%nat) true r.
Definition star (r : Re) : Re := Rep 0 None true r.
Definition lazyStar (r : Re) : Re := Rep 0 None false r.
Definition plus (r : Re) : Re := Rep 1 None true r.
Definition atLeast (n : nat) (r : Re) : Re := Rep n None true r.
Definition times (n : nat) (r : Re) : Re := Rep n (Some n) true r.
Definition between (n k : nat) (r : Re) : Re := Rep n (Some k) true r.
Definition chars (s : string) : list ClassItem := List.map CChar (Js.lit s).

Definition lower := CRange 97 122.   (* a-z *)
Definition upper := CRange 65 90.    (* A-Z *)
Definition digit := CRange 48 57.    (* 0-9 *)
Definition quotes := [CChar 39; CChar 34; CChar 96].  (* ' double-quote ` *)
Definition sp := Cls false [CSpace].                  (* \s *)
Definition d := Cls false [CDigit].                   (* \d *)

Definition gi (r : Re) : t :=
  {| source := r; ignoreCase := true; global := true; lastIndex := O |}.
Definition i_ (r : Re) : t :=
  {| source := r; ignoreCase := true; global := false; lastIndex := O |}.
Definition plain (r : Re) : t :=
  {| source := r; ignoreCase := false; global := false; lastIndex := O |}.

End RegExp.

(* ===================================================================== *)
(** * ContentSanitizer (content-sanitizer.ts) *)
(* ===================================================================== *)

Module ContentSanitizer.
Import RegExp.

(** [[a-zA-Z0-9_\-]] *)
Definition tokenChar := Cls false [lower; upper; digit; CChar 95; CChar 45].

(** [\s*[:=]\s*] and an optional quote character *)
Definition assign : Re :=
  seqs [star sp; Cls false (chars ":="); star sp; opt (Cls false quotes)].

(** [(?:RSA\s+)?PRIVATE\s+KEY-----] *)
Definition privateKeyTail : Re :=
  seqs [opt (Seq (txt "RSA") (plus sp)); txt "PRIVATE"; plus sp;
        txt "KEY-----"].

(** [ContentSanitizer.SENSITIVE_PATTERNS], in source order. *)
Definition SENSITIVE_PATTERNS : list RegExp.t :=
  [ (* API keys and tokens *)
    gi (seqs [Grp (alts [seqs [txt "api"; opt (Cls false (chars "_-"));
                               txt "key"];
                         txt "token"; txt "secret"; txt "password";
                         txt "pwd"]);
              assign; Grp (atLeast 16 tokenChar); opt (Cls false quotes)]);
    (* database URLs *)
    gi (seqs [Grp (words ["mongodb"; "mysql"; "postgres"; "redis"]);
              txt "://"; plus (Cls true [CSpace; CChar 10])]);
    (* AWS keys *)
    gi (seqs [txt "AKIA"; times 16 (Cls false [digit; upper])]);
    gi (seqs [Grp (words ["aws_access_key_id"; "aws_secret_access_key"]);
              assign;
              Grp (atLeast 20 (Cls false [lower; upper; digit; CChar 47;
                                          CChar 43]));
              opt (Cls false quotes)]);
    (* JWT tokens *)
    gi (seqs [txt "eyJ"; star tokenChar; txt ".eyJ"; star tokenChar;
              txt "."; star tokenChar]);
    (* private keys *)
    gi (seqs [txt "-----BEGIN"; plus sp; privateKeyTail;
              lazyStar (Cls false [CSpace; CNotSpace]);
              txt "-----END"; plus sp; privateKeyTail]);
    (* e-mail addresses *)
    gi (seqs [plus (Cls false ([lower; upper; digit] ++ chars "._%+-"));
              txt "@";
              plus (Cls false ([lower; upper; digit] ++ chars ".-"));
              txt "."; atLeast 2 (Cls false [lower; upper])]);
    (* credit card numbers *)
    gi (seqs [WordB;
              times 3 (Grp (Seq (times 4 d)
                                (opt (Cls false [CChar 45; CSpace]))));
              times 4 d; WordB]);
    (* social security numbers *)
    gi (seqs [WordB; times 3 d; txt "-"; times 2 d; txt "-"; times 4 d;
              WordB]);
    (* phone numbers *)
    gi (seqs [WordB; times 3 d; txt "-"; times 3 d; txt "-"; times 4 d;
              WordB]);
    (* private IP addresses *)
    gi (seqs [WordB;
              Grp (alts [txt "10.";
                         seqs [txt "172.";
                               Grp (alts [Seq (txt "1")
                                            (Cls false [CRange 54 57]);
                                          Seq (txt "2")
                                            (Cls false [digit]);
                                          Seq (txt "3")
                                            (Cls false (chars "01"))]);
                               txt "."];
                         txt "192.168."]);
              between 1 3 d; txt "."; between 1 3 d; WordB]);
    (* secret environment variables *)
    gi (seqs [Grp (words ["SECRET"; "PRIVATE"; "CONFIDENTIAL"; "INTERNAL"]);
              txt "_"; plus (Cls false [upper; CChar 95]); assign;
              Grp (plus (Cls true ([CSpace] ++ quotes ++ [CChar 10])));
              opt (Cls false quotes)]) ].

(** [\s*\(\s*] and a quoted run of non-quote characters *)
Definition stringArgument : Re :=
  seqs [star sp; txt "("; star sp; Cls false quotes;
        star (Cls true quotes); Cls false quotes].

(** [ContentSanitizer.MALICIOUS_PATTERNS], in source order. *)
Definition MALICIOUS_PATTERNS : list RegExp.t :=
  [ (* code injection *)
    gi (seqs [txt "eval"; star sp; txt "("]);
    gi (seqs [txt "Function"; star sp; txt "("]);
    gi (seqs [txt "setTimeout"; stringArgument]);
    gi (seqs [txt "setInterval"; stringArgument]);
    (* file system attacks *)
    gi (seqs [txt "fs."; Grp (words ["unlink"; "rmdir"; "rm"; "delete"])]);
    gi (seqs [txt "child_process.";
              Grp (words ["exec"; "spawn"; "fork"])]);
    gi (txt "process.exit");
    (* network attacks *)
    gi (seqs [txt "fetch"; star sp; txt "("; star sp; Cls false quotes;
              txt "http"; opt (txt "s"); txt "://";
              NegAhead (words ["localhost"; "127.0.0.1"])]);
    gi (txt "XMLHttpRequest");
    (* prototype pollution *)
    gi (txt "__proto__");
    gi (txt "constructor.prototype");
    (* SQL injection *)
    gi (seqs [Grp (words ["union"; "select"; "insert"; "update"; "delete";
                          "drop"; "create"; "alter"]);
              plus sp;
              opt (Grp (Seq (txt "all") (plus sp)));
              opt (Grp (Seq (txt "distinct") (plus sp)));
              Grp (words ["from"; "into"; "table"; "database"])]) ].

(** The two static pattern tables are objects shared by all calls: their
    [lastIndex] fields are the sanitizer's only mutable state. *)
Record Statics := {
  sensitive : list RegExp.t;
  malicious : list RegExp.t
}.

(** The statics as the class initializer creates them. *)
Definition initial : Statics :=
  {| sensitive := SENSITIVE_PATTERNS; malicious := MALICIOUS_PATTERNS |}.

Definition hit (R : RegExp.t) (s : Js.str) : bool := fst (RegExp.test R s).

(** [ContentSanitizer.getSensitiveDataType] *)
Definition getSensitiveDataType (m : Js.str) : Js.str :=
  if hit (i_ (seqs [txt "api"; opt (Cls false (chars "_-")); txt "key"])) m
  then J "api_key"
  else if hit (i_ (txt "token")) m then J "token"
  else if hit (i_ (words ["password"; "pwd"])) m then J "password"
  else if hit (i_ (txt "secret")) m then J "secret"
  else if hit (i_ (seqs [txt "AKIA"; times 16 (Cls false [digit; upper])])) m
  then J "aws_key"
  else if hit (i_ (seqs [txt "eyJ"; star tokenChar; txt "."])) m
  then J "jwt_token"
  else if hit (i_ (seqs [txt "-----BEGIN"; star Dot; txt "PRIVATE";
                         star Dot; txt "KEY-----"])) m
  then J "private_key"
  else if hit (plain (seqs [txt "@";
                 plus (Cls false ([lower; upper; digit] ++ chars ".-"));
                 txt "."; atLeast 2 (Cls false [lower; upper])])) m
  then J "email"
  else if hit (plain (seqs [times 3 d; txt "-"; times 2 d; txt "-";
                            times 4 d])) m
  then J "ssn"
  else if hit (plain (seqs [times 3 d; txt "-"; times 3 d; txt "-";
                            times 4 d])) m
  then J "phone"
  else if hit (plain (seqs [times 3 (Grp (Seq (times 4 d)
                               (opt (Cls false [CChar 45; CSpace]))));
                            times 4 d])) m
  then J "credit_card"
  else if hit (plain (words ["mongodb"; "mysql"; "postgres"; "redis"])) m
  then J "database_url"
  else J "sensitive_data".

Record Result := {
  sanitizedContent : Js.str;
  sensitiveDataFound : bool;
  maliciousPatterns : bool;
  redactionCount : nat
}.

(** The replacement callbacks of [sanitizeContent]. *)
Definition redact (m : Js.str) : Js.str :=
  J "[REDACTED_" ++ Js.toUpperCase (getSensitiveDataType m) ++ J "]".

Definition flag (m : Js.str) : Js.str :=
  J "[POTENTIALLY_MALICIOUS: " ++ take 20 m ++ J "...]".

(** One turn of the first loop: [content.match(pattern)], then the
    replacement inside what has been sanitized so far. *)
Definition sensitiveStep (content : Js.str) (acc : Result) (pattern : RegExp.t)
  : Result * RegExp.t :=
  match symMatch content pattern with
  | (Some matches, p1) =>
      let '(out, p2) := replace (sanitizedContent acc) p1 redact in
      ({| sanitizedContent := out;
          sensitiveDataFound := true;
          maliciousPatterns := maliciousPatterns acc;
          redactionCount := redactionCount acc + length matches |}, p2)
  | (None, p1) => (acc, p1)
  end.

(** One turn of the second loop: [pattern.test(content)], which starts at
    the pattern's current [lastIndex]. *)
Definition maliciousStep (content : Js.str) (acc : Result) (pattern : RegExp.t)
  : Result * RegExp.t :=
  match RegExp.test pattern content with
  | (true, p1) =>
      let '(out, p2) := replace (sanitizedContent acc) p1 flag in
      ({| sanitizedContent := out;
          sensitiveDataFound := sensitiveDataFound acc;
          maliciousPatterns := true;
          redactionCount := redactionCount acc |}, p2)
  | (false, p1) => (acc, p1)
  end.

(** [for (const pattern of table) ...] over a table of shared objects. *)
Fixpoint forEach (step : Result -> RegExp.t -> Result * RegExp.t)
    (table : list RegExp.t) (acc : Result) : Result * list RegExp.t :=
  match table with
  | [] => (acc, [])
  | p :: table' =>
      let '(acc1, p') := step acc p in
      let '(acc2, rest) := forEach step table' acc1 in
      (acc2, p' :: rest)
  end.

(** [ContentSanitizer.sanitizeContent(content, filePath)].  [filePath] only
    reaches the log messages. *)
Definition sanitizeContent (content _filePath : Js.str) (st : Statics)
  : Result * Statics :=
  let r0 := {| sanitizedContent := content; sensitiveDataFound := false;
               maliciousPatterns := false; redactionCount := 0 |} in
  let '(r1, sens) := forEach (sensitiveStep content) (sensitive st) r0 in
  let '(r2, mal) := forEach (maliciousStep content) (malicious st) r1 in
  (r2, {| sensitive := sens; malicious := mal |}).

(** [/text$/i] *)
Definition suffix (s : string) : RegExp.t := i_ (Seq (txt s) Eoi).

(** [/text\.(a|b|...)$/i] *)
Definition suffixes (s : string) (l : list string) : RegExp.t :=
  i_ (seqs [txt s; Grp (words l); Eoi]).

(** The table [securityExclusions] of [shouldExcludeFile], in source
    order. *)
Definition securityExclusions : list RegExp.t :=
  [ (* environment files *)
    i_ (Seq (txt ".env") (Grp (Alt (txt ".") Eoi)));
    suffixes ".env." ["local"; "development"; "production"; "test"];
    (* key files *)
    suffix ".key"; suffix ".pem"; suffix ".p12"; suffix ".pfx";
    (* config files with potential secrets *)
    suffixes "config." ["json"; "yaml"; "yml"];
    suffixes "secrets." ["json"; "yaml"; "yml"];
    suffixes "credentials." ["json"; "yaml"; "yml"];
    (* database files *)
    suffix ".db"; suffix ".sqlite"; suffix ".sqlite3";
    (* backup files *)
    suffix ".bak"; suffix ".backup";
    (* log files *)
    suffix ".log";
    (* certificate files *)
    suffix ".crt"; suffix ".cert"; suffix ".cer";
    (* SSH keys *)
    suffix "id_rsa"; suffix "id_dsa"; suffix "id_ecdsa"; suffix "id_ed25519";
    (* Docker secrets *)
    suffixes "docker-compose.override." ["yml"; "yaml"];
    (* Kubernetes secrets *)
    suffixes "secret." ["yml"; "yaml"] ].

(** [ContentSanitizer.shouldExcludeFile(filePath)] *)
Definition shouldExcludeFile (filePath : Js.str) : bool :=
  existsb (fun pattern => hit pattern filePath) securityExclusions.

(** A pattern literal with the [g] flag alone. *)
Definition g_ (r : Re) : RegExp.t :=
  {| source := r; ignoreCase := false; global := true; lastIndex := O |}.

(** [(content.match(pattern) || []).length] *)
Definition matchCount (content : Js.str) (pattern : RegExp.t) : nat :=
  match fst (symMatch content pattern) with
  | Some matches => length matches
  | None => O
  end.

(** [ContentSanitizer.isBinaryContent(content)] *)
Definition isBinaryContent (content : Js.str) : bool :=
  let nullBytes := matchCount content (g_ (Chr 0)) in
  let nonPrintable :=
    matchCount content
      (g_ (Cls false [CRange 0 8; CRange 14 31; CRange 127 255])) in
  Nat.ltb 0 nullBytes
  || Js.gt (Js.div nonPrintable (length content)) (QArith_base.Qmake 3 10).

(** [ContentSanitizer.hasExcessiveRepetition(content)] *)
Definition hasExcessiveRepetition (content : Js.str) : bool :=
  let lines := Js.split content 10 in
  let uniqueLines : gset Js.str := list_to_set lines in
  Js.lt (Js.div (size uniqueLines) (length lines)) (QArith_base.Qmake 1 10).

Record Safety := {
  isSafe : bool;
  risks : list Js.str;
  recommendations : list Js.str
}.

(** [risks.push(risk); recommendations.push(recommendation)] under a
    condition. *)
Definition pushIf (cond : bool) (risk recommendation : string)
    (acc : list Js.str * list Js.str) : list Js.str * list Js.str :=
  if cond then (fst acc ++ [J risk], snd acc ++ [J recommendation]) else acc.

(** [ContentSanitizer.validateContentSafety(content)] *)
Definition validateContentSafety (content : Js.str) : Safety :=
  let acc0 : list Js.str * list Js.str := ([], []) in
  let acc1 :=
    pushIf (1000000 <? Z.of_nat (length content))%Z
      "Content too large (>1MB)"
      "Consider excluding large files from memory" acc0 in
  let acc2 :=
    pushIf (isBinaryContent content)
      "Binary content detected" "Exclude binary files from memory" acc1 in
  let acc3 :=
    pushIf (hasExcessiveRepetition content)
      "Excessive repetition detected"
      "Content might be generated or malicious" acc2 in
  {| isSafe := Nat.eqb (length (fst acc3)) 0;
     risks := fst acc3;
     recommendations := snd acc3 |}.

End ContentSanitizer.

(* ===================================================================== *)
(** * Buffer: the 'utf8' and 'base64' encodings of Node *)
(* ===================================================================== *)

Module Buffer.

Definition isHigh (c : N) : bool := (55296 <=? c) && (c <=? 56319).
Definition isLow (c : N) : bool := (56320 <=? c) && (c <=? 57343).

(** U+FFFD, as UTF-8. *)
Definition replacement : list N := [239; 191; 189].

(** [Buffer.from(s, 'utf8')]: a surrogate pair becomes one four-byte
    sequence, an unpaired surrogate becomes U+FFFD. *)
Fixpoint utf8Write (s : Js.str) : list N :=
  match s with
  | [] => []
  | c :: s' =>
      if c <? 128 then c :: utf8Write s'
      else if c <? 2048 then
        (192 + c / 64) :: (128 + c mod 64) :: utf8Write s'
      else if isHigh c then
        match s' with
        | c2 :: s'' =>
            if isLow c2 then
              let cp := 65536 + (c - 55296) * 1024 + (c2 - 56320) in
              (240 + cp / 262144) :: (128 + (cp / 4096) mod 64)
                :: (128 + (cp / 64) mod 64) :: (128 + cp mod 64)
                :: utf8Write s''
            else replacement ++ utf8Write s'
        | [] => replacement
        end
      else if isLow c then replacement ++ utf8Write s'
      else
        (224 + c / 4096) :: (128 + (c / 64) mod 64) :: (128 + c mod 64)
          :: utf8Write s'
  end.

(** State of the UTF-8 decoder between two bytes: continuation bytes still
    needed, the code point so far, and the range the next byte must lie in. *)
Record Dec := { needed : nat; point : N; lower : N; upper : N }.

Definition idle : Dec := {| needed := 0; point := 0; lower := 128; upper := 191 |}.

(** A code point as UTF-16 code units. *)
Definition units (cp : N) : Js.str :=
  if cp <? 65536 then [cp]
  else [55296 + (cp - 65536) / 1024; 56320 + (cp - 65536) mod 1024].

(** A byte met when no sequence is open. *)
Definition lead (b : N) : Js.str * Dec :=
  if b <? 128 then ([b], idle)
  else if (194 <=? b) && (b <=? 223) then
    ([], {| needed := 1; point := b - 192; lower := 128; upper := 191 |})
  else if (224 <=? b) && (b <=? 239) then
    ([], {| needed := 2; point := b - 224;
            lower := if b =? 224 then 160 else 128;
            upper := if b =? 237 then 159 else 191 |})
  else if (240 <=? b) && (b <=? 244) then
    ([], {| needed := 3; point := b - 240;
            lower := if b =? 240 then 144 else 128;
            upper := if b =? 244 then 143 else 191 |})
  else ([65533], idle).

(** One byte of input: an ill-placed byte closes the open sequence with
    U+FFFD and is then read again as a leading byte. *)
Definition feed (st : Dec) (b : N) : Js.str * Dec :=
  match needed st with
  | O => lead b
  | S n =>
      if (lower st <=? b) && (b <=? upper st) then
        let cp := point st * 64 + (b - 128) in
        match n with
        | O => (units cp, idle)
        | _ => ([], {| needed := n; point := cp; lower := 128; upper := 191 |})
        end
      else
        let '(out, st') := lead b in (65533 :: out, st')
  end.

Fixpoint utf8Slice (st : Dec) (bs : list N) : Js.str :=
  match bs with
  | [] => match needed st with O => [] | _ => [65533] end
  | b :: bs' => let '(out, st') := feed st b in out ++ utf8Slice st' bs'
  end.

(** [buf.toString('utf8')] *)
Definition utf8ToString (bs : list N) : Js.str := utf8Slice idle bs.

(** The base64 alphabet. *)
Definition b64char (v : N) : N :=
  if v <? 26 then 65 + v
  else if v <? 52 then 97 + (v - 26)
  else if v <? 62 then 48 + (v - 52)
  else if v =? 62 then 43 else 47.

(** [buf.toString('base64')] *)
Fixpoint base64 (bs : list N) : Js.str :=
  match bs with
  | a :: b :: c :: bs' =>
      b64char (a / 4) :: b64char ((a mod 4) * 16 + b / 16)
        :: b64char ((b mod 16) * 4 + c / 64) :: b64char (c mod 64)
        :: base64 bs'
  | [a; b] =>
      [b64char (a / 4); b64char ((a mod 4) * 16 + b / 16);
       b64char ((b mod 16) * 4); 61]
  | [a] => [b64char (a / 4); b64char ((a mod 4) * 16); 61; 61]
  | [] => []
  end.

(** Value of a base64 character, of either alphabet (standard or URL). *)
Definition unbase64 (c : N) : option N :=
  if (65 <=? c) && (c <=? 90) then Some (c - 65)
  else if (97 <=? c) && (c <=? 122) then Some (c - 97 + 26)
  else if (48 <=? c) && (c <=? 57) then Some (c - 48 + 52)
  else if (c =? 43) || (c =? 45) then Some 62
  else if (c =? 47) || (c =? 95) then Some 63
  else None.

(** The decoder skips illegal characters and stops at the first [=]. *)
Fixpoint sextets (s : Js.str) : list N :=
  match s with
  | [] => []
  | c :: s' =>
      if c =? 61 then []
      else match unbase64 c with
           | Some v => v :: sextets s'
           | None => sextets s'
           end
  end.

Fixpoint regroup (l : list N) : list N :=
  match l with
  | a :: b :: c :: d :: l' =>
      (a * 4 + b / 16) :: ((b mod 16) * 16 + c / 4)
        :: ((c mod 4) * 64 + d) :: regroup l'
  | [a; b; c] => [a * 4 + b / 16; (b mod 16) * 16 + c / 4]
  | [a; b] => [a * 4 + b / 16]
  | _ => []
  end.

(** [Buffer.from(s, 'base64')] *)
Definition fromBase64 (s : Js.str) : list N := regroup (sextets s).

End Buffer.

(* ===================================================================== *)
(** * JSON.stringify and JSON.parse *)
(* ===================================================================== *)

Module JSON.

Inductive value :=
| Null
| Bool (b : bool)
| Num (raw : Js.str)          (* the numeral as written *)
| Str (s : Js.str)
| Arr (l : list value)
| Obj (members : list (Js.str * value)).

Definition hex (v : N) : N := if v <? 10 then 48 + v else 87 + v.

(** [\uXXXX] *)
Definition escapeUnit (c : N) : Js.str :=
  [92; 117; hex (c / 4096); hex ((c / 256) mod 16); hex ((c / 16) mod 16);
   hex (c mod 16)].

(** The body of [QuoteJSONString]. *)
Fixpoint quoteBody (s : Js.str) : Js.str :=
  match s with
  | [] => []
  | c :: s' =>
      if c =? 8 then 92 :: 98 :: quoteBody s'
      else if c =? 9 then 92 :: 116 :: quoteBody s'
      else if c =? 10 then 92 :: 110 :: quoteBody s'
      else if c =? 12 then 92 :: 102 :: quoteBody s'
      else if c =? 13 then 92 :: 114 :: quoteBody s'
      else if c <? 32 then escapeUnit c ++ quoteBody s'
      else if c =? 34 then 92 :: 34 :: quoteBody s'
      else if c =? 92 then 92 :: 92 :: quoteBody s'
      else if Buffer.isHigh c then
        match s' with
        | c2 :: s'' =>
            if Buffer.isLow c2 then c :: c2 :: quoteBody s''
            else escapeUnit c ++ quoteBody s'
        | [] => escapeUnit c
        end
      else if Buffer.isLow c then escapeUnit c ++ quoteBody s'
      else c :: quoteBody s'
  end.

Definition quote (s : Js.str) : Js.str := [34] ++ quoteBody s ++ [34].

Fixpoint stringify (v : value) : Js.str :=
  match v with
  | Null => J "null"
  | Bool true => J "true"
  | Bool false => J "false"
  | Num raw => raw
  | Str s => quote s
  | Arr l =>
      let fix items (l : list value) : Js.str :=
        match l with
        | [] => []
        | [x] => stringify x
        | x :: l' => stringify x ++ [44] ++ items l'
        end in
      [91] ++ items l ++ [93]
  | Obj ms =>
      let fix members (ms : list (Js.str * value)) : Js.str :=
        match ms with
        | [] => []
        | [(k, x)] => quote k ++ [58] ++ stringify x
        | (k, x) :: ms' => quote k ++ [58] ++ stringify x ++ [44] ++ members ms'
        end in
      [123] ++ members ms ++ [125]
  end.

Definition isWs (c : N) : bool :=
  (c =? 32) || (c =? 9) || (c =? 10) || (c =? 13).

Fixpoint skipWs (s : Js.str) : Js.str :=
  match s with
  | c :: s' => if isWs c then skipWs s' else s
  | [] => []
  end.

Definition unhex (c : N) : option N :=
  if (48 <=? c) && (c <=? 57) then Some (c - 48)
  else if (97 <=? c) && (c <=? 102) then Some (c - 87)
  else if (65 <=? c) && (c <=? 70) then Some (c - 55)
  else None.

(** The unit a one-letter escape stands for. *)
Definition simpleEscape (e : N) : option N :=
  if (e =? 34) || (e =? 92) || (e =? 47) then Some e
  else if e =? 98 then Some 8
  else if e =? 102 then Some 12
  else if e =? 110 then Some 10
  else if e =? 114 then Some 13
  else if e =? 116 then Some 9
  else None.

(** A string literal, read from just after its opening quote. *)
Fixpoint parseStringBody (s : Js.str) : option (Js.str * Js.str) :=
  match s with
  | [] => None
  | c :: rest =>
      if c =? 34 then Some ([], rest)
      else if c =? 92 then
        match rest with
        | [] => None
        | e :: rest1 =>
            if e =? 117 then
              match rest1 with
              | h1 :: h2 :: h3 :: h4 :: rest2 =>
                  match unhex h1, unhex h2, unhex h3, unhex h4,
                        parseStringBody rest2 with
                  | Some a, Some b, Some c, Some d, Some (t, rest') =>
                      Some (a * 4096 + b * 256 + c * 16 + d :: t, rest')
                  | _, _, _, _, _ => None
                  end
              | _ => None
              end
            else
              match simpleEscape e, parseStringBody rest1 with
              | Some u, Some (t, rest') => Some (u :: t, rest')
              | _, _ => None
              end
        end
      else if c <? 32 then None
      else match parseStringBody rest with
           | Some (t, rest') => Some (c :: t, rest')
           | None => None
           end
  end.

Fixpoint digits (s : Js.str) : Js.str * Js.str :=
  match s with
  | c :: s' =>
      if (48 <=? c) && (c <=? 57)
      then let '(ds, r) := digits s' in (c :: ds, r)
      else ([], s)
  | [] => ([], [])
  end.

(** A JSON numeral: sign, integer part, fraction, exponent. *)
Definition parseNumber (s : Js.str) : option (Js.str * Js.str) :=
  let '(sign, s1) := match s with
                     | 45 :: r => ([45], r)
                     | _ => ([], s)
                     end in
  let '(int, s2) := digits s1 in
  match int with
  | [] => None
  | 48 :: _ :: _ => None
  | _ =>
      let frac :=
        match s2 with
        | 46 :: r =>
            let '(ds, r') := digits r in
            match ds with
            | [] => None
            | _ => Some (46 :: ds, r')
            end
        | _ => Some ([], s2)
        end in
      match frac with
      | None => None
      | Some (fr, s3) =>
          match s3 with
          | e :: r =>
              if (e =? 101) || (e =? 69) then
                let '(sg, r1) := match r with
                                 | c :: r' =>
                                     if (c =? 43) || (c =? 45)
                                     then ([c], r') else ([], r)
                                 | [] => ([], r)
                                 end in
                let '(ds, r2) := digits r1 in
                match ds with
                | [] => None
                | _ => Some (sign ++ int ++ fr ++ [e] ++ sg ++ ds, r2)
                end
              else Some (sign ++ int ++ fr, s3)
          | [] => Some (sign ++ int ++ fr, s3)
          end
      end
  end.

Definition keyword (k : Js.str) (v : value) (s : Js.str)
  : option (value * Js.str) :=
  if Js.isPrefix k s then Some (v, drop (length k) s) else None.

(** Recursive descent; [fuel] bounds the number of nested calls. *)
Fixpoint parseValue (fuel : nat) (s : Js.str) : option (value * Js.str) :=
  match fuel with
  | O => None
  | S fuel' =>
      match skipWs s with
      | 34 :: r =>
          match parseStringBody r with
          | Some (t, r') => Some (Str t, r')
          | None => None
          end
      | 123 :: r =>
          match skipWs r with
          | 125 :: r' => Some (Obj [], r')
          | _ =>
              match parseMembers fuel' r with
              | Some (ms, r') => Some (Obj ms, r')
              | None => None
              end
          end
      | 91 :: r =>
          match skipWs r with
          | 93 :: r' => Some (Arr [], r')
          | _ =>
              match parseElements fuel' r with
              | Some (l, r') => Some (Arr l, r')
              | None => None
              end
          end
      | 116 :: _ => keyword (J "true") (Bool true) (skipWs s)
      | 102 :: _ => keyword (J "false") (Bool false) (skipWs s)
      | 110 :: _ => keyword (J "null") Null (skipWs s)
      | _ =>
          match parseNumber (skipWs s) with
          | Some (raw, r) => Some (Num raw, r)
          | None => None
          end
      end
  end
with parseMembers (fuel : nat) (s : Js.str)
  : option (list (Js.str * value) * Js.str) :=
  match fuel with
  | O => None
  | S fuel' =>
      match skipWs s with
      | 34 :: r =>
          match parseStringBody r with
          | Some (k, r1) =>
              match skipWs r1 with
              | 58 :: r2 =>
                  match parseValue fuel' r2 with
                  | Some (v, r3) =>
                      match skipWs r3 with
                      | 44 :: r4 =>
                          match parseMembers fuel' r4 with
                          | Some (ms, r5) => Some ((k, v) :: ms, r5)
                          | None => None
                          end
                      | 125 :: r4 => Some ([(k, v)], r4)
                      | _ => None
                      end
                  | None => None
                  end
              | _ => None
              end
          | None => None
          end
      | _ => None
      end
  end
with parseElements (fuel : nat) (s : Js.str)
  : option (list value * Js.str) :=
  match fuel with
  | O => None
  | S fuel' =>
      match parseValue fuel' s with
      | Some (v, r1) =>
          match skipWs r1 with
          | 44 :: r2 =>
              match parseElements fuel' r2 with
              | Some (l, r3) => Some (v :: l, r3)
              | None => None
              end
          | 93 :: r2 => Some ([v], r2)
          | _ => None
          end
      | None => None
      end
  end.

(** [JSON.parse(text)]; [None] is the SyntaxError. *)
Definition parse (text : Js.str) : option value :=
  match parseValue (2 * length text + 2) text with
  | Some (v, rest) =>
      match skipWs rest with
      | [] => Some v
      | _ => None
      end
  | None => None
  end.

(** Property read [o.key] on a parsed object: the last member of that
    name wins; [None] is [undefined]. *)
Fixpoint get (ms : list (Js.str * value)) (key : Js.str) : option value :=
  match ms with
  | [] => None
  | (k, v) :: ms' =>
      match get ms' key with
      | Some v' => Some v'
      | None => if bool_decide (k = key) then Some v else None
      end
  end.

End JSON.

(* ===================================================================== *)
(** * DatabaseEncryption (database-encryption.ts) *)
(* ===================================================================== *)

Module DatabaseEncryption.

(** What a call ends with when it does not return. *)
Inductive Failure :=
| Thrown (message : Js.str)   (* [throw new Error(message)] *)
| OutsideModel.               (* behaviour of the runtime not modelled *)

Record t := {
  encryptionKey : option (list N);   (* Buffer | null *)
  keyFile : Js.str
}.

(** [encryptData(data)]; [now] is the text of
    [new Date().toISOString()] at the time of the call. *)
Definition encryptData (self : t) (now : Js.str) (data : Js.str)
  : Failure + Js.str :=
  match encryptionKey self with
  | None => inl (Thrown (J "Encryption not initialized"))
  | Some _ =>
      let encoded := Buffer.base64 (Buffer.utf8Write data) in
      let result :=
        JSON.Obj [ (J "encrypted", JSON.Bool true);
                   (J "data", JSON.Str encoded);
                   (J "timestamp", JSON.Str now) ] in
      inr (JSON.stringify result)
  end.

(** [decryptData(encryptedData)].  [Buffer.from(data, 'base64')] throws a
    TypeError unless [data] is a string or an array-like object; the
    array-like case is left outside the model. *)
Definition decryptData (self : t) (encryptedData : Js.str)
  : Failure + Js.str :=
  match encryptionKey self with
  | None => inl (Thrown (J "Encryption not initialized"))
  | Some _ =>
      match JSON.parse encryptedData with
      | Some (JSON.Obj ms) =>
          match JSON.get ms (J "data") with
          | Some (JSON.Str data) =>
              inr (Buffer.utf8ToString (Buffer.fromBase64 data))
          | Some (JSON.Arr _) | Some (JSON.Obj _) => inl OutsideModel
          | _ => inl (Thrown (J "Failed to decrypt data"))
          end
      | _ => inl (Thrown (J "Failed to decrypt data"))
      end
  end.

(** [isEncrypted(data)]: the value of
    [parsed.encrypted === true && parsed.data], that is [false] or
    whatever [parsed.data] holds ([None] for [undefined]); [false] as well
    when [JSON.parse] throws or [parsed] is [null]. *)
Definition isEncrypted (data : Js.str) : option JSON.value :=
  match JSON.parse data with
  | Some (JSON.Obj ms) =>
      match JSON.get ms (J "encrypted") with
      | Some (JSON.Bool true) => JSON.get ms (J "data")
      | _ => Some (JSON.Bool false)
      end
  | _ => Some (JSON.Bool false)
  end.

(** [cleanup()], as far as the instance is concerned. *)
Definition cleanup (self : t) : t :=
  {| encryptionKey := None; keyFile := keyFile self |}.

End DatabaseEncryption.

(* ===================================================================== *)
(** * path (POSIX): join, normalize, resolve, relative, dirname, extname *)
(* ===================================================================== *)

Module Path.

Definition slash : N := 47.
Definition dot : N := 46.

(** [path.split('/')] *)
Fixpoint split (p : Js.str) : list Js.str :=
  match p with
  | [] => [[]]
  | c :: p' =>
      if c =? slash then [] :: split p'
      else match split p' with
           | seg :: segs => (c :: seg) :: segs
           | [] => [[c]]
           end
  end.

(** [segs.join('/')] *)
Fixpoint unsplit (segs : list Js.str) : Js.str :=
  match segs with
  | [] => []
  | [seg] => seg
  | seg :: segs' => seg ++ slash :: unsplit segs'
  end.

Definition isDots (seg : Js.str) : bool := bool_decide (seg = [dot; dot]).

(** One segment of [normalizeString], on the stack of segments kept so
    far (last segment first). *)
Definition pushSeg (allowAboveRoot : bool) (stack : list Js.str)
    (seg : Js.str) : list Js.str :=
  if bool_decide (seg = []) || bool_decide (seg = [dot]) then stack
  else if isDots seg then
    match stack with
    | top :: below =>
        if isDots top
        then (if allowAboveRoot then seg :: stack else stack)
        else below
    | [] => if allowAboveRoot then [seg] else []
    end
  else seg :: stack.

Definition normalizeSegs (allowAboveRoot : bool) (p : Js.str)
  : list Js.str :=
  rev (fold_left (pushSeg allowAboveRoot) (split p) []).

(** [normalizeString(path, allowAboveRoot)] *)
Definition normalizeString (p : Js.str) (allowAboveRoot : bool) : Js.str :=
  unsplit (normalizeSegs allowAboveRoot p).

Definition isAbsolute (p : Js.str) : bool :=
  match p with
  | c :: _ => c =? slash
  | [] => false
  end.

Definition endsWithSlash (p : Js.str) : bool :=
  match last p with
  | Some c => c =? slash
  | None => false
  end.

(** [path.normalize(p)] *)
Definition normalize (p : Js.str) : Js.str :=
  match p with
  | [] => [dot]
  | _ =>
      let abs := isAbsolute p in
      let trailing := endsWithSlash p in
      let q := normalizeString p (negb abs) in
      match q with
      | [] => if abs then [slash]
              else if trailing then [dot; slash] else [dot]
      | _ =>
          let q' := if trailing then q ++ [slash] else q in
          if abs then slash :: q' else q'
      end
  end.

(** [path.join(...args)] *)
Definition join (args : list Js.str) : Js.str :=
  match filter (fun a => a <> []) args with
  | [] => [dot]
  | parts => normalize (unsplit parts)
  end.

(** The right-to-left loop of [path.resolve]: the text to normalize and
    whether an absolute argument was met; [cwd] is [process.cwd()]. *)
Fixpoint resolveLoop (cwd : Js.str) (argsRev : list Js.str) (acc : Js.str)
  : Js.str * bool :=
  match argsRev with
  | [] => (cwd ++ slash :: acc, isAbsolute cwd)
  | a :: rest =>
      match a with
      | [] => resolveLoop cwd rest acc
      | _ =>
          if isAbsolute a then (a ++ slash :: acc, true)
          else resolveLoop cwd rest (a ++ slash :: acc)
      end
  end.

(** Segments of the resolved path. *)
Definition resolveSegs (cwd : Js.str) (args : list Js.str) : list Js.str :=
  let '(text, abs) := resolveLoop cwd (rev args) [] in
  normalizeSegs (negb abs) text.

(** [path.resolve(...args)] *)
Definition resolve (cwd : Js.str) (args : list Js.str) : Js.str :=
  let '(text, abs) := resolveLoop cwd (rev args) [] in
  let q := normalizeString text (negb abs) in
  if abs then slash :: q
  else match q with [] => [dot] | _ => q end.

Fixpoint stripCommon (a b : list Js.str) : list Js.str * list Js.str :=
  match a, b with
  | x :: a', y :: b' =>
      if bool_decide (x = y) then stripCommon a' b' else (a, b)
  | _, _ => (a, b)
  end.

(** [path.relative(from, to)]: both ends are resolved, the common leading
    segments dropped, one [..] written for each segment left of [from]
    and then what is left of [to]. *)
Definition relative (cwd from to : Js.str) : Js.str :=
  if bool_decide (from = to) then []
  else
    let '(f, t) := stripCommon (resolveSegs cwd [from])
                               (resolveSegs cwd [to]) in
    unsplit (List.map (fun _ => [dot; dot]) f ++ t).

(** The backwards scan of [dirname] over the units after the first one:
    units before the slash that ends the directory part, last first. *)
Fixpoint dirScan (r : Js.str) (matchedSlash : bool) : option Js.str :=
  match r with
  | [] => None
  | c :: r' =>
      if c =? slash then
        if matchedSlash then dirScan r' true else Some r'
      else dirScan r' false
  end.

(** [path.dirname(p)] *)
Definition dirname (p : Js.str) : Js.str :=
  match p with
  | [] => [dot]
  | c0 :: tl =>
      let hasRoot := c0 =? slash in
      match dirScan (rev tl) true with
      | None => if hasRoot then [slash] else [dot]
      | Some [] => if hasRoot then [slash; slash] else [c0]
      | Some r => c0 :: rev r
      end
  end.

Fixpoint dropSlashes (r : Js.str) : Js.str :=
  match r with
  | c :: r' => if c =? slash then dropSlashes r' else r
  | [] => []
  end.

Fixpoint untilSlash (r : Js.str) : Js.str :=
  match r with
  | c :: r' => if c =? slash then [] else c :: untilSlash r'
  | [] => []
  end.

(** The last component of a path, trailing slashes ignored. *)
Definition lastComponent (p : Js.str) : Js.str :=
  rev (untilSlash (dropSlashes (rev p))).

(** [path.extname(p)]: from the last dot of the last component, unless
    there is none, it leads the component, or the component is [..]. *)
Definition extname (p : Js.str) : Js.str :=
  let b := lastComponent p in
  match Js.lastIndexOf b dot with
  | None => []
  | Some O => []
  | Some k => if isDots b then [] else drop k b
  end.

End Path.

(* ===================================================================== *)
(** * fs: the file system the code runs against *)
(* ===================================================================== *)

(** What the Node process supplies from outside the sources: the working
    directory and the verdicts of the language tools the scorer calls. *)
Record Runtime := {
  cwd : Js.str;                            (* process.cwd() *)
  tsDiagnostics : Js.str -> option nat;    (* ts.transpileModule: number of
                                              diagnostics, None if it threw *)
  vmScript : Js.str -> bool;               (* new vm.Script(code) succeeds *)
  pythonAst : Js.str -> bool               (* the python ast.parse run succeeds *)
}.

(** An entry of [FileSystemProxy.interceptedOperations] (without its
    timestamp). *)
Record Operation := {
  operation : Js.str;
  op_path : Js.str;
  success : bool
}.

(** The world a call can change: regular files (as bytes) and directories,
    both keyed by resolved absolute path, and the proxy's operation log. *)
Record World := {
  files : gmap Js.str (list N);
  dirs : gset Js.str;
  interceptedOperations : list Operation
}.

Module Fs.

Inductive Error :=
| ENOENT | ENOTDIR | EISDIR
| Thrown (message : Js.str).   (* [throw new Error(message)] *)

(** A computation that may throw and may change the world. *)
Definition M (A : Type) : Type := World -> (Error + A) * World.

Definition ret {A} (a : A) : M A := fun w => (inr a, w).
Definition throw {A} (e : Error) : M A := fun w => (inl e, w).
Definition bind {A B} (c : M A) (k : A -> M B) : M B :=
  fun w => match c w with
           | (inr a, w') => k a w'
           | (inl e, w') => (inl e, w')
           end.
(** [try { c } catch (error) { h error }] *)
Definition try_ {A} (c : M A) (h : Error -> M A) : M A :=
  fun w => match c w with
           | (inr a, w') => (inr a, w')
           | (inl e, w') => h e w'
           end.

Definition key (rt : Runtime) (p : Js.str) : Js.str :=
  Path.resolve (cwd rt) [p].

Definition keyOf (segs : list Js.str) : Js.str :=
  Path.slash :: Path.unsplit segs.

Definition parentKey (rt : Runtime) (p : Js.str) : Js.str :=
  keyOf (removelast (Path.resolveSegs (cwd rt) [p])).

(** The directory itself and every directory above it, below the root. *)
Definition chain (rt : Runtime) (p : Js.str) : list Js.str :=
  let segs := Path.resolveSegs (cwd rt) [p] in
  List.map (fun n => keyOf (take (S n) segs)) (seq 0 (length segs)).

Definition isFile (w : World) (k : Js.str) : bool :=
  bool_decide (is_Some (files w !! k)).

Definition isDir (w : World) (k : Js.str) : bool :=
  bool_decide (k = [Path.slash]) || bool_decide (k ∈ dirs w).

(** [existsSync(p)] *)
Definition existsSync (rt : Runtime) (p : Js.str) : M bool :=
  fun w => (inr (isFile w (key rt p) || isDir w (key rt p)), w).

(** [mkdirSync(p, { recursive: true })] *)
Definition mkdirSync (rt : Runtime) (p : Js.str) : M unit :=
  fun w =>
    if existsb (isFile w) (chain rt p) then (inl ENOTDIR, w)
    else (inr tt,
          {| files := files w;
             dirs := dirs w ∪ list_to_set (chain rt p);
             interceptedOperations := interceptedOperations w |}).

(** [writeFileSync(p, data, 'utf8')] *)
Definition writeFileSync (rt : Runtime) (p : Js.str) (data : Js.str)
  : M unit :=
  fun w =>
    if isDir w (key rt p) then (inl EISDIR, w)
    else if negb (isDir w (parentKey rt p)) then
      (inl (if isFile w (parentKey rt p) then ENOTDIR else ENOENT), w)
    else (inr tt,
          {| files := <[key rt p := Buffer.utf8Write data]> (files w);
             dirs := dirs w;
             interceptedOperations := interceptedOperations w |}).

(** [readFileSync(p, 'utf8')] *)
Definition readFileSync (rt : Runtime) (p : Js.str) : M Js.str :=
  fun w =>
    match files w !! key rt p with
    | Some bytes => (inr (Buffer.utf8ToString bytes), w)
    | None => (inl (if isDir w (key rt p) then EISDIR else ENOENT), w)
    end.

Record Stats := { size : Z; stat_isFile : bool }.

(** [statSync(p)] *)
Definition statSync (rt : Runtime) (p : Js.str) : M Stats :=
  fun w =>
    match files w !! key rt p with
    | Some bytes =>
        (inr {| size := Z.of_nat (length bytes); stat_isFile := true |}, w)
    | None =>
        if isDir w (key rt p)
        then (inr {| size := 4096; stat_isFile := false |}, w)
        else (inl ENOENT, w)
    end.

(** [stats.isDirectory()]: the world holds regular files and directories
    only. *)
Definition stat_isDirectory (s : Stats) : bool := negb (stat_isFile s).

(** [k] itself or a path below it. *)
Definition under (k x : Js.str) : bool :=
  bool_decide (x = k) || Js.startsWith x (k ++ [Path.slash]).

(** [rmSync(p, { recursive: true, force: true })]: the entry and all
    that lies below it; nothing to remove is no error.  The root
    directory cannot be removed. *)
Definition rmSync (rt : Runtime) (p : Js.str) : M unit :=
  fun w =>
    let k := key rt p in
    if bool_decide (k = [Path.slash]) then (inl (Thrown (J "EBUSY")), w)
    else (inr tt,
          {| files := filter (fun kv => under k (fst kv) = false) (files w);
             dirs := filter (fun x => under k x = false) (dirs w);
             interceptedOperations := interceptedOperations w |}).

(** [readFileSync(p)] without an encoding: the bytes. *)
Definition readFileBuffer (rt : Runtime) (p : Js.str) : M (list N) :=
  fun w =>
    match files w !! key rt p with
    | Some bytes => (inr bytes, w)
    | None => (inl (if isDir w (key rt p) then EISDIR else ENOENT), w)
    end.

(** [writeFileSync(p, buffer)] *)
Definition writeFileBuffer (rt : Runtime) (p : Js.str) (bytes : list N)
  : M unit :=
  fun w =>
    if isDir w (key rt p) then (inl EISDIR, w)
    else if negb (isDir w (parentKey rt p)) then
      (inl (if isFile w (parentKey rt p) then ENOTDIR else ENOENT), w)
    else (inr tt,
          {| files := <[key rt p := bytes]> (files w);
             dirs := dirs w;
             interceptedOperations := interceptedOperations w |}).

(** [cpSync(src, dest)] with the default options, for a source that is a
    regular file: the destination is overwritten, a missing parent
    directory is created, and copying a file onto itself or onto a
    directory is refused. *)
Definition cpSync (rt : Runtime) (src dest : Js.str) : M unit :=
  fun w =>
    match files w !! key rt src with
    | None => (inl (if isDir w (key rt src) then EISDIR else ENOENT), w)
    | Some bytes =>
        if bool_decide (key rt src = key rt dest)
        then (inl (Thrown (J "ERR_FS_CP_EINVAL")), w)
        else if isDir w (key rt dest)
        then (inl (Thrown (J "ERR_FS_CP_NON_DIR_TO_DIR")), w)
        else
          match (if isFile w (parentKey rt dest) || isDir w (parentKey rt dest)
                 then (inr tt, w)
                 else mkdirSync rt (Path.dirname dest) w) with
          | (inl e, w1) => (inl e, w1)
          | (inr _, w1) => writeFileBuffer rt dest bytes w1
          end
    end.

End Fs.

#[global] Instance M_bind : MBind Fs.M := fun A B k c => Fs.bind c k.
#[global] Instance M_ret : MRet Fs.M := @Fs.ret.

(* ===================================================================== *)
(** * FileAccessControl (file-access-control.ts) *)
(* ===================================================================== *)

Module FileAccessControl.

Record t := {
  projectRoot : Js.str;
  allowedExtensions : list Js.str;
  blockedPaths : list Js.str;
  maxFileSize : Z
}.

Definition ALLOWED : list string :=
  [".js"; ".ts"; ".jsx"; ".tsx";
   ".py"; ".go"; ".rs"; ".java"; ".c"; ".cpp"; ".h"; ".hpp";
   ".md"; ".txt"; ".json"; ".yaml"; ".yml";
   ".html"; ".css"; ".scss"; ".sass"; ".less";
   ".php"; ".rb"; ".swift"; ".kt"; ".dart";
   ".sql"; ".graphql"; ".proto";
   ".sh"; ".bash"; ".zsh"; ".fish";
   ".dockerfile"; ".gitignore"; ".gitattributes"].

Definition BLOCKED : list string :=
  ["node_modules"; ".git"; ".svn"; ".hg"; "dist"; "build"; "out";
   "target"; "bin"; "obj"; ".next"; ".nuxt"; "coverage"; ".nyc_output";
   "tmp"; "temp"; ".cache"; ".vscode/settings.json"; ".idea"; "logs";
   "*.log"; ".env*"; "secrets"; "credentials"; "keys"; "*.key"; "*.pem";
   "*.p12"; "*.pfx"; "*.crt"; "*.cert"; "*.cer"; "id_rsa*"; "id_dsa*";
   "id_ecdsa*"; "id_ed25519*"].

(** [new FileAccessControl(projectRoot)] *)
Definition create (rt : Runtime) (root : Js.str) : t :=
  {| projectRoot := Path.resolve (cwd rt) [root];
     maxFileSize := 10 * 1024 * 1024;
     allowedExtensions := List.map Js.lit ALLOWED;
     blockedPaths := List.map Js.lit BLOCKED |}.

(** [new RegExp('^' + blockedPath.replace(/\*/g, '.*') + '$')]: in the
    entries of the table a dot is the only other character the pattern
    syntax gives a meaning to. *)
Definition wildcard (blockedPath : Js.str) : RegExp.t :=
  RegExp.plain
    (RegExp.seqs
       ([RegExp.Boi]
        ++ List.map (fun c => if c =? 42 then RegExp.star RegExp.Dot
                              else if c =? 46 then RegExp.Dot
                              else RegExp.Chr c) blockedPath
        ++ [RegExp.Eoi])).

(** [isPathBlocked(relativePath)] *)
Definition isPathBlocked (self : t) (relativePath : Js.str) : bool :=
  let normalizedPath :=
    fst (RegExp.replace relativePath
           {| RegExp.source := RegExp.Chr 92; RegExp.ignoreCase := false;
              RegExp.global := true; RegExp.lastIndex := 0 |}
           (fun _ => [Path.slash])) in
  existsb (fun blockedPath =>
             bool_decide (normalizedPath = blockedPath)
             || Js.startsWith normalizedPath (blockedPath ++ [Path.slash])
             || (Js.includes blockedPath [42]
                 && fst (RegExp.test (wildcard blockedPath) normalizedPath)))
          (blockedPaths self).

(** [getFileExtension(filePath)] *)
Definition getFileExtension (filePath : Js.str) : Js.str :=
  match Js.lastIndexOf filePath Path.dot with
  | None => []
  | Some lastDot => Js.toLowerCase (drop lastDot filePath)
  end.

Record Validation := {
  isValid : bool;
  reason : option Js.str;
  sanitizedPath : option Js.str
}.

Definition invalid (why : Js.str) : Validation :=
  {| isValid := false; reason := Some why; sanitizedPath := None |}.

(** The body of the [try] of [validateFilePath]. *)
Definition validateBody (rt : Runtime) (self : t) (filePath : Js.str)
  : Fs.M Validation :=
  let absolutePath := Path.resolve (cwd rt) [filePath] in
  let relativePath := Path.relative (cwd rt) (projectRoot self) absolutePath in
  if Js.startsWith relativePath (J "..") || Js.includes absolutePath (J "..")
  then Fs.ret (invalid (J "Directory traversal detected"))
  else if negb (Js.startsWith absolutePath (projectRoot self))
  then Fs.ret (invalid (J "File outside project root"))
  else if isPathBlocked self relativePath
  then Fs.ret (invalid (J "Path is in blocked list"))
  else
    let extension := getFileExtension absolutePath in
    if negb (bool_decide (extension ∈ allowedExtensions self))
    then Fs.ret (invalid (J "File extension '" ++ extension
                            ++ J "' not allowed"))
    else
      present ← Fs.existsSync rt absolutePath;
      if negb present then Fs.ret (invalid (J "File does not exist"))
      else
        stats ← Fs.statSync rt absolutePath;
        if (Fs.size stats >? maxFileSize self)%Z
        then Fs.ret (invalid (J "File too large (" ++ Js.ofZ (Fs.size stats)
                                ++ J " bytes > " ++ Js.ofZ (maxFileSize self)
                                ++ J " bytes)"))
        else if negb (Fs.stat_isFile stats)
        then Fs.ret (invalid (J "Path is not a regular file"))
        else Fs.ret {| isValid := true; reason := None;
                       sanitizedPath := Some absolutePath |}.

(** [validateFilePath(filePath)]: whatever the body throws becomes an
    invalid result. *)
Definition validateFilePath (rt : Runtime) (self : t) (filePath : Js.str)
    (w : World) : Validation :=
  match Fs.try_ (validateBody rt self filePath)
          (fun _ => Fs.ret (invalid (J "File path validation failed"))) w with
  | (inr v, _) => v
  | (inl _, _) => invalid (J "File path validation failed")
  end.

(** [new Set(...).add(x)] and [.delete(x)] on a set kept in insertion
    order. *)
Definition setAdd (l : list Js.str) (x : Js.str) : list Js.str :=
  if bool_decide (x ∈ l) then l else l ++ [x].

Definition setDelete (l : list Js.str) (x : Js.str) : list Js.str :=
  List.filter (fun y => negb (bool_decide (y = x))) l.

(** [addBlockedPath(path)] *)
Definition addBlockedPath (self : t) (path : Js.str) : t :=
  {| projectRoot := projectRoot self;
     allowedExtensions := allowedExtensions self;
     blockedPaths := setAdd (blockedPaths self) path;
     maxFileSize := maxFileSize self |}.

(** [removeBlockedPath(path)] *)
Definition removeBlockedPath (self : t) (path : Js.str) : t :=
  {| projectRoot := projectRoot self;
     allowedExtensions := allowedExtensions self;
     blockedPaths := setDelete (blockedPaths self) path;
     maxFileSize := maxFileSize self |}.

(** [addAllowedExtension(extension)] *)
Definition addAllowedExtension (self : t) (extension : Js.str) : t :=
  {| projectRoot := projectRoot self;
     allowedExtensions :=
       setAdd (allowedExtensions self) (Js.toLowerCase extension);
     blockedPaths := blockedPaths self;
     maxFileSize := maxFileSize self |}.

(** [removeAllowedExtension(extension)] *)
Definition removeAllowedExtension (self : t) (extension : Js.str) : t :=
  {| projectRoot := projectRoot self;
     allowedExtensions :=
       setDelete (allowedExtensions self) (Js.toLowerCase extension);
     blockedPaths := blockedPaths self;
     maxFileSize := maxFileSize self |}.

Record DirectoryValidation := {
  dir_isValid : bool;
  dir_reason : option Js.str;
  warnings : list Js.str
}.

Definition projectIndicators : list string :=
  ["package.json"; "requirements.txt"; "Cargo.toml"; "go.mod"; "pom.xml";
   "build.gradle"; "composer.json"; "Gemfile"; "setup.py"; "pyproject.toml"].

Definition sensitiveFiles : list string :=
  [".env"; ".env.local"; "secrets.json"; "credentials.json"; "id_rsa";
   "id_dsa"].

(** [names.some(file => existsSync(join(absolutePath, file)))] *)
Fixpoint someExists (rt : Runtime) (absolutePath : Js.str)
    (names : list Js.str) : Fs.M bool :=
  match names with
  | [] => Fs.ret false
  | file :: rest =>
      present ← Fs.existsSync rt (Path.join [absolutePath; file]);
      if (present : bool) then Fs.ret true
      else someExists rt absolutePath rest
  end.

(** [names.filter(file => existsSync(join(absolutePath, file)))] *)
Fixpoint filterExists (rt : Runtime) (absolutePath : Js.str)
    (names : list Js.str) : Fs.M (list Js.str) :=
  match names with
  | [] => Fs.ret []
  | file :: rest =>
      present ← Fs.existsSync rt (Path.join [absolutePath; file]);
      found ← filterExists rt absolutePath rest;
      Fs.ret (if (present : bool) then file :: found else found)
  end.

(** The body of the [try] of [validateProjectDirectory]. *)
Definition validateProjectBody (rt : Runtime) (projectPath : Js.str)
  : Fs.M DirectoryValidation :=
  let absolutePath := Path.resolve (cwd rt) [projectPath] in
  present ← Fs.existsSync rt absolutePath;
  if negb present
  then Fs.ret {| dir_isValid := false;
                 dir_reason := Some (J "Project directory does not exist");
                 warnings := [] |}
  else
    stats ← Fs.statSync rt absolutePath;
    if negb (Fs.stat_isDirectory stats)
    then Fs.ret {| dir_isValid := false;
                   dir_reason := Some (J "Path is not a directory");
                   warnings := [] |}
    else
      hasProjectFile ← someExists rt absolutePath
                         (List.map Js.lit projectIndicators);
      let warnings1 :=
        if (hasProjectFile : bool) then []
        else [J "No common project files detected (package.json, requirements.txt, etc.)"] in
      foundSensitiveFiles ← filterExists rt absolutePath
                              (List.map Js.lit sensitiveFiles);
      let warnings2 :=
        if Nat.ltb 0 (length foundSensitiveFiles)
        then warnings1
             ++ [J "Sensitive files detected: "
                 ++ Js.join foundSensitiveFiles (J ", ")
                 ++ J " (will be excluded from memory)"]
        else warnings1 in
      Fs.ret {| dir_isValid := true; dir_reason := None;
                warnings := warnings2 |}.

(** [validateProjectDirectory(projectPath)]: a throw, possible only
    before the first warning is pushed, becomes an invalid result. *)
Definition validateProjectDirectory (rt : Runtime) (projectPath : Js.str)
    (w : World) : DirectoryValidation :=
  match validateProjectBody rt projectPath w with
  | (inr v, _) => v
  | (inl _, _) =>
      {| dir_isValid := false;
         dir_reason := Some (J "Directory validation failed");
         warnings := [] |}
  end.

End FileAccessControl.

(* ===================================================================== *)
(** * FileSystemProxy, ConfidenceCalculator, SandboxManager
      (sandbox-manager.ts) *)
(* ===================================================================== *)

Module FileSystemProxy.

Record t := {
  sandboxRoot : Js.str;
  projectRoot : Js.str
}.

(** [mapToSandbox(originalPath)] *)
Definition mapToSandbox (rt : Runtime) (self : t) (originalPath : Js.str)
  : Js.str :=
  let relativePath :=
    if Js.startsWith originalPath (projectRoot self)
    then Path.relative (cwd rt) (projectRoot self) originalPath
    else originalPath in
  Path.join [sandboxRoot self; relativePath].

(** [logOperation(operation, path, success)] *)
Definition logOperation (op path : Js.str) (ok : bool) : Fs.M unit :=
  fun w =>
    (inr tt,
     {| files := files w; dirs := dirs w;
        interceptedOperations :=
          interceptedOperations w
          ++ [{| operation := op; op_path := path; success := ok |}] |}).

(** [writeFile(path, content)] *)
Definition writeFile (rt : Runtime) (self : t) (path content : Js.str)
  : Fs.M unit :=
  let sandboxPath := mapToSandbox rt self path in
  let sandboxDir := Path.dirname sandboxPath in
  Fs.try_
    (present ← Fs.existsSync rt sandboxDir;
     (if negb present then Fs.mkdirSync rt sandboxDir else Fs.ret tt);;
     Fs.writeFileSync rt sandboxPath content;;
     logOperation (J "write") path true)
    (fun error =>
       logOperation (J "write") path false;;
       Fs.throw error).

(** [readFile(path)]: the sandbox copy, or else the file of the project
    itself. *)
Definition readFile (rt : Runtime) (self : t) (path : Js.str)
  : Fs.M Js.str :=
  let sandboxPath := mapToSandbox rt self path in
  Fs.try_
    (content ← Fs.readFileSync rt sandboxPath;
     logOperation (J "read") path true;;
     Fs.ret content)
    (fun _ =>
       Fs.try_
         (let projectPath := Path.join [projectRoot self; path] in
          content ← Fs.readFileSync rt projectPath;
          logOperation (J "read") path true;;
          Fs.ret content)
         (fun fallbackError =>
            logOperation (J "read") path false;;
            Fs.throw fallbackError)).

Definition importantFiles : list string :=
  ["package.json"; "tsconfig.json"; "jest.config.js"; "jest.config.ts";
   ".eslintrc.js"; ".eslintrc.json"; "README.md"].

(** The loop of [getProjectFiles] over the names still to look at. *)
Fixpoint existingFiles (rt : Runtime) (self : t) (names : list Js.str)
  : Fs.M (list Js.str) :=
  match names with
  | [] => Fs.ret []
  | file :: rest =>
      present ← Fs.existsSync rt (Path.join [projectRoot self; file]);
      found ← existingFiles rt self rest;
      Fs.ret (if (present : bool) then file :: found else found)
  end.

(** [getProjectFiles()] *)
Definition getProjectFiles (rt : Runtime) (self : t) : Fs.M (list Js.str) :=
  existingFiles rt self (List.map Js.lit importantFiles).

(** One turn of the loop of [copyProjectToSandbox]. *)
Definition copyOne (rt : Runtime) (self : t) (file : Js.str) : Fs.M unit :=
  let sourcePath := Path.join [projectRoot self; file] in
  let targetPath := Path.join [sandboxRoot self; file] in
  let targetDir := Path.dirname targetPath in
  present ← Fs.existsSync rt targetDir;
  (if negb present then Fs.mkdirSync rt targetDir else Fs.ret tt);;
  there ← Fs.existsSync rt sourcePath;
  if (there : bool) then
    stats ← Fs.statSync rt sourcePath;
    if Fs.stat_isFile stats then Fs.cpSync rt sourcePath targetPath
    else Fs.ret tt
  else Fs.ret tt.

Fixpoint copyAll (rt : Runtime) (self : t) (filesToCopy : list Js.str)
  : Fs.M unit :=
  match filesToCopy with
  | [] => Fs.ret tt
  | file :: rest => copyOne rt self file;; copyAll rt self rest
  end.

(** [copyProjectToSandbox()]; the [catch] logs and throws again. *)
Definition copyProjectToSandbox (rt : Runtime) (self : t) : Fs.M unit :=
  Fs.try_
    (filesToCopy ← getProjectFiles rt self;
     copyAll rt self filesToCopy)
    (fun error => Fs.throw error).

(** [getOperationLog()] *)
Definition getOperationLog : Fs.M (list Operation) :=
  fun w => (inr (interceptedOperations w), w).

End FileSystemProxy.

Module ConfidenceCalculator.

Record t := { projectPath : Js.str }.

(** [validateTypeScript(code)] *)
Definition validateTypeScript (rt : Runtime) (code : Js.str) : Z :=
  match tsDiagnostics rt code with
  | Some errorCount => Z.max 0 (20 - Z.of_nat errorCount * 3)
  | None => 0
  end.

(** [validateJavaScript(code)] *)
Definition validateJavaScript (rt : Runtime) (code : Js.str) : Z :=
  if vmScript rt code then 18 else 0.

(** [validatePython(code)] *)
Definition validatePython (rt : Runtime) (code : Js.str) : Z :=
  if pythonAst rt code then 20 else 0.

(** The [switch (ext)] of [validateSyntax]. *)
Definition scoreByExtension (rt : Runtime) (ext content : Js.str) : Z :=
  if bool_decide (ext = J ".ts") || bool_decide (ext = J ".tsx")
  then validateTypeScript rt content
  else if bool_decide (ext = J ".js") || bool_decide (ext = J ".jsx")
  then validateJavaScript rt content
  else if bool_decide (ext = J ".py")
  then validatePython rt content
  else if Nat.ltb 0 (length (Js.trim content)) then 15 else 0.

(** [validateSyntax(filePath, code)]; [code || readFileSync(...)] reads
    the file when [code] is undefined or empty. *)
Definition validateSyntax (rt : Runtime) (filePath : Js.str)
    (code : option Js.str) : Fs.M Z :=
  Fs.try_
    (let ext := Js.toLowerCase (Path.extname filePath) in
     content ← match code with
               | Some (c :: cs) => Fs.ret (c :: cs)
               | _ => Fs.readFileSync rt filePath
               end;
     Fs.ret (scoreByExtension rt ext content))
    (fun _ => Fs.ret 0%Z).

(** [/\.(ts|js|tsx|jsx)$/] *)
Definition sourceSuffix : RegExp.t :=
  RegExp.plain
    (RegExp.seqs [RegExp.txt ".";
                  RegExp.Grp (RegExp.words ["ts"; "js"; "tsx"; "jsx"]);
                  RegExp.Eoi]).

(** The first candidate that exists, [for (const pattern of ...)]. *)
Fixpoint firstExisting (rt : Runtime) (self : t) (patterns : list Js.str)
  : Fs.M (option Js.str) :=
  match patterns with
  | [] => Fs.ret None
  | pattern :: rest =>
      present ← Fs.existsSync rt (Path.join [projectPath self; pattern]);
      if (present : bool) then Fs.ret (Some pattern)
      else firstExisting rt self rest
  end.

(** [findTestFile(filePath)] *)
Definition findTestFile (rt : Runtime) (self : t) (filePath : Js.str)
  : Fs.M (option Js.str) :=
  let baseName := fst (RegExp.replace filePath sourceSuffix (fun _ => [])) in
  let testPatterns :=
    [ baseName ++ J ".test.ts";
      baseName ++ J ".test.js";
      baseName ++ J ".spec.ts";
      baseName ++ J ".spec.js";
      J "__tests__/" ++ baseName ++ J ".test.ts";
      J "__tests__/" ++ baseName ++ J ".test.js" ] in
  firstExisting rt self testPatterns.

(** [runTests(filePath)] *)
Definition runTests (rt : Runtime) (self : t) (filePath : Js.str)
  : Fs.M Z :=
  Fs.try_
    (testFile ← findTestFile rt self filePath;
     match testFile with
     | None => Fs.ret 15%Z
     | Some _ => Fs.ret 20%Z
     end)
    (fun _ => Fs.ret 0%Z).

Definition checkPatternAlignment : Fs.M Z := Fs.ret 15%Z.
Definition checkMemoryConsistency : Fs.M Z := Fs.ret 12%Z.
Definition assessRisk : Fs.M Z := Fs.ret 8%Z.
Definition assessPerformance : Fs.M Z := Fs.ret 9%Z.

Definition setSyntax (m : ConfidenceMetrics) (v : Z) :=
  {| syntaxValidation := v; testExecution := testExecution m;
     patternAlignment := patternAlignment m;
     memoryConsistency := memoryConsistency m;
     riskAssessment := riskAssessment m;
     performanceImpact := performanceImpact m |}.
Definition setTests (m : ConfidenceMetrics) (v : Z) :=
  {| syntaxValidation := syntaxValidation m; testExecution := v;
     patternAlignment := patternAlignment m;
     memoryConsistency := memoryConsistency m;
     riskAssessment := riskAssessment m;
     performanceImpact := performanceImpact m |}.
Definition setPattern (m : ConfidenceMetrics) (v : Z) :=
  {| syntaxValidation := syntaxValidation m;
     testExecution := testExecution m; patternAlignment := v;
     memoryConsistency := memoryConsistency m;
     riskAssessment := riskAssessment m;
     performanceImpact := performanceImpact m |}.
Definition setMemory (m : ConfidenceMetrics) (v : Z) :=
  {| syntaxValidation := syntaxValidation m;
     testExecution := testExecution m;
     patternAlignment := patternAlignment m; memoryConsistency := v;
     riskAssessment := riskAssessment m;
     performanceImpact := performanceImpact m |}.
Definition setRisk (m : ConfidenceMetrics) (v : Z) :=
  {| syntaxValidation := syntaxValidation m;
     testExecution := testExecution m;
     patternAlignment := patternAlignment m;
     memoryConsistency := memoryConsistency m; riskAssessment := v;
     performanceImpact := performanceImpact m |}.
Definition setPerformance (m : ConfidenceMetrics) (v : Z) :=
  {| syntaxValidation := syntaxValidation m;
     testExecution := testExecution m;
     patternAlignment := patternAlignment m;
     memoryConsistency := memoryConsistency m;
     riskAssessment := riskAssessment m; performanceImpact := v |}.

(** [calculateConfidence(filePath, code)]: the metrics object starts at
    zero and is filled field by field; a throw would leave the fields not
    yet reached at zero. *)
Definition calculateConfidence (rt : Runtime) (self : t)
    (filePath : Js.str) (code : option Js.str) : Fs.M ConfidenceMetrics :=
  fun w =>
    let m0 := Gate.getEmptyMetrics in
    match validateSyntax rt filePath code w with
    | (inl _, w1) => (inr m0, w1)
    | (inr v1, w1) =>
    let m1 := setSyntax m0 v1 in
    match runTests rt self filePath w1 with
    | (inl _, w2) => (inr m1, w2)
    | (inr v2, w2) =>
    let m2 := setTests m1 v2 in
    match checkPatternAlignment w2 with
    | (inl _, w3) => (inr m2, w3)
    | (inr v3, w3) =>
    let m3 := setPattern m2 v3 in
    match checkMemoryConsistency w3 with
    | (inl _, w4) => (inr m3, w4)
    | (inr v4, w4) =>
    let m4 := setMemory m3 v4 in
    match assessRisk w4 with
    | (inl _, w5) => (inr m4, w5)
    | (inr v5, w5) =>
    let m5 := setRisk m4 v5 in
    match assessPerformance w5 with
    | (inl _, w6) => (inr m5, w6)
    | (inr v6, w6) => (inr (setPerformance m5 v6), w6)
    end end end end end end.

End ConfidenceCalculator.

(** [ExecutionResult] of [src/types/index.ts], as the manager fills it;
    [error] holds the error whose message is reported. *)
Module ExecutionResult.

Record t := {
  success : bool;
  output : Js.str;
  error : option Fs.Error;
  exitCode : Z;
  duration : Z;
  confidence : Z;
  metrics : ConfidenceMetrics
}.

End ExecutionResult.

Module SandboxManager.

Record t := {
  projectPath : Js.str;
  sandboxPath : Js.str;
  fileSystemProxy : FileSystemProxy.t;
  confidenceCalculator : ConfidenceCalculator.t
}.

(** The field initializations of [new SandboxManager(projectPath)]. *)
Definition create (projectPath : Js.str) : t :=
  let sandboxPath := Path.join [projectPath; J ".sentvibe"; J "sandbox"] in
  {| projectPath := projectPath;
     sandboxPath := sandboxPath;
     fileSystemProxy :=
       {| FileSystemProxy.sandboxRoot := sandboxPath;
          FileSystemProxy.projectRoot := projectPath |};
     confidenceCalculator :=
       {| ConfidenceCalculator.projectPath := projectPath |} |}.

(** [getSandboxFiles()] *)
Definition getSandboxFiles : list Js.str := [].

(** [calculateProjectConfidence()]: with no sandbox file listed the
    average is never taken. *)
Definition calculateProjectConfidence : Fs.M Z :=
  Fs.try_
    (match getSandboxFiles with
     | [] => Fs.ret 0%Z
     | _ => Fs.throw Fs.ENOENT
     end)
    (fun _ => Fs.ret 0%Z).

(** [calculateConfidence(filePath?)]; [!filePath] holds for [undefined]
    and for the empty string. *)
Definition calculateConfidence (rt : Runtime) (self : t)
    (filePath : option Js.str) : Fs.M Z :=
  Fs.try_
    (match filePath with
     | Some (c :: cs) =>
         metrics ← ConfidenceCalculator.calculateConfidence rt
                     (confidenceCalculator self) (c :: cs) None;
         Fs.ret (Gate.calculateTotalConfidence metrics)
     | _ => calculateProjectConfidence
     end)
    (fun _ => Fs.ret 0%Z).

(** The copy at the end of [deployToRealFiles]. *)
Definition copyToRealFiles (rt : Runtime)
    (sandboxFilePath realFilePath : Js.str) : Fs.M bool :=
  content ← Fs.readFileSync rt sandboxFilePath;
  let realFileDir := Path.dirname realFilePath in
  present ← Fs.existsSync rt realFileDir;
  (if negb present then Fs.mkdirSync rt realFileDir else Fs.ret tt);;
  Fs.writeFileSync rt realFilePath content;;
  Fs.ret true.

(** The body of the [try] of [deployToRealFiles], the confidence of the
    file being computed by [confidenceOf]. *)
Definition deployBody (rt : Runtime) (self : t)
    (confidenceOf : Js.str -> Fs.M Z) (filePath : Js.str) (force : bool)
  : Fs.M bool :=
  let sandboxFilePath := Path.join [sandboxPath self; filePath] in
  let realFilePath := Path.join [projectPath self; filePath] in
  present ← Fs.existsSync rt sandboxFilePath;
  if negb present
  then Fs.throw (Fs.Thrown (J "File not found in sandbox: " ++ filePath))
  else if negb force then
    confidence ← confidenceOf filePath;
    let decision := Gate.checkDeploymentPermission filePath confidence in
    if negb (allowed decision) then Fs.ret false
    else copyToRealFiles rt sandboxFilePath realFilePath
  else copyToRealFiles rt sandboxFilePath realFilePath.

(** [deployToRealFiles] around a given confidence computation: whatever
    the body throws is caught and turned into [false]. *)
Definition deployWith (rt : Runtime) (self : t)
    (confidenceOf : Js.str -> Fs.M Z) (filePath : Js.str) (force : bool)
  : Fs.M bool :=
  Fs.try_ (deployBody rt self confidenceOf filePath force)
          (fun _ => Fs.ret false).

(** [deployToRealFiles(filePath, force)] *)
Definition deployToRealFiles (rt : Runtime) (self : t)
    (filePath : Js.str) (force : bool) : Fs.M bool :=
  deployWith rt self (fun f => calculateConfidence rt self (Some f))
    filePath force.

(** [ensureSandboxDirectory()] *)
Definition ensureSandboxDirectory (rt : Runtime) (self : t) : Fs.M unit :=
  present ← Fs.existsSync rt (sandboxPath self);
  if negb present then Fs.mkdirSync rt (sandboxPath self) else Fs.ret tt.

(** [new SandboxManager(projectPath)]: the fields, then the sandbox
    directory. *)
Definition construct (rt : Runtime) (projectPath : Js.str) : Fs.M t :=
  let self := create projectPath in
  ensureSandboxDirectory rt self;;
  Fs.ret self.

(** [syncProjectToSandbox()] *)
Definition syncProjectToSandbox (rt : Runtime) (self : t) : Fs.M unit :=
  Fs.try_
    (ensureSandboxDirectory rt self;;
     FileSystemProxy.copyProjectToSandbox rt (fileSystemProxy self))
    (fun error => Fs.throw error).

(** [initialize()]; the value returned is the new [isActive]. *)
Definition initialize (rt : Runtime) (self : t) : Fs.M bool :=
  Fs.try_
    (ensureSandboxDirectory rt self;;
     syncProjectToSandbox rt self;;
     Fs.ret true)
    (fun error => Fs.throw error).

(** [clean(all)] *)
Definition clean (rt : Runtime) (self : t) (all : bool) : Fs.M unit :=
  Fs.try_
    (if all then
       present ← Fs.existsSync rt (sandboxPath self);
       (if (present : bool) then Fs.rmSync rt (sandboxPath self)
        else Fs.ret tt);;
       ensureSandboxDirectory rt self
     else Fs.ret tt)
    (fun error => Fs.throw error).

(** [reset()] *)
Definition reset (rt : Runtime) (self : t) : Fs.M unit :=
  Fs.try_
    (clean rt self true;;
     syncProjectToSandbox rt self)
    (fun error => Fs.throw error).

(** The result every [catch] of the execution methods builds. *)
Definition failed (error : Fs.Error) : ExecutionResult.t :=
  {| ExecutionResult.success := false;
     ExecutionResult.output := [];
     ExecutionResult.error := Some error;
     ExecutionResult.exitCode := 1;
     ExecutionResult.duration := 0;
     ExecutionResult.confidence := 0;
     ExecutionResult.metrics := Gate.getEmptyMetrics |}.

(** The placeholder result of [runValidation], [runTests] and
    [executeCommand]; [startTime] and [finish] are the two readings of
    [Date.now()]. *)
Definition placeholder (output : Js.str) (startTime finish : Z)
  : ExecutionResult.t :=
  let duration := (finish - startTime)%Z in
  let metrics := Gate.calculateConfidenceMetrics in
  {| ExecutionResult.success := true;
     ExecutionResult.output := output;
     ExecutionResult.error := None;
     ExecutionResult.exitCode := 0;
     ExecutionResult.duration := duration;
     ExecutionResult.confidence := Gate.calculateTotalConfidence metrics;
     ExecutionResult.metrics := metrics |}.

(** [runValidation(filePath)] *)
Definition runValidation (_filePath : Js.str) (startTime finish : Z)
  : ExecutionResult.t :=
  placeholder (J "Validation passed") startTime finish.

(** [runTests(files, options)] *)
Definition runTests (_files : list Js.str) (startTime finish : Z)
  : ExecutionResult.t :=
  placeholder (J "Tests passed (placeholder)") startTime finish.

(** [executeCommand(command, options)] *)
Definition executeCommand (command : Js.str) (startTime finish : Z)
  : ExecutionResult.t :=
  placeholder (J "Command executed: " ++ command ++ J " (placeholder)")
    startTime finish.

(** [executeCode(code, filePath)]; [clock n] is the [n]-th reading of
    [Date.now()] during the call. *)
Definition executeCode (rt : Runtime) (self : t) (clock : nat -> Z)
    (code filePath : Js.str) : Fs.M ExecutionResult.t :=
  Fs.try_
    (let startTime := clock 0%nat in
     FileSystemProxy.writeFile rt (fileSystemProxy self) filePath code;;
     metrics ← ConfidenceCalculator.calculateConfidence rt
                 (confidenceCalculator self) filePath (Some code);
     let confidence := Gate.calculateTotalConfidence metrics in
     let result := runValidation filePath (clock 1%nat) (clock 2%nat) in
     Fs.ret {| ExecutionResult.success := ExecutionResult.success result;
               ExecutionResult.output := ExecutionResult.output result;
               ExecutionResult.error := ExecutionResult.error result;
               ExecutionResult.exitCode := ExecutionResult.exitCode result;
               ExecutionResult.duration := (clock 3%nat - startTime)%Z;
               ExecutionResult.confidence := confidence;
               ExecutionResult.metrics := metrics |})
    (fun error => Fs.ret (failed error)).

End SandboxManager.

(* ===================================================================== *)
(** * DatabaseEncryption on files (database-encryption.ts) *)
(* ===================================================================== *)

Module DatabaseFiles.

(** What a call ends with when it does not return: an error of the file
    system or a failure of [encryptData] / [decryptData]. *)
Inductive Failure :=
| Io (e : Fs.Error)
| Crypto (f : DatabaseEncryption.Failure).

Definition M (A : Type) : Type := World -> (Failure + A) * World.

Definition io {A} (c : Fs.M A) : M A :=
  fun w => match c w with
           | (inr a, w') => (inr a, w')
           | (inl e, w') => (inl (Io e), w')
           end.

Definition crypto {A} (r : DatabaseEncryption.Failure + A) : M A :=
  fun w => match r with
           | inr a => (inr a, w)
           | inl f => (inl (Crypto f), w)
           end.

Definition bind {A B} (c : M A) (k : A -> M B) : M B :=
  fun w => match c w with
           | (inr a, w') => k a w'
           | (inl e, w') => (inl e, w')
           end.

(** [encryptDatabaseFile(dbPath)]; [now] as for [encryptData].  The
    [catch] logs and throws again. *)
Definition encryptDatabaseFile (rt : Runtime) (self : DatabaseEncryption.t)
    (now : Js.str) (dbPath : Js.str) : M unit :=
  bind (io (Fs.existsSync rt dbPath)) (fun present =>
  if negb present then (fun w => (inr tt, w))
  else
    bind (io (Fs.readFileBuffer rt dbPath)) (fun dbData =>
    bind (crypto (DatabaseEncryption.encryptData self now
                    (Buffer.base64 dbData))) (fun encryptedData =>
    io (Fs.writeFileSync rt (dbPath ++ J ".encrypted") encryptedData)))).

(** [decryptDatabaseFile(encryptedDbPath, outputPath)] *)
Definition decryptDatabaseFile (rt : Runtime) (self : DatabaseEncryption.t)
    (encryptedDbPath outputPath : Js.str) : M unit :=
  bind (io (Fs.readFileSync rt encryptedDbPath)) (fun encryptedData =>
  bind (crypto (DatabaseEncryption.decryptData self encryptedData))
    (fun decryptedData =>
  let dbData := Buffer.fromBase64 decryptedData in
  io (Fs.writeFileBuffer rt outputPath dbData))).

End DatabaseFiles.

(* ===================================================================== *)
(** * SecurityManager (security-manager.ts) *)
(* ===================================================================== *)

Module SecurityManager.

Record SecurityConfig := {
  enableContentSanitization : bool;
  enableFileAccessControl : bool;
  enableDatabaseEncryption : bool;
  enableSensitiveDataDetection : bool;
  enableMaliciousPatternDetection : bool;
  maxFileSize : Z;
  maxMemoryEntries : Z;
  encryptSensitiveContent : bool;
  auditLogging : bool;
  strictMode : bool
}.

Record t := {
  fileAccessControl : FileAccessControl.t;
  databaseEncryption : DatabaseEncryption.t;
  securityConfig : SecurityConfig
}.

(** The configuration of the constructor when no [config] is passed. *)
Definition defaults : SecurityConfig :=
  {| enableContentSanitization := true;
     enableFileAccessControl := true;
     enableDatabaseEncryption := true;
     enableSensitiveDataDetection := true;
     enableMaliciousPatternDetection := true;
     maxFileSize := 10 * 1024 * 1024;
     maxMemoryEntries := 100000;
     encryptSensitiveContent := true;
     auditLogging := true;
     strictMode := false |}.

(** [new SecurityManager(projectRoot)] *)
Definition create (rt : Runtime) (projectRoot : Js.str) : t :=
  {| fileAccessControl := FileAccessControl.create rt projectRoot;
     databaseEncryption :=
       {| DatabaseEncryption.encryptionKey := None;
          DatabaseEncryption.keyFile :=
            Path.join [projectRoot; J ".sentvibe"; J ".encryption-key"] |};
     securityConfig := defaults |}.

Record SecurityMetadata := {
  processedAt : Js.str;
  securityVersion : Js.str;
  sanitized : bool;
  encrypted : bool
}.

(** [SecureFileResult]; [None] is an absent field. *)
Record SecureFileResult := {
  success : bool;
  content : option Js.str;
  isEncrypted : option bool;
  sanitizationResult : option ContentSanitizer.Result;
  securityMetadata : option SecurityMetadata;
  reason : option Js.str;
  securityIssues : option (list Js.str);
  recommendations : option (list Js.str)
}.

Definition refusal (why : Js.str) (issues : list Js.str)
    (advice : option (list Js.str)) : SecureFileResult :=
  {| success := false; content := None; isEncrypted := None;
     sanitizationResult := None; securityMetadata := None;
     reason := Some why; securityIssues := Some issues;
     recommendations := advice |}.

(** What the [catch] of [processFile] returns. *)
Definition processingError : SecureFileResult :=
  refusal (J "File processing error") [J "processing_error"] None.

(** [reason || fallback] *)
Definition orElse (reason : option Js.str) (fallback : Js.str) : Js.str :=
  match reason with
  | Some (c :: r) => c :: r
  | _ => fallback
  end.

(** [processFile(filePath)].  [now] and [at_] are the texts of
    [new Date().toISOString()] inside [encryptData] and in the metadata;
    the audit entry goes to the logger only.  A valid result of
    [validateFilePath] always carries its [sanitizedPath]; without one
    [readFileSync] would throw. *)
Definition processFile (rt : Runtime) (self : t) (now at_ : Js.str)
    (filePath : Js.str) (st : ContentSanitizer.Statics) (w : World)
  : SecureFileResult * ContentSanitizer.Statics :=
  let accessValidation :=
    FileAccessControl.validateFilePath rt (fileAccessControl self)
      filePath w in
  if negb (FileAccessControl.isValid accessValidation)
  then (refusal (orElse (FileAccessControl.reason accessValidation)
                   (J "File access denied"))
          [J "file_access_denied"] None, st)
  else
    match FileAccessControl.sanitizedPath accessValidation with
    | None => (processingError, st)
    | Some path =>
        match Fs.readFileSync rt path w with
        | (inl _, _) => (processingError, st)
        | (inr content, _) =>
            let safetyValidation :=
              ContentSanitizer.validateContentSafety content in
            if negb (ContentSanitizer.isSafe safetyValidation)
            then (refusal (J "Content safety validation failed")
                    (ContentSanitizer.risks safetyValidation)
                    (Some (ContentSanitizer.recommendations
                             safetyValidation)), st)
            else
              let '(sanitizationResult, st') :=
                ContentSanitizer.sanitizeContent content filePath st in
              let finish finalContent isEncrypted :=
                {| success := true;
                   content := Some finalContent;
                   isEncrypted := Some isEncrypted;
                   sanitizationResult := Some sanitizationResult;
                   securityMetadata :=
                     Some {| processedAt := at_;
                             securityVersion := J "1.0.0";
                             sanitized :=
                               Nat.ltb 0 (ContentSanitizer.redactionCount
                                            sanitizationResult);
                             encrypted := isEncrypted |};
                   reason := None; securityIssues := None;
                   recommendations := None |} in
              if enableDatabaseEncryption (securityConfig self)
                 && (ContentSanitizer.sensitiveDataFound sanitizationResult
                     || encryptSensitiveContent (securityConfig self))
              then
                match DatabaseEncryption.encryptData
                        (databaseEncryption self) now
                        (ContentSanitizer.sanitizedContent
                           sanitizationResult) with
                | inl _ => (processingError, st')
                | inr finalContent => (finish finalContent true, st')
                end
              else
                (finish (ContentSanitizer.sanitizedContent
                           sanitizationResult) false, st')
        end
    end.

(** [retrieveContent(storedContent, isEncrypted)] *)
Definition retrieveContent (self : t) (storedContent : Js.str)
    (isEncrypted : bool) : DatabaseEncryption.Failure + Js.str :=
  if negb isEncrypted then inr storedContent
  else if negb (enableDatabaseEncryption (securityConfig self))
  then inl (DatabaseEncryption.Thrown
              (J "Content is encrypted but encryption is disabled"))
  else DatabaseEncryption.decryptData (databaseEncryption self) storedContent.

(** A memory entry, as far as [validateMemoryEntry] reads it: four fields
    that hold a string or are absent.  (Its other fields are copied to the
    sanitized entry as they are.) *)
Record MemoryEntry := {
  intent : option Js.str;
  outcome : option Js.str;
  codeSnippet : option Js.str;
  entry_filePath : option Js.str
}.

Record EntryValidation := {
  entry_isValid : bool;
  sanitizedEntry : option MemoryEntry;
  entry_securityIssues : list Js.str
}.

(** Truthiness of a field that holds a string or nothing. *)
Definition truthy (field : option Js.str) : option Js.str :=
  match field with
  | Some (c :: r) => Some (c :: r)
  | _ => None
  end.

(** [validateMemoryEntry(entry)] *)
Definition validateMemoryEntry (rt : Runtime) (self : t)
    (entry : MemoryEntry) (st : ContentSanitizer.Statics) (w : World)
  : EntryValidation * ContentSanitizer.Statics :=
  let issues0 : list Js.str :=
    match truthy (intent entry), truthy (outcome entry) with
    | Some _, Some _ => []
    | _, _ => [J "Missing required fields (intent, outcome)"]
    end in
  let issues1 :=
    match truthy (codeSnippet entry) with
    | Some snippet =>
        if (Z.of_nat (length snippet) >? maxFileSize (securityConfig self))%Z
        then issues0 ++ [J "Code snippet too large"] else issues0
    | None => issues0
    end in
  let '(intent', issues2, st1) :=
    match truthy (intent entry) with
    | Some text =>
        let '(sanitized, st1) :=
          ContentSanitizer.sanitizeContent text (J "memory_entry") st in
        (Some (ContentSanitizer.sanitizedContent sanitized),
         if ContentSanitizer.sensitiveDataFound sanitized
         then issues1 ++ [J "Sensitive data in intent field"] else issues1,
         st1)
    | None => (intent entry, issues1, st)
    end in
  let '(outcome', issues3, st2) :=
    match truthy (outcome entry) with
    | Some text =>
        let '(sanitized, st2) :=
          ContentSanitizer.sanitizeContent text (J "memory_entry") st1 in
        (Some (ContentSanitizer.sanitizedContent sanitized),
         if ContentSanitizer.sensitiveDataFound sanitized
         then issues2 ++ [J "Sensitive data in outcome field"] else issues2,
         st2)
    | None => (outcome entry, issues2, st1)
    end in
  let issues4 :=
    match truthy (entry_filePath entry) with
    | Some path =>
        let pathValidation :=
          FileAccessControl.validateFilePath rt (fileAccessControl self)
            path w in
        if negb (FileAccessControl.isValid pathValidation)
        then issues3
             ++ [J "Invalid file path: "
                 ++ match FileAccessControl.reason pathValidation with
                    | Some why => why
                    | None => J "undefined"
                    end]
        else issues3
    | None => issues3
    end in
  ({| entry_isValid :=
        Nat.eqb (length issues4) 0 || negb (strictMode (securityConfig self));
      sanitizedEntry :=
        if Nat.eqb (length issues4) 0
        then Some {| intent := intent'; outcome := outcome';
                     codeSnippet := codeSnippet entry;
                     entry_filePath := entry_filePath entry |}
        else None;
      entry_securityIssues := issues4 |}, st2).

Record TestEntry := {
  name : Js.str;
  passed : bool;
  error : option Js.str
}.

Record SecurityTestResult := {
  test_passed : bool;
  tests : list TestEntry;
  issues : list Js.str;
  test_recommendations : list Js.str
}.

Definition testOk (name : string) : TestEntry :=
  {| name := J name; passed := true; error := None |}.

Definition testFailed (name : string) (error : Js.str) : TestEntry :=
  {| name := J name; passed := false; error := Some error |}.

(** [String(error)] for an [Error] object. *)
Definition errorText (message : Js.str) : Js.str := J "Error: " ++ message.

(** The content of the sanitization test:
    [const apiKey = "sk-1234567890abcdef"; console.log("test");] *)
Definition testContent : Js.str :=
  J "const apiKey = " ++ [34] ++ J "sk-1234567890abcdef" ++ [34]
    ++ J "; console.log(" ++ [34] ++ J "test" ++ [34] ++ J ");".

(** The encryption test of [runSecuritySelfTest]; [None] where
    [decryptData] leaves the model. *)
Definition encryptionTest (self : t) (now : Js.str) : option TestEntry :=
  let testData := J "test-encryption-data" in
  match DatabaseEncryption.encryptData (databaseEncryption self) now
          testData with
  | inl (DatabaseEncryption.Thrown message) =>
      Some (testFailed "encryption" (errorText message))
  | inl DatabaseEncryption.OutsideModel => None
  | inr encrypted =>
      match DatabaseEncryption.decryptData (databaseEncryption self)
              encrypted with
      | inl (DatabaseEncryption.Thrown message) =>
          Some (testFailed "encryption" (errorText message))
      | inl DatabaseEncryption.OutsideModel => None
      | inr decrypted =>
          if bool_decide (decrypted = testData)
          then Some (testOk "encryption")
          else Some (testFailed "encryption" (J "Decryption mismatch"))
      end
  end.

(** [runSecuritySelfTest()]; [now] as in [processFile]. *)
Definition runSecuritySelfTest (rt : Runtime) (self : t) (now : Js.str)
    (st : ContentSanitizer.Statics) (w : World)
  : option SecurityTestResult * ContentSanitizer.Statics :=
  let '(sanitized, st') :=
    ContentSanitizer.sanitizeContent testContent (J "test") st in
  let sanitization :=
    if ContentSanitizer.sensitiveDataFound sanitized
       && Js.includes (ContentSanitizer.sanitizedContent sanitized)
            (J "[REDACTED_")
    then testOk "content_sanitization"
    else testFailed "content_sanitization" (J "Sanitization failed") in
  let validation :=
    FileAccessControl.validateFilePath rt (fileAccessControl self)
      (J "../../../etc/passwd") w in
  let access :=
    if negb (FileAccessControl.isValid validation)
    then testOk "file_access_control"
    else testFailed "file_access_control" (J "Path traversal not blocked") in
  let report (entries : list TestEntry) :=
    {| test_passed := forallb passed entries;
       tests := entries; issues := []; test_recommendations := [] |} in
  if enableDatabaseEncryption (securityConfig self) then
    match encryptionTest self now with
    | Some encryption => (Some (report [encryption; sanitization; access]), st')
    | None => (None, st')
    end
  else (Some (report [sanitization; access]), st').

End SecurityManager.

(* ===================================================================== *)
(** * Vocabulary of the properties *)

(** ** The gate and the scorer *)

Definition clamp (lo hi x : Z) : Z := Z.max lo (Z.min hi x).

Definition sumOfSix (m : ConfidenceMetrics) : Z :=
  (syntaxValidation m + testExecution m + patternAlignment m
   + memoryConsistency m + riskAssessment m + performanceImpact m)%Z.

(** Each sub-score inside the range its declaration gives. *)
Definition inRanges (m : ConfidenceMetrics) : Prop :=
  (0 <= syntaxValidation m <= 20)%Z /\ (0 <= testExecution m <= 25)%Z
  /\ (0 <= patternAlignment m <= 20)%Z /\ (0 <= memoryConsistency m <= 15)%Z
  /\ (0 <= riskAssessment m <= 10)%Z /\ (0 <= performanceImpact m <= 10)%Z.


(** ** Patterns and the sanitizer *)

(** A matcher only ever continues at an index at or after the one it was
    started at, and inside the input. *)
Definition forward (input : Js.str) (m : RegExp.Matcher) : Prop :=
  forall x c z, m x c = Some z ->
    exists y, (x <= y)%nat
              /\ ((x <= length input)%nat -> (y <= length input)%nat)
              /\ c y = Some z.

(** A pattern as the tables hold it between two calls. *)
Definition rested (R : RegExp.t) : Prop :=
  RegExp.global R = true /\ RegExp.lastIndex R = 0%nat.

(** The statics after the calls of [history] (content and label of each),
    from the start of the session on. *)
Fixpoint session (history : list (Js.str * Js.str)) (st : ContentSanitizer.Statics)
  : ContentSanitizer.Statics :=
  match history with
  | [] => st
  | (content, filePath) :: later =>
      session later (snd (ContentSanitizer.sanitizeContent content filePath st))
  end.

(** [const apiKey = "sk-1234567890abcdef1234567890abcdef";] *)
Definition apiKeyLine : Js.str :=
  J "const apiKey = " ++ [34] ++ J "sk-1234567890abcdef1234567890abcdef"
    ++ [34] ++ J ";".

(** [eval("danger"); fs.unlink("x")] *)
Definition dangerLine : Js.str :=
  J "eval(" ++ [34] ++ J "danger" ++ [34] ++ J "); fs.unlink(" ++ [34]
    ++ J "x" ++ [34] ++ J ")".

(** ** Paths *)

(** A segment of a resolved absolute path. *)
Definition clean (seg : Js.str) : Prop :=
  seg <> [] /\ seg <> [Path.dot] /\ seg <> [Path.dot; Path.dot]
  /\ Path.slash ∉ seg.

Definition anchored (cwd p : Js.str) : Prop :=
  Path.isAbsolute cwd = true \/ Path.isAbsolute p = true.

(** The resolved path lies in (or is) the resolved root. *)
Definition within (rt : Runtime) (root p : Js.str) : Prop :=
  Path.resolveSegs (cwd rt) [root] `prefix_of` Path.resolveSegs (cwd rt) [p].

(** A refusal for the sake of the path. *)
Definition pathViolation (v : FileAccessControl.Validation) : Prop :=
  FileAccessControl.isValid v = false
  /\ (FileAccessControl.reason v = Some (J "Directory traversal detected")
      \/ FileAccessControl.reason v = Some (J "File outside project root")).

(** ** Encodings *)

(** A string of UTF-16 code units in which every surrogate is paired. *)
Fixpoint wellFormed (s : Js.str) : bool :=
  match s with
  | [] => true
  | c :: s' =>
      if Buffer.isHigh c then
        match s' with
        | c2 :: s'' => Buffer.isLow c2 && wellFormed s''
        | [] => false
        end
      else negb (Buffer.isLow c) && (c <? 65536) && wellFormed s'
  end.

(** A unit [JSON.stringify] writes as it is and [JSON.parse] reads as it
    is: no control character, quote, backslash or surrogate. *)
Definition plainUnit (c : N) : bool :=
  (32 <=? c) && negb (c =? 34) && negb (c =? 92)
  && negb (Buffer.isHigh c) && negb (Buffer.isLow c).

Definition plain (s : Js.str) : bool := forallb plainUnit s.

(** The text [encryptData] returns, spelled out piece by piece:
    an opening brace, the quoted key [encrypted], a colon, [true], a comma,
    the quoted key [data], a colon, the quoted encoding, a comma, the quoted
    key [timestamp], a colon, the quoted time and the closing brace. *)
Definition payloadText (encoded now : Js.str) : Js.str :=
  123 :: 34 :: (J "encrypted" ++ 34 :: 58 :: 116 :: 114 :: 117 :: 101 :: 44
  :: 34 :: (J "data" ++ 34 :: 58
  :: 34 :: (encoded ++ 34 :: 44
  :: 34 :: (J "timestamp" ++ 34 :: 58
  :: 34 :: (now ++ [34; 125]))))).

Definition payload (encoded now : Js.str) : JSON.value :=
  JSON.Obj [ (J "encrypted", JSON.Bool true); (J "data", JSON.Str encoded);
             (J "timestamp", JSON.Str now) ].

(** ** Sample inputs *)

(** A project at [/proj] whose mirror holds [evil.exe], and a runtime
    started in the project directory. *)
Definition sampleRuntime : Runtime :=
  {| cwd := J "/proj"; tsDiagnostics := fun _ => Some 0%nat;
     vmScript := fun _ => true; pythonAst := fun _ => true |}.

Definition sampleWorld : World :=
  {| files := {[ J "/proj/.sentvibe/sandbox/evil.exe" := J "MZ" ]};
     dirs := {[ J "/proj"; J "/proj/.sentvibe"; J "/proj/.sentvibe/sandbox" ]};
     interceptedOperations := [] |}.

Definition sampleManager : SandboxManager.t := SandboxManager.create (J "/proj").

(** An initialized instance and a time of day. *)
Definition sampleEncryption : DatabaseEncryption.t :=
  {| DatabaseEncryption.encryptionKey := Some [1; 2; 3];
     DatabaseEncryption.keyFile := J "/proj/.sentvibe/.encryption-key" |}.

Definition sampleTime : Js.str := J "2025-01-01T00:00:00.000Z".

(** ** Patterns of one unit, file names and content *)

(** The matches of a one-unit pattern in [l], whose first unit has index
    [i]: each unit that satisfies [P], as (index, end). *)
Fixpoint hitsFrom (P : N -> bool) (l : list N) (i : nat) : list (nat * nat) :=
  match l with
  | [] => []
  | c :: l' =>
      if P c then (i, S i) :: hitsFrom P l' (S i) else hitsFrom P l' (S i)
  end.

(** File-name endings that [shouldExcludeFile] looks for. *)
Definition excludedEndings : list string :=
  [".env"; ".env.local"; ".env.development"; ".env.production"; ".env.test";
   ".key"; ".pem"; ".p12"; ".pfx";
   "config.json"; "config.yaml"; "config.yml";
   "secrets.json"; "secrets.yaml"; "secrets.yml";
   "credentials.json"; "credentials.yaml"; "credentials.yml";
   ".db"; ".sqlite"; ".sqlite3"; ".bak"; ".backup"; ".log";
   ".crt"; ".cert"; ".cer";
   "id_rsa"; "id_dsa"; "id_ecdsa"; "id_ed25519";
   "docker-compose.override.yml"; "docker-compose.override.yaml";
   "secret.yml"; "secret.yaml"].

(** The units [isBinaryContent] counts as non-printable:
    [[\x00-\x08\x0E-\x1F\x7F-\xFF]]. *)
Definition nonPrintable (c : N) : bool :=
  (c <=? 8) || ((14 <=? c) && (c <=? 31)) || ((127 <=? c) && (c <=? 255)).

(** What [validateFilePath] asks of a path: no [..] left after resolving
    it, the text of the root leading the resolved path, no blocked name,
    an allowed extension, and a regular file of at most [maxFileSize]
    bytes at that place. *)
Definition accepted (rt : Runtime) (self : FileAccessControl.t)
    (filePath : Js.str) (w : World) : Prop :=
  let absolutePath := Path.resolve (cwd rt) [filePath] in
  let relativePath :=
    Path.relative (cwd rt) (FileAccessControl.projectRoot self)
      absolutePath in
  Js.startsWith relativePath (J "..") = false
  /\ Js.includes absolutePath (J "..") = false
  /\ Js.startsWith absolutePath (FileAccessControl.projectRoot self) = true
  /\ FileAccessControl.isPathBlocked self relativePath = false
  /\ FileAccessControl.getFileExtension absolutePath
     ∈ FileAccessControl.allowedExtensions self
  /\ exists bytes,
       files w !! Fs.key rt absolutePath = Some bytes
       /\ (Z.of_nat (length bytes) <= FileAccessControl.maxFileSize self)%Z.

(** [relativePath.replace(/\\/g, '/')] *)
Definition slashes (p : Js.str) : Js.str :=
  List.map (fun c => if c =? 92 then Path.slash else c) p.

(** ** Effects on the world *)

(** The world after the proxy has logged one more operation. *)
Definition logged (w : World) (op path : Js.str) (ok : bool) : World :=
  {| files := files w; dirs := dirs w;
     interceptedOperations :=
       interceptedOperations w
       ++ [{| operation := op; op_path := path; success := ok |}] |}.

(** Whether a call returned rather than threw. *)
Definition returned {A} (r : Fs.Error + A) : bool :=
  match r with
  | inr _ => true
  | inl _ => false
  end.

(** A string without surrogates, all of whose units are below 2^16. *)
Definition bmp (s : Js.str) : bool :=
  forallb (fun c => negb (Buffer.isHigh c) && negb (Buffer.isLow c)
                    && (c <? 65536)) s.

(** ** More sample inputs *)

(** Ten line feeds: eleven empty lines. *)
Definition blankLines : Js.str := [10; 10; 10; 10; 10; 10; 10; 10; 10; 10].

(** A project at [/proj] with a source file, a package file and a
    dependency directory. *)
Definition sampleProject : World :=
  {| files := {[ J "/proj/src/app.ts" := J "let total = 1;";
                 J "/proj/package.json" := J "{}";
                 J "/proj/node_modules/lib/index.js" := J "x" ]};
     dirs := {[ J "/proj"; J "/proj/src"; J "/proj/node_modules";
                J "/proj/node_modules/lib" ]};
     interceptedOperations := [] |}.
(** ** Wildcard entries read as globs *)

(** Some split of [s] after a run without line terminators leaves a rest
    that satisfies [g]. *)
Fixpoint anyRun (g : Js.str -> bool) (s : Js.str) : bool :=
  g s
  || match s with
     | [] => false
     | ch :: s' => negb (RegExp.isLineTerminator ch) && anyRun g s'
     end.

(** [s] fits the entry [b] read as a glob: [*] stands for any run of
    units and [.] for any one unit, line terminators excepted; every
    other unit stands for itself. *)
Fixpoint fits (b s : Js.str) : bool :=
  match b with
  | [] => match s with [] => true | _ :: _ => false end
  | a :: b' =>
      if a =? 42 then anyRun (fits b') s
      else
        match s with
        | [] => false
        | ch :: s' =>
            (if a =? 46 then negb (RegExp.isLineTerminator ch) else ch =? a)
            && fits b' s'
        end
  end.

(** The pieces of the pattern [isPathBlocked] builds from a wildcard
    entry, after the leading [^]. *)
Definition globRe (b : Js.str) : list RegExp.Re :=
  List.map (fun c => if c =? 42 then RegExp.star RegExp.Dot
                     else if c =? 46 then RegExp.Dot else RegExp.Chr c) b
  ++ [RegExp.Eoi].

(** A project at [/proj] whose sandbox holds a file left from earlier
    work. *)
Definition staleSandbox : World :=
  {| files := {[ J "/proj/package.json" := J "{}";
                 J "/proj/.sentvibe/sandbox/old.txt" := J "stale" ]};
     dirs := {[ J "/proj"; J "/proj/.sentvibe"; J "/proj/.sentvibe/sandbox" ]};
     interceptedOperations := [] |}.

(** A security manager for the project at [/proj] whose encryption has
    been initialized. *)
Definition sampleSecurity : SecurityManager.t :=
  {| SecurityManager.fileAccessControl :=
       FileAccessControl.create sampleRuntime (J "/proj");
     SecurityManager.databaseEncryption := sampleEncryption;
     SecurityManager.securityConfig := SecurityManager.defaults |}.

(** A memory entry whose intent holds an API key. *)
Definition sampleEntry : SecurityManager.MemoryEntry :=
  {| SecurityManager.intent := Some apiKeyLine;
     SecurityManager.outcome := Some (J "stored the key");
     SecurityManager.codeSnippet := None;
     SecurityManager.entry_filePath := None |}.

(** * Properties *)
(* ===================================================================== *)

(** ** The deployment gate *)

Section GateFacts.
Import Gate.

Lemma gate_high file confidence :
  (95 <= confidence)%Z ->
  action (checkDeploymentPermission file confidence) = AutoDeploy
  /\ allowed (checkDeploymentPermission file confidence) = true.
Proof.
  intros H. unfold checkDeploymentPermission.
  destruct (Z.geb_spec confidence 95) as [_|Hlt]; [split; reflexivity|lia].
Qed.

Lemma gate_medium file confidence :
  (70 <= confidence < 95)%Z ->
  checkDeploymentPermission file confidence =
  {| allowed := false;
     reason := Js.concat [warningSign; J " Medium confidence (";
                          Js.ofZ confidence;
                          J "%) - requires human review"];
     action := RequestReview;
     reviewData := Some
       {| rd_confidence := confidence;
          risks := [J "Medium confidence score"];
          improvements := [J "Increase test coverage";
                           J "Add more validation"];
          similarImplementations := [] |};
     suggestions := None |}.
Proof.
  intros H. unfold checkDeploymentPermission.
  destruct (Z.geb_spec confidence 95); [lia|].
  destruct (Z.geb_spec confidence 70); [reflexivity|lia].
Qed.

Lemma gate_low file confidence :
  (confidence < 70)%Z ->
  action (checkDeploymentPermission file confidence) = ContinueSandboxTesting
  /\ allowed (checkDeploymentPermission file confidence) = false
  /\ reviewData (checkDeploymentPermission file confidence) = None
  /\ suggestions (checkDeploymentPermission file confidence) =
     Some [J "Add more comprehensive tests"; J "Improve code quality";
           J "Follow established patterns"; J "Add error handling"].
Proof.
  intros H. unfold checkDeploymentPermission.
  destruct (Z.geb_spec confidence 95); [lia|].
  destruct (Z.geb_spec confidence 70); [lia|].
  repeat split.
Qed.

Lemma gate_allows_iff file confidence :
  allowed (checkDeploymentPermission file confidence) = true
  <-> (95 <= confidence)%Z.
Proof.
  unfold checkDeploymentPermission.
  destruct (Z.geb_spec confidence 95); [simpl; split; [lia|reflexivity]|].
  destruct (Z.geb_spec confidence 70); simpl; split; (discriminate || lia).
Qed.

End GateFacts.

(** C2, amended.  The gate has three tiers, not four: every score below 70
    (the ranges 0..49 and 50..69 alike) gives the same
    continue-sandbox-testing decision, refused and carrying the same four
    suggestions; every score in 70..94 gives request-review; every score
    from 95 up gives auto-deploy; and no score gives the 'blocked' action. *)
Theorem gate_has_three_tiers (file : Js.str) (confidence : Z) :
  ((confidence < 70)%Z ->
     action (Gate.checkDeploymentPermission file confidence)
       = ContinueSandboxTesting
     /\ allowed (Gate.checkDeploymentPermission file confidence) = false
     /\ suggestions (Gate.checkDeploymentPermission file confidence) =
        Some [J "Add more comprehensive tests"; J "Improve code quality";
              J "Follow established patterns"; J "Add error handling"])
  /\ ((70 <= confidence <= 94)%Z ->
        action (Gate.checkDeploymentPermission file confidence) = RequestReview
        /\ allowed (Gate.checkDeploymentPermission file confidence) = false)
  /\ ((95 <= confidence)%Z ->
        action (Gate.checkDeploymentPermission file confidence) = AutoDeploy
        /\ allowed (Gate.checkDeploymentPermission file confidence) = true)
  /\ action (Gate.checkDeploymentPermission file confidence) <> Blocked.
Proof.
  repeat split.
  - apply gate_low; assumption.
  - apply gate_low; assumption.
  - apply gate_low; assumption.
  - rewrite gate_medium by lia. reflexivity.
  - rewrite gate_medium by lia. reflexivity.
  - apply gate_high; assumption.
  - apply gate_high; assumption.
  - destruct (Z_lt_le_dec confidence 70) as [Hl|Hl].
    + destruct (gate_low file confidence Hl) as [-> _]. discriminate.
    + destruct (Z_lt_le_dec confidence 95) as [Hm|Hm].
      * rewrite gate_medium by lia. discriminate.
      * destruct (gate_high file confidence Hm) as [-> _]. discriminate.
Qed.

(** The three tiers at 30, 60, 80 and 96. *)
Lemma gate_has_three_tiers_witness :
  (30 < 70)%Z /\ (70 <= 80 <= 94)%Z /\ (95 <= 96)%Z
  /\ action (Gate.checkDeploymentPermission (J "a.ts") 30)
       = ContinueSandboxTesting
  /\ action (Gate.checkDeploymentPermission (J "a.ts") 80) = RequestReview
  /\ action (Gate.checkDeploymentPermission (J "a.ts") 96) = AutoDeploy.
Proof.
  split; [lia|]. split; [lia|]. split; [lia|].
  split; [|split].
  - apply (gate_has_three_tiers (J "a.ts") 30). lia.
  - apply (gate_has_three_tiers (J "a.ts") 80). lia.
  - apply (gate_has_three_tiers (J "a.ts") 96). lia.
Defined.

(** C2 as stated fails: a score of 30 does not give the 'blocked' action,
    and the decisions for 30 (in 0..49) and for 60 (in 50..69) are of the
    same kind, with the same permission and the same suggestions. *)
Lemma gate_four_tiers_counterexample :
  action (Gate.checkDeploymentPermission (J "a.ts") 30) <> Blocked
  /\ action (Gate.checkDeploymentPermission (J "a.ts") 30)
     = action (Gate.checkDeploymentPermission (J "a.ts") 60)
  /\ allowed (Gate.checkDeploymentPermission (J "a.ts") 30)
     = allowed (Gate.checkDeploymentPermission (J "a.ts") 60)
  /\ suggestions (Gate.checkDeploymentPermission (J "a.ts") 30)
     = suggestions (Gate.checkDeploymentPermission (J "a.ts") 60)
  /\ reviewData (Gate.checkDeploymentPermission (J "a.ts") 30)
     = reviewData (Gate.checkDeploymentPermission (J "a.ts") 60).
Proof. repeat split. discriminate. Qed.

(** ** The matcher and the [lastIndex] of a global pattern *)

Section MatcherBounds.
Import RegExp.
Variable ic : bool.
Variable input : Js.str.

Lemma forward_here (x : nat) (c : nat -> option nat) z :
  c x = Some z ->
  exists y, (x <= y)%nat
            /\ ((x <= length input)%nat -> (y <= length input)%nat)
            /\ c y = Some z.
Proof. intros H. exists x. auto. Qed.

Lemma forward_step (x : nat) (c : nat -> option nat) z ch :
  input !! x = Some ch -> c (S x) = Some z ->
  exists y, (x <= y)%nat
            /\ ((x <= length input)%nat -> (y <= length input)%nat)
            /\ c y = Some z.
Proof.
  intros Hx H. apply lookup_lt_Some in Hx. exists (S x).
  repeat split; [lia | intros _; lia | assumption].
Qed.

Lemma repeatMatcher_forward fuel m :
  forward input m ->
  forall min max greedy, forward input (repeatMatcher fuel m min max greedy).
Proof.
  intros Hm. induction fuel as [|fuel IH]; intros min max greedy x c z H.
  - discriminate.
  - simpl in H.
    assert (Hd : forall r,
               (if Nat.eqb min 0 && Nat.eqb r x then None
                else repeatMatcher fuel m (Nat.pred min) (Nat.pred <$> max)
                       greedy r c) = Some z ->
               (x <= r)%nat ->
               exists y, (x <= y)%nat
                         /\ ((x <= length input)%nat ->
                             (r <= length input)%nat ->
                             (y <= length input)%nat)
                         /\ c y = Some z).
    { intros r Hr Hxr.
      destruct (Nat.eqb min 0 && Nat.eqb r x); [discriminate|].
      apply IH in Hr. destruct Hr as (y & Hy1 & Hy2 & Hy3).
      exists y. repeat split; [lia | auto | assumption]. }
    assert (Hvia : m x (fun y =>
               if Nat.eqb min 0 && Nat.eqb y x then None
               else repeatMatcher fuel m (Nat.pred min) (Nat.pred <$> max)
                      greedy y c) = Some z ->
               exists y, (x <= y)%nat
                 /\ ((x <= length input)%nat -> (y <= length input)%nat)
                 /\ c y = Some z).
    { intros Hmx. apply Hm in Hmx. destruct Hmx as (r & Hr1 & Hr2 & Hr3).
      destruct (Hd r Hr3 Hr1) as (y & Hy1 & Hy2 & Hy3).
      exists y. repeat split; [assumption | auto | assumption]. }
    destruct max as [[|k]|].
    + apply forward_here; assumption.
    + destruct (negb (Nat.eqb min 0)); [auto|].
      destruct (negb greedy).
      * destruct (c x) eqn:Hc; [apply forward_here; congruence | auto].
      * match type of H with
        | match ?e with _ => _ end = _ => destruct e eqn:He
        end; [rewrite <- H in *; auto | apply forward_here; assumption].
    + destruct (negb (Nat.eqb min 0)); [auto|].
      destruct (negb greedy).
      * destruct (c x) eqn:Hc; [apply forward_here; congruence | auto].
      * match type of H with
        | match ?e with _ => _ end = _ => destruct e eqn:He
        end; [rewrite <- H in *; auto | apply forward_here; assumption].
Qed.

Lemma compile_forward r : forward input (compile ic input r).
Proof.
  induction r as [ |a|invert items| |a IHa b IHb|a IHa b IHb
                  |min max greedy a IHa|a IHa| | | |a IHa];
    intros x c z H; simpl in H.
  - apply forward_here; assumption.
  - destruct (input !! x) as [ch|] eqn:Hx; [|discriminate].
    destruct (canon ic ch =? canon ic a); [|discriminate].
    eapply forward_step; eassumption.
  - destruct (input !! x) as [ch|] eqn:Hx; [|discriminate].
    destruct (xorb invert (existsb (itemMatch ic ch) items));
      [|discriminate].
    eapply forward_step; eassumption.
  - destruct (input !! x) as [ch|] eqn:Hx; [|discriminate].
    destruct (isLineTerminator ch); [discriminate|].
    eapply forward_step; eassumption.
  - apply IHa in H. destruct H as (y & Hy1 & Hy2 & Hy3).
    apply IHb in Hy3. destruct Hy3 as (y' & Hy1' & Hy2' & Hy3').
    exists y'. repeat split; [lia | auto | assumption].
  - destruct (compile ic input a x c) eqn:Ha.
    + apply IHa. congruence.
    + apply IHb. assumption.
  - eapply repeatMatcher_forward; eassumption.
  - apply IHa; assumption.
  - destruct (xorb (wordBefore input x) (wordAt input x)); [|discriminate].
    apply forward_here; assumption.
  - destruct (Nat.eqb x 0); [|discriminate].
    apply forward_here; assumption.
  - destruct (Nat.eqb x (length input)); [|discriminate].
    apply forward_here; assumption.
  - destruct (compile ic input a x (fun y => Some y)); [discriminate|].
    apply forward_here; assumption.
Qed.

Lemma matchAt_bounds r i e :
  matchAt ic input r i = Some e ->
  (i <= e)%nat /\ ((i <= length input)%nat -> (e <= length input)%nat).
Proof.
  intros H. apply compile_forward in H.
  destruct H as (y & Hy1 & Hy2 & Hy3). injection Hy3 as ->. auto.
Qed.

Lemma scan_bounds fuel r i a e :
  scan ic input fuel r i = Some (a, e) ->
  (i <= a)%nat /\ (a < i + fuel)%nat /\ (a <= e)%nat
  /\ ((a <= length input)%nat -> (e <= length input)%nat).
Proof.
  revert i. induction fuel as [|fuel IH]; intros i H; simpl in H.
  - discriminate.
  - destruct (matchAt ic input r i) as [e'|] eqn:Hm.
    + injection H as -> ->. apply matchAt_bounds in Hm.
      repeat split; try lia; tauto.
    + apply IH in H. repeat split; try lia; tauto.
Qed.

End MatcherBounds.

Section LastIndex.
Import RegExp.

Lemma setLastIndex_twice R i j :
  setLastIndex (setLastIndex R i) j = setLastIndex R j.
Proof. reflexivity. Qed.

Lemma setLastIndex_same R : setLastIndex R (lastIndex R) = R.
Proof. destruct R; reflexivity. Qed.

(** What [exec] leaves in a global pattern. *)
Lemma exec_global R S :
  global R = true ->
  match exec R S with
  | (Some (i, e), R') =>
      (lastIndex R <= i)%nat /\ (i <= e)%nat /\ (e <= length S)%nat
      /\ R' = setLastIndex R e
  | (None, R') => R' = setLastIndex R 0
  end.
Proof.
  intros Hg. unfold exec. rewrite Hg.
  destruct (scan (ignoreCase R) S (Datatypes.S (length S) - lastIndex R)
              (source R) (lastIndex R)) as [[i e]|] eqn:Hs.
  - apply scan_bounds in Hs. destruct Hs as (H1 & H2 & H3 & H4).
    assert (e <= length S)%nat by (apply H4; lia).
    repeat split; lia.
  - reflexivity.
Qed.

Lemma collect_resets fuel R S :
  global R = true ->
  (length S + 2 <= fuel + lastIndex R)%nat ->
  (lastIndex R <= length S + 1)%nat ->
  snd (collect fuel R S) = setLastIndex R 0.
Proof.
  revert R. induction fuel as [|fuel IH]; intros R Hg Hf Hl.
  - lia.
  - simpl. pose proof (exec_global R S Hg) as He.
    destruct (exec R S) as [[[i e]|] R'].
    + destruct He as (H1 & H2 & H3 & ->).
      set (R'' := if Nat.eqb e i
                  then setLastIndex (setLastIndex R e)
                         (Datatypes.S (lastIndex (setLastIndex R e)))
                  else setLastIndex R e).
      assert (Hg'' : global R'' = true)
        by (unfold R''; destruct (Nat.eqb e i); exact Hg).
      assert (Hl'' : (lastIndex R < lastIndex R'' <= length S + 1)%nat).
      { unfold R''. destruct (Nat.eqb_spec e i); simpl; lia. }
      specialize (IH R'' Hg'' ltac:(lia) ltac:(lia)).
      destruct (collect fuel R'' S) as [ms Rf]. simpl in *. subst Rf.
      unfold R''. destruct (Nat.eqb e i); reflexivity.
    + simpl. assumption.
Qed.

Lemma results_resets R S :
  global R = true -> snd (results R S) = setLastIndex R 0.
Proof.
  intros Hg. unfold results. rewrite Hg.
  rewrite collect_resets; [reflexivity | exact Hg | simpl; lia | simpl; lia].
Qed.

Lemma symMatch_resets S R :
  global R = true -> snd (symMatch S R) = setLastIndex R 0.
Proof.
  intros Hg. unfold symMatch. pose proof (results_resets R S Hg) as H.
  destruct (results R S) as [[|m ms] R']; exact H.
Qed.

Lemma replace_resets S R f :
  global R = true -> snd (replace S R f) = setLastIndex R 0.
Proof.
  intros Hg. unfold replace. pose proof (results_resets R S Hg) as H.
  destruct (results R S) as [ms R']; exact H.
Qed.

Lemma test_global R S :
  global R = true -> global (snd (test R S)) = true.
Proof.
  intros Hg. unfold test. pose proof (exec_global R S Hg) as He.
  destruct (exec R S) as [[[i e]|] R']; simpl.
  - destruct He as (_ & _ & _ & ->). exact Hg.
  - subst R'. exact Hg.
Qed.

End LastIndex.

(** ** ContentSanitizer: the shared patterns are left as they were found *)

Section SanitizerState.
Import RegExp ContentSanitizer.

Lemma rested_reset R : rested R -> setLastIndex R 0 = R.
Proof. intros [_ H]. rewrite <- H. apply setLastIndex_same. Qed.

Lemma sensitiveStep_rested content acc R :
  rested R -> snd (sensitiveStep content acc R) = R.
Proof.
  intros HR. pose proof HR as [Hg _]. unfold sensitiveStep.
  pose proof (symMatch_resets content R Hg) as Hm.
  destruct (symMatch content R) as [[matches|] p1]; simpl in Hm; subst p1.
  - pose proof (replace_resets (sanitizedContent acc) (setLastIndex R 0)
                  redact Hg) as Hr.
    destruct (replace (sanitizedContent acc) (setLastIndex R 0) redact)
      as [out p2].
    simpl in *. subst p2. exact (rested_reset R HR).
  - exact (rested_reset R HR).
Qed.

Lemma maliciousStep_rested content acc R :
  rested R -> snd (maliciousStep content acc R) = R.
Proof.
  intros HR. pose proof HR as [Hg _]. unfold maliciousStep, test.
  pose proof (exec_global R content Hg) as He.
  destruct (exec R content) as [[[i e]|] p1].
  - destruct He as (_ & _ & _ & ->).
    rewrite bool_decide_true by eauto.
    pose proof (replace_resets (sanitizedContent acc) (setLastIndex R e)
                  flag Hg) as Hr.
    destruct (replace (sanitizedContent acc) (setLastIndex R e) flag)
      as [out p2].
    simpl in *. subst p2. exact (rested_reset R HR).
  - subst p1. rewrite bool_decide_false by (intros [? ?]; discriminate).
    exact (rested_reset R HR).
Qed.

Lemma forEach_rested step table acc :
  (forall a R, rested R -> snd (step a R) = R) ->
  Forall rested table ->
  snd (forEach step table acc) = table.
Proof.
  intros Hstep Htable. revert acc.
  induction Htable as [|R table HR _ IH]; intros acc; simpl.
  - reflexivity.
  - pose proof (Hstep acc R HR) as H1.
    destruct (step acc R) as [acc1 R']. simpl in H1. subst R'.
    specialize (IH acc1).
    destruct (forEach step table acc1) as [acc2 rest]. simpl in *.
    congruence.
Qed.

Lemma SENSITIVE_PATTERNS_rested : Forall rested SENSITIVE_PATTERNS.
Proof. repeat constructor. Qed.

Lemma MALICIOUS_PATTERNS_rested : Forall rested MALICIOUS_PATTERNS.
Proof. repeat constructor. Qed.

(** A call on the freshly initialized statics hands them back unchanged. *)
Lemma sanitizeContent_restores content filePath :
  snd (sanitizeContent content filePath initial) = initial.
Proof.
  unfold sanitizeContent, initial. simpl sensitive. simpl malicious.
  pose proof (forEach_rested (sensitiveStep content) SENSITIVE_PATTERNS
                {| sanitizedContent := content; sensitiveDataFound := false;
                   maliciousPatterns := false; redactionCount := 0 |}
                (sensitiveStep_rested content) SENSITIVE_PATTERNS_rested)
    as H1.
  destruct (forEach (sensitiveStep content) SENSITIVE_PATTERNS _)
    as [r1 sens]. simpl in H1. subst sens.
  pose proof (forEach_rested (maliciousStep content) MALICIOUS_PATTERNS r1
                (maliciousStep_rested content) MALICIOUS_PATTERNS_rested)
    as H2.
  destruct (forEach (maliciousStep content) MALICIOUS_PATTERNS r1)
    as [r2 mal]. simpl in H2. subst mal. reflexivity.
Qed.

End SanitizerState.

Lemma session_initial history :
  session history ContentSanitizer.initial = ContentSanitizer.initial.
Proof.
  induction history as [|[content filePath] later IH]; simpl.
  - reflexivity.
  - rewrite sanitizeContent_restores. exact IH.
Qed.

(** C4.  Anywhere in a session, two successive calls of
    [sanitizeContent(c, p)] return the same result (sanitized content, both
    flags and the redaction count), and leave the shared patterns as the
    first call found them.  The patterns carry the g flag and [test] moves
    their [lastIndex]; the [replace] that follows a hit, or the miss itself,
    puts it back to 0.  (The gate, [Gate.checkDeploymentPermission], reads
    nothing but its arguments and keeps no state between calls.) *)
Theorem sanitizeContent_deterministic
    (history : list (Js.str * Js.str)) (c p : Js.str) :
  let st := session history ContentSanitizer.initial in
  let first := ContentSanitizer.sanitizeContent c p st in
  let second := ContentSanitizer.sanitizeContent c p (snd first) in
  fst second = fst first /\ snd second = snd first.
Proof.
  cbv zeta. rewrite session_initial.
  rewrite !sanitizeContent_restores. split; reflexivity.
Qed.

(** ** Redaction and flagging on the two sample inputs of the specification *)

(** C9.  Sanitizing the API-key line, at any point of a session, reports
    sensitive data, returns [const [REDACTED_API_KEY];] (so the output holds
    a typed placeholder) and the key no longer occurs in the output. *)
Theorem apiKey_is_redacted (history : list (Js.str * Js.str)) :
  let r := fst (ContentSanitizer.sanitizeContent apiKeyLine (J "test.js")
                  (session history ContentSanitizer.initial)) in
  ContentSanitizer.sensitiveDataFound r = true
  /\ ContentSanitizer.sanitizedContent r = J "const [REDACTED_API_KEY];"
  /\ Js.includes (ContentSanitizer.sanitizedContent r)
       (J "[REDACTED_" ++ Js.toUpperCase (J "api_key") ++ J "]") = true
  /\ Js.includes (ContentSanitizer.sanitizedContent r)
       (J "sk-1234567890abcdef1234567890abcdef") = false
  /\ ContentSanitizer.redactionCount r = 1%nat.
Proof.
  cbv zeta. rewrite session_initial. vm_compute. repeat split.
Qed.

(** C1 as stated fails: the sample content is reported malicious and yet
    the gate, given the score 96, answers auto-deploy and allows it. *)
Lemma gate_override_counterexample :
  ContentSanitizer.maliciousPatterns
    (fst (ContentSanitizer.sanitizeContent dangerLine (J "malicious.js")
            ContentSanitizer.initial)) = true
  /\ (95 <= 96 <= 100)%Z
  /\ action (Gate.checkDeploymentPermission (J "malicious.js") 96) = AutoDeploy
  /\ allowed (Gate.checkDeploymentPermission (J "malicious.js") 96) = true.
Proof. vm_compute. repeat split; discriminate. Qed.

(** C1, amended.  The gate decides on the number alone: for a candidate
    whose sanitization reports malicious patterns, as for any other, a score
    in 95..100 gives auto-deploy and permission, a score in 70..94 gives
    request-review. *)
Theorem gate_decides_on_score_alone
    (history : list (Js.str * Js.str)) (content label file : Js.str)
    (confidence : Z) :
  ContentSanitizer.maliciousPatterns
    (fst (ContentSanitizer.sanitizeContent content label
            (session history ContentSanitizer.initial))) = true ->
  ((95 <= confidence <= 100)%Z ->
     action (Gate.checkDeploymentPermission file confidence) = AutoDeploy
     /\ allowed (Gate.checkDeploymentPermission file confidence) = true)
  /\ ((70 <= confidence <= 94)%Z ->
        action (Gate.checkDeploymentPermission file confidence)
          = RequestReview
        /\ allowed (Gate.checkDeploymentPermission file confidence) = false).
Proof.
  intros _. split; intros H.
  - apply gate_high. lia.
  - rewrite gate_medium by lia. auto.
Qed.

Lemma gate_decides_on_score_alone_witness :
  ContentSanitizer.maliciousPatterns
    (fst (ContentSanitizer.sanitizeContent dangerLine (J "malicious.js")
            (session [] ContentSanitizer.initial))) = true
  /\ (95 <= 96 <= 100)%Z
  /\ action (Gate.checkDeploymentPermission (J "malicious.js") 96) = AutoDeploy.
Proof.
  assert (Hm : ContentSanitizer.maliciousPatterns
                 (fst (ContentSanitizer.sanitizeContent dangerLine
                         (J "malicious.js")
                         (session [] ContentSanitizer.initial))) = true)
    by (vm_compute; reflexivity).
  split; [exact Hm|]. split; [lia|].
  apply (gate_decides_on_score_alone [] dangerLine (J "malicious.js")
           (J "malicious.js") 96 Hm). lia.
Defined.

(** ** The scorer *)

Lemma calculateTotalConfidence_sum m :
  Gate.calculateTotalConfidence m = sumOfSix m.
Proof.
  unfold Gate.calculateTotalConfidence, Gate.values, sumOfSix. simpl. lia.
Qed.

Ltac unfold_monad :=
  unfold mbind, M_bind, mret, M_ret, Fs.bind, Fs.try_, Fs.ret, Fs.throw in *.

Section ScorerFacts.
Import ConfidenceCalculator.
Variable rt : Runtime.

Lemma existsSync_pure p w :
  Fs.existsSync rt p w
  = (inr (Fs.isFile w (Fs.key rt p) || Fs.isDir w (Fs.key rt p)), w).
Proof. reflexivity. Qed.


Lemma validateTypeScript_range code :
  (0 <= validateTypeScript rt code <= 20)%Z.
Proof. unfold validateTypeScript. destruct (tsDiagnostics rt code); lia. Qed.

Lemma scoreByExtension_range ext content :
  (0 <= scoreByExtension rt ext content <= 20)%Z.
Proof.
  unfold scoreByExtension, validateJavaScript, validatePython.
  pose proof (validateTypeScript_range content).
  repeat match goal with
         | |- context [if ?b then _ else _] => destruct b
         end; lia.
Qed.

Lemma validateSyntax_range filePath code w :
  exists v, validateSyntax rt filePath code w = (inr v, w)
            /\ (0 <= v <= 20)%Z.
Proof.
  unfold validateSyntax. unfold_monad.
  destruct code as [[|c cs]|]; unfold Fs.readFileSync;
    try destruct (files w !! Fs.key rt filePath);
    (eexists; split;
     [reflexivity | first [apply scoreByExtension_range | lia]]).
Qed.

Lemma firstExisting_pure self patterns w :
  exists o, firstExisting rt self patterns w = (inr o, w).
Proof.
  induction patterns as [|pattern rest IH]; simpl.
  - eexists; reflexivity.
  - unfold_monad. rewrite existsSync_pure.
    destruct (_ || _); [eexists; reflexivity | exact IH].
Qed.

Lemma runTests_range self filePath w :
  exists v, runTests rt self filePath w = (inr v, w)
            /\ (v = 15 \/ v = 20)%Z.
Proof.
  unfold runTests, findTestFile. unfold_monad.
  match goal with
  | |- context [firstExisting rt self ?ps w] =>
      destruct (firstExisting_pure self ps w) as [o ->]
  end.
  destruct o; eexists; split; try reflexivity; auto.
Qed.

Lemma calculateConfidence_spec self filePath code w :
  exists v1 v2,
    calculateConfidence rt self filePath code w
    = (inr {| syntaxValidation := v1; testExecution := v2;
              patternAlignment := 15; memoryConsistency := 12;
              riskAssessment := 8; performanceImpact := 9 |}, w)
    /\ (0 <= v1 <= 20)%Z /\ (v2 = 15 \/ v2 = 20)%Z.
Proof.
  unfold calculateConfidence.
  destruct (validateSyntax_range filePath code w) as (v1 & -> & H1).
  destruct (runTests_range self filePath w) as (v2 & -> & H2).
  exists v1, v2. repeat split; try tauto; lia.
Qed.

End ScorerFacts.

(** C7.  Whatever the tools answer and whatever the file system holds, the
    metrics [ConfidenceCalculator.calculateConfidence] returns have every
    sub-score inside its declared range, and their total (the plain sum
    [calculateTotalConfidence] takes) equals that sum clamped to 0..100 and
    so lies in 0..100.  The same holds of the two fixed metrics objects of
    SandboxManager. *)
Theorem scorer_metrics_bounded
    (rt : Runtime) (self : ConfidenceCalculator.t) (filePath : Js.str)
    (code : option Js.str) (w : World) :
  (exists m,
     ConfidenceCalculator.calculateConfidence rt self filePath code w
     = (inr m, w)
     /\ inRanges m
     /\ Gate.calculateTotalConfidence m = clamp 0 100 (sumOfSix m)
     /\ (0 <= Gate.calculateTotalConfidence m <= 100)%Z)
  /\ (inRanges Gate.calculateConfidenceMetrics
      /\ Gate.calculateTotalConfidence Gate.calculateConfidenceMetrics
         = clamp 0 100 (sumOfSix Gate.calculateConfidenceMetrics))
  /\ (inRanges Gate.getEmptyMetrics
      /\ Gate.calculateTotalConfidence Gate.getEmptyMetrics
         = clamp 0 100 (sumOfSix Gate.getEmptyMetrics)).
Proof.
  split; [|split].
  - destruct (calculateConfidence_spec rt self filePath code w)
      as (v1 & v2 & -> & H1 & H2).
    eexists. split; [reflexivity|].
    rewrite calculateTotalConfidence_sum.
    unfold inRanges, clamp, sumOfSix. simpl. lia.
  - unfold inRanges, clamp. vm_compute. intuition discriminate.
  - unfold inRanges, clamp. vm_compute. intuition discriminate.
Qed.

(** The scorer never reaches the auto-deploy threshold. *)
Lemma computed_confidence_at_most_84 rt self filePath w :
  exists z, SandboxManager.calculateConfidence rt self filePath w = (inr z, w)
            /\ (0 <= z <= 84)%Z.
Proof.
  unfold SandboxManager.calculateConfidence,
    SandboxManager.calculateProjectConfidence. unfold_monad.
  destruct filePath as [[|c cs]|]; simpl.
  - exists 0%Z. split; [reflexivity|lia].
  - destruct (calculateConfidence_spec rt
                (SandboxManager.confidenceCalculator self) (c :: cs) None w)
      as (v1 & v2 & -> & H1 & H2).
    eexists. split; [reflexivity|].
    rewrite calculateTotalConfidence_sum. unfold sumOfSix. simpl. lia.
  - exists 0%Z. split; [reflexivity|lia].
Qed.

(** ** Deployment *)

Section DeployFacts.
Import SandboxManager.
Variable rt : Runtime.







(** Without [force] the gate is asked, and the scorer never reaches 95:
    nothing is ever deployed. *)
Lemma unforced_deploy_is_denied self filePath w :
  deployToRealFiles rt self filePath false w = (inr false, w).
Proof.
  unfold deployToRealFiles, deployWith, deployBody. unfold_monad.
  rewrite existsSync_pure.
  destruct (negb (_ || _)); [reflexivity|]. simpl.
  destruct (computed_confidence_at_most_84 rt self (Some filePath) w)
    as (z & -> & Hz).
  assert (Ha : allowed (Gate.checkDeploymentPermission filePath z) = false).
  { destruct (allowed _) eqn:E; [|reflexivity].
    apply gate_allows_iff in E. lia. }
  rewrite Ha. reflexivity.
Qed.

End DeployFacts.



(** ** Paths *)

Section PathFacts.
Import Path.

Lemma split_nonempty p : split p <> [].
Proof.
  destruct p as [|c p]; simpl; [discriminate|].
  destruct (c =? slash); [discriminate|].
  destruct (split p); discriminate.
Qed.

Lemma split_app_slash a b : split (a ++ slash :: b) = split a ++ split b.
Proof.
  induction a as [|c a IH]; simpl.
  - reflexivity.
  - destruct (c =? slash); [rewrite IH; reflexivity|].
    rewrite IH. pose proof (split_nonempty a).
    destruct (split a); [contradiction|reflexivity].
Qed.

Lemma split_slashFree seg : slash ∉ seg -> split seg = [seg].
Proof.
  induction seg as [|c seg IH]; intros H; simpl; [reflexivity|].
  destruct (N.eqb_spec c slash) as [->|Hc].
  - exfalso. apply H. left.
  - rewrite IH; [reflexivity|]. intros Hin. apply H. right. exact Hin.
Qed.

Lemma split_all_slashFree p : Forall (fun seg => slash ∉ seg) (split p).
Proof.
  induction p as [|c p IH]; simpl.
  - constructor; [|constructor]. intros H. inversion H.
  - destruct (N.eqb_spec c slash) as [->|Hc].
    + constructor; [|exact IH]. intros H. inversion H.
    + destruct (split p) as [|seg segs]; [repeat constructor|].
      * intros H. inversion H; subst; [congruence|].
        match goal with H' : _ ∈ [] |- _ => inversion H' end.
      * inversion IH; subst. constructor; [|assumption].
        intros H. inversion H; subst; [congruence|contradiction].
Qed.

Lemma split_unsplit segs :
  segs <> [] -> Forall (fun seg => slash ∉ seg) segs ->
  split (unsplit segs) = segs.
Proof.
  induction segs as [|seg segs IH]; intros Hne Hall; [contradiction|].
  inversion Hall; subst. destruct segs as [|seg' segs].
  - simpl. apply split_slashFree. assumption.
  - change (unsplit (seg :: seg' :: segs))
      with (seg ++ slash :: unsplit (seg' :: segs)).
    rewrite split_app_slash, split_slashFree by assumption.
    rewrite IH by (discriminate || assumption). reflexivity.
Qed.

Lemma clean_slashFree segs :
  Forall clean segs -> Forall (fun seg => slash ∉ seg) segs.
Proof.
  intros Hall. eapply Forall_impl; [exact Hall|].
  intros seg (_ & _ & _ & H). exact H.
Qed.

Lemma pushSeg_empty allow stack : pushSeg allow stack [] = stack.
Proof. reflexivity. Qed.

Lemma pushSeg_clean allow stack seg :
  clean seg -> pushSeg allow stack seg = seg :: stack.
Proof.
  intros (H1 & H2 & H3 & _). unfold pushSeg, isDots.
  rewrite !bool_decide_false by assumption. reflexivity.
Qed.

Lemma fold_pushSeg_clean allow segs stack :
  Forall clean segs ->
  fold_left (pushSeg allow) segs stack = rev segs ++ stack.
Proof.
  intros H. revert stack. induction H as [|seg segs Hs _ IH]; intros stack.
  - reflexivity.
  - simpl. rewrite pushSeg_clean by assumption. rewrite IH.
    rewrite <- app_assoc. reflexivity.
Qed.

(** Without [allowAboveRoot] the stack only ever holds clean segments. *)
Lemma pushSeg_keeps_clean stack seg :
  slash ∉ seg -> Forall clean stack ->
  Forall clean (pushSeg false stack seg).
Proof.
  intros Hs Hst. unfold pushSeg, isDots.
  destruct (bool_decide_reflect (seg = [])); simpl; [assumption|].
  destruct (bool_decide_reflect (seg = [dot])); simpl; [assumption|].
  destruct (bool_decide_reflect (seg = [dot; dot])).
  - destruct stack as [|top below]; [constructor|].
    inversion Hst; subst.
    destruct (bool_decide (top = [dot; dot])); assumption.
  - constructor; [|assumption]. repeat split; assumption.
Qed.

Lemma fold_pushSeg_keeps_clean segs stack :
  Forall (fun seg => slash ∉ seg) segs -> Forall clean stack ->
  Forall clean (fold_left (pushSeg false) segs stack).
Proof.
  intros H. revert stack. induction H as [|seg segs Hs _ IH]; intros stack Hst.
  - assumption.
  - simpl. apply IH. apply pushSeg_keeps_clean; assumption.
Qed.

Lemma normalizeSegs_clean p : Forall clean (normalizeSegs false p).
Proof.
  unfold normalizeSegs. apply Forall_rev.
  apply fold_pushSeg_keeps_clean; [apply split_all_slashFree|constructor].
Qed.


(** The stack after the segments of an absolute path in normal form. *)
Lemma fold_split_keyOf allow segs :
  Forall clean segs ->
  fold_left (pushSeg allow) (split (Fs.keyOf segs)) [] = rev segs.
Proof.
  intros H. unfold Fs.keyOf. simpl.
  destruct segs as [|seg segs].
  - reflexivity.
  - rewrite split_unsplit; [|discriminate|apply clean_slashFree, H].
    rewrite pushSeg_empty, fold_pushSeg_clean by assumption.
    apply app_nil_r.
Qed.

(** Normalizing an absolute normal form followed by more text. *)
Lemma normalizeSegs_keyOf_app allow segs p :
  Forall clean segs ->
  normalizeSegs allow (Fs.keyOf segs ++ slash :: p)
  = rev (fold_left (pushSeg allow) (split p) (rev segs)).
Proof.
  intros H. unfold normalizeSegs.
  rewrite split_app_slash, fold_left_app, fold_split_keyOf by assumption.
  reflexivity.
Qed.

Lemma normalizeSegs_keyOf allow segs :
  Forall clean segs -> normalizeSegs allow (Fs.keyOf segs) = segs.
Proof.
  intros H. unfold normalizeSegs. rewrite fold_split_keyOf by assumption.
  apply rev_involutive.
Qed.

Lemma keyOf_absolute segs : isAbsolute (Fs.keyOf segs) = true.
Proof. reflexivity. Qed.

(** What [resolve] is given to normalize, for one argument. *)
Lemma resolveLoop_one cwd p :
  resolveLoop cwd [p] [] =
  match p with
  | [] => (cwd ++ [slash], isAbsolute cwd)
  | _ => if isAbsolute p then (p ++ [slash], true)
         else (cwd ++ slash :: p ++ [slash], isAbsolute cwd)
  end.
Proof.
  destruct p as [|c p]; [reflexivity|]. simpl.
  destruct (c =? slash); reflexivity.
Qed.

Lemma resolveLoop_anchored cwd p :
  anchored cwd p -> snd (resolveLoop cwd [p] []) = true.
Proof.
  intros H. rewrite resolveLoop_one. destruct p as [|c p].
  - destruct H as [H|H]; simpl in *; congruence.
  - destruct (isAbsolute (c :: p)) eqn:E; [reflexivity|].
    destruct H as [H|H]; simpl in *; congruence.
Qed.

(** A resolved path is the slash-joined list of its segments. *)
Lemma resolve_keyOf cwd p :
  anchored cwd p -> resolve cwd [p] = Fs.keyOf (resolveSegs cwd [p]).
Proof.
  intros H. apply resolveLoop_anchored in H.
  unfold resolve, resolveSegs. simpl rev.
  destruct (resolveLoop cwd [p] []) as [text abs]. simpl in H. subst abs.
  reflexivity.
Qed.

Lemma resolveSegs_clean cwd p :
  anchored cwd p -> Forall clean (resolveSegs cwd [p]).
Proof.
  intros H. apply resolveLoop_anchored in H.
  unfold resolveSegs. simpl rev.
  destruct (resolveLoop cwd [p] []) as [text abs]. simpl in H. subst abs.
  apply normalizeSegs_clean.
Qed.

(** Resolving a normal form, with or without a trailing slash, gives its
    segments back. *)
Lemma resolveSegs_keyOf cwd segs tr :
  Forall clean segs -> tr = [] \/ tr = [slash] ->
  resolveSegs cwd [Fs.keyOf segs ++ tr] = segs.
Proof.
  intros H Htr. unfold resolveSegs. simpl rev. rewrite resolveLoop_one.
  change (Fs.keyOf segs ++ tr) with (slash :: (unsplit segs ++ tr)).
  change (isAbsolute (slash :: unsplit segs ++ tr)) with true.
  cbv iota beta. simpl negb.
  change (slash :: unsplit segs ++ tr) with (Fs.keyOf segs ++ tr).
  rewrite <- app_assoc.
  destruct Htr as [-> | ->]; simpl app.
  - change (slash :: unsplit segs ++ [slash])
      with (Fs.keyOf segs ++ slash :: []).
    rewrite normalizeSegs_keyOf_app by assumption. apply rev_involutive.
  - change (slash :: unsplit segs ++ [slash; slash])
      with (Fs.keyOf segs ++ slash :: [slash]).
    rewrite normalizeSegs_keyOf_app by assumption. apply rev_involutive.
Qed.

Lemma key_keyOf rt segs tr :
  Forall clean segs -> tr = [] \/ tr = [slash] ->
  Fs.key rt (Fs.keyOf segs ++ tr) = Fs.keyOf segs.
Proof.
  intros H Htr. unfold Fs.key.
  rewrite resolve_keyOf by (right; reflexivity).
  rewrite resolveSegs_keyOf by assumption. reflexivity.
Qed.

End PathFacts.

(** ** FileAccessControl: paths outside the project root *)

Section TraversalFacts.
Import Path.

Lemma stripCommon_prefix (a b : list Js.str) :
  fst (stripCommon a b) = [] -> a `prefix_of` b.
Proof.
  revert b. induction a as [|x a IH]; intros b H.
  - apply prefix_nil.
  - destruct b as [|y b]; simpl in H; [discriminate|].
    destruct (bool_decide_reflect (x = y)) as [->|Hne]; [|discriminate].
    apply prefix_cons. apply IH. exact H.
Qed.

Lemma unsplit_dots_first (l : list Js.str) :
  Js.startsWith (unsplit ([dot; dot] :: l)) (J "..") = true.
Proof. destruct l; reflexivity. Qed.

Lemma relative_outside rt root p :
  isAbsolute (cwd rt) = true ->
  ~ within rt root p ->
  Js.startsWith
    (relative (cwd rt) (resolve (cwd rt) [root]) (resolve (cwd rt) [p]))
    (J "..") = true.
Proof.
  intros Hcwd Hout. unfold within in Hout.
  assert (Hr : anchored (cwd rt) root) by (left; exact Hcwd).
  assert (Hp : anchored (cwd rt) p) by (left; exact Hcwd).
  pose proof (resolveSegs_clean (cwd rt) root Hr) as Hrc.
  pose proof (resolveSegs_clean (cwd rt) p Hp) as Hpc.
  rewrite (resolve_keyOf _ _ Hr), (resolve_keyOf _ _ Hp).
  set (rs := resolveSegs (cwd rt) [root]) in *.
  set (ps := resolveSegs (cwd rt) [p]) in *.
  assert (Hrs : resolveSegs (cwd rt) [Fs.keyOf rs] = rs).
  { rewrite <- (app_nil_r (Fs.keyOf rs)).
    apply resolveSegs_keyOf; auto. }
  assert (Hps : resolveSegs (cwd rt) [Fs.keyOf ps] = ps).
  { rewrite <- (app_nil_r (Fs.keyOf ps)).
    apply resolveSegs_keyOf; auto. }
  unfold relative.
  destruct (bool_decide_reflect (Fs.keyOf rs = Fs.keyOf ps)) as [Heq|_].
  - exfalso. apply Hout. rewrite <- Hrs, Heq, Hps. reflexivity.
  - rewrite Hrs, Hps.
    destruct (stripCommon rs ps) as [f t] eqn:Hs.
    destruct f as [|x f].
    + exfalso. apply Hout. apply stripCommon_prefix. rewrite Hs. reflexivity.
    + simpl List.map. simpl app. apply unsplit_dots_first.
Qed.

End TraversalFacts.

(** C6.  A path that resolves outside the project root is refused by
    [validateFilePath] with a path reason ('Directory traversal detected'),
    whatever the file system holds. *)
Theorem validateFilePath_rejects_outside
    (rt : Runtime) (root filePath : Js.str) (w : World) :
  Path.isAbsolute (cwd rt) = true ->
  ~ within rt root filePath ->
  pathViolation
    (FileAccessControl.validateFilePath rt (FileAccessControl.create rt root)
       filePath w).
Proof.
  intros Hcwd Hout.
  unfold FileAccessControl.validateFilePath, FileAccessControl.validateBody.
  unfold_monad.
  change (FileAccessControl.projectRoot (FileAccessControl.create rt root))
    with (Path.resolve (cwd rt) [root]).
  rewrite (relative_outside rt root filePath Hcwd Hout). simpl.
  split; [reflexivity | left; reflexivity].
Qed.

(** [../../etc/passwd] against the project [/proj], from inside it. *)
Lemma validateFilePath_rejects_outside_witness :
  Path.isAbsolute (cwd sampleRuntime) = true
  /\ ~ within sampleRuntime (J "/proj") (J "../../etc/passwd")
  /\ pathViolation
       (FileAccessControl.validateFilePath sampleRuntime
          (FileAccessControl.create sampleRuntime (J "/proj"))
          (J "../../etc/passwd") sampleWorld).
Proof.
  assert (Hout : ~ within sampleRuntime (J "/proj") (J "../../etc/passwd")).
  { intros [k Hk]. vm_compute in Hk. discriminate Hk. }
  split; [reflexivity|]. split; [exact Hout|].
  apply (validateFilePath_rejects_outside sampleRuntime (J "/proj")
           (J "../../etc/passwd") sampleWorld); [reflexivity | exact Hout].
Defined.

(** ** Joined paths and their directory *)

Section JoinFacts.
Import Path.

Lemma unsplit_nil_iff (segs : list Js.str) :
  Forall clean segs -> unsplit segs = [] -> segs = [].
Proof.
  intros H. destruct segs as [|seg segs]; [reflexivity|].
  inversion H as [|? ? (Hne & _) _]; subst.
  destruct segs; simpl; destruct seg; try contradiction; discriminate.
Qed.

(** [normalize] of an absolute path: the slash-joined normal segments,
    and the trailing slash if the path had one. *)
Lemma normalize_absolute q :
  isAbsolute q = true ->
  exists tr, (tr = [] \/ tr = [slash])
             /\ normalize q = Fs.keyOf (normalizeSegs false q) ++ tr.
Proof.
  intros Habs. destruct q as [|c q]; [discriminate|].
  unfold normalize. rewrite Habs. simpl negb. unfold normalizeString.
  pose proof (normalizeSegs_clean (c :: q)) as Hclean.
  set (segs := normalizeSegs false (c :: q)) in *.
  destruct (unsplit segs) as [|x xs] eqn:Hu.
  - exists []. split; [left; reflexivity|].
    unfold Fs.keyOf. rewrite Hu. reflexivity.
  - destruct (endsWithSlash (c :: q)).
    + exists [slash]. split; [right; reflexivity|].
      unfold Fs.keyOf. rewrite Hu. reflexivity.
    + exists []. split; [left; reflexivity|].
      unfold Fs.keyOf. rewrite Hu, app_nil_r. reflexivity.
Qed.

Lemma unsplit_absolute a rest :
  isAbsolute a = true -> isAbsolute (unsplit (a :: rest)) = true.
Proof.
  intros H. destruct a as [|c a]; [discriminate|].
  destruct rest; exact H.
Qed.

Lemma join_absolute a rest :
  isAbsolute a = true ->
  exists tr,
    (tr = [] \/ tr = [slash])
    /\ join (a :: rest)
       = Fs.keyOf (normalizeSegs false
                     (unsplit (a :: filter (fun x => x <> []) rest))) ++ tr.
Proof.
  intros Habs. unfold join.
  assert (Ha : a <> []) by (intros ->; discriminate).
  rewrite filter_cons_True by exact Ha.
  apply normalize_absolute, unsplit_absolute, Habs.
Qed.


Lemma normalizeSegs_keyOf_tr segs tr :
  Forall clean segs -> tr = [] \/ tr = [slash] ->
  normalizeSegs false (Fs.keyOf segs ++ tr) = segs.
Proof.
  intros H [-> | ->].
  - rewrite app_nil_r. apply normalizeSegs_keyOf, H.
  - rewrite normalizeSegs_keyOf_app by exact H. apply rev_involutive.
Qed.


Lemma unsplit_snoc (init : list Js.str) (seg : Js.str) :
  init <> [] -> unsplit (init ++ [seg]) = unsplit init ++ slash :: seg.
Proof.
  induction init as [|x init IH]; intros Hne; [contradiction|].
  destruct init as [|y init].
  - reflexivity.
  - change (unsplit ((x :: y :: init) ++ [seg]))
      with (x ++ slash :: unsplit ((y :: init) ++ [seg])).
    rewrite IH by discriminate.
    change (unsplit (x :: y :: init)) with (x ++ slash :: unsplit (y :: init)).
    rewrite <- app_assoc. reflexivity.
Qed.

Lemma dirScan_segment (seg rest : Js.str) (b : bool) :
  slash ∉ seg -> seg <> [] -> dirScan (seg ++ rest) b = dirScan rest false.
Proof.
  revert b. induction seg as [|c seg IH]; intros b Hs Hne; [contradiction|].
  simpl. destruct (N.eqb_spec c slash) as [->|Hc].
  - exfalso. apply Hs. left.
  - destruct seg as [|c' seg]; [reflexivity|].
    apply IH; [|discriminate]. intros Hin. apply Hs. right. exact Hin.
Qed.

Lemma rev_slashFree (seg : Js.str) : slash ∉ seg -> slash ∉ rev seg.
Proof.
  intros H Hin. apply H. apply list_elem_of_In.
  apply list_elem_of_In in Hin. apply (proj2 (in_rev _ _)) in Hin. exact Hin.
Qed.

(** [dirname] of an absolute normal form drops its last segment. *)
Lemma dirname_keyOf segs tr :
  Forall clean segs -> tr = [] \/ tr = [slash] ->
  dirname (Fs.keyOf segs ++ tr) = Fs.keyOf (removelast segs).
Proof.
  intros Hclean Htr.
  change (Fs.keyOf segs ++ tr) with (slash :: (unsplit segs ++ tr)).
  unfold dirname. rewrite N.eqb_refl.
  assert (Hskip : forall X, dirScan (rev tr ++ X) true = dirScan X true).
  { intros X. destruct Htr as [-> | ->]; reflexivity. }
  rewrite rev_app_distr, Hskip.
  induction segs as [|sn init _] using rev_ind.
  - reflexivity.
  - rewrite removelast_last.
    apply Forall_app in Hclean. destruct Hclean as [Hinit Hsn].
    inversion Hsn as [|? ? (Hsn1 & _ & _ & Hsn2) _]; subst.
    assert (Hrevne : rev sn <> []).
    { intros E. apply Hsn1. rewrite <- (rev_involutive sn), E. reflexivity. }
    destruct init as [|x init].
    + simpl unsplit. rewrite <- (app_nil_r (rev sn)).
      rewrite dirScan_segment by (apply rev_slashFree, Hsn2 || exact Hrevne).
      reflexivity.
    + rewrite unsplit_snoc by discriminate.
      rewrite rev_app_distr. simpl rev at 1. rewrite <- app_assoc.
      rewrite dirScan_segment by (apply rev_slashFree, Hsn2 || exact Hrevne).
      change (Fs.keyOf (x :: init)) with (slash :: unsplit (x :: init)).
      assert (Hu : unsplit (x :: init) <> []).
      { intros Hu. apply unsplit_nil_iff in Hu; [discriminate|exact Hinit]. }
      set (u := unsplit (x :: init)) in *.
      simpl. destruct (rev u) as [|r rs] eqn:Hr.
      * exfalso. apply Hu.
        rewrite <- (rev_involutive u), Hr. reflexivity.
      * rewrite <- Hr, rev_involutive. reflexivity.
Qed.

End JoinFacts.

Section ParentFacts.
Import Path.

Lemma clean_removelast (segs : list Js.str) :
  Forall clean segs -> Forall clean (removelast segs).
Proof.
  induction segs as [|sn init _] using rev_ind; intros H; [constructor|].
  rewrite removelast_last. apply Forall_app in H. tauto.
Qed.

(** For a path joined onto an absolute one, the directory [dirname] names
    is the parent directory of the resolved path. *)
Lemma dirname_is_parent rt a rest :
  isAbsolute a = true ->
  Fs.key rt (dirname (join (a :: rest))) = Fs.parentKey rt (join (a :: rest)).
Proof.
  intros Habs. destruct (join_absolute a rest Habs) as (tr & Htr & ->).
  match goal with
  | |- context [Fs.keyOf (normalizeSegs false ?q)] =>
      pose proof (normalizeSegs_clean q) as Hc;
      set (segs := normalizeSegs false q) in *
  end.
  rewrite dirname_keyOf by assumption.
  unfold Fs.parentKey. rewrite resolveSegs_keyOf by assumption.
  transitivity (Fs.key rt (Fs.keyOf (removelast segs) ++ [])).
  - rewrite app_nil_r. reflexivity.
  - apply key_keyOf; [apply clean_removelast, Hc | left; reflexivity].
Qed.

End ParentFacts.

Section ForcedDeploy.
Import SandboxManager.
Variable rt : Runtime.

Lemma denied_at_medium_confidence self filePath confidence w :
  (70 <= confidence <= 94)%Z ->
  deployWith rt self (fun _ => Fs.ret confidence) filePath false w
  = (inr false, w).
Proof.
  intros H. unfold deployWith, deployBody. unfold_monad.
  rewrite existsSync_pure.
  destruct (negb (_ || _)); [reflexivity|]. simpl.
  rewrite gate_medium by lia. reflexivity.
Qed.

(** With [force], a file of the mirror is copied to the real tree as soon
    as the file system lets it be written; nothing else is consulted. *)
Lemma forced_deploy_copies self filePath bytes w :
  Path.isAbsolute (projectPath self) = true ->
  files w !! Fs.key rt (Path.join [sandboxPath self; filePath]) = Some bytes ->
  Fs.isDir w (Fs.parentKey rt (Path.join [projectPath self; filePath])) = true ->
  Fs.isDir w (Fs.key rt (Path.join [projectPath self; filePath])) = false ->
  deployToRealFiles rt self filePath true w
  = (inr true,
     {| files := <[Fs.key rt (Path.join [projectPath self; filePath])
                   := Buffer.utf8Write (Buffer.utf8ToString bytes)]> (files w);
        dirs := dirs w;
        interceptedOperations := interceptedOperations w |}).
Proof.
  intros Habs Hmirror Hparent Htarget.
  unfold deployToRealFiles, deployWith, deployBody, copyToRealFiles.
  unfold_monad. rewrite !existsSync_pure.
  assert (Hfile : Fs.isFile w (Fs.key rt (Path.join [sandboxPath self; filePath]))
                  = true).
  { unfold Fs.isFile. apply bool_decide_eq_true. rewrite Hmirror. eauto. }
  rewrite Hfile. simpl.
  unfold Fs.readFileSync. rewrite Hmirror.
  rewrite (dirname_is_parent rt (projectPath self) [filePath] Habs).
  rewrite Hparent, orb_true_r. simpl.
  unfold Fs.writeFileSync. rewrite Htarget, Hparent. reflexivity.
Qed.

End ForcedDeploy.

(** C5, amended.  Without [force], a computed confidence of 80 (any value in
    70..94) makes [deployToRealFiles] return [false] on a request-review
    decision and leave everything as it was.  With [force] the gate is
    skipped and no access policy is consulted either: a file present in the
    mirror is copied to the real tree and [true] returned as soon as the
    target's directory exists and the target is not itself a directory,
    whatever its path or extension. *)
Theorem deploy_gate_and_force
    (rt : Runtime) (self : SandboxManager.t) (filePath : Js.str) (w : World) :
  (forall confidence,
     (70 <= confidence <= 94)%Z ->
     SandboxManager.deployWith rt self (fun _ => Fs.ret confidence)
       filePath false w = (inr false, w)
     /\ action (Gate.checkDeploymentPermission filePath confidence)
        = RequestReview)
  /\ (forall bytes,
        Path.isAbsolute (SandboxManager.projectPath self) = true ->
        files w !! Fs.key rt (Path.join [SandboxManager.sandboxPath self;
                                         filePath]) = Some bytes ->
        Fs.isDir w (Fs.parentKey rt
                      (Path.join [SandboxManager.projectPath self; filePath]))
        = true ->
        Fs.isDir w (Fs.key rt
                      (Path.join [SandboxManager.projectPath self; filePath]))
        = false ->
        SandboxManager.deployToRealFiles rt self filePath true w
        = (inr true,
           {| files :=
                <[Fs.key rt (Path.join [SandboxManager.projectPath self;
                                        filePath])
                  := Buffer.utf8Write (Buffer.utf8ToString bytes)]> (files w);
              dirs := dirs w;
              interceptedOperations := interceptedOperations w |})).
Proof.
  split.
  - intros confidence H. split.
    + apply denied_at_medium_confidence, H.
    + rewrite gate_medium by lia. reflexivity.
  - intros bytes. apply forced_deploy_copies.
Qed.

Lemma deploy_gate_and_force_witness :
  (70 <= 80 <= 94)%Z
  /\ SandboxManager.deployWith sampleRuntime sampleManager
       (fun _ => Fs.ret 80%Z) (J "evil.exe") false sampleWorld
     = (inr false, sampleWorld)
  /\ fst (SandboxManager.deployToRealFiles sampleRuntime sampleManager
            (J "evil.exe") true sampleWorld) = inr true.
Proof.
  split; [lia|]. split.
  - apply (deploy_gate_and_force sampleRuntime sampleManager (J "evil.exe")
             sampleWorld). lia.
  - destruct (deploy_gate_and_force sampleRuntime sampleManager
                (J "evil.exe") sampleWorld) as [_ H].
    rewrite (H (J "MZ")); [reflexivity | reflexivity | | |];
      vm_compute; reflexivity.
Defined.

(** C5 as stated fails: the access policy refuses [/proj/evil.exe] (its
    extension is not allowed), and the forced deployment of [evil.exe]
    still returns [true] and creates that file in the real tree. *)
Lemma forced_deploy_counterexample :
  FileAccessControl.validateFilePath sampleRuntime
    (FileAccessControl.create sampleRuntime (J "/proj"))
    (J "/proj/evil.exe") sampleWorld
  = FileAccessControl.invalid (J "File extension '.exe' not allowed")
  /\ files sampleWorld !! J "/proj/evil.exe" = None
  /\ fst (SandboxManager.deployToRealFiles sampleRuntime sampleManager
            (J "evil.exe") true sampleWorld) = inr true
  /\ files (snd (SandboxManager.deployToRealFiles sampleRuntime sampleManager
                   (J "evil.exe") true sampleWorld)) !! J "/proj/evil.exe"
     = Some (J "MZ").
Proof. vm_compute. repeat split. Qed.

(** ** FileSystemProxy.writeFile *)

Section WriteFileFacts.
Import FileSystemProxy.
Variable rt : Runtime.

(** The only file [writeFile] can touch is the one [mapToSandbox] names:
    on a normal return it holds the content, on a throw nothing changed. *)
Lemma writeFile_effect self path content w :
  match writeFile rt self path content w with
  | (inr _, w') =>
      files w' = <[Fs.key rt (mapToSandbox rt self path)
                   := Buffer.utf8Write content]> (files w)
  | (inl _, w') => files w' = files w
  end.
Proof.
  unfold writeFile. unfold_monad. rewrite existsSync_pure.
  set (target := mapToSandbox rt self path).
  assert (Hwrite : forall w1,
             files w1 = files w ->
             match
               match
                 match Fs.writeFileSync rt target content w1 with
                 | (inr _, w') => logOperation (J "write") path true w'
                 | (inl e, w') => (inl e, w')
                 end
               with
               | (inr a, w') => (inr a, w')
               | (inl e, w') =>
                   match logOperation (J "write") path false w' with
                   | (inr _, w'0) => (@inl Fs.Error unit e, w'0)
                   | (inl e0, w'0) => (inl e0, w'0)
                   end
               end
             with
             | (inr _, w') =>
                 files w' = <[Fs.key rt target
                              := Buffer.utf8Write content]> (files w)
             | (inl _, w') => files w' = files w
             end).
  { intros w1 Hw1. unfold Fs.writeFileSync.
    destruct (Fs.isDir w1 (Fs.key rt target)); [exact Hw1|].
    destruct (negb _); [exact Hw1|]. simpl. rewrite Hw1. reflexivity. }
  destruct (negb (_ || _)).
  - unfold Fs.mkdirSync at 1.
    destruct (existsb (Fs.isFile w) (Fs.chain rt (Path.dirname target))).
    + reflexivity.
    + apply Hwrite. reflexivity.
  - apply Hwrite. reflexivity.
Qed.


End WriteFileFacts.

Section WriteSucceeds.
Import FileSystemProxy.
Variable rt : Runtime.

Lemma keyOf_injective (a b : list Js.str) :
  Forall clean a -> Forall clean b -> Fs.keyOf a = Fs.keyOf b -> a = b.
Proof.
  intros Ha Hb H.
  rewrite <- (resolveSegs_keyOf (cwd rt) a [] Ha (or_introl eq_refl)).
  rewrite <- (resolveSegs_keyOf (cwd rt) b [] Hb (or_introl eq_refl)).
  rewrite !app_nil_r, H. reflexivity.
Qed.


(** The chain of a directory ends with the directory itself. *)
Lemma chain_has_self (segs : list Js.str) :
  segs <> [] ->
  Fs.keyOf segs
  ∈ List.map (fun n => Fs.keyOf (take (S n) segs)) (seq 0 (length segs)).
Proof.
  intros Hne. apply list_elem_of_In, in_map_iff.
  exists (length segs - 1)%nat. split.
  - destruct segs as [|x segs]; [contradiction|]. simpl length.
    replace (S (S (length segs) - 1)) with (length (x :: segs))
      by (simpl; lia).
    rewrite firstn_all. reflexivity.
  - apply in_seq. destruct segs; [contradiction|]. simpl. lia.
Qed.





End WriteSucceeds.




(** What the amended statement leaves out: a [..] segment walks out of the
    mirror.  [writeFile('../../evil.js', 'x')] returns normally and creates
    [/proj/evil.js], a file of the real project tree. *)
Lemma writeFile_dotdot_leaves_mirror :
  fst (FileSystemProxy.writeFile sampleRuntime
         (SandboxManager.fileSystemProxy sampleManager)
         (J "../../evil.js") (J "x") sampleWorld) = inr tt
  /\ files sampleWorld !! J "/proj/evil.js" = None
  /\ files (snd (FileSystemProxy.writeFile sampleRuntime
                   (SandboxManager.fileSystemProxy sampleManager)
                   (J "../../evil.js") (J "x") sampleWorld))
       !! J "/proj/evil.js" = Some (J "x")
  /\ ~ within sampleRuntime (J "/proj/.sentvibe/sandbox") (J "/proj/evil.js").
Proof.
  split; [vm_compute; reflexivity|].
  split; [vm_compute; reflexivity|].
  split; [vm_compute; reflexivity|].
  intros [k Hk]. vm_compute in Hk. discriminate Hk.
Qed.

(** ** Encodings: base64, UTF-8 and JSON round trips *)

Ltac Zify.zify_post_hook ::= Z.to_euclidean_division_equations.

Section Base64Facts.
Import Buffer.

(** Induction three bytes at a time, the way [base64] recurses. *)
Lemma triples_ind (P : list N -> Prop) :
  P [] -> (forall a, P [a]) -> (forall a b, P [a; b]) ->
  (forall a b c l, P l -> P (a :: b :: c :: l)) ->
  forall l, P l.
Proof.
  intros H0 H1 H2 H3 l.
  assert (H : P l /\ (forall a, P (a :: l)) /\ (forall a b, P (a :: b :: l))).
  { induction l as [|x l (IH0 & IH1 & IH2)].
    - auto.
    - repeat split; auto. }
  apply H.
Qed.

Lemma b64char_range v :
  let c := b64char v in
  (65 <= c <= 90) \/ (97 <= c <= 122) \/ (48 <= c <= 57) \/ c = 43 \/ c = 47.
Proof.
  unfold b64char.
  destruct (N.ltb_spec v 26); [lia|].
  destruct (N.ltb_spec v 52); [lia|].
  destruct (N.ltb_spec v 62); [lia|].
  destruct (N.eqb_spec v 62); lia.
Qed.

Lemma unbase64_b64char v : v < 64 -> unbase64 (b64char v) = Some v.
Proof.
  intros Hv. unfold b64char, unbase64.
  destruct (N.ltb_spec v 26).
  { replace ((65 <=? 65 + v) && (65 + v <=? 90)) with true
      by (symmetry; apply andb_true_intro; split; apply N.leb_le; lia).
    f_equal. lia. }
  destruct (N.ltb_spec v 52).
  { replace ((65 <=? 97 + (v - 26)) && (97 + (v - 26) <=? 90)) with false
      by (symmetry; apply andb_false_intro2; apply N.leb_gt; lia).
    replace ((97 <=? 97 + (v - 26)) && (97 + (v - 26) <=? 122)) with true
      by (symmetry; apply andb_true_intro; split; apply N.leb_le; lia).
    f_equal. lia. }
  destruct (N.ltb_spec v 62).
  { replace ((65 <=? 48 + (v - 52)) && (48 + (v - 52) <=? 90)) with false
      by (symmetry; apply andb_false_intro1; apply N.leb_gt; lia).
    replace ((97 <=? 48 + (v - 52)) && (48 + (v - 52) <=? 122)) with false
      by (symmetry; apply andb_false_intro1; apply N.leb_gt; lia).
    replace ((48 <=? 48 + (v - 52)) && (48 + (v - 52) <=? 57)) with true
      by (symmetry; apply andb_true_intro; split; apply N.leb_le; lia).
    f_equal. lia. }
  destruct (N.eqb_spec v 62) as [->|Hne]; [reflexivity|].
  assert (v = 63) as -> by lia. reflexivity.
Qed.

Lemma sextets_cons v s : v < 64 -> sextets (b64char v :: s) = v :: sextets s.
Proof.
  intros Hv. simpl. rewrite (unbase64_b64char v Hv).
  destruct (N.eqb_spec (b64char v) 61) as [E|_]; [|reflexivity].
  pose proof (b64char_range v) as Hr. simpl in Hr. lia.
Qed.

Lemma regroup_four a b c d l :
  regroup (a :: b :: c :: d :: l)
  = (a * 4 + b / 16) :: ((b mod 16) * 16 + c / 4) :: ((c mod 4) * 64 + d)
      :: regroup l.
Proof. reflexivity. Qed.

(** [Buffer.from(buf.toString('base64'), 'base64')] gives the bytes back. *)
Lemma base64_roundtrip bs :
  Forall (fun b => b < 256) bs -> fromBase64 (base64 bs) = bs.
Proof.
  unfold fromBase64. induction bs as [|a|a b|a b c l IH] using triples_ind;
    intros H.
  - reflexivity.
  - inversion H; subst. cbn [base64].
    rewrite !sextets_cons by lia. cbn [sextets regroup N.eqb].
    simpl. f_equal. lia.
  - inversion H as [|? ? Ha H']; subst. inversion H'; subst. cbn [base64].
    rewrite !sextets_cons by lia. simpl. f_equal; [lia|]. f_equal. lia.
  - inversion H as [|? ? Ha H']; subst.
    inversion H' as [|? ? Hb H'']; subst.
    inversion H'' as [|? ? Hc Hl]; subst.
    cbn [base64]. rewrite !sextets_cons by lia.
    rewrite regroup_four, (IH Hl).
    f_equal; [lia|]. f_equal; [lia|]. f_equal. lia.
Qed.

Lemma base64_length bs : (length bs <= length (base64 bs))%nat.
Proof.
  induction bs as [|a|a b|a b c l IH] using triples_ind; simpl in *; lia.
Qed.

End Base64Facts.

Section Utf8Facts.
Import Buffer.

Lemma two_step_ind (P : list N -> Prop) :
  P [] -> (forall c, P [c]) ->
  (forall c c2 l, P l -> P (c2 :: l) -> P (c :: c2 :: l)) ->
  forall l, P l.
Proof.
  intros H0 H1 H2 l.
  assert (H : P l /\ forall c, P (c :: l)).
  { induction l as [|x l [IH0 IH1]]; [auto|].
    split; [apply IH1|]. intros c. apply H2; auto. }
  apply H.
Qed.

Lemma utf8Slice_cons st b bs :
  utf8Slice st (b :: bs) = fst (feed st b) ++ utf8Slice (snd (feed st b)) bs.
Proof. simpl. destruct (feed st b). reflexivity. Qed.

Lemma range_true lo hi b : lo <= b <= hi -> (lo <=? b) && (b <=? hi) = true.
Proof. intros H. apply andb_true_intro; split; apply N.leb_le; lia. Qed.

Lemma range_false lo hi b : b < lo \/ hi < b -> (lo <=? b) && (b <=? hi) = false.
Proof.
  intros [H|H].
  - apply andb_false_intro1, N.leb_gt, H.
  - apply andb_false_intro2, N.leb_gt, H.
Qed.

Lemma lead_one b : b < 128 -> lead b = ([b], idle).
Proof. intros H. unfold lead. apply N.ltb_lt in H. rewrite H. reflexivity. Qed.

Lemma lead_two b :
  194 <= b <= 223 ->
  lead b = ([], {| needed := 1; point := b - 192; lower := 128; upper := 191 |}).
Proof.
  intros H. unfold lead.
  replace (b <? 128) with false by (symmetry; apply N.ltb_ge; lia).
  rewrite range_true by lia. reflexivity.
Qed.

Lemma lead_three b :
  224 <= b <= 239 ->
  lead b = ([], {| needed := 2; point := b - 224;
                   lower := if b =? 224 then 160 else 128;
                   upper := if b =? 237 then 159 else 191 |}).
Proof.
  intros H. unfold lead.
  replace (b <? 128) with false by (symmetry; apply N.ltb_ge; lia).
  rewrite (range_false 194 223) by lia.
  rewrite range_true by lia. reflexivity.
Qed.

Lemma lead_four b :
  240 <= b <= 244 ->
  lead b = ([], {| needed := 3; point := b - 240;
                   lower := if b =? 240 then 144 else 128;
                   upper := if b =? 244 then 143 else 191 |}).
Proof.
  intros H. unfold lead.
  replace (b <? 128) with false by (symmetry; apply N.ltb_ge; lia).
  rewrite (range_false 194 223), (range_false 224 239) by lia.
  rewrite range_true by lia. reflexivity.
Qed.

Lemma feed_more n cp lo hi b :
  lo <= b <= hi ->
  feed {| needed := S (S n); point := cp; lower := lo; upper := hi |} b
  = ([], {| needed := S n; point := cp * 64 + (b - 128);
            lower := 128; upper := 191 |}).
Proof. intros H. unfold feed. simpl. rewrite range_true by lia. reflexivity. Qed.

Lemma feed_last cp lo hi b :
  lo <= b <= hi ->
  feed {| needed := 1; point := cp; lower := lo; upper := hi |} b
  = (units (cp * 64 + (b - 128)), idle).
Proof. intros H. unfold feed. simpl. rewrite range_true by lia. reflexivity. Qed.

Lemma units_small cp : cp < 65536 -> units cp = [cp].
Proof. intros H. unfold units. apply N.ltb_lt in H. rewrite H. reflexivity. Qed.

Lemma isHigh_spec c : isHigh c = true <-> 55296 <= c <= 56319.
Proof.
  unfold isHigh. rewrite andb_true_iff, !N.leb_le. reflexivity.
Qed.

Lemma isLow_spec c : isLow c = true <-> 56320 <= c <= 57343.
Proof.
  unfold isLow. rewrite andb_true_iff, !N.leb_le. reflexivity.
Qed.

Lemma isHigh_false c : isHigh c = false <-> c < 55296 \/ 56319 < c.
Proof.
  unfold isHigh. rewrite andb_false_iff, !N.leb_gt. reflexivity.
Qed.

Lemma isLow_false c : isLow c = false <-> c < 56320 \/ 57343 < c.
Proof.
  unfold isLow. rewrite andb_false_iff, !N.leb_gt. reflexivity.
Qed.

(** Decoding what one step of the encoder wrote. *)
Lemma slice_one c rest :
  c < 128 -> utf8Slice idle (c :: rest) = c :: utf8Slice idle rest.
Proof.
  intros H. rewrite utf8Slice_cons.
  change (feed idle c) with (lead c). rewrite lead_one by exact H. reflexivity.
Qed.

Lemma slice_two c rest :
  128 <= c < 2048 ->
  utf8Slice idle ((192 + c / 64) :: (128 + c mod 64) :: rest)
  = c :: utf8Slice idle rest.
Proof.
  intros H. rewrite utf8Slice_cons.
  change (feed idle (192 + c / 64)) with (lead (192 + c / 64)).
  rewrite lead_two by lia. cbn [fst snd app].
  rewrite utf8Slice_cons, feed_last by lia. cbn [fst snd].
  rewrite units_small by lia.
  replace ((192 + c / 64 - 192) * 64 + (128 + c mod 64 - 128)) with c by lia.
  reflexivity.
Qed.

Lemma slice_three c rest :
  2048 <= c < 65536 -> isHigh c = false -> isLow c = false ->
  utf8Slice idle
    ((224 + c / 4096) :: (128 + (c / 64) mod 64) :: (128 + c mod 64) :: rest)
  = c :: utf8Slice idle rest.
Proof.
  intros H Hh Hl. apply isHigh_false in Hh. apply isLow_false in Hl.
  rewrite utf8Slice_cons.
  change (feed idle (224 + c / 4096)) with (lead (224 + c / 4096)).
  rewrite lead_three by lia. cbn [fst snd app].
  rewrite utf8Slice_cons, feed_more.
  2:{ destruct (N.eqb_spec (224 + c / 4096) 224);
      destruct (N.eqb_spec (224 + c / 4096) 237); lia. }
  cbn [fst snd app].
  rewrite utf8Slice_cons, feed_last by lia. cbn [fst snd].
  rewrite units_small by lia.
  replace (((224 + c / 4096 - 224) * 64 + (128 + (c / 64) mod 64 - 128)) * 64
           + (128 + c mod 64 - 128)) with c by lia.
  reflexivity.
Qed.

Lemma slice_four c c2 rest :
  isHigh c = true -> isLow c2 = true ->
  let cp := 65536 + (c - 55296) * 1024 + (c2 - 56320) in
  utf8Slice idle
    ((240 + cp / 262144) :: (128 + (cp / 4096) mod 64)
       :: (128 + (cp / 64) mod 64) :: (128 + cp mod 64) :: rest)
  = c :: c2 :: utf8Slice idle rest.
Proof.
  intros Hh Hl cp. apply isHigh_spec in Hh. apply isLow_spec in Hl.
  assert (Hcp : 65536 <= cp <= 1114111) by (unfold cp; lia).
  assert (Hc : 55296 + (cp - 65536) / 1024 = c) by (unfold cp; lia).
  assert (Hc2 : 56320 + (cp - 65536) mod 1024 = c2) by (unfold cp; lia).
  clearbody cp.
  rewrite utf8Slice_cons.
  change (feed idle (240 + cp / 262144)) with (lead (240 + cp / 262144)).
  rewrite lead_four by lia. cbn [fst snd app].
  rewrite utf8Slice_cons, feed_more.
  2:{ destruct (N.eqb_spec (240 + cp / 262144) 240);
      destruct (N.eqb_spec (240 + cp / 262144) 244); lia. }
  cbn [fst snd app].
  rewrite utf8Slice_cons, feed_more by lia. cbn [fst snd app].
  rewrite utf8Slice_cons, feed_last by lia. cbn [fst snd].
  replace ((((240 + cp / 262144 - 240) * 64 + (128 + (cp / 4096) mod 64 - 128))
            * 64 + (128 + (cp / 64) mod 64 - 128)) * 64
           + (128 + cp mod 64 - 128)) with cp by lia.
  unfold units.
  replace (cp <? 65536) with false by (symmetry; apply N.ltb_ge; lia).
  rewrite Hc, Hc2. reflexivity.
Qed.

Lemma utf8Write_pair c c2 l :
  utf8Write (c :: c2 :: l) =
  if c <? 128 then c :: utf8Write (c2 :: l)
  else if c <? 2048 then
    (192 + c / 64) :: (128 + c mod 64) :: utf8Write (c2 :: l)
  else if isHigh c then
    if isLow c2 then
      let cp := 65536 + (c - 55296) * 1024 + (c2 - 56320) in
      (240 + cp / 262144) :: (128 + (cp / 4096) mod 64)
        :: (128 + (cp / 64) mod 64) :: (128 + cp mod 64) :: utf8Write l
    else replacement ++ utf8Write (c2 :: l)
  else if isLow c then replacement ++ utf8Write (c2 :: l)
  else
    (224 + c / 4096) :: (128 + (c / 64) mod 64) :: (128 + c mod 64)
      :: utf8Write (c2 :: l).
Proof. reflexivity. Qed.

(** [Buffer.from(s, 'utf8').toString('utf8')] gives a well-formed string
    back. *)
Lemma utf8_roundtrip s :
  wellFormed s = true -> utf8ToString (utf8Write s) = s.
Proof.
  unfold utf8ToString.
  induction s as [|c|c c2 l IH IH2] using two_step_ind; intros Hwf.
  - reflexivity.
  - simpl in Hwf. destruct (isHigh c) eqn:Hh; [discriminate|].
    rewrite andb_true_r in Hwf. apply andb_true_iff in Hwf.
    destruct Hwf as [Hl Hc]. apply negb_true_iff in Hl. apply N.ltb_lt in Hc.
    cbn [utf8Write]. rewrite Hh, Hl.
    destruct (N.ltb_spec c 128); [apply (slice_one c []); assumption|].
    destruct (N.ltb_spec c 2048); [apply (slice_two c []); lia|].
    apply (slice_three c []); [lia|assumption|assumption].
  - cbn [wellFormed] in Hwf. rewrite utf8Write_pair.
    destruct (isHigh c) eqn:Hh.
    + apply andb_true_iff in Hwf. destruct Hwf as [Hl Hrest].
      pose proof (proj1 (isHigh_spec c) Hh) as Hhr.
      replace (c <? 128) with false by (symmetry; apply N.ltb_ge; lia).
      replace (c <? 2048) with false by (symmetry; apply N.ltb_ge; lia).
      rewrite Hl. rewrite slice_four by assumption.
      rewrite (IH Hrest). reflexivity.
    + apply andb_true_iff in Hwf. destruct Hwf as [Hwf Hrest].
      apply andb_true_iff in Hwf. destruct Hwf as [Hl Hc].
      apply negb_true_iff in Hl. apply N.ltb_lt in Hc.
      specialize (IH2 Hrest). rewrite Hl.
      destruct (N.ltb_spec c 128).
      { rewrite slice_one by assumption. rewrite IH2. reflexivity. }
      destruct (N.ltb_spec c 2048).
      { rewrite slice_two by lia. rewrite IH2. reflexivity. }
      rewrite slice_three by (lia || assumption). rewrite IH2. reflexivity.
Qed.

Lemma utf8Write_bytes s :
  wellFormed s = true -> Forall (fun b => b < 256) (utf8Write s).
Proof.
  induction s as [|c|c c2 l IH IH2] using two_step_ind; intros Hwf.
  - constructor.
  - simpl in Hwf. destruct (isHigh c) eqn:Hh; [discriminate|].
    rewrite andb_true_r in Hwf. apply andb_true_iff in Hwf.
    destruct Hwf as [Hl Hc]. apply negb_true_iff in Hl. apply N.ltb_lt in Hc.
    cbn [utf8Write]. rewrite Hh, Hl.
    destruct (N.ltb_spec c 128); [repeat constructor; lia|].
    destruct (N.ltb_spec c 2048); repeat constructor; lia.
  - cbn [wellFormed] in Hwf. rewrite utf8Write_pair.
    destruct (isHigh c) eqn:Hh.
    + apply andb_true_iff in Hwf. destruct Hwf as [Hl Hrest].
      pose proof (proj1 (isHigh_spec c) Hh) as Hhr.
      pose proof (proj1 (isLow_spec c2) Hl) as Hlr.
      replace (c <? 128) with false by (symmetry; apply N.ltb_ge; lia).
      replace (c <? 2048) with false by (symmetry; apply N.ltb_ge; lia).
      rewrite Hl. repeat (constructor; [lia|]). apply IH, Hrest.
    + apply andb_true_iff in Hwf. destruct Hwf as [Hwf Hrest].
      apply andb_true_iff in Hwf. destruct Hwf as [Hl Hc].
      apply negb_true_iff in Hl. apply N.ltb_lt in Hc.
      specialize (IH2 Hrest). rewrite Hl.
      destruct (N.ltb_spec c 128); [constructor; [lia|assumption]|].
      destruct (N.ltb_spec c 2048); repeat (constructor; [lia|]); assumption.
Qed.

(** Every unit costs at least one byte. *)
Lemma utf8Write_length s : (length s <= length (utf8Write s))%nat.
Proof.
  induction s as [|c|c c2 l IH IH2] using two_step_ind.
  - simpl. lia.
  - simpl. repeat match goal with
                  | |- context [if ?b then _ else _] => destruct b
                  end; simpl; lia.
  - rewrite utf8Write_pair.
    destruct (c <? 128); [simpl in *; lia|].
    destruct (c <? 2048); [simpl in *; lia|].
    destruct (isHigh c).
    + destruct (isLow c2); [simpl in *; lia|].
      rewrite length_app. simpl in *. lia.
    + destruct (isLow c); [rewrite length_app|]; simpl in *; lia.
Qed.

End Utf8Facts.

Section JsonFacts.
Import JSON.

Lemma plainUnit_spec c :
  plainUnit c = true ->
  32 <= c /\ c <> 34 /\ c <> 92
  /\ Buffer.isHigh c = false /\ Buffer.isLow c = false.
Proof.
  unfold plainUnit. rewrite !andb_true_iff, !negb_true_iff.
  rewrite N.leb_le, !N.eqb_neq. tauto.
Qed.

Lemma quoteBody_plain s : plain s = true -> quoteBody s = s.
Proof.
  induction s as [|c s IH]; intros H; [reflexivity|].
  simpl in H. apply andb_true_iff in H. destruct H as [Hc Hs].
  apply plainUnit_spec in Hc. destruct Hc as (H32 & H34 & H92 & Hh & Hl).
  cbn [quoteBody].
  destruct (N.eqb_spec c 8); [lia|]. destruct (N.eqb_spec c 9); [lia|].
  destruct (N.eqb_spec c 10); [lia|]. destruct (N.eqb_spec c 12); [lia|].
  destruct (N.eqb_spec c 13); [lia|]. destruct (N.ltb_spec c 32); [lia|].
  destruct (N.eqb_spec c 34); [contradiction|].
  destruct (N.eqb_spec c 92); [contradiction|].
  rewrite Hh, Hl, (IH Hs). reflexivity.
Qed.

Lemma parseStringBody_plain s rest :
  plain s = true -> parseStringBody (s ++ 34 :: rest) = Some (s, rest).
Proof.
  induction s as [|c s IH]; intros H; [reflexivity|].
  simpl in H. apply andb_true_iff in H. destruct H as [Hc Hs].
  apply plainUnit_spec in Hc. destruct Hc as (H32 & H34 & H92 & _).
  cbn [app parseStringBody].
  destruct (N.eqb_spec c 34); [contradiction|].
  destruct (N.eqb_spec c 92); [contradiction|].
  destruct (N.ltb_spec c 32); [lia|].
  rewrite (IH Hs). reflexivity.
Qed.

Lemma b64char_plain v : plainUnit (Buffer.b64char v) = true.
Proof.
  pose proof (Buffer.b64char v) as c.
  pose proof (b64char_range v) as H. cbv zeta in H.
  unfold plainUnit, Buffer.isHigh, Buffer.isLow.
  rewrite !andb_true_iff, !negb_true_iff, !andb_false_iff.
  rewrite N.leb_le, !N.eqb_neq, !N.leb_gt. lia.
Qed.

Lemma base64_plain bs : plain (Buffer.base64 bs) = true.
Proof.
  induction bs as [|a|a b|a b c l IH] using triples_ind;
    cbn [Buffer.base64 plain forallb]; rewrite ?b64char_plain;
    try reflexivity.
  exact IH.
Qed.

Lemma stringify_payload encoded now :
  plain encoded = true -> plain now = true ->
  stringify (payload encoded now) = payloadText encoded now.
Proof.
  intros He Hn. unfold payload, payloadText. cbn [stringify].
  unfold quote. rewrite (quoteBody_plain encoded He), (quoteBody_plain now Hn).
  change (quoteBody (J "encrypted")) with (J "encrypted").
  change (quoteBody (J "data")) with (J "data").
  change (quoteBody (J "timestamp")) with (J "timestamp").
  repeat rewrite <- app_assoc. reflexivity.
Qed.

(** One step of the parser on each kind of text the payload is made of. *)
Lemma parseValue_object fuel r :
  parseValue (S fuel) (123 :: 34 :: r)
  = match parseMembers fuel (34 :: r) with
    | Some (ms, r') => Some (Obj ms, r')
    | None => None
    end.
Proof. reflexivity. Qed.

Lemma parseValue_string fuel s rest :
  plain s = true ->
  parseValue (S fuel) (34 :: s ++ 34 :: rest) = Some (Str s, rest).
Proof.
  intros H.
  change (parseValue (S fuel) (34 :: s ++ 34 :: rest))
    with (match parseStringBody (s ++ 34 :: rest) with
          | Some (t, r') => Some (Str t, r')
          | None => None
          end).
  rewrite parseStringBody_plain by exact H. reflexivity.
Qed.

Lemma parseValue_true fuel rest :
  parseValue (S fuel) (116 :: 114 :: 117 :: 101 :: rest)
  = Some (Bool true, rest).
Proof. reflexivity. Qed.

Lemma parseMembers_member fuel k text :
  plain k = true ->
  parseMembers (S fuel) (34 :: k ++ 34 :: 58 :: text)
  = match parseValue fuel text with
    | Some (v, r3) =>
        match skipWs r3 with
        | 44 :: r4 =>
            match parseMembers fuel r4 with
            | Some (ms, r5) => Some ((k, v) :: ms, r5)
            | None => None
            end
        | 125 :: r4 => Some ([(k, v)], r4)
        | _ => None
        end
    | None => None
    end.
Proof.
  intros H.
  change (parseMembers (S fuel) (34 :: k ++ 34 :: 58 :: text))
    with (match parseStringBody (k ++ 34 :: 58 :: text) with
          | Some (k, r1) =>
              match skipWs r1 with
              | 58 :: r2 =>
                  match parseValue fuel r2 with
                  | Some (v, r3) =>
                      match skipWs r3 with
                      | 44 :: r4 =>
                          match parseMembers fuel r4 with
                          | Some (ms, r5) => Some ((k, v) :: ms, r5)
                          | None => None
                          end
                      | 125 :: r4 => Some ([(k, v)], r4)
                      | _ => None
                      end
                  | None => None
                  end
              | _ => None
              end
          | None => None
          end).
  rewrite parseStringBody_plain by exact H. reflexivity.
Qed.

Lemma parseValue_payload fuel encoded now :
  plain encoded = true -> plain now = true ->
  parseValue (S (S (S (S (S fuel))))) (payloadText encoded now)
  = Some (payload encoded now, []).
Proof.
  intros He Hn. unfold payloadText.
  rewrite parseValue_object.
  rewrite parseMembers_member by reflexivity.
  rewrite parseValue_true.
  change (skipWs (44 :: ?r)) with (44 :: r). cbv beta iota.
  rewrite parseMembers_member by reflexivity.
  rewrite parseValue_string by exact He.
  change (skipWs (44 :: ?r)) with (44 :: r). cbv beta iota.
  rewrite parseMembers_member by reflexivity.
  rewrite parseValue_string by exact Hn.
  reflexivity.
Qed.

Lemma parse_payload encoded now :
  plain encoded = true -> plain now = true ->
  parse (payloadText encoded now) = Some (payload encoded now).
Proof.
  intros He Hn. unfold parse.
  assert (Hfuel : exists fuel,
             (2 * length (payloadText encoded now) + 2)%nat
             = S (S (S (S (S fuel))))).
  { exists (2 * length (payloadText encoded now) - 3)%nat.
    unfold payloadText. simpl. lia. }
  destruct Hfuel as [fuel ->].
  rewrite parseValue_payload by assumption. reflexivity.
Qed.

End JsonFacts.

(** ** DatabaseEncryption *)

Section EncryptionFacts.
Import DatabaseEncryption.

Lemma encryptData_text self now x :
  is_Some (encryptionKey self) -> plain now = true ->
  encryptData self now x
  = inr (payloadText (Buffer.base64 (Buffer.utf8Write x)) now).
Proof.
  intros [k Hk] Hn. unfold encryptData. rewrite Hk.
  f_equal. apply stringify_payload; [apply base64_plain | exact Hn].
Qed.

Lemma decryptData_text self encoded now :
  is_Some (encryptionKey self) -> plain encoded = true -> plain now = true ->
  decryptData self (payloadText encoded now)
  = inr (Buffer.utf8ToString (Buffer.fromBase64 encoded)).
Proof.
  intros [k Hk] He Hn. unfold decryptData. rewrite Hk.
  rewrite parse_payload by assumption. unfold payload.
  assert (Hget : JSON.get [ (J "encrypted", JSON.Bool true);
                            (J "data", JSON.Str encoded);
                            (J "timestamp", JSON.Str now) ] (J "data")
                 = Some (JSON.Str encoded)) by reflexivity.
  rewrite Hget. reflexivity.
Qed.

Lemma payloadText_longer encoded now :
  (length encoded < length (payloadText encoded now))%nat.
Proof.
  unfold payloadText. cbn [length]. rewrite length_app. cbn [length].
  rewrite length_app. cbn [length]. rewrite length_app. lia.
Qed.

End EncryptionFacts.

(** C8, amended.  On an initialized instance, [decryptData(encryptData(x))]
    is [x] for every well-formed string [x], that is every string in which
    each surrogate code unit is paired; and [encryptData(x)] differs from
    [x] for every string [x], empty or not.  (The text of the current time
    that goes into the payload is made of digits and punctuation.) *)
Theorem encrypt_decrypt_round_trip
    (self : DatabaseEncryption.t) (now x : Js.str) :
  is_Some (DatabaseEncryption.encryptionKey self) ->
  plain now = true ->
  (wellFormed x = true ->
     exists e, DatabaseEncryption.encryptData self now x = inr e
               /\ DatabaseEncryption.decryptData self e = inr x)
  /\ (forall e, DatabaseEncryption.encryptData self now x = inr e -> e <> x).
Proof.
  intros Hkey Hnow. rewrite (encryptData_text self now x Hkey Hnow). split.
  - intros Hwf. eexists. split; [reflexivity|].
    rewrite decryptData_text by (assumption || apply base64_plain).
    rewrite base64_roundtrip by (apply utf8Write_bytes, Hwf).
    rewrite utf8_roundtrip by exact Hwf. reflexivity.
  - intros e He Hex. injection He as <-.
    pose proof (payloadText_longer (Buffer.base64 (Buffer.utf8Write x)) now).
    pose proof (base64_length (Buffer.utf8Write x)).
    pose proof (utf8Write_length x).
    rewrite Hex in *. lia.
Qed.

Lemma encrypt_decrypt_round_trip_witness :
  is_Some (DatabaseEncryption.encryptionKey sampleEncryption)
  /\ plain sampleTime = true
  /\ wellFormed (J "sensitive test data") = true
  /\ exists e,
       DatabaseEncryption.encryptData sampleEncryption sampleTime
         (J "sensitive test data") = inr e
       /\ DatabaseEncryption.decryptData sampleEncryption e
          = inr (J "sensitive test data").
Proof.
  assert (Hkey : is_Some (DatabaseEncryption.encryptionKey sampleEncryption))
    by (eexists; reflexivity).
  split; [exact Hkey|]. split; [reflexivity|]. split; [reflexivity|].
  apply (encrypt_decrypt_round_trip sampleEncryption sampleTime
           (J "sensitive test data") Hkey); reflexivity.
Defined.

(** C8 as stated fails: the one-unit string made of the unpaired surrogate
    U+D800 comes back as U+FFFD. *)
Lemma encrypt_decrypt_lone_surrogate_counterexample :
  exists e,
    DatabaseEncryption.encryptData sampleEncryption sampleTime [55296] = inr e
    /\ DatabaseEncryption.decryptData sampleEncryption e = inr [65533]
    /\ DatabaseEncryption.decryptData sampleEncryption e
       <> inr [55296].
Proof.
  eexists. split; [vm_compute; reflexivity|].
  split; [vm_compute; reflexivity|]. vm_compute. discriminate.
Qed.

(* ===================================================================== *)
(** * Further properties of the sanitizer and of the access control *)
(* ===================================================================== *)

Section SanitizerInvariants.
Import RegExp ContentSanitizer.

Lemma symMatch_some_nonempty S R ms R' :
  symMatch S R = (Some ms, R') -> (0 < length ms)%nat.
Proof.
  unfold symMatch. destruct (results R S) as [l R1].
  destruct l as [|m l]; [discriminate|].
  intros H. injection H as <- _. simpl. lia.
Qed.

(** What the two loops of [sanitizeContent] keep true of the result so
    far. *)
Lemma sensitiveStep_keeps content acc R :
  (sensitiveDataFound acc = false <-> redactionCount acc = 0%nat) ->
  (sensitiveDataFound acc = false -> maliciousPatterns acc = false ->
   sanitizedContent acc = content) ->
  let acc' := fst (sensitiveStep content acc R) in
  (sensitiveDataFound acc' = false <-> redactionCount acc' = 0%nat)
  /\ (sensitiveDataFound acc' = false -> maliciousPatterns acc' = false ->
      sanitizedContent acc' = content).
Proof.
  intros H1 H2. unfold sensitiveStep.
  destruct (symMatch content R) as [[ms|] p1] eqn:E; simpl; [|auto].
  apply symMatch_some_nonempty in E.
  destruct (replace (sanitizedContent acc) p1 redact) as [out p2]. simpl.
  split; [split; [discriminate | lia] | discriminate].
Qed.

Lemma maliciousStep_keeps content acc R :
  (sensitiveDataFound acc = false <-> redactionCount acc = 0%nat) ->
  (sensitiveDataFound acc = false -> maliciousPatterns acc = false ->
   sanitizedContent acc = content) ->
  let acc' := fst (maliciousStep content acc R) in
  (sensitiveDataFound acc' = false <-> redactionCount acc' = 0%nat)
  /\ (sensitiveDataFound acc' = false -> maliciousPatterns acc' = false ->
      sanitizedContent acc' = content).
Proof.
  intros H1 H2. unfold maliciousStep.
  destruct (RegExp.test R content) as [[|] p1]; simpl; [|auto].
  destruct (replace (sanitizedContent acc) p1 flag) as [out p2]. simpl.
  split; [assumption | discriminate].
Qed.

Lemma forEach_keeps (P : Result -> Prop) step table acc :
  (forall a R, P a -> P (fst (step a R))) ->
  P acc -> P (fst (forEach step table acc)).
Proof.
  intros Hstep. revert acc.
  induction table as [|R table IH]; intros acc Hacc; simpl; [assumption|].
  specialize (Hstep acc R Hacc).
  destruct (step acc R) as [acc1 p']. simpl in Hstep.
  specialize (IH acc1 Hstep).
  destruct (forEach step table acc1) as [acc2 rest]. exact IH.
Qed.

Lemma sanitizeContent_keeps content filePath st :
  let r := fst (sanitizeContent content filePath st) in
  (sensitiveDataFound r = false <-> redactionCount r = 0%nat)
  /\ (sensitiveDataFound r = false -> maliciousPatterns r = false ->
      sanitizedContent r = content).
Proof.
  unfold sanitizeContent.
  set (P := fun a : Result =>
    (sensitiveDataFound a = false <-> redactionCount a = 0%nat)
    /\ (sensitiveDataFound a = false -> maliciousPatterns a = false ->
        sanitizedContent a = content)).
  set (r0 := {| sanitizedContent := content; sensitiveDataFound := false;
                maliciousPatterns := false; redactionCount := 0 |}).
  assert (H0 : P r0) by (subst P r0; simpl; tauto).
  pose proof (forEach_keeps P (sensitiveStep content) (sensitive st) r0) as H1.
  destruct (forEach (sensitiveStep content) (sensitive st) r0) as [r1 sens].
  pose proof (forEach_keeps P (maliciousStep content) (malicious st) r1) as H2.
  destruct (forEach (maliciousStep content) (malicious st) r1) as [r2 mal].
  simpl in *. apply H2.
  - intros a R [Ha Hb]. apply maliciousStep_keeps; assumption.
  - apply H1; [|assumption].
    intros a R [Ha Hb]. apply sensitiveStep_keeps; assumption.
Qed.

End SanitizerInvariants.

(** X1 (ContentSanitizer.sanitizeContent).  Whatever the content and the
    state the shared patterns are in, the redaction count of the result is
    zero exactly when no sensitive data was reported: replacements made
    for malicious patterns are never counted. *)
Theorem sanitizeContent_counts_sensitive_finds
    (content filePath : Js.str) (st : ContentSanitizer.Statics) :
  let r := fst (ContentSanitizer.sanitizeContent content filePath st) in
  ContentSanitizer.redactionCount r = 0%nat
  <-> ContentSanitizer.sensitiveDataFound r = false.
Proof.
  intros r. pose proof (sanitizeContent_keeps content filePath st) as [H _].
  fold r in H. symmetry. exact H.
Qed.

(** X2 (ContentSanitizer.sanitizeContent).  A result that reports neither
    sensitive data nor a malicious pattern carries the content unchanged,
    with a redaction count of zero. *)
Theorem sanitizeContent_without_findings_is_identity
    (content filePath : Js.str) (st : ContentSanitizer.Statics) :
  let r := fst (ContentSanitizer.sanitizeContent content filePath st) in
  ContentSanitizer.sensitiveDataFound r = false ->
  ContentSanitizer.maliciousPatterns r = false ->
  ContentSanitizer.sanitizedContent r = content
  /\ ContentSanitizer.redactionCount r = 0%nat.
Proof.
  intros r Hs Hm.
  pose proof (sanitizeContent_keeps content filePath st) as [H1 H2].
  fold r in H1, H2. split; [apply H2; assumption | apply H1; assumption].
Qed.

Lemma sanitizeContent_without_findings_is_identity_witness :
  ContentSanitizer.sensitiveDataFound
    (fst (ContentSanitizer.sanitizeContent (J "let total = 1;") (J "a.js")
            ContentSanitizer.initial)) = false
  /\ ContentSanitizer.maliciousPatterns
       (fst (ContentSanitizer.sanitizeContent (J "let total = 1;") (J "a.js")
               ContentSanitizer.initial)) = false
  /\ ContentSanitizer.sanitizedContent
       (fst (ContentSanitizer.sanitizeContent (J "let total = 1;") (J "a.js")
               ContentSanitizer.initial)) = J "let total = 1;".
Proof.
  assert (H1 : ContentSanitizer.sensitiveDataFound
    (fst (ContentSanitizer.sanitizeContent (J "let total = 1;") (J "a.js")
            ContentSanitizer.initial)) = false) by (vm_compute; reflexivity).
  assert (H2 : ContentSanitizer.maliciousPatterns
    (fst (ContentSanitizer.sanitizeContent (J "let total = 1;") (J "a.js")
            ContentSanitizer.initial)) = false) by (vm_compute; reflexivity).
  split; [exact H1|]. split; [exact H2|].
  exact (proj1 (sanitizeContent_without_findings_is_identity
                  (J "let total = 1;") (J "a.js") ContentSanitizer.initial
                  H1 H2)).
Defined.

Section TextAt.
Import RegExp.
Variable ic : bool.

Lemma lookup_middle (p s q : Js.str) k ch :
  s !! k = Some ch -> (p ++ s ++ q) !! (length p + k)%nat = Some ch.
Proof.
  intros H. rewrite lookup_app_r by lia.
  replace (length p + k - length p)%nat with k by lia.
  apply lookup_app_l_Some. exact H.
Qed.

Lemma compile_chars t : forall (p s q : Js.str) c,
  List.map (canon ic) s = List.map (canon ic) t ->
  compile ic (p ++ s ++ q) (seqs (List.map Chr t)) (length p) c
  = c (length p + length s)%nat.
Proof.
  induction t as [|a t IH]; intros p s q c H.
  - destruct s; [|discriminate]. simpl. f_equal. lia.
  - destruct s as [|b s]; [discriminate|].
    injection H as Hb Hs.
    assert (Hl : (p ++ (b :: s) ++ q) !! length p = Some b).
    { pose proof (lookup_middle p (b :: s) q 0 b eq_refl) as L.
      replace (length p + 0)%nat with (length p) in L by lia. exact L. }
    destruct t as [|a' t'].
    + destruct s; [|discriminate].
      change (seqs (List.map Chr [a])) with (Chr a).
      cbn [compile]. unfold Js.str in *.
      rewrite Hl, Hb, N.eqb_refl. f_equal. simpl. lia.
    + change (seqs (List.map Chr (a :: a' :: t')))
        with (Seq (Chr a) (seqs (List.map Chr (a' :: t')))).
      cbn [compile]. unfold Js.str in *. rewrite Hl, Hb, N.eqb_refl.
      specialize (IH (p ++ [b]) s q c Hs).
      rewrite length_app in IH. simpl in IH.
      replace (length p + 1)%nat with (S (length p)) in IH by lia.
      rewrite <- app_assoc in IH. simpl in IH. simpl. rewrite IH.
      f_equal. lia.
Qed.

Lemma compile_txt t (p s q : Js.str) c :
  List.map (canon ic) s = List.map (canon ic) (J t) ->
  compile ic (p ++ s ++ q) (txt t) (length p) c = c (length p + length s)%nat.
Proof. apply compile_chars. Qed.

Lemma compile_words ws : forall w (p s q : Js.str) c,
  In w ws ->
  List.map (canon ic) s = List.map (canon ic) (J w) ->
  is_Some (c (length p + length s)%nat) ->
  is_Some (compile ic (p ++ s ++ q) (words ws) (length p) c).
Proof.
  unfold words.
  induction ws as [|w0 ws IH]; intros w p s q c Hin Hs Hc; [destruct Hin|].
  destruct ws as [|w1 ws'].
  - destruct Hin as [<-|[]]. simpl. rewrite compile_txt by exact Hs. exact Hc.
  - change (alts (List.map txt (w0 :: w1 :: ws')))
      with (Alt (txt w0) (alts (List.map txt (w1 :: ws')))).
    cbn [compile].
    destruct Hin as [<-|Hin].
    + rewrite compile_txt by exact Hs.
      destruct Hc as [z Hz]. rewrite Hz. eauto.
    + destruct (compile ic (p ++ s ++ q) (txt w0) (length p) c); [eauto|].
      eapply IH; eassumption.
Qed.

Lemma scan_finds input fuel r : forall i j e,
  matchAt ic input r j = Some e -> (i <= j < i + fuel)%nat ->
  is_Some (scan ic input fuel r i).
Proof.
  induction fuel as [|fuel IH]; intros i j e Hm Hj; [lia|].
  simpl. destruct (matchAt ic input r i) eqn:E; [eauto|].
  assert (i <> j) by (intros ->; congruence).
  apply (IH (S i) j e Hm). lia.
Qed.

End TextAt.

Section HitFacts.
Import RegExp ContentSanitizer.

Lemma hit_at R S j :
  global R = false ->
  is_Some (matchAt (ignoreCase R) S (source R) j) -> (j <= length S)%nat ->
  hit R S = true.
Proof.
  intros Hg [e He] Hj. unfold hit, test, exec. rewrite Hg.
  destruct (scan_finds (ignoreCase R) S (Datatypes.S (length S)) (source R)
              0 j e He) as [[a b] Hs]; [lia|].
  replace (Datatypes.S (length S) - 0)%nat with (Datatypes.S (length S)) by lia.
  rewrite Hs. reflexivity.
Qed.

Lemma upper_canon (s t : Js.str) :
  Js.toUpperCase s = Js.toUpperCase t ->
  List.map (canon true) s = List.map (canon true) t.
Proof. exact (fun H => H). Qed.

Lemma hit_suffix t (p s : Js.str) :
  Js.toUpperCase s = Js.toUpperCase (J t) ->
  hit (suffix t) (p ++ s) = true.
Proof.
  intros H. apply (hit_at _ _ (length p)); [reflexivity| |rewrite length_app; lia].
  unfold suffix, matchAt. cbn [source ignoreCase i_ compile].
  replace (p ++ s) with (p ++ s ++ []) by (rewrite app_nil_r; reflexivity).
  rewrite compile_txt by (apply upper_canon; exact H).
  rewrite app_nil_r, length_app, Nat.eqb_refl. eauto.
Qed.

Lemma hit_suffixes a l w (p s : Js.str) :
  In w l ->
  Js.toUpperCase s = Js.toUpperCase (J a ++ J w) ->
  hit (suffixes a l) (p ++ s) = true.
Proof.
  intros Hw H.
  set (n := length (J a)).
  assert (H1 : Js.toUpperCase (take n s) = Js.toUpperCase (J a)).
  { unfold Js.toUpperCase in *. rewrite <- firstn_map, H, map_app.
    subst n. rewrite <- (length_map Js.upperUnit (J a)).
    apply take_app_length. }
  assert (H2 : Js.toUpperCase (drop n s) = Js.toUpperCase (J w)).
  { unfold Js.toUpperCase in *. rewrite <- skipn_map, H, map_app.
    subst n. rewrite <- (length_map Js.upperUnit (J a)).
    apply drop_app_length. }
  rewrite <- (take_drop n s).
  set (s1 := take n s) in *. set (s2 := drop n s) in *.
  apply (hit_at _ _ (length p));
    [reflexivity| |rewrite !length_app; lia].
  unfold suffixes, matchAt.
  change (source (i_ (seqs [txt a; Grp (words l); Eoi])))
    with (Seq (txt a) (Seq (Grp (words l)) Eoi)).
  cbn [ignoreCase i_ compile].
  rewrite compile_txt by (apply upper_canon; exact H1).
  rewrite <- length_app.
  replace (p ++ s1 ++ s2) with ((p ++ s1) ++ s2 ++ []) by
    (rewrite app_nil_r, app_assoc; reflexivity).
  apply (compile_words true l w); [exact Hw | apply upper_canon; exact H2 |].
  cbn [compile].
  replace (length ((p ++ s1) ++ s2 ++ [])) with (length (p ++ s1) + length s2)%nat
    by (rewrite !length_app; simpl; lia).
  rewrite Nat.eqb_refl. eauto.
Qed.

Lemma hit_env (p s q : Js.str) :
  Js.toUpperCase s = Js.toUpperCase (J ".env") ->
  q = [] \/ head q = Some 46 ->
  hit (i_ (Seq (txt ".env") (Grp (Alt (txt ".") Eoi)))) (p ++ s ++ q) = true.
Proof.
  intros H Hq.
  apply (hit_at _ _ (length p));
    [reflexivity| |rewrite !length_app; lia].
  unfold matchAt. cbn [source ignoreCase i_ compile].
  rewrite compile_txt by (apply upper_canon; exact H).
  destruct Hq as [->|Hq].
  - rewrite app_nil_r.
    change (txt ".") with (Chr 46). cbn [compile]. unfold Js.str in *.
    rewrite lookup_ge_None_2 by (rewrite length_app; lia).
    rewrite length_app, Nat.eqb_refl. eauto.
  - destruct q as [|c q]; [discriminate|]. injection Hq as ->.
    change (txt ".") with (Chr 46). cbn [compile].
    assert (L : (p ++ s ++ 46 :: q) !! (length p + length s)%nat = Some 46).
    { rewrite app_assoc, <- length_app.
      rewrite lookup_app_r by lia.
      replace (length (p ++ s) - length (p ++ s))%nat with O by lia.
      reflexivity. }
    unfold Js.str in *. rewrite L. simpl. eauto.
Qed.

End HitFacts.

Ltac in_table := repeat first [left; reflexivity | right].

Ltac ends_with a l w H :=
  eexists; split; cycle 1;
  [apply (hit_suffixes a l w); [in_table | exact H] | solve [in_table]].

Ltac excluded_ending H :=
  first
    [ eexists; split; cycle 1; [apply hit_suffix; exact H | solve [in_table]]
    | ends_with ".env." ["local"; "development"; "production"; "test"] "local" H
    | ends_with ".env." ["local"; "development"; "production"; "test"]
        "development" H
    | ends_with ".env." ["local"; "development"; "production"; "test"]
        "production" H
    | ends_with ".env." ["local"; "development"; "production"; "test"] "test" H
    | ends_with "config." ["json"; "yaml"; "yml"] "json" H
    | ends_with "config." ["json"; "yaml"; "yml"] "yaml" H
    | ends_with "config." ["json"; "yaml"; "yml"] "yml" H
    | ends_with "secrets." ["json"; "yaml"; "yml"] "json" H
    | ends_with "secrets." ["json"; "yaml"; "yml"] "yaml" H
    | ends_with "secrets." ["json"; "yaml"; "yml"] "yml" H
    | ends_with "credentials." ["json"; "yaml"; "yml"] "json" H
    | ends_with "credentials." ["json"; "yaml"; "yml"] "yaml" H
    | ends_with "credentials." ["json"; "yaml"; "yml"] "yml" H
    | ends_with "docker-compose.override." ["yml"; "yaml"] "yml" H
    | ends_with "docker-compose.override." ["yml"; "yaml"] "yaml" H
    | ends_with "secret." ["yml"; "yaml"] "yml" H
    | ends_with "secret." ["yml"; "yaml"] "yaml" H ].

(** X3 (ContentSanitizer.shouldExcludeFile).  A path is excluded when it
    ends, in whatever letter case and in whatever directory, in one of the
    names of [excludedEndings], and also when [.env.] occurs anywhere in
    it. *)
Theorem shouldExcludeFile_by_name (p s q : Js.str) (name : string) :
  (In name excludedEndings ->
   Js.toUpperCase s = Js.toUpperCase (J name) ->
   ContentSanitizer.shouldExcludeFile (p ++ s) = true)
  /\ (Js.toUpperCase s = Js.toUpperCase (J ".env.") ->
      ContentSanitizer.shouldExcludeFile (p ++ s ++ q) = true).
Proof.
  split.
  - intros Hin Hs. unfold ContentSanitizer.shouldExcludeFile.
    apply existsb_exists.
    unfold excludedEndings in Hin. simpl in Hin.
    destruct Hin as [<-|Hin].
    { exists (RegExp.i_ (RegExp.Seq (RegExp.txt ".env")
                (RegExp.Grp (RegExp.Alt (RegExp.txt ".") RegExp.Eoi)))).
      split; [left; reflexivity|].
      replace (p ++ s) with (p ++ s ++ []) by (rewrite app_nil_r; reflexivity).
      apply hit_env; [exact Hs | left; reflexivity]. }
    repeat (destruct Hin as [<-|Hin]); try contradiction;
      excluded_ending Hs.
  - intros Hs. unfold ContentSanitizer.shouldExcludeFile.
    apply existsb_exists.
    exists (RegExp.i_ (RegExp.Seq (RegExp.txt ".env")
              (RegExp.Grp (RegExp.Alt (RegExp.txt ".") RegExp.Eoi)))).
    split; [left; reflexivity|].
    assert (Hl : length s = 5%nat).
    { apply (f_equal (@length N)) in Hs. unfold Js.toUpperCase in Hs.
      rewrite !length_map in Hs. exact Hs. }
    rewrite <- (take_drop 4 s), <- app_assoc.
    apply hit_env.
    + unfold Js.toUpperCase in *. rewrite <- firstn_map, Hs. reflexivity.
    + right. destruct s as [|a [|b [|c [|d [|e [|f s]]]]]]; try discriminate.
      simpl. injection Hs as _ _ _ _ He.
      assert (He' : Js.upperUnit e = 46) by exact He.
      unfold Js.upperUnit in He'.
      destruct ((97 <=? e) && (e <=? 122)) eqn:E; [|rewrite He'; reflexivity].
      apply andb_true_iff in E as [E1 E2].
      apply N.leb_le in E1, E2. lia.
Qed.

Lemma shouldExcludeFile_by_name_witness :
  In "secrets.json" excludedEndings
  /\ Js.toUpperCase (J "Secrets.JSON") = Js.toUpperCase (J "secrets.json")
  /\ ContentSanitizer.shouldExcludeFile (J "deploy/" ++ J "Secrets.JSON") = true
  /\ Js.toUpperCase (J ".Env.") = Js.toUpperCase (J ".env.")
  /\ ContentSanitizer.shouldExcludeFile (J "src/my" ++ J ".Env." ++ J "ts")
     = true.
Proof.
  assert (H1 : In "secrets.json" excludedEndings) by in_table.
  split; [exact H1|]. split; [reflexivity|].
  split.
  - exact (proj1 (shouldExcludeFile_by_name (J "deploy/") (J "Secrets.JSON")
                    [] "secrets.json") H1 eq_refl).
  - split; [reflexivity|].
    exact (proj2 (shouldExcludeFile_by_name (J "src/my") (J ".Env.") (J "ts")
                    "") eq_refl).
Defined.


Section UnitPatterns.
Import RegExp.
Variable R : RegExp.t.
Variable P : N -> bool.
Hypothesis R_global : global R = true.
Hypothesis R_unit : forall input x c,
  compile (ignoreCase R) input (source R) x c
  = match input !! x with
    | Some ch => if P ch then c (S x) else None
    | None => None
    end.

Lemma scan_unit (S : Js.str) fuel : forall i,
  (length (drop i S) < fuel)%nat ->
  scan (ignoreCase R) S fuel (source R) i
  = match hitsFrom P (drop i S) i with
    | [] => None
    | h :: _ => Some h
    end.
Proof.
  induction fuel as [|fuel IH]; intros i Hf; [lia|].
  cbn [scan]. unfold matchAt. rewrite R_unit.
  destruct (S !! i) as [ch|] eqn:E.
  - rewrite (drop_S _ _ _ E) in *. cbn [hitsFrom].
    destruct (P ch); [reflexivity|].
    apply IH. simpl in Hf. lia.
  - apply lookup_ge_None in E.
    rewrite (drop_ge S i) by exact E. cbn [hitsFrom].
    destruct fuel; [reflexivity|].
    rewrite IH.
    + rewrite (drop_ge S (Datatypes.S i)) by lia. reflexivity.
    + rewrite (drop_ge S (Datatypes.S i)) by lia. simpl. lia.
Qed.

Lemma hitsFrom_head (S : Js.str) : forall l k j e rest,
  drop k S = l ->
  hitsFrom P l k = (j, e) :: rest ->
  e = Datatypes.S j /\ (k <= j < length S)%nat
  /\ rest = hitsFrom P (drop (Datatypes.S j) S) (Datatypes.S j).
Proof.
  induction l as [|c l IH]; intros k j e rest Hd H; [discriminate|].
  assert (Hk : S !! k = Some c).
  { pose proof (lookup_drop S k 0) as L. rewrite Hd, Nat.add_0_r in L.
    symmetry. exact L. }
  assert (Hd' : drop (Datatypes.S k) S = l).
  { rewrite (drop_S _ _ _ Hk) in Hd. congruence. }
  cbn [hitsFrom] in H. destruct (P c).
  - injection H as <- <- <-. apply lookup_lt_Some in Hk.
    rewrite Hd'. repeat split; lia.
  - destruct (IH (Datatypes.S k) j e rest Hd' H) as (He & Hj & Hr).
    repeat split; [exact He | lia | lia | exact Hr].
Qed.

Lemma collect_unit (S : Js.str) fuel : forall k,
  (k <= length S)%nat -> (length S + 2 <= fuel + k)%nat ->
  collect fuel (setLastIndex R k) S
  = (hitsFrom P (drop k S) k, setLastIndex R 0).
Proof.
  induction fuel as [|fuel IH]; intros k Hk Hf; [lia|].
  cbn [collect]. unfold exec.
  change (global (setLastIndex R k)) with (global R). rewrite R_global.
  change (lastIndex (setLastIndex R k)) with k.
  change (ignoreCase (setLastIndex R k)) with (ignoreCase R).
  change (source (setLastIndex R k)) with (source R).
  rewrite scan_unit by (rewrite length_drop; lia).
  destruct (hitsFrom P (drop k S) k) as [|[j e] rest] eqn:E.
  - rewrite setLastIndex_twice. reflexivity.
  - destruct (hitsFrom_head S _ k j e rest eq_refl E) as (-> & Hj & ->).
    replace (Datatypes.S j =? j)%nat with false
      by (symmetry; apply Nat.eqb_neq; lia).
    rewrite !setLastIndex_twice.
    rewrite IH by lia. reflexivity.
Qed.

Lemma results_unit (S : Js.str) :
  results R S = (hitsFrom P S 0, setLastIndex R 0).
Proof.
  unfold results. rewrite R_global.
  rewrite collect_unit by lia. reflexivity.
Qed.

Lemma hitsFrom_length l : forall i,
  length (hitsFrom P l i) = length (List.filter P l).
Proof.
  induction l as [|c l IH]; intros i; [reflexivity|].
  simpl. destruct (P c); simpl; rewrite IH; reflexivity.
Qed.

Lemma matchCount_unit (S : Js.str) :
  ContentSanitizer.matchCount S R = length (List.filter P S).
Proof.
  unfold ContentSanitizer.matchCount, symMatch. rewrite results_unit.
  rewrite <- (hitsFrom_length S 0).
  destruct (hitsFrom P S 0); [reflexivity|].
  cbn [fst]. rewrite length_map. reflexivity.
Qed.

Lemma assemble_unit (S : Js.str) f : forall l k next acc,
  (next <= k)%nat -> drop k S = l ->
  assemble S f (hitsFrom P l k) next acc
  = acc ++ slice S next k
      ++ flat_map (fun c => if P c then f [c] else [c]) l.
Proof.
  induction l as [|c l IH]; intros k next acc Hn Hd.
  - cbn [hitsFrom assemble flat_map]. rewrite app_nil_r.
    assert (Hk : (length S <= k)%nat).
    { apply (f_equal (@length N)) in Hd. rewrite length_drop in Hd.
      simpl in Hd. lia. }
    unfold slice.
    rewrite (take_ge (drop next S)) by (rewrite length_drop; lia).
    destruct (Nat.leb_spec (length S) next) as [Hle|Hlt]; [|reflexivity].
    rewrite (drop_ge S next) by exact Hle. rewrite app_nil_r. reflexivity.
  - assert (Hk : S !! k = Some c).
    { pose proof (lookup_drop S k 0) as L. rewrite Hd, Nat.add_0_r in L.
    symmetry. exact L. }
    assert (Hd' : drop (Datatypes.S k) S = l).
    { rewrite (drop_S _ _ _ Hk) in Hd. congruence. }
    cbn [hitsFrom flat_map]. destruct (P c).
    + cbn [assemble].
      replace (next <=? k)%nat with true by (symmetry; apply Nat.leb_le; lia).
      rewrite (IH (Datatypes.S k) (Datatypes.S k)) by (lia || exact Hd').
      assert (Hs1 : slice S (Datatypes.S k) (Datatypes.S k) = []).
      { unfold slice. rewrite Nat.sub_diag. reflexivity. }
      assert (Hs2 : slice S k (Datatypes.S k) = [c]).
      { unfold slice. replace (Datatypes.S k - k)%nat with 1%nat by lia.
        rewrite (drop_S _ _ _ Hk). reflexivity. }
      rewrite Hs1, Hs2. simpl. rewrite <- !app_assoc. reflexivity.
    + rewrite (IH (Datatypes.S k) next) by (lia || exact Hd').
      assert (Hs : slice S next (Datatypes.S k) = slice S next k ++ [c]).
      { unfold slice.
        replace (Datatypes.S k - next)%nat with (Datatypes.S (k - next)) by lia.
        assert (Hl : drop next S !! (k - next)%nat = Some c).
        { rewrite lookup_drop. replace (next + (k - next))%nat with k by lia.
          exact Hk. }
        rewrite (take_S_r _ _ _ Hl). reflexivity. }
      rewrite Hs, <- !app_assoc. reflexivity.
Qed.

Lemma replace_unit (S : Js.str) f :
  fst (replace S R f) = flat_map (fun c => if P c then f [c] else [c]) S.
Proof.
  unfold replace. rewrite results_unit. cbn [fst].
  rewrite (assemble_unit S f S 0 0 []) by (lia || reflexivity).
  unfold slice. reflexivity.
Qed.

End UnitPatterns.

Section ContentSafety.
Import RegExp ContentSanitizer.

Lemma nullBytes_count content :
  matchCount content (g_ (Chr 0))
  = length (List.filter (fun c => c =? 0) content).
Proof. apply matchCount_unit; reflexivity. Qed.

Lemma nonPrintable_count content :
  matchCount content
    (g_ (Cls false [CRange 0 8; CRange 14 31; CRange 127 255]))
  = length (List.filter nonPrintable content).
Proof.
  rewrite (matchCount_unit _
             (fun ch => xorb false
                (existsb (itemMatch false ch)
                   [CRange 0 8; CRange 14 31; CRange 127 255])))
    by reflexivity.
  f_equal. apply filter_ext. intros c.
  unfold nonPrintable. cbn. unfold inRange.
  rewrite !orb_false_r.
  replace (0 <=? c) with true by (symmetry; apply N.leb_le; lia).
  cbn [andb]. rewrite orb_assoc. reflexivity.
Qed.

Lemma filter_none (P : N -> bool) (l : list N) :
  Forall (fun c => P c = false) l -> List.filter P l = [].
Proof.
  induction 1 as [|c l Hc _ IH]; [reflexivity|].
  simpl. rewrite Hc. exact IH.
Qed.

Lemma filter_some (P : N -> bool) (l : list N) c :
  c ∈ l -> P c = true -> (0 < length (List.filter P l))%nat.
Proof.
  intros Hin Hc. apply list_elem_of_In in Hin.
  assert (In c (List.filter P l)) by (apply filter_In; auto).
  destruct (List.filter P l); [contradiction | simpl; lia].
Qed.

Lemma isBinaryContent_null content :
  0 ∈ content -> isBinaryContent content = true.
Proof.
  intros H. unfold isBinaryContent. rewrite nullBytes_count.
  pose proof (filter_some (fun c => c =? 0) content 0 H eq_refl) as L.
  apply orb_true_iff. left. apply Nat.ltb_lt. exact L.
Qed.

Lemma isBinaryContent_printable content :
  Forall (fun c => nonPrintable c = false) content ->
  isBinaryContent content = false.
Proof.
  intros H. unfold isBinaryContent.
  rewrite nullBytes_count, nonPrintable_count.
  rewrite (filter_none nonPrintable) by exact H.
  rewrite (filter_none (fun c => c =? 0)).
  - simpl. destruct (length content); reflexivity.
  - eapply Forall_impl; [exact H|]. intros c Hc. simpl.
    destruct (N.eqb_spec c 0) as [->|]; [discriminate Hc | reflexivity].
Qed.

Lemma split_nonempty' s sep : Js.split s sep <> [].
Proof.
  induction s as [|c s IH]; [discriminate|].
  simpl. destruct (c =? sep); [discriminate|].
  destruct (Js.split s sep); [contradiction | discriminate].
Qed.

Lemma size_list_to_set_pos (l : list Js.str) :
  l <> [] -> (0 < size (list_to_set l : gset Js.str))%nat.
Proof.
  destruct l as [|x l]; [congruence|]. intros _.
  assert (H : (list_to_set (x :: l) : gset Js.str) ≢ ∅).
  { apply (non_empty_inhabited x). set_solver. }
  apply size_non_empty_iff in H. lia.
Qed.

Lemma lt_tenth (u n : nat) :
  Js.lt (Js.div u n) (QArith_base.Qmake 1 10)
  = ((10 * Z.of_nat u <? Z.of_nat n)%Z).
Proof.
  unfold Js.lt, Js.div. destruct n as [|n].
  - destruct u; symmetry; apply Z.ltb_ge; lia.
  - assert (E : Z.pos (Pos.of_nat (S n)) = Z.of_nat (S n))
      by (rewrite <- Pos.of_nat_succ, Zpos_P_of_succ_nat, Nat2Z.inj_succ;
          reflexivity).
    unfold QArith_base.Qle_bool. cbn [QArith_base.Qnum QArith_base.Qden].
    rewrite E.
    destruct (Z.leb_spec (1 * Z.of_nat (S n)) (Z.of_nat u * 10));
      destruct (Z.ltb_spec (10 * Z.of_nat u) (Z.of_nat (S n)));
      try reflexivity; lia.
Qed.

Lemma hasExcessiveRepetition_spec content :
  hasExcessiveRepetition content
  = ((10 * Z.of_nat (size (list_to_set (Js.split content 10) : gset Js.str))
      <? Z.of_nat (length (Js.split content 10)))%Z).
Proof. unfold hasExcessiveRepetition. apply lt_tenth. Qed.

Lemma hasExcessiveRepetition_few content :
  (length (Js.split content 10) <= 10)%nat ->
  hasExcessiveRepetition content = false.
Proof.
  intros H. rewrite hasExcessiveRepetition_spec.
  pose proof (size_list_to_set_pos (Js.split content 10)
                (split_nonempty' content 10)).
  apply Z.ltb_ge. lia.
Qed.

Lemma hasExcessiveRepetition_same content line :
  Forall (fun l => l = line) (Js.split content 10) ->
  (10 < length (Js.split content 10))%nat ->
  hasExcessiveRepetition content = true.
Proof.
  intros Hall Hn. rewrite hasExcessiveRepetition_spec.
  assert (E : (list_to_set (Js.split content 10) : gset Js.str) = {[ line ]}).
  { apply set_eq. intros x. rewrite elem_of_list_to_set, elem_of_singleton.
    split.
    - intros Hx. rewrite Forall_forall in Hall. apply Hall. exact Hx.
    - intros ->. destruct (Js.split content 10) as [|l ls] eqn:El;
        [simpl in Hn; lia|].
      inversion Hall; subst. left. }
  rewrite E, size_singleton. apply Z.ltb_lt. lia.
Qed.

End ContentSafety.

(** X4 (ContentSanitizer.validateContentSafety, isBinaryContent,
    hasExcessiveRepetition).  Content that holds a NUL unit is unsafe and
    reported as binary; content of more than ten lines that are all the
    same is unsafe and reported as excessive repetition. *)
Theorem validateContentSafety_rejects_nul_and_repetition (content : Js.str) :
  let v := ContentSanitizer.validateContentSafety content in
  (0 ∈ content ->
   ContentSanitizer.isSafe v = false
   /\ J "Binary content detected" ∈ ContentSanitizer.risks v)
  /\ (forall line,
        Forall (fun l => l = line) (Js.split content 10) ->
        (10 < length (Js.split content 10))%nat ->
        ContentSanitizer.isSafe v = false
        /\ J "Excessive repetition detected" ∈ ContentSanitizer.risks v).
Proof.
  intros v. subst v. unfold ContentSanitizer.validateContentSafety.
  split.
  - intros H. rewrite (isBinaryContent_null content H).
    unfold ContentSanitizer.pushIf.
    destruct (1000000 <? Z.of_nat (length content))%Z;
      destruct (ContentSanitizer.hasExcessiveRepetition content);
      cbn [fst snd app length Nat.eqb ContentSanitizer.isSafe
           ContentSanitizer.risks];
      (split; [reflexivity | set_solver]).
  - intros line Hall Hn.
    rewrite (hasExcessiveRepetition_same content line Hall Hn).
    unfold ContentSanitizer.pushIf.
    destruct (1000000 <? Z.of_nat (length content))%Z;
      destruct (ContentSanitizer.isBinaryContent content);
      cbn [fst snd app length Nat.eqb ContentSanitizer.isSafe
           ContentSanitizer.risks];
      (split; [reflexivity | set_solver]).
Qed.

Lemma validateContentSafety_rejects_nul_and_repetition_witness :
  0 ∈ [72; 0; 73]
  /\ ContentSanitizer.isSafe
       (ContentSanitizer.validateContentSafety [72; 0; 73]) = false
  /\ Forall (fun l => l = []) (Js.split blankLines 10)
  /\ (10 < length (Js.split blankLines 10))%nat
  /\ ContentSanitizer.isSafe
       (ContentSanitizer.validateContentSafety blankLines) = false.
Proof.
  assert (H1 : 0 ∈ [72; 0; 73]) by (apply list_elem_of_In; simpl; tauto).
  assert (H2 : Forall (fun l : Js.str => l = [])
                 (Js.split blankLines 10))
    by (repeat constructor).
  assert (H3 : (10 < length (Js.split blankLines 10))%nat)
    by (simpl; lia).
  split; [exact H1|].
  split;
    [exact (proj1 (proj1 (validateContentSafety_rejects_nul_and_repetition
                            [72; 0; 73]) H1))|].
  split; [exact H2|]. split; [exact H3|].
  exact (proj1 (proj2 (validateContentSafety_rejects_nul_and_repetition
                         blankLines) [] H2 H3)).
Defined.

(** X5 (ContentSanitizer.validateContentSafety).  Content of at most
    1,000,000 units and at most ten lines, none of whose units is a
    control character other than tab, line feed, vertical tab, form feed
    and carriage return or lies in 0x7F..0xFF, is safe: no risk and no
    recommendation is reported. *)
Theorem validateContentSafety_accepts_plain_text (content : Js.str) :
  Forall (fun c => nonPrintable c = false) content ->
  (Z.of_nat (length content) <= 1000000)%Z ->
  (length (Js.split content 10) <= 10)%nat ->
  ContentSanitizer.validateContentSafety content
  = {| ContentSanitizer.isSafe := true;
       ContentSanitizer.risks := [];
       ContentSanitizer.recommendations := [] |}.
Proof.
  intros Hp Hlen Hlines. unfold ContentSanitizer.validateContentSafety.
  rewrite (isBinaryContent_printable content Hp).
  rewrite (hasExcessiveRepetition_few content Hlines).
  replace (1000000 <? Z.of_nat (length content))%Z with false
    by (symmetry; apply Z.ltb_ge; lia).
  reflexivity.
Qed.

Lemma validateContentSafety_accepts_plain_text_witness :
  Forall (fun c => nonPrintable c = false) (J "let total = 1;")
  /\ (Z.of_nat (length (J "let total = 1;")) <= 1000000)%Z
  /\ (length (Js.split (J "let total = 1;") 10) <= 10)%nat
  /\ ContentSanitizer.isSafe
       (ContentSanitizer.validateContentSafety (J "let total = 1;")) = true.
Proof.
  assert (H1 : Forall (fun c => nonPrintable c = false) (J "let total = 1;"))
    by (repeat constructor).
  assert (H2 : (Z.of_nat (length (J "let total = 1;")) <= 1000000)%Z)
    by (simpl; lia).
  assert (H3 : (length (Js.split (J "let total = 1;") 10) <= 10)%nat)
    by (simpl; lia).
  split; [exact H1|]. split; [exact H2|]. split; [exact H3|].
  rewrite (validateContentSafety_accepts_plain_text _ H1 H2 H3).
  reflexivity.
Defined.

Section AccessFacts.
Import FileAccessControl.
Variable rt : Runtime.

Lemma statSync_file p w bytes :
  files w !! Fs.key rt p = Some bytes ->
  Fs.statSync rt p w
  = (inr {| Fs.size := Z.of_nat (length bytes); Fs.stat_isFile := true |}, w).
Proof. intros H. unfold Fs.statSync. rewrite H. reflexivity. Qed.

Lemma statSync_dir p w :
  files w !! Fs.key rt p = None -> Fs.isDir w (Fs.key rt p) = true ->
  Fs.statSync rt p w
  = (inr {| Fs.size := 4096; Fs.stat_isFile := false |}, w).
Proof. intros H D. unfold Fs.statSync. rewrite H, D. reflexivity. Qed.

Lemma isFile_Some w k bytes : files w !! k = Some bytes -> Fs.isFile w k = true.
Proof. intros H. unfold Fs.isFile. apply bool_decide_eq_true_2. eauto. Qed.

Lemma isFile_None w k : files w !! k = None -> Fs.isFile w k = false.
Proof.
  intros H. unfold Fs.isFile. apply bool_decide_eq_false_2.
  rewrite H. intros [x Hx]. discriminate.
Qed.

Ltac rejected :=
  cbv beta iota; unfold invalid; cbn [isValid reason sanitizedPath];
  split; [split; [discriminate|] | discriminate].

Lemma validateFilePath_spec self filePath w :
  let abs := Path.resolve (cwd rt) [filePath] in
  let v := validateFilePath rt self filePath w in
  (isValid v = true <-> accepted rt self filePath w)
  /\ (isValid v = true -> sanitizedPath v = Some abs /\ reason v = None).
Proof.
  intros abs v. subst v.
  unfold validateFilePath, validateBody, accepted. unfold_monad.
  fold abs.
  set (rel := Path.relative (cwd rt) (projectRoot self) abs).
  destruct (Js.startsWith rel (J "..")) eqn:E1; cbn [orb].
  { rejected. intros (H & _). discriminate. }
  destruct (Js.includes abs (J "..")) eqn:E2.
  { rejected. intros (_ & H & _). discriminate. }
  destruct (Js.startsWith abs (projectRoot self)) eqn:E3; cbn [negb].
  2:{ rejected. intros (_ & _ & H & _). discriminate. }
  destruct (isPathBlocked self rel) eqn:E4.
  { rejected. intros (_ & _ & _ & H & _). discriminate. }
  destruct (bool_decide_reflect (getFileExtension abs ∈ allowedExtensions self))
    as [E5|E5]; cbn [negb].
  2:{ rejected. intros (_ & _ & _ & _ & H & _). contradiction. }
  cbv beta. rewrite existsSync_pure.
  destruct (files w !! Fs.key rt abs) as [bytes|] eqn:E6.
  - rewrite (isFile_Some _ _ _ E6). cbn [orb negb]. cbv beta iota.
    rewrite (statSync_file _ _ _ E6). cbv beta iota. cbn [Fs.size Fs.stat_isFile].
    destruct (Z.gtb_spec (Z.of_nat (length bytes)) (maxFileSize self)) as [G|G].
    + rejected.
      intros (_ & _ & _ & _ & _ & b & Hb & Hle). injection Hb as <-. lia.
    + cbn [negb]. cbv beta iota. cbn [isValid reason sanitizedPath].
      split; [split; [intros _|reflexivity]|auto].
      repeat split; try reflexivity; try assumption. exists bytes. auto.
  - rewrite (isFile_None _ _ E6). cbn [orb].
    assert (Hno : ~ (exists b : list N, None = Some b
                       /\ (Z.of_nat (length b) <= maxFileSize self)%Z))
      by (intros (b & Hb & _); discriminate).
    destruct (Fs.isDir w (Fs.key rt abs)) eqn:D; cbn [negb]; cbv beta iota.
    + rewrite (statSync_dir _ _ E6 D). cbv beta iota.
      cbn [Fs.size Fs.stat_isFile negb].
      destruct (4096 >? maxFileSize self)%Z;
        (rejected; intros (_ & _ & _ & _ & _ & H); contradiction).
    + rejected. intros (_ & _ & _ & _ & _ & H); contradiction.
Qed.

End AccessFacts.



Section BlockedFacts.
Import FileAccessControl.

Lemma normalizedPath_slashes p :
  fst (RegExp.replace p
         {| RegExp.source := RegExp.Chr 92; RegExp.ignoreCase := false;
            RegExp.global := true; RegExp.lastIndex := 0 |}
         (fun _ => [Path.slash]))
  = slashes p.
Proof.
  rewrite (replace_unit _ (fun ch => RegExp.canon false ch =? RegExp.canon false 92))
    by reflexivity.
  unfold slashes. induction p as [|c p IH]; [reflexivity|].
  cbn [flat_map List.map]. rewrite IH. unfold RegExp.canon.
  destruct (c =? 92); reflexivity.
Qed.

Lemma slashes_id p : 92 ∉ p -> slashes p = p.
Proof.
  unfold slashes. induction p as [|c p IH]; intros H; [reflexivity|].
  simpl. rewrite IH by set_solver.
  destruct (N.eqb_spec c 92) as [->|]; [set_solver | reflexivity].
Qed.

Lemma isPathBlocked_iff self p :
  isPathBlocked self p = true
  <-> exists b, b ∈ blockedPaths self
        /\ (slashes p = b
            \/ Js.startsWith (slashes p) (b ++ [Path.slash]) = true
            \/ (Js.includes b [42] = true
                /\ fst (RegExp.test (wildcard b) (slashes p)) = true)).
Proof.
  unfold isPathBlocked. rewrite normalizedPath_slashes.
  rewrite existsb_exists. split.
  - intros (b & Hb & H). exists b. split; [apply list_elem_of_In; exact Hb|].
    apply orb_true_iff in H as [H|H].
    + apply orb_true_iff in H as [H|H].
      * left. apply bool_decide_eq_true in H. exact H.
      * right. left. exact H.
    + right. right. apply andb_true_iff in H. exact H.
  - intros (b & Hb & H). exists b. split; [apply list_elem_of_In; exact Hb|].
    destruct H as [H|[H|[H1 H2]]].
    + rewrite bool_decide_eq_true_2 by exact H. reflexivity.
    + rewrite H, orb_true_r. reflexivity.
    + rewrite H1, H2, orb_true_r. reflexivity.
Qed.

Lemma isPathBlocked_below self b tail :
  b ∈ blockedPaths self -> 92 ∉ b ->
  tail = [] \/ (exists rest, tail = Path.slash :: rest)
            \/ (exists rest, tail = 92 :: rest) ->
  isPathBlocked self (b ++ tail) = true.
Proof.
  intros Hb Hn Ht. apply isPathBlocked_iff. exists b. split; [exact Hb|].
  unfold slashes. rewrite map_app. fold (slashes b). rewrite (slashes_id b Hn).
  destruct Ht as [->|[[rest ->]|[rest ->]]].
  - left. rewrite app_nil_r. reflexivity.
  - right. left. unfold Js.startsWith, Js.isPrefix.
    apply bool_decide_eq_true. simpl List.map.
    change (b ++ Path.slash :: List.map (fun c => if c =? 92 then Path.slash else c) rest)
      with (b ++ [Path.slash] ++ List.map (fun c => if c =? 92 then Path.slash else c) rest).
    rewrite app_assoc. apply take_app_length.
  - right. left. unfold Js.startsWith, Js.isPrefix.
    apply bool_decide_eq_true. simpl List.map.
    change (b ++ Path.slash :: List.map (fun c => if c =? 92 then Path.slash else c) rest)
      with (b ++ [Path.slash] ++ List.map (fun c => if c =? 92 then Path.slash else c) rest).
    rewrite app_assoc. apply take_app_length.
Qed.

Lemma stripCommon_app (a more : list Js.str) :
  Path.stripCommon a (a ++ more) = ([], more).
Proof.
  induction a as [|x a IH]; [destruct more; reflexivity|].
  simpl. rewrite bool_decide_eq_true_2 by reflexivity. exact IH.
Qed.

Lemma relative_below rt root filePath more :
  Path.isAbsolute (cwd rt) = true ->
  more <> [] ->
  Path.resolveSegs (cwd rt) [filePath]
  = Path.resolveSegs (cwd rt) [root] ++ more ->
  Path.relative (cwd rt) (Path.resolve (cwd rt) [root])
    (Path.resolve (cwd rt) [filePath])
  = Path.unsplit more.
Proof.
  intros Hcwd Hmore Hsegs.
  assert (Hr : anchored (cwd rt) root) by (left; exact Hcwd).
  assert (Hp : anchored (cwd rt) filePath) by (left; exact Hcwd).
  pose proof (resolveSegs_clean (cwd rt) root Hr) as Hrc.
  pose proof (resolveSegs_clean (cwd rt) filePath Hp) as Hpc.
  rewrite (resolve_keyOf _ _ Hr), (resolve_keyOf _ _ Hp).
  set (rs := Path.resolveSegs (cwd rt) [root]) in *.
  set (ps := Path.resolveSegs (cwd rt) [filePath]) in *.
  assert (Hrs : Path.resolveSegs (cwd rt) [Fs.keyOf rs] = rs).
  { rewrite <- (app_nil_r (Fs.keyOf rs)). apply resolveSegs_keyOf; auto. }
  assert (Hps : Path.resolveSegs (cwd rt) [Fs.keyOf ps] = ps).
  { rewrite <- (app_nil_r (Fs.keyOf ps)). apply resolveSegs_keyOf; auto. }
  unfold Path.relative.
  destruct (bool_decide_reflect (Fs.keyOf rs = Fs.keyOf ps)) as [Heq|_].
  - exfalso. apply keyOf_injective in Heq; [|assumption..].
    rewrite Hsegs in Heq. apply (f_equal (@length Js.str)) in Heq.
    rewrite length_app in Heq. destruct more; [congruence | simpl in Heq; lia].
  - rewrite Hrs, Hps, Hsegs, stripCommon_app. reflexivity.
Qed.

End BlockedFacts.

Lemma validateFilePath_rejects_blocked_dirs_lemma
    (rt : Runtime) (self : FileAccessControl.t)
    (root filePath name : Js.str) (more : list Js.str) (w : World) :
  Path.isAbsolute (cwd rt) = true ->
  FileAccessControl.projectRoot self = Path.resolve (cwd rt) [root] ->
  name ∈ FileAccessControl.blockedPaths self ->
  92 ∉ name ->
  Path.resolveSegs (cwd rt) [filePath]
  = Path.resolveSegs (cwd rt) [root] ++ name :: more ->
  FileAccessControl.isValid
    (FileAccessControl.validateFilePath rt self filePath w) = false.
Proof.
  intros Hcwd Hroot Hname Hbs Hsegs.
  destruct (FileAccessControl.isValid
              (FileAccessControl.validateFilePath rt self filePath w)) eqn:E;
    [|reflexivity].
  exfalso.
  apply (proj1 (validateFilePath_spec rt self filePath w)) in E.
  destruct E as (_ & _ & _ & Hblocked & _).
  rewrite Hroot in Hblocked.
  rewrite (relative_below rt root filePath (name :: more) Hcwd) in Hblocked;
    [|discriminate|exact Hsegs].
  assert (Hb : FileAccessControl.isPathBlocked self
                 (Path.unsplit (name :: more)) = true).
  { destruct more as [|seg more'].
    - simpl. rewrite <- (app_nil_r name).
      apply isPathBlocked_below; auto.
    - change (Path.unsplit (name :: seg :: more'))
        with (name ++ Path.slash :: Path.unsplit (seg :: more')).
      apply isPathBlocked_below; eauto. }
  congruence.
Qed.

(** X7 (FileAccessControl.validateFilePath, isPathBlocked).  A path whose
    first segment below the project root is an entry of the blocked set
    (node_modules, .git, dist, ...) is never valid, however deep the file
    lies below it and whatever its extension. *)
Theorem validateFilePath_rejects_blocked_directories
    (rt : Runtime) (self : FileAccessControl.t)
    (root filePath name : Js.str) (more : list Js.str) (w : World) :
  Path.isAbsolute (cwd rt) = true ->
  FileAccessControl.projectRoot self = Path.resolve (cwd rt) [root] ->
  name ∈ FileAccessControl.blockedPaths self ->
  92 ∉ name ->
  Path.resolveSegs (cwd rt) [filePath]
  = Path.resolveSegs (cwd rt) [root] ++ name :: more ->
  FileAccessControl.isValid
    (FileAccessControl.validateFilePath rt self filePath w) = false.
Proof. apply validateFilePath_rejects_blocked_dirs_lemma. Qed.

Ltac not_in_text H :=
  apply list_elem_of_In in H; vm_compute in H; intuition discriminate.

Lemma validateFilePath_rejects_blocked_directories_witness :
  Path.isAbsolute (cwd sampleRuntime) = true
  /\ FileAccessControl.projectRoot
       (FileAccessControl.create sampleRuntime (J "/proj"))
     = Path.resolve (cwd sampleRuntime) [J "/proj"]
  /\ J "node_modules"
     ∈ FileAccessControl.blockedPaths
         (FileAccessControl.create sampleRuntime (J "/proj"))
  /\ (92 ∉ J "node_modules")
  /\ Path.resolveSegs (cwd sampleRuntime) [J "node_modules/lib/index.js"]
     = Path.resolveSegs (cwd sampleRuntime) [J "/proj"]
       ++ J "node_modules" :: [J "lib"; J "index.js"]
  /\ FileAccessControl.isValid
       (FileAccessControl.validateFilePath sampleRuntime
          (FileAccessControl.create sampleRuntime (J "/proj"))
          (J "node_modules/lib/index.js") sampleProject) = false.
Proof.
  assert (H1 : J "node_modules"
               ∈ FileAccessControl.blockedPaths
                   (FileAccessControl.create sampleRuntime (J "/proj")))
    by (apply list_elem_of_In; left; reflexivity).
  assert (H2 : 92 ∉ J "node_modules") by (intros H; not_in_text H).
  split; [reflexivity|]. split; [reflexivity|]. split; [exact H1|].
  split; [exact H2|]. split; [reflexivity|].
  exact (validateFilePath_rejects_blocked_directories sampleRuntime
           (FileAccessControl.create sampleRuntime (J "/proj"))
           (J "/proj") (J "node_modules/lib/index.js") (J "node_modules")
           [J "lib"; J "index.js"] sampleProject
           eq_refl eq_refl H1 H2 eq_refl).
Defined.

Section ExtensionFacts.
Import FileAccessControl.

Lemma lastIndexOf_none (s : Js.str) c : c ∉ s -> Js.lastIndexOf s c = None.
Proof.
  induction s as [|x s IH]; intros H; [reflexivity|].
  simpl. rewrite IH by set_solver.
  destruct (N.eqb_spec x c) as [->|]; [set_solver | reflexivity].
Qed.

Lemma lastIndexOf_last (p e : Js.str) c :
  c ∉ e -> Js.lastIndexOf (p ++ c :: e) c = Some (length p).
Proof.
  intros H. induction p as [|x p IH].
  - simpl. rewrite (lastIndexOf_none e c H), N.eqb_refl. reflexivity.
  - simpl. rewrite IH. reflexivity.
Qed.

End ExtensionFacts.

Lemma allowed_have_no_slash (x : Js.str) :
  x ∈ List.map Js.lit FileAccessControl.ALLOWED ->
  (Path.slash ∉ x) /\ x <> [].
Proof.
  intros H. apply list_elem_of_In in H.
  assert (F : forallb (fun a : Js.str =>
                         negb (existsb (N.eqb Path.slash) a)
                         && negb (Nat.eqb (length a) 0))
                (List.map Js.lit FileAccessControl.ALLOWED) = true)
    by (vm_compute; reflexivity).
  rewrite forallb_forall in F. specialize (F x H).
  apply andb_true_iff in F as [F1 F2]. split.
  - intros Hs. apply negb_true_iff in F1.
    assert (existsb (N.eqb Path.slash) x = true); [|congruence].
    apply existsb_exists. exists Path.slash.
    split; [apply list_elem_of_In; exact Hs | apply N.eqb_refl].
  - intros ->. discriminate F2.
Qed.

Lemma toLowerCase_keeps_slash (e : Js.str) :
  Path.slash ∈ e -> Path.slash ∈ Js.toLowerCase e.
Proof.
  intros H. unfold Js.toLowerCase.
  change Path.slash with (Js.lowerUnit Path.slash).
  apply list_elem_of_In, in_map, list_elem_of_In. exact H.
Qed.



Section ConfigurationFacts.
Import FileAccessControl.

Lemma setAdd_elem (l : list Js.str) x : x ∈ setAdd l x.
Proof.
  unfold setAdd. destruct (bool_decide_reflect (x ∈ l)); [assumption|].
  apply elem_of_app. right. left.
Qed.

Lemma setDelete_elem (l : list Js.str) x : x ∉ setDelete l x.
Proof.
  unfold setDelete. intros H. apply list_elem_of_In, filter_In in H.
  destruct H as [_ H]. apply negb_true_iff, bool_decide_eq_false in H.
  congruence.
Qed.

Lemma setDelete_absent (l : list Js.str) x : x ∉ l -> setDelete l x = l.
Proof.
  unfold setDelete. induction l as [|y l IH]; intros H; [reflexivity|].
  simpl. rewrite bool_decide_eq_false_2 by set_solver.
  simpl. rewrite IH by set_solver. reflexivity.
Qed.

Lemma setDelete_setAdd (l : list Js.str) x :
  x ∉ l -> setDelete (setAdd l x) x = l.
Proof.
  intros H. unfold setAdd. rewrite bool_decide_eq_false_2 by exact H.
  unfold setDelete. rewrite List.filter_app. fold (setDelete l x).
  rewrite (setDelete_absent l x H). simpl.
  rewrite bool_decide_eq_true_2 by reflexivity. apply app_nil_r.
Qed.

End ConfigurationFacts.

(** X9 (FileAccessControl.addBlockedPath, removeBlockedPath,
    addAllowedExtension, removeAllowedExtension).  Once an entry is added
    to the blocked set, no path below that entry of the project root is
    valid; once an extension is removed from the allowed set, no path with
    that extension is valid; and removing an entry that was just added to
    a set that did not have it gives back the configuration as it was. *)
Theorem configuration_changes_take_effect
    (rt : Runtime) (self : FileAccessControl.t)
    (root filePath entry : Js.str) (w : World) :
  (forall more,
     Path.isAbsolute (cwd rt) = true ->
     FileAccessControl.projectRoot self = Path.resolve (cwd rt) [root] ->
     92 ∉ entry ->
     Path.resolveSegs (cwd rt) [filePath]
     = Path.resolveSegs (cwd rt) [root] ++ entry :: more ->
     FileAccessControl.isValid
       (FileAccessControl.validateFilePath rt
          (FileAccessControl.addBlockedPath self entry) filePath w) = false)
  /\ (FileAccessControl.getFileExtension (Path.resolve (cwd rt) [filePath])
      = Js.toLowerCase entry ->
      FileAccessControl.isValid
        (FileAccessControl.validateFilePath rt
           (FileAccessControl.removeAllowedExtension self entry) filePath w)
      = false)
  /\ (entry ∉ FileAccessControl.blockedPaths self ->
      FileAccessControl.removeBlockedPath
        (FileAccessControl.addBlockedPath self entry) entry = self)
  /\ (Js.toLowerCase entry ∉ FileAccessControl.allowedExtensions self ->
      FileAccessControl.removeAllowedExtension
        (FileAccessControl.addAllowedExtension self entry) entry = self).
Proof.
  split; [|split; [|split]].
  - intros more Hcwd Hroot Hbs Hsegs.
    apply (validateFilePath_rejects_blocked_dirs_lemma rt
             (FileAccessControl.addBlockedPath self entry) root filePath
             entry more w); auto.
    apply setAdd_elem.
  - intros Hext.
    destruct (FileAccessControl.isValid
                (FileAccessControl.validateFilePath rt
                   (FileAccessControl.removeAllowedExtension self entry)
                   filePath w)) eqn:E; [|reflexivity].
    exfalso.
    apply (proj1 (validateFilePath_spec rt _ filePath w)) in E.
    destruct E as (_ & _ & _ & _ & Hin & _).
    rewrite Hext in Hin. apply setDelete_elem in Hin. exact Hin.
  - intros H. destruct self as [r a b m].
    unfold FileAccessControl.removeBlockedPath, FileAccessControl.addBlockedPath.
    simpl in *. rewrite (setDelete_setAdd b entry H). reflexivity.
  - intros H. destruct self as [r a b m].
    unfold FileAccessControl.removeAllowedExtension,
      FileAccessControl.addAllowedExtension.
    simpl in *. rewrite (setDelete_setAdd a _ H). reflexivity.
Qed.

Lemma configuration_changes_take_effect_witness :
  Path.isAbsolute (cwd sampleRuntime) = true
  /\ (92 ∉ J "src")
  /\ FileAccessControl.isValid
       (FileAccessControl.validateFilePath sampleRuntime
          (FileAccessControl.create sampleRuntime (J "/proj"))
          (J "src/app.ts") sampleProject) = true
  /\ FileAccessControl.isValid
       (FileAccessControl.validateFilePath sampleRuntime
          (FileAccessControl.addBlockedPath
             (FileAccessControl.create sampleRuntime (J "/proj")) (J "src"))
          (J "src/app.ts") sampleProject) = false
  /\ (J "src" ∉ FileAccessControl.blockedPaths
                  (FileAccessControl.create sampleRuntime (J "/proj")))
  /\ FileAccessControl.removeBlockedPath
       (FileAccessControl.addBlockedPath
          (FileAccessControl.create sampleRuntime (J "/proj")) (J "src"))
       (J "src")
     = FileAccessControl.create sampleRuntime (J "/proj").
Proof.
  assert (H1 : 92 ∉ J "src") by (intros H; not_in_text H).
  assert (H2 : J "src" ∉ FileAccessControl.blockedPaths
                          (FileAccessControl.create sampleRuntime (J "/proj")))
    by (intros H; not_in_text H).
  destruct (configuration_changes_take_effect sampleRuntime
              (FileAccessControl.create sampleRuntime (J "/proj"))
              (J "/proj") (J "src/app.ts") (J "src") sampleProject)
    as (E1 & _ & E3 & _).
  split; [reflexivity|]. split; [exact H1|].
  split; [vm_compute; reflexivity|].
  split; [exact (E1 [J "app.ts"] eq_refl eq_refl H1 eq_refl)|].
  split; [exact H2 | exact (E3 H2)].
Defined.

Section DirectoryFacts.
Import FileAccessControl.
Variable rt : Runtime.

Lemma someExists_pure dir names w :
  exists b, someExists rt dir names w = (inr b, w).
Proof.
  induction names as [|n names IH]; simpl; unfold_monad; [eauto|].
  rewrite existsSync_pure.
  destruct (Fs.isFile w _ || Fs.isDir w _); [eauto | exact IH].
Qed.

Lemma filterExists_pure dir names w :
  exists found, filterExists rt dir names w = (inr found, w)
                /\ (length found <= length names)%nat.
Proof.
  induction names as [|n names IH]; simpl; unfold_monad; [eauto|].
  rewrite existsSync_pure. destruct IH as (found & -> & Hlen).
  destruct (Fs.isFile w _ || Fs.isDir w _); eexists; split;
    try reflexivity; simpl; lia.
Qed.

Lemma validateProjectDirectory_spec projectPath w :
  let k := Fs.key rt (Path.resolve (cwd rt) [projectPath]) in
  let v := validateProjectDirectory rt projectPath w in
  (files w !! k = None -> Fs.isDir w k = false ->
   v = {| dir_isValid := false;
          dir_reason := Some (J "Project directory does not exist");
          warnings := [] |})
  /\ (is_Some (files w !! k) ->
      v = {| dir_isValid := false;
             dir_reason := Some (J "Path is not a directory");
             warnings := [] |})
  /\ (files w !! k = None -> Fs.isDir w k = true ->
      dir_isValid v = true /\ dir_reason v = None
      /\ (length (warnings v) <= 2)%nat).
Proof.
  intros k v. subst v.
  unfold validateProjectDirectory, validateProjectBody. unfold_monad.
  rewrite existsSync_pure. fold k.
  split; [|split].
  - intros Hf Hd. rewrite (isFile_None _ _ Hf), Hd. reflexivity.
  - intros [bytes Hf]. rewrite (isFile_Some _ _ _ Hf). cbn [orb negb].
    cbv beta iota. rewrite (statSync_file _ _ _ _ Hf). reflexivity.
  - intros Hf Hd. rewrite (isFile_None _ _ Hf), Hd. cbn [orb negb].
    cbv beta iota. rewrite (statSync_dir _ _ _ Hf Hd). cbv beta iota.
    cbn [Fs.stat_isDirectory Fs.stat_isFile negb].
    destruct (someExists_pure (Path.resolve (cwd rt) [projectPath])
                (List.map Js.lit projectIndicators) w) as [b ->].
    cbv beta iota.
    destruct (filterExists_pure (Path.resolve (cwd rt) [projectPath])
                (List.map Js.lit sensitiveFiles) w) as (found & -> & _).
    cbv beta iota. cbn [dir_isValid dir_reason warnings].
    split; [reflexivity|]. split; [reflexivity|].
    destruct b; destruct (0 <? length found)%nat; simpl; lia.
Qed.

End DirectoryFacts.

(** X10 (FileAccessControl.validateProjectDirectory).  The verdict
    depends on what is at the resolved path alone: nothing there gives
    'Project directory does not exist', a regular file gives 'Path is not
    a directory', and a directory is valid with at most two warnings; the
    result 'Directory validation failed' is never produced. *)
Theorem validateProjectDirectory_decides_by_kind
    (rt : Runtime) (projectPath : Js.str) (w : World) :
  let k := Fs.key rt (Path.resolve (cwd rt) [projectPath]) in
  let v := FileAccessControl.validateProjectDirectory rt projectPath w in
  (files w !! k = None -> Fs.isDir w k = false ->
   v = {| FileAccessControl.dir_isValid := false;
          FileAccessControl.dir_reason :=
            Some (J "Project directory does not exist");
          FileAccessControl.warnings := [] |})
  /\ (is_Some (files w !! k) ->
      v = {| FileAccessControl.dir_isValid := false;
             FileAccessControl.dir_reason := Some (J "Path is not a directory");
             FileAccessControl.warnings := [] |})
  /\ (files w !! k = None -> Fs.isDir w k = true ->
      FileAccessControl.dir_isValid v = true
      /\ FileAccessControl.dir_reason v = None
      /\ (length (FileAccessControl.warnings v) <= 2)%nat)
  /\ FileAccessControl.dir_reason v <> Some (J "Directory validation failed").
Proof.
  intros k v.
  destruct (validateProjectDirectory_spec rt projectPath w) as (H1 & H2 & H3).
  fold k in H1, H2, H3. fold v in H1, H2, H3.
  split; [exact H1|]. split; [exact H2|]. split; [exact H3|].
  destruct (files w !! k) as [bytes|] eqn:Hf.
  - rewrite H2 by eauto. simpl. intros H. injection H as H.
    vm_compute in H. discriminate H.
  - destruct (Fs.isDir w k) eqn:Hd.
    + destruct (H3 eq_refl eq_refl) as (_ & -> & _). discriminate.
    + rewrite (H1 eq_refl eq_refl). simpl. intros H. injection H as H.
      vm_compute in H. discriminate H.
Qed.

Lemma validateProjectDirectory_decides_by_kind_witness :
  files sampleProject
    !! Fs.key sampleRuntime (Path.resolve (cwd sampleRuntime) [J "/proj"])
  = None
  /\ Fs.isDir sampleProject
       (Fs.key sampleRuntime (Path.resolve (cwd sampleRuntime) [J "/proj"]))
     = true
  /\ FileAccessControl.dir_isValid
       (FileAccessControl.validateProjectDirectory sampleRuntime (J "/proj")
          sampleProject) = true
  /\ is_Some (files sampleProject
                !! Fs.key sampleRuntime
                     (Path.resolve (cwd sampleRuntime) [J "package.json"]))
  /\ FileAccessControl.dir_isValid
       (FileAccessControl.validateProjectDirectory sampleRuntime
          (J "package.json") sampleProject) = false.
Proof.
  assert (H1 : files sampleProject
                 !! Fs.key sampleRuntime
                      (Path.resolve (cwd sampleRuntime) [J "/proj"]) = None)
    by (vm_compute; reflexivity).
  assert (H2 : Fs.isDir sampleProject
                 (Fs.key sampleRuntime
                    (Path.resolve (cwd sampleRuntime) [J "/proj"])) = true)
    by (vm_compute; reflexivity).
  assert (H3 : is_Some (files sampleProject
                          !! Fs.key sampleRuntime
                               (Path.resolve (cwd sampleRuntime)
                                  [J "package.json"])))
    by (vm_compute; eauto).
  split; [exact H1|]. split; [exact H2|].
  split;
    [exact (proj1 (proj1 (proj2 (proj2
              (validateProjectDirectory_decides_by_kind sampleRuntime
                 (J "/proj") sampleProject))) H1 H2))|].
  split; [exact H3|].
  rewrite (proj1 (proj2 (validateProjectDirectory_decides_by_kind
                           sampleRuntime (J "package.json") sampleProject)) H3).
  reflexivity.
Defined.

(* ===================================================================== *)
(** * Further properties of the sandbox manager and its proxy *)
(* ===================================================================== *)

Section ProxyFacts.
Import FileSystemProxy.
Variable rt : Runtime.

Lemma logOperation_logged op path ok w :
  logOperation op path ok w = (inr tt, logged w op path ok).
Proof. reflexivity. Qed.

Lemma readFileSync_found p w bytes :
  files w !! Fs.key rt p = Some bytes ->
  Fs.readFileSync rt p w = (inr (Buffer.utf8ToString bytes), w).
Proof. intros H. unfold Fs.readFileSync. rewrite H. reflexivity. Qed.

Lemma readFileSync_missing p w :
  files w !! Fs.key rt p = None ->
  Fs.readFileSync rt p w
  = (inl (if Fs.isDir w (Fs.key rt p) then Fs.EISDIR else Fs.ENOENT), w).
Proof. intros H. unfold Fs.readFileSync. rewrite H. reflexivity. Qed.

Lemma readFile_spec self path w :
  let sandboxKey := Fs.key rt (mapToSandbox rt self path) in
  let projectKey := Fs.key rt (Path.join [projectRoot self; path]) in
  (forall bytes,
     files w !! sandboxKey = Some bytes ->
     readFile rt self path w
     = (inr (Buffer.utf8ToString bytes), logged w (J "read") path true))
  /\ (forall bytes,
        files w !! sandboxKey = None ->
        files w !! projectKey = Some bytes ->
        readFile rt self path w
        = (inr (Buffer.utf8ToString bytes), logged w (J "read") path true))
  /\ (files w !! sandboxKey = None ->
      files w !! projectKey = None ->
      readFile rt self path w
      = (inl (if Fs.isDir w projectKey then Fs.EISDIR else Fs.ENOENT),
         logged w (J "read") path false)).
Proof.
  intros sandboxKey projectKey. unfold readFile. unfold_monad.
  split; [|split].
  - intros bytes H. rewrite (readFileSync_found _ _ _ H). reflexivity.
  - intros bytes H1 H2. rewrite (readFileSync_missing _ _ H1).
    cbv beta iota. rewrite (readFileSync_found _ _ _ H2). reflexivity.
  - intros H1 H2. rewrite (readFileSync_missing _ _ H1).
    cbv beta iota. rewrite (readFileSync_missing _ _ H2). reflexivity.
Qed.

Lemma mkdirSync_log p w :
  interceptedOperations (snd (Fs.mkdirSync rt p w)) = interceptedOperations w
  /\ dirs w ⊆ dirs (snd (Fs.mkdirSync rt p w)).
Proof.
  unfold Fs.mkdirSync. destruct (existsb _ _); simpl; split;
    try reflexivity; set_solver.
Qed.

Lemma writeFileSync_log p data w :
  interceptedOperations (snd (Fs.writeFileSync rt p data w))
  = interceptedOperations w
  /\ dirs (snd (Fs.writeFileSync rt p data w)) = dirs w.
Proof.
  unfold Fs.writeFileSync.
  destruct (Fs.isDir w (Fs.key rt p)); [split; reflexivity|].
  destruct (negb _); split; reflexivity.
Qed.

Lemma writeFile_log self path content w :
  let r := writeFile rt self path content w in
  interceptedOperations (snd r)
  = interceptedOperations w
    ++ [{| operation := J "write"; op_path := path;
           success := returned (fst r) |}]
  /\ dirs w ⊆ dirs (snd r).
Proof.
  unfold writeFile. unfold_monad. rewrite existsSync_pure.
  set (target := mapToSandbox rt self path).
  assert (Hwrite : forall w1,
    interceptedOperations w1 = interceptedOperations w ->
    dirs w ⊆ dirs w1 ->
    let r :=
      match
        match Fs.writeFileSync rt target content w1 with
        | (inr _, w') => logOperation (J "write") path true w'
        | (inl e, w') => (inl e, w')
        end
      with
      | (inr a, w') => (inr a, w')
      | (inl e, w') =>
          match logOperation (J "write") path false w' with
          | (inr _, w'0) => (@inl Fs.Error unit e, w'0)
          | (inl e0, w'0) => (inl e0, w'0)
          end
      end in
    interceptedOperations (snd r)
    = interceptedOperations w
      ++ [{| operation := J "write"; op_path := path;
             success := returned (fst r) |}]
    /\ dirs w ⊆ dirs (snd r)).
  { intros w1 Hlog Hdirs.
    pose proof (writeFileSync_log target content w1) as [L D].
    destruct (Fs.writeFileSync rt target content w1) as [[e|[]] w2];
      simpl in *; rewrite L, Hlog, D; split; try reflexivity; exact Hdirs. }
  destruct (negb (_ || _)).
  - pose proof (mkdirSync_log (Path.dirname target) w) as [L D].
    destruct (Fs.mkdirSync rt (Path.dirname target) w) as [[e|[]] w1];
      simpl in L, D.
    + cbv beta iota. simpl. rewrite L. split; [reflexivity | exact D].
    + apply Hwrite; assumption.
  - apply Hwrite; [reflexivity | set_solver].
Qed.

Lemma readFile_after_writeFile_lemma self path content w :
  fst (writeFile rt self path content w) = inr tt ->
  wellFormed content = true ->
  fst (readFile rt self path (snd (writeFile rt self path content w)))
  = inr content.
Proof.
  intros Hw Hc. pose proof (writeFile_effect rt self path content w) as E.
  destruct (writeFile rt self path content w) as [[e|[]] w1];
    [discriminate|]. cbn [snd].
  assert (L : files w1 !! Fs.key rt (mapToSandbox rt self path)
              = Some (Buffer.utf8Write content))
    by (rewrite E; apply lookup_insert_eq).
  rewrite (proj1 (readFile_spec self path w1) _ L). cbn [fst].
  rewrite utf8_roundtrip by exact Hc. reflexivity.
Qed.

End ProxyFacts.

(** X11 (FileSystemProxy.writeFile, readFile).  What a successful
    [writeFile] wrote is what the next [readFile] of the same path
    returns, for every content whose surrogates are paired. *)
Theorem readFile_after_writeFile
    (rt : Runtime) (self : FileSystemProxy.t) (path content : Js.str)
    (w : World) :
  fst (FileSystemProxy.writeFile rt self path content w) = inr tt ->
  wellFormed content = true ->
  fst (FileSystemProxy.readFile rt self path
         (snd (FileSystemProxy.writeFile rt self path content w)))
  = inr content.
Proof. apply readFile_after_writeFile_lemma. Qed.

Lemma readFile_after_writeFile_witness :
  fst (FileSystemProxy.writeFile sampleRuntime
         (SandboxManager.fileSystemProxy sampleManager)
         (J "src/app.ts") (J "let total = 1;") sampleProject) = inr tt
  /\ wellFormed (J "let total = 1;") = true
  /\ fst (FileSystemProxy.readFile sampleRuntime
            (SandboxManager.fileSystemProxy sampleManager) (J "src/app.ts")
            (snd (FileSystemProxy.writeFile sampleRuntime
                    (SandboxManager.fileSystemProxy sampleManager)
                    (J "src/app.ts") (J "let total = 1;") sampleProject)))
     = inr (J "let total = 1;").
Proof.
  assert (H1 : fst (FileSystemProxy.writeFile sampleRuntime
                      (SandboxManager.fileSystemProxy sampleManager)
                      (J "src/app.ts") (J "let total = 1;") sampleProject)
               = inr tt) by (vm_compute; reflexivity).
  split; [exact H1|]. split; [reflexivity|].
  exact (readFile_after_writeFile sampleRuntime
           (SandboxManager.fileSystemProxy sampleManager)
           (J "src/app.ts") (J "let total = 1;") sampleProject H1 eq_refl).
Defined.

(** X12 (FileSystemProxy.readFile).  [readFile] returns the sandbox copy
    when there is one, otherwise the file of the project itself, and
    throws when neither is a regular file.  It changes no file and no
    directory, and logs exactly one 'read' entry, marked as a success
    exactly when it returned. *)
Theorem readFile_prefers_sandbox_then_project
    (rt : Runtime) (self : FileSystemProxy.t) (path : Js.str) (w : World) :
  let sandboxKey := Fs.key rt (FileSystemProxy.mapToSandbox rt self path) in
  let projectKey :=
    Fs.key rt (Path.join [FileSystemProxy.projectRoot self; path]) in
  (forall bytes,
     files w !! sandboxKey = Some bytes ->
     FileSystemProxy.readFile rt self path w
     = (inr (Buffer.utf8ToString bytes), logged w (J "read") path true))
  /\ (forall bytes,
        files w !! sandboxKey = None ->
        files w !! projectKey = Some bytes ->
        FileSystemProxy.readFile rt self path w
        = (inr (Buffer.utf8ToString bytes), logged w (J "read") path true))
  /\ (files w !! sandboxKey = None ->
      files w !! projectKey = None ->
      FileSystemProxy.readFile rt self path w
      = (inl (if Fs.isDir w projectKey then Fs.EISDIR else Fs.ENOENT),
         logged w (J "read") path false)).
Proof. apply readFile_spec. Qed.

Lemma readFile_prefers_sandbox_then_project_witness :
  files sampleProject
    !! Fs.key sampleRuntime
         (FileSystemProxy.mapToSandbox sampleRuntime
            (SandboxManager.fileSystemProxy sampleManager) (J "src/app.ts"))
  = None
  /\ files sampleProject
       !! Fs.key sampleRuntime
            (Path.join [FileSystemProxy.projectRoot
                          (SandboxManager.fileSystemProxy sampleManager);
                        J "src/app.ts"])
     = Some (J "let total = 1;")
  /\ FileSystemProxy.readFile sampleRuntime
       (SandboxManager.fileSystemProxy sampleManager) (J "src/app.ts")
       sampleProject
     = (inr (Buffer.utf8ToString (J "let total = 1;")),
        logged sampleProject (J "read") (J "src/app.ts") true).
Proof.
  assert (H1 : files sampleProject
                 !! Fs.key sampleRuntime
                      (FileSystemProxy.mapToSandbox sampleRuntime
                         (SandboxManager.fileSystemProxy sampleManager)
                         (J "src/app.ts")) = None)
    by (vm_compute; reflexivity).
  assert (H2 : files sampleProject
                 !! Fs.key sampleRuntime
                      (Path.join [FileSystemProxy.projectRoot
                                    (SandboxManager.fileSystemProxy
                                       sampleManager);
                                  J "src/app.ts"])
               = Some (J "let total = 1;"))
    by (vm_compute; reflexivity).
  split; [exact H1|]. split; [exact H2|].
  exact (proj1 (proj2 (readFile_prefers_sandbox_then_project sampleRuntime
                         (SandboxManager.fileSystemProxy sampleManager)
                         (J "src/app.ts") sampleProject)) _ H1 H2).
Defined.

(** X13 (FileSystemProxy.writeFile, logOperation).  Every call of
    [writeFile] appends exactly one 'write' entry to the operation log,
    marked as a success exactly when the call returned; it keeps every
    earlier entry and removes no directory. *)
Theorem writeFile_logs_one_entry
    (rt : Runtime) (self : FileSystemProxy.t) (path content : Js.str)
    (w : World) :
  let r := FileSystemProxy.writeFile rt self path content w in
  interceptedOperations (snd r)
  = interceptedOperations w
    ++ [{| operation := J "write"; op_path := path;
           success := returned (fst r) |}]
  /\ dirs w ⊆ dirs (snd r).
Proof. apply writeFile_log. Qed.

Section ExecutionFacts.
Import SandboxManager.
Variable rt : Runtime.

Lemma executeCode_spec self clock code filePath w :
  let written :=
    FileSystemProxy.writeFile rt (fileSystemProxy self) filePath code w in
  let r := executeCode rt self clock code filePath w in
  exists res,
    r = (inr res, snd written)
    /\ (fst written = inr tt ->
        ExecutionResult.success res = true
        /\ ExecutionResult.output res = J "Validation passed"
        /\ ExecutionResult.error res = None
        /\ ExecutionResult.exitCode res = 0%Z
        /\ ExecutionResult.duration res = (clock 3%nat - clock 0%nat)%Z
        /\ ExecutionResult.confidence res
           = Gate.calculateTotalConfidence (ExecutionResult.metrics res)
        /\ (59 <= ExecutionResult.confidence res <= 84)%Z)
    /\ (forall e, fst written = inl e -> res = failed e).
Proof.
  intros written r. subst r. unfold executeCode. unfold_monad.
  fold written. destruct written as [[e|[]] w1]; cbn [fst snd].
  - eexists. split; [reflexivity|]. split; [discriminate|].
    intros e' H. injection H as <-. reflexivity.
  - destruct (calculateConfidence_spec rt
                (confidenceCalculator self) filePath (Some code) w1)
      as (v1 & v2 & -> & Hv1 & Hv2).
    eexists. split; [reflexivity|]. split; [|discriminate].
    intros _. cbn [ExecutionResult.success ExecutionResult.output
                   ExecutionResult.error ExecutionResult.exitCode
                   ExecutionResult.duration ExecutionResult.confidence
                   ExecutionResult.metrics runValidation placeholder].
    repeat split; try reflexivity;
      rewrite calculateTotalConfidence_sum; unfold sumOfSix; simpl; lia.
Qed.

End ExecutionFacts.

(** X14 (SandboxManager.executeCode, runValidation).  [executeCode] never
    throws.  When the write into the sandbox succeeds it reports success
    with output 'Validation passed' and exit code 0 whatever the code is,
    a confidence that is the sum of the reported metrics and lies between
    59 and 84, and the time between its first and its last reading of the
    clock; when the write fails it reports that error with confidence 0.
    Either way the world is left as the write left it. *)
Theorem executeCode_reports_write_outcome
    (rt : Runtime) (self : SandboxManager.t) (clock : nat -> Z)
    (code filePath : Js.str) (w : World) :
  let written :=
    FileSystemProxy.writeFile rt (SandboxManager.fileSystemProxy self)
      filePath code w in
  let r := SandboxManager.executeCode rt self clock code filePath w in
  exists res,
    r = (inr res, snd written)
    /\ (fst written = inr tt ->
        ExecutionResult.success res = true
        /\ ExecutionResult.output res = J "Validation passed"
        /\ ExecutionResult.error res = None
        /\ ExecutionResult.exitCode res = 0%Z
        /\ ExecutionResult.duration res = (clock 3%nat - clock 0%nat)%Z
        /\ ExecutionResult.confidence res
           = Gate.calculateTotalConfidence (ExecutionResult.metrics res)
        /\ (59 <= ExecutionResult.confidence res <= 84)%Z)
    /\ (forall e, fst written = inl e -> res = SandboxManager.failed e).
Proof. apply executeCode_spec. Qed.

Lemma executeCode_reports_write_outcome_witness :
  fst (FileSystemProxy.writeFile sampleRuntime
         (SandboxManager.fileSystemProxy sampleManager)
         (J "src/app.ts") (J "let total = ;") sampleProject) = inr tt
  /\ exists res,
       fst (SandboxManager.executeCode sampleRuntime sampleManager
              (fun n => Z.of_nat n) (J "let total = ;") (J "src/app.ts")
              sampleProject) = inr res
       /\ ExecutionResult.success res = true.
Proof.
  assert (H1 : fst (FileSystemProxy.writeFile sampleRuntime
                      (SandboxManager.fileSystemProxy sampleManager)
                      (J "src/app.ts") (J "let total = ;") sampleProject)
               = inr tt) by (vm_compute; reflexivity).
  split; [exact H1|].
  destruct (executeCode_reports_write_outcome sampleRuntime sampleManager
              (fun n => Z.of_nat n) (J "let total = ;") (J "src/app.ts")
              sampleProject) as (res & E & Hok & _).
  exists res. split; [rewrite E; reflexivity | exact (proj1 (Hok H1))].
Defined.

(** X15 (SandboxManager.deployToRealFiles, calculateConfidence,
    checkDeploymentPermission; ConfidenceCalculator.calculateConfidence).
    Without [force], [deployToRealFiles] never deploys: for every file and
    every state of the file system it returns [false] and changes
    nothing, because the confidence the manager computes for a file never
    exceeds 84 and the gate allows from 95 on. *)
Theorem deploy_without_force_never_deploys
    (rt : Runtime) (self : SandboxManager.t) (filePath : Js.str) (w : World) :
  SandboxManager.deployToRealFiles rt self filePath false w = (inr false, w)
  /\ exists z,
       SandboxManager.calculateConfidence rt self (Some filePath) w
       = (inr z, w)
       /\ (0 <= z <= 84)%Z
       /\ allowed (Gate.checkDeploymentPermission filePath z) = false.
Proof.
  split; [apply unforced_deploy_is_denied|].
  destruct (computed_confidence_at_most_84 rt self (Some filePath) w)
    as (z & E & Hz).
  exists z. split; [exact E|]. split; [exact Hz|].
  destruct (allowed (Gate.checkDeploymentPermission filePath z)) eqn:A;
    [|reflexivity].
  apply gate_allows_iff in A. lia.
Qed.

Section CleanFacts.
Variable rt : Runtime.

Lemma normalizeSegs_snoc (x seg : Js.str) :
  clean seg ->
  exists init, Path.normalizeSegs false (x ++ Path.slash :: seg) = init ++ [seg].
Proof.
  intros Hc. unfold Path.normalizeSegs.
  rewrite split_app_slash.
  rewrite (split_slashFree seg) by (destruct Hc as (_ & _ & _ & H); exact H).
  rewrite fold_left_app. cbn [fold_left].
  rewrite pushSeg_clean by exact Hc.
  eexists. cbn [rev]. reflexivity.
Qed.

Lemma sandboxPath_key projectPath :
  Path.isAbsolute projectPath = true ->
  exists init,
    Forall clean (init ++ [J "sandbox"])
    /\ Fs.key rt (SandboxManager.sandboxPath (SandboxManager.create projectPath))
       = Fs.keyOf (init ++ [J "sandbox"])
    /\ Path.resolveSegs (cwd rt) [SandboxManager.sandboxPath (SandboxManager.create projectPath)]
       = init ++ [J "sandbox"].
Proof.
  intros Habs. cbn [SandboxManager.create SandboxManager.sandboxPath].
  destruct (join_absolute projectPath [J ".sentvibe"; J "sandbox"] Habs)
    as (tr & Htr & Hj).
  assert (Hs : clean (J "sandbox")).
  { repeat split; try discriminate. intros H. not_in_text H. }
  match type of Hj with
  | _ = Fs.keyOf (Path.normalizeSegs false ?q) ++ _ =>
      pose proof (normalizeSegs_clean q) as Hc;
      assert (Hq : q = (projectPath ++ Path.slash :: J ".sentvibe")
                       ++ Path.slash :: J "sandbox")
        by (cbn; rewrite <- app_assoc; reflexivity)
  end.
  rewrite Hq in Hj, Hc.
  destruct (normalizeSegs_snoc (projectPath ++ Path.slash :: J ".sentvibe")
              (J "sandbox") Hs) as [init Hi].
  rewrite Hi in Hj, Hc. exists init. split; [exact Hc|].
  assert (Hroot : Path.join [projectPath; J ".sentvibe"; J "sandbox"]
                  = Fs.keyOf (init ++ [J "sandbox"]) ++ tr) by exact Hj.
  rewrite Hroot. split.
  - apply key_keyOf; assumption.
  - apply resolveSegs_keyOf; assumption.
Qed.

Lemma keyOf_not_root (init : list Js.str) (seg : Js.str) :
  Forall clean (init ++ [seg]) -> Fs.keyOf (init ++ [seg]) <> [Path.slash].
Proof.
  intros Hc H. unfold Fs.keyOf in H. injection H as H.
  apply unsplit_nil_iff in H; [|exact Hc].
  destruct init; discriminate.
Qed.

Lemma under_self k : Fs.under k k = true.
Proof. unfold Fs.under. rewrite bool_decide_eq_true_2 by reflexivity. reflexivity. Qed.

Lemma rmSync_effect p w :
  let k := Fs.key rt p in
  k <> [Path.slash] ->
  exists w1,
    Fs.rmSync rt p w = (inr tt, w1)
    /\ (forall x, Fs.under k x = true -> files w1 !! x = None)
    /\ (forall x, Fs.under k x = false -> files w1 !! x = files w !! x)
    /\ (forall x, Fs.under k x = true -> x ∉ dirs w1)
    /\ interceptedOperations w1 = interceptedOperations w.
Proof.
  intros k Hk. unfold Fs.rmSync. fold k.
  rewrite bool_decide_eq_false_2 by exact Hk.
  eexists. split; [reflexivity|]. cbn [files dirs interceptedOperations].
  split; [|split; [|split]].
  - intros x Hx. apply map_lookup_filter_None. right.
    intros v _. cbn [fst]. congruence.
  - intros x Hx. destruct (files w !! x) as [v|] eqn:E.
    + apply map_lookup_filter_Some. split; [exact E | exact Hx].
    + apply map_lookup_filter_None. left. exact E.
  - intros x Hx Hin. apply elem_of_filter in Hin as [Hin _]. congruence.
  - reflexivity.
Qed.

Lemma mkdirSync_effect p w :
  Fs.mkdirSync rt p w = (inl Fs.ENOTDIR, w)
  \/ Fs.mkdirSync rt p w
     = (inr tt, {| files := files w;
                   dirs := dirs w ∪ list_to_set (Fs.chain rt p);
                   interceptedOperations := interceptedOperations w |}).
Proof. unfold Fs.mkdirSync. destruct (existsb _ _); auto. Qed.

Lemma clean_spec projectPath w :
  Path.isAbsolute projectPath = true ->
  let self := SandboxManager.create projectPath in
  let ks := Fs.key rt (SandboxManager.sandboxPath self) in
  let r := SandboxManager.clean rt self true w in
  (Fs.isFile w ks || Fs.isDir w ks = true ->
   forall k, Fs.under ks k = true -> files (snd r) !! k = None)
  /\ (forall k, Fs.under ks k = false -> files (snd r) !! k = files w !! k)
  /\ (fst r = inr tt -> Fs.isDir (snd r) ks = true)
  /\ interceptedOperations (snd r) = interceptedOperations w.
Proof.
  intros Habs self ks r.
  destruct (sandboxPath_key projectPath Habs) as (init & Hc & Hk & Hsegs).
  fold self in Hk, Hsegs. fold ks in Hk.
  assert (Hroot : ks <> [Path.slash])
    by (rewrite Hk; apply keyOf_not_root; exact Hc).
  assert (Hself : ks ∈ (list_to_set (Fs.chain rt (SandboxManager.sandboxPath self))
                        : gset Js.str)).
  { apply elem_of_list_to_set. unfold Fs.chain. rewrite Hsegs, Hk.
    apply chain_has_self. destruct init; discriminate. }
  assert (Hmk : forall w1,
    Fs.isFile w1 ks || Fs.isDir w1 ks = false ->
    let r1 := SandboxManager.ensureSandboxDirectory rt self w1 in
    files (snd r1) = files w1
    /\ (fst r1 = inr tt -> Fs.isDir (snd r1) ks = true)
    /\ interceptedOperations (snd r1) = interceptedOperations w1).
  { intros w1 E. unfold SandboxManager.ensureSandboxDirectory. unfold_monad.
    rewrite existsSync_pure. fold ks. rewrite E. cbn [negb].
    destruct (mkdirSync_effect (SandboxManager.sandboxPath self) w1) as [->| ->];
      cbn [fst snd files dirs interceptedOperations].
    - split; [reflexivity|]. split; [discriminate | reflexivity].
    - split; [reflexivity|]. split; [|reflexivity].
      intros _. unfold Fs.isDir. cbn [dirs].
      rewrite (bool_decide_eq_true_2 (ks ∈ _))
        by (apply elem_of_union; right; exact Hself).
      apply orb_true_r. }
  subst r. unfold SandboxManager.clean. unfold_monad. rewrite existsSync_pure. fold ks.
  destruct (Fs.isFile w ks || Fs.isDir w ks) eqn:E.
  - destruct (rmSync_effect (SandboxManager.sandboxPath self) w Hroot)
      as (w1 & -> & R1 & R2 & R3 & R4). fold ks in R1, R2, R3.
    cbv beta iota.
    assert (E1 : Fs.isFile w1 ks || Fs.isDir w1 ks = false).
    { rewrite (isFile_None w1 ks (R1 ks (under_self ks))).
      unfold Fs.isDir. rewrite bool_decide_eq_false_2 by exact Hroot.
      rewrite bool_decide_eq_false_2 by (apply R3, under_self).
      reflexivity. }
    destruct (Hmk w1 E1) as (F & D & L).
    destruct (SandboxManager.ensureSandboxDirectory rt self w1) as [[e|[]] w2];
      cbn [fst snd] in *.
    + split; [intros _ k Hu; rewrite F; apply R1, Hu|].
      split; [intros k Hu; rewrite F; apply R2, Hu|].
      split; [discriminate | congruence].
    + split; [intros _ k Hu; rewrite F; apply R1, Hu|].
      split; [intros k Hu; rewrite F; apply R2, Hu|].
      split; [intros _; apply D; reflexivity | congruence].
  - cbv beta iota.
    destruct (Hmk w E) as (F & D & L).
    destruct (SandboxManager.ensureSandboxDirectory rt self w) as [[e|[]] w2];
      cbn [fst snd] in *.
    + split; [discriminate|]. split; [intros k _; rewrite F; reflexivity|].
      split; [discriminate | exact L].
    + split; [discriminate|]. split; [intros k _; rewrite F; reflexivity|].
      split; [intros _; apply D; reflexivity | exact L].
Qed.

End CleanFacts.

(** X16 (SandboxManager.clean, ensureSandboxDirectory).  [clean(true)]
    on an existing sandbox leaves no file in it, whether or not the call
    then returns; it changes no file outside the sandbox and no entry of
    the operation log, and when it returns the sandbox directory exists.
    [clean(false)] does nothing. *)
Theorem clean_empties_the_sandbox_only
    (rt : Runtime) (projectPath : Js.str) (w : World) :
  Path.isAbsolute projectPath = true ->
  let self := SandboxManager.create projectPath in
  let ks := Fs.key rt (SandboxManager.sandboxPath self) in
  let r := SandboxManager.clean rt self true w in
  (Fs.isFile w ks || Fs.isDir w ks = true ->
   forall k, Fs.under ks k = true -> files (snd r) !! k = None)
  /\ (forall k, Fs.under ks k = false -> files (snd r) !! k = files w !! k)
  /\ (fst r = inr tt -> Fs.isDir (snd r) ks = true)
  /\ interceptedOperations (snd r) = interceptedOperations w
  /\ SandboxManager.clean rt self false w = (inr tt, w).
Proof.
  intros Habs self ks r.
  destruct (clean_spec rt projectPath w Habs) as (H1 & H2 & H3 & H4).
  split; [exact H1|]. split; [exact H2|]. split; [exact H3|].
  split; [exact H4 | reflexivity].
Qed.

Lemma clean_empties_the_sandbox_only_witness :
  Path.isAbsolute (J "/proj") = true
  /\ Fs.isFile sampleWorld (J "/proj/.sentvibe/sandbox")
     || Fs.isDir sampleWorld (J "/proj/.sentvibe/sandbox") = true
  /\ Fs.under (J "/proj/.sentvibe/sandbox")
       (J "/proj/.sentvibe/sandbox/evil.exe") = true
  /\ files sampleWorld !! J "/proj/.sentvibe/sandbox/evil.exe"
     = Some (J "MZ")
  /\ files (snd (SandboxManager.clean sampleRuntime
                   (SandboxManager.create (J "/proj")) true sampleWorld))
       !! J "/proj/.sentvibe/sandbox/evil.exe" = None.
Proof.
  split; [reflexivity|]. split; [vm_compute; reflexivity|].
  split; [vm_compute; reflexivity|]. split; [vm_compute; reflexivity|].
  exact (proj1 (clean_empties_the_sandbox_only sampleRuntime (J "/proj")
                  sampleWorld eq_refl)
           eq_refl (J "/proj/.sentvibe/sandbox/evil.exe") eq_refl).
Defined.

(* ===================================================================== *)
(** * Further properties of DatabaseEncryption *)
(* ===================================================================== *)

Section EncryptedFacts.
Import DatabaseEncryption.

Lemma base64_nil_iff bs : Buffer.base64 bs = [] <-> bs = [].
Proof.
  split; [|intros ->; reflexivity].
  intros H. pose proof (base64_length bs) as L. rewrite H in L.
  destruct bs; [reflexivity | simpl in L; lia].
Qed.

Lemma utf8Write_nil_iff s : Buffer.utf8Write s = [] <-> s = [].
Proof.
  split; [|intros ->; reflexivity].
  intros H. pose proof (utf8Write_length s) as L. rewrite H in L.
  destruct s; [reflexivity | simpl in L; lia].
Qed.

Lemma isEncrypted_payload encoded now :
  plain encoded = true -> plain now = true ->
  isEncrypted (payloadText encoded now) = Some (JSON.Str encoded).
Proof.
  intros He Hn. unfold isEncrypted.
  rewrite (parse_payload encoded now He Hn). reflexivity.
Qed.

End EncryptedFacts.

(** X17 (DatabaseEncryption.isEncrypted, encryptData).  On the text that
    [encryptData] returns, [isEncrypted] yields the base64 text of the
    data rather than [true]; that value is the empty string, which is
    falsy, exactly when the data was empty.  On a text that is not JSON
    it yields [false]. *)
Theorem isEncrypted_of_encryptData
    (self : DatabaseEncryption.t) (now x data : Js.str) :
  (is_Some (DatabaseEncryption.encryptionKey self) ->
   plain now = true ->
   exists e,
     DatabaseEncryption.encryptData self now x = inr e
     /\ DatabaseEncryption.isEncrypted e
        = Some (JSON.Str (Buffer.base64 (Buffer.utf8Write x)))
     /\ (DatabaseEncryption.isEncrypted e = Some (JSON.Str []) <-> x = []))
  /\ (JSON.parse data = None ->
      DatabaseEncryption.isEncrypted data = Some (JSON.Bool false)).
Proof.
  split.
  - intros Hk Hn. rewrite (encryptData_text self now x Hk Hn).
    eexists. split; [reflexivity|].
    rewrite (isEncrypted_payload _ now (base64_plain _) Hn).
    split; [reflexivity|]. split.
    + intros H. injection H as H.
      apply (proj1 (base64_nil_iff _)) in H.
      apply (proj1 (utf8Write_nil_iff _)) in H. exact H.
    + intros ->. reflexivity.
  - intros H. unfold DatabaseEncryption.isEncrypted. rewrite H. reflexivity.
Qed.

Lemma isEncrypted_of_encryptData_witness :
  is_Some (DatabaseEncryption.encryptionKey sampleEncryption)
  /\ plain sampleTime = true
  /\ (exists e,
        DatabaseEncryption.encryptData sampleEncryption sampleTime [] = inr e
        /\ DatabaseEncryption.isEncrypted e = Some (JSON.Str []))
  /\ JSON.parse (J "plain text") = None
  /\ DatabaseEncryption.isEncrypted (J "plain text") = Some (JSON.Bool false).
Proof.
  assert (H1 : is_Some (DatabaseEncryption.encryptionKey sampleEncryption))
    by (vm_compute; eauto).
  assert (H2 : plain sampleTime = true) by (vm_compute; reflexivity).
  assert (H3 : JSON.parse (J "plain text") = None)
    by (vm_compute; reflexivity).
  split; [exact H1|]. split; [exact H2|].
  destruct (isEncrypted_of_encryptData sampleEncryption sampleTime []
              (J "plain text")) as [E1 E2].
  split.
  - destruct (E1 H1 H2) as (e & He & _ & Hiff).
    exists e. split; [exact He | apply Hiff; reflexivity].
  - split; [exact H3 | exact (E2 H3)].
Defined.

Section DatabaseFileFacts.
Import DatabaseFiles.
Variable rt : Runtime.

Lemma plainUnit_not_surrogate c :
  plainUnit c = true -> Buffer.isHigh c = false /\ Buffer.isLow c = false.
Proof. intros H. apply plainUnit_spec in H. tauto. Qed.

Lemma wellFormed_bmp_app a b :
  bmp a = true -> wellFormed (a ++ b) = wellFormed b.
Proof.
  induction a as [|c a IH]; intros H; [reflexivity|].
  cbn [bmp forallb] in H. apply andb_true_iff in H as [Hc Ha].
  apply andb_true_iff in Hc as [Hc H3]. apply andb_true_iff in Hc as [H1 H2].
  apply negb_true_iff in H1, H2.
  cbn [app wellFormed]. rewrite H1, H2, H3. cbn [negb andb].
  apply IH. exact Ha.
Qed.

Lemma wellFormed_bmp a : bmp a = true -> wellFormed a = true.
Proof.
  intros H. rewrite <- (app_nil_r a). rewrite wellFormed_bmp_app by exact H.
  reflexivity.
Qed.

Lemma bmp_app a b : bmp (a ++ b) = bmp a && bmp b.
Proof. apply forallb_app. Qed.

Lemma b64char_lt v : Buffer.b64char v < 128.
Proof. pose proof (b64char_range v) as R. cbv zeta in R. lia. Qed.

Lemma base64_ascii bs : Forall (fun c => c < 128) (Buffer.base64 bs).
Proof.
  induction bs as [| a | a b | a b d l IH] using triples_ind;
    cbn [Buffer.base64]; repeat constructor;
    try apply b64char_lt; try lia; exact IH.
Qed.

Lemma bmp_ascii s : Forall (fun c => c < 256) s -> bmp s = true.
Proof.
  intros H. unfold bmp. apply forallb_forall. intros c Hc.
  rewrite Forall_forall in H. specialize (H c (proj2 (list_elem_of_In _ _) Hc)).
  replace (Buffer.isHigh c) with false
    by (symmetry; apply isHigh_false; lia).
  replace (Buffer.isLow c) with false by (symmetry; apply isLow_false; lia).
  cbn [negb andb]. apply N.ltb_lt. lia.
Qed.

Lemma bmp_base64 bs : bmp (Buffer.base64 bs) = true.
Proof.
  apply bmp_ascii. eapply Forall_impl; [apply base64_ascii|].
  intros c Hc. simpl in Hc. lia.
Qed.

Lemma bmp_lit (s : string) : bmp (J s) = true.
Proof.
  apply bmp_ascii. unfold Js.lit. apply Forall_forall. intros c Hc.
  apply list_elem_of_In, in_map_iff in Hc as (a & <- & _).
  pose proof (N_ascii_bounded a). lia.
Qed.

Lemma bmp_plain_wellFormed s :
  plain s = true -> wellFormed s = true -> bmp s = true.
Proof.
  induction s as [|c s IH]; intros Hp Hw; [reflexivity|].
  cbn [plain forallb] in Hp. apply andb_true_iff in Hp as [Hc Hp].
  destruct (plainUnit_not_surrogate c Hc) as [H1 H2].
  cbn [wellFormed] in Hw. rewrite H1, H2 in Hw. cbn [negb andb] in Hw.
  apply andb_true_iff in Hw as [H3 Hw].
  cbn [bmp forallb]. rewrite H1, H2, H3. cbn [negb andb].
  apply IH; assumption.
Qed.

Lemma payloadText_wellFormed encoded now :
  bmp encoded = true -> bmp now = true ->
  wellFormed (payloadText encoded now) = true.
Proof.
  intros He Hn. apply wellFormed_bmp. unfold payloadText.
  change (123 :: 34 :: (J "encrypted" ++ 34 :: 58 :: 116 :: 114 :: 117 :: 101
            :: 44 :: 34 :: (J "data" ++ 34 :: 58 :: 34 :: (encoded ++ 34 :: 44
            :: 34 :: (J "timestamp" ++ 34 :: 58 :: 34 :: (now ++ [34; 125]))))))
    with ((123 :: 34 :: J "encrypted" ++ 34 :: 58 :: 116 :: 114 :: 117 :: 101
            :: 44 :: 34 :: J "data" ++ [34; 58; 34]) ++ encoded
          ++ (34 :: 44 :: 34 :: J "timestamp" ++ [34; 58; 34]) ++ now
          ++ [34; 125]).
  rewrite !bmp_app, He, Hn. reflexivity.
Qed.

Lemma writeFileSync_ok p data w :
  Fs.isDir w (Fs.key rt p) = false ->
  Fs.isDir w (Fs.parentKey rt p) = true ->
  Fs.writeFileSync rt p data w
  = (inr tt, {| files := <[Fs.key rt p := Buffer.utf8Write data]> (files w);
                dirs := dirs w;
                interceptedOperations := interceptedOperations w |}).
Proof. intros H1 H2. unfold Fs.writeFileSync. rewrite H1, H2. reflexivity. Qed.

Lemma writeFileBuffer_ok p bytes w :
  Fs.isDir w (Fs.key rt p) = false ->
  Fs.isDir w (Fs.parentKey rt p) = true ->
  Fs.writeFileBuffer rt p bytes w
  = (inr tt, {| files := <[Fs.key rt p := bytes]> (files w);
                dirs := dirs w;
                interceptedOperations := interceptedOperations w |}).
Proof. intros H1 H2. unfold Fs.writeFileBuffer. rewrite H1, H2. reflexivity. Qed.

Lemma database_file_round_trip_lemma self now dbPath outputPath bytes w :
  is_Some (DatabaseEncryption.encryptionKey self) ->
  plain now = true -> wellFormed now = true ->
  Forall (fun b => b < 256) bytes ->
  files w !! Fs.key rt dbPath = Some bytes ->
  Fs.isDir w (Fs.key rt (dbPath ++ J ".encrypted")) = false ->
  Fs.isDir w (Fs.parentKey rt (dbPath ++ J ".encrypted")) = true ->
  Fs.isDir w (Fs.key rt outputPath) = false ->
  Fs.isDir w (Fs.parentKey rt outputPath) = true ->
  exists w1 w2,
    encryptDatabaseFile rt self now dbPath w = (inr tt, w1)
    /\ decryptDatabaseFile rt self (dbPath ++ J ".encrypted") outputPath w1
       = (inr tt, w2)
    /\ files w2 !! Fs.key rt outputPath = Some bytes
    /\ (forall k, k <> Fs.key rt outputPath ->
                  k <> Fs.key rt (dbPath ++ J ".encrypted") ->
                  files w2 !! k = files w !! k).
Proof.
  intros Hk Hp Hw Hb Hf D1 D2 D3 D4.
  pose (text := Buffer.base64 bytes).
  pose (enc := Buffer.base64 (Buffer.utf8Write text)).
  assert (Hnow : bmp now = true) by (apply bmp_plain_wellFormed; assumption).
  assert (Htext : wellFormed text = true)
    by (apply wellFormed_bmp, bmp_base64).
  assert (Hpay : wellFormed (payloadText enc now) = true)
    by (apply payloadText_wellFormed; [apply bmp_base64 | exact Hnow]).
  unfold encryptDatabaseFile, decryptDatabaseFile, bind, io, crypto.
  rewrite existsSync_pure, (isFile_Some _ _ _ Hf). cbn [orb negb].
  unfold Fs.readFileBuffer. rewrite Hf.
  rewrite (encryptData_text self now (Buffer.base64 bytes) Hk Hp).
  change (Buffer.base64 (Buffer.utf8Write (Buffer.base64 bytes))) with enc.
  rewrite (writeFileSync_ok _ _ _ D1 D2).
  eexists. eexists. split; [reflexivity|].
  rewrite (readFileSync_found rt _ _ (Buffer.utf8Write (payloadText enc now)))
    by (cbn [files]; apply lookup_insert_eq).
  rewrite (utf8_roundtrip _ Hpay).
  rewrite (decryptData_text self enc now Hk (base64_plain _) Hp).
  unfold enc.
  rewrite (base64_roundtrip _ (utf8Write_bytes _ Htext)).
  rewrite (utf8_roundtrip _ Htext). unfold text.
  rewrite (base64_roundtrip _ Hb).
  rewrite writeFileBuffer_ok by (cbn [dirs]; assumption).
  split; [reflexivity|]. cbn [files]. split.
  - apply lookup_insert_eq.
  - intros k K1 K2. rewrite lookup_insert_ne by congruence.
    rewrite lookup_insert_ne by congruence. reflexivity.
Qed.

End DatabaseFileFacts.

(** X18 (DatabaseEncryption.encryptDatabaseFile, decryptDatabaseFile).
    Encrypting a database file and decrypting the result restores the
    file byte for byte, whatever the bytes are, and changes no file other
    than the encrypted copy and the output; encrypting a path at which
    nothing exists returns without any effect. *)
Theorem database_file_round_trip
    (rt : Runtime) (self : DatabaseEncryption.t)
    (now dbPath outputPath : Js.str) (bytes : list N) (w : World) :
  (is_Some (DatabaseEncryption.encryptionKey self) ->
   plain now = true -> wellFormed now = true ->
   Forall (fun b => b < 256) bytes ->
   files w !! Fs.key rt dbPath = Some bytes ->
   Fs.isDir w (Fs.key rt (dbPath ++ J ".encrypted")) = false ->
   Fs.isDir w (Fs.parentKey rt (dbPath ++ J ".encrypted")) = true ->
   Fs.isDir w (Fs.key rt outputPath) = false ->
   Fs.isDir w (Fs.parentKey rt outputPath) = true ->
   exists w1 w2,
     DatabaseFiles.encryptDatabaseFile rt self now dbPath w = (inr tt, w1)
     /\ DatabaseFiles.decryptDatabaseFile rt self (dbPath ++ J ".encrypted")
          outputPath w1 = (inr tt, w2)
     /\ files w2 !! Fs.key rt outputPath = Some bytes
     /\ (forall k, k <> Fs.key rt outputPath ->
                   k <> Fs.key rt (dbPath ++ J ".encrypted") ->
                   files w2 !! k = files w !! k))
  /\ (files w !! Fs.key rt dbPath = None ->
      Fs.isDir w (Fs.key rt dbPath) = false ->
      DatabaseFiles.encryptDatabaseFile rt self now dbPath w = (inr tt, w)).
Proof.
  split; [apply database_file_round_trip_lemma|].
  intros Hf Hd. unfold DatabaseFiles.encryptDatabaseFile, DatabaseFiles.bind,
    DatabaseFiles.io.
  rewrite existsSync_pure, (isFile_None _ _ Hf), Hd. reflexivity.
Qed.

Lemma database_file_round_trip_witness :
  is_Some (DatabaseEncryption.encryptionKey sampleEncryption)
  /\ plain sampleTime = true /\ wellFormed sampleTime = true
  /\ Forall (fun b => b < 256) (J "{}")
  /\ files sampleProject !! Fs.key sampleRuntime (J "package.json")
     = Some (J "{}")
  /\ exists w1 w2,
       DatabaseFiles.encryptDatabaseFile sampleRuntime sampleEncryption
         sampleTime (J "package.json") sampleProject = (inr tt, w1)
       /\ DatabaseFiles.decryptDatabaseFile sampleRuntime sampleEncryption
            (J "package.json" ++ J ".encrypted") (J "restored.json") w1
          = (inr tt, w2)
       /\ files w2 !! Fs.key sampleRuntime (J "restored.json")
          = Some (J "{}").
Proof.
  assert (H1 : is_Some (DatabaseEncryption.encryptionKey sampleEncryption))
    by (vm_compute; eauto).
  assert (H2 : plain sampleTime = true) by (vm_compute; reflexivity).
  assert (H3 : wellFormed sampleTime = true) by (vm_compute; reflexivity).
  assert (H4 : Forall (fun b => b < 256) (J "{}"))
    by (repeat constructor).
  assert (H5 : files sampleProject !! Fs.key sampleRuntime (J "package.json")
               = Some (J "{}")) by (vm_compute; reflexivity).
  split; [exact H1|]. split; [exact H2|]. split; [exact H3|].
  split; [exact H4|]. split; [exact H5|].
  destruct (proj1 (database_file_round_trip sampleRuntime sampleEncryption
                     sampleTime (J "package.json") (J "restored.json")
                     (J "{}") sampleProject)
              H1 H2 H3 H4 H5 eq_refl eq_refl eq_refl eq_refl)
    as (w1 & w2 & E1 & E2 & E3 & _).
  exists w1, w2. auto.
Defined.
(* ===================================================================== *)
(** * Further properties: copying the project into the sandbox *)
(* ===================================================================== *)

Section CopyFacts.
Import FileSystemProxy.
Variable rt : Runtime.

Lemma cpSync_effect src dest w :
  match Fs.cpSync rt src dest w with
  | (inr _, w') =>
      exists bytes,
        files w !! Fs.key rt src = Some bytes
        /\ files w' = <[Fs.key rt dest := bytes]> (files w)
        /\ interceptedOperations w' = interceptedOperations w
  | (inl _, w') =>
      files w' = files w /\ interceptedOperations w' = interceptedOperations w
  end.
Proof.
  unfold Fs.cpSync.
  destruct (files w !! Fs.key rt src) as [bytes|] eqn:E; [|auto].
  destruct (bool_decide _); [auto|].
  destruct (Fs.isDir w (Fs.key rt dest)); [auto|].
  assert (Hw : forall w1,
    files w1 = files w -> interceptedOperations w1 = interceptedOperations w ->
    match Fs.writeFileBuffer rt dest bytes w1 with
    | (inr _, w') =>
        exists bytes0,
          Some bytes = Some bytes0
          /\ files w' = <[Fs.key rt dest := bytes0]> (files w)
          /\ interceptedOperations w' = interceptedOperations w
    | (inl _, w') =>
        files w' = files w /\ interceptedOperations w' = interceptedOperations w
    end).
  { intros w1 F L. unfold Fs.writeFileBuffer.
    destruct (Fs.isDir w1 (Fs.key rt dest)); [auto|].
    destruct (negb _); [auto|].
    exists bytes. cbn [files interceptedOperations]. rewrite F. auto. }
  destruct (Fs.isFile w _ || Fs.isDir w _).
  - apply Hw; reflexivity.
  - destruct (mkdirSync_effect rt (Path.dirname dest) w) as [->| ->].
    + auto.
    + apply Hw; reflexivity.
Qed.

Lemma copyOne_effect self file w :
  let src := Fs.key rt (Path.join [projectRoot self; file]) in
  let dst := Fs.key rt (Path.join [sandboxRoot self; file]) in
  match copyOne rt self file w with
  | (inr _, w') =>
      (files w !! src = None -> files w' = files w)
      /\ (forall bytes, files w !! src = Some bytes ->
                        files w' = <[dst := bytes]> (files w))
      /\ interceptedOperations w' = interceptedOperations w
  | (inl _, w') =>
      files w' = files w /\ interceptedOperations w' = interceptedOperations w
  end.
Proof.
  intros src dst. unfold copyOne. unfold_monad. rewrite existsSync_pure.
  assert (Hrest : forall w1,
    files w1 = files w -> interceptedOperations w1 = interceptedOperations w ->
    match
      (let (s, w') :=
         Fs.existsSync rt (Path.join [projectRoot self; file]) w1 in
       match s with
       | inl e => (inl e, w')
       | inr a =>
           (if a
            then
             fun w0 : World =>
               let (s0, w'0) :=
                 Fs.statSync rt (Path.join [projectRoot self; file]) w0 in
               match s0 with
               | inl e => (inl e, w'0)
               | inr a0 =>
                   (if Fs.stat_isFile a0
                    then Fs.cpSync rt (Path.join [projectRoot self; file])
                           (Path.join [sandboxRoot self; file])
                    else fun w1 : World => (inr tt, w1)) w'0
               end
            else fun w0 : World => (inr tt, w0)) w'
       end)
    with
    | (inr _, w') =>
        (files w !! src = None -> files w' = files w)
        /\ (forall bytes, files w !! src = Some bytes ->
                          files w' = <[dst := bytes]> (files w))
        /\ interceptedOperations w' = interceptedOperations w
    | (inl _, w') =>
        files w' = files w /\ interceptedOperations w' = interceptedOperations w
    end).
  { intros w1 F L. rewrite existsSync_pure.
    destruct (files w1 !! Fs.key rt (Path.join [projectRoot self; file]))
      as [bytes|] eqn:E.
    - rewrite (isFile_Some _ _ _ E). cbn [orb]. cbv beta iota.
      rewrite (statSync_file rt _ _ _ E). cbv beta iota. cbn [Fs.stat_isFile].
      pose proof (cpSync_effect (Path.join [projectRoot self; file])
                    (Path.join [sandboxRoot self; file]) w1) as C.
      destruct (Fs.cpSync rt _ _ w1) as [[e|[]] w2].
      + destruct C as [C1 C2]. split; congruence.
      + destruct C as (b & Hb & C1 & C2).
        assert (b = bytes) by congruence. subst b.
        fold src in E. fold dst in C1. rewrite F in E, C1.
        split; [intros H; congruence|]. split; [|congruence].
        intros b' Hb'. assert (b' = bytes) by congruence. subst b'. exact C1.
    - rewrite (isFile_None _ _ E). cbn [orb]. fold src in E. rewrite F in E.
      destruct (Fs.isDir w1 _) eqn:D.
      + cbv beta iota.
        assert (E' : files w1 !! Fs.key rt (Path.join [projectRoot self; file])
                     = None) by (rewrite F; exact E).
        rewrite (statSync_dir rt _ _ E' D). cbv beta iota.
        cbn [Fs.stat_isFile]. split; [auto|]. split; [|exact L].
        intros b Hb. congruence.
      + cbv beta iota. split; [auto|]. split; [|exact L].
        intros b Hb. congruence. }
  destruct (negb _).
  - destruct (mkdirSync_effect rt
                (Path.dirname (Path.join [sandboxRoot self; file])) w)
      as [->| ->].
    + cbv beta iota. auto.
    + cbv beta iota. apply Hrest; reflexivity.
  - cbv beta iota. apply Hrest; reflexivity.
Qed.

Lemma copyAll_frame self names : forall w k,
  (forall n, n ∈ names ->
             k <> Fs.key rt (Path.join [sandboxRoot self; n])) ->
  files (snd (copyAll rt self names w)) !! k = files w !! k
  /\ interceptedOperations (snd (copyAll rt self names w))
     = interceptedOperations w.
Proof.
  induction names as [|n names IH]; intros w k Hk; [auto|].
  cbn [copyAll]. unfold_monad.
  pose proof (copyOne_effect self n w) as C. cbv zeta in C.
  destruct (copyOne rt self n w) as [[e|[]] w1]; cbn [snd].
  - destruct C as [-> ->]. auto.
  - destruct C as (C1 & C2 & C3).
    destruct (IH w1 k) as [I1 I2];
      [intros m Hm; apply Hk; apply list_elem_of_further; exact Hm|].
    rewrite I1, I2. split; [|exact C3].
    destruct (files w !! Fs.key rt (Path.join [projectRoot self; n]))
      as [bytes|] eqn:E.
    + rewrite (C2 bytes eq_refl). apply lookup_insert_ne.
      intros H. apply (Hk n); [apply list_elem_of_here | congruence].
    + rewrite (C1 eq_refl). reflexivity.
Qed.

Lemma copyAll_copies self names : forall w,
  NoDup names ->
  (forall n m, n ∈ names -> m ∈ names ->
     Fs.key rt (Path.join [sandboxRoot self; n])
     = Fs.key rt (Path.join [sandboxRoot self; m]) -> n = m) ->
  (forall n m, n ∈ names -> m ∈ names ->
     Fs.key rt (Path.join [projectRoot self; n])
     <> Fs.key rt (Path.join [sandboxRoot self; m])) ->
  fst (copyAll rt self names w) = inr tt ->
  forall n bytes,
    n ∈ names ->
    files w !! Fs.key rt (Path.join [projectRoot self; n]) = Some bytes ->
    files (snd (copyAll rt self names w))
      !! Fs.key rt (Path.join [sandboxRoot self; n]) = Some bytes.
Proof.
  induction names as [|n0 names IH]; intros w Hnd Hinj Hdis Hok n bytes Hn Hf;
    [apply elem_of_nil in Hn; contradiction|].
  apply NoDup_cons in Hnd as [Hn0 Hnd].
  cbn [copyAll] in *. unfold_monad.
  pose proof (copyOne_effect self n0 w) as C. cbv zeta in C.
  destruct (copyOne rt self n0 w) as [[e|[]] w1]; [discriminate Hok|].
  cbn [fst snd] in *. destruct C as (C1 & C2 & C3).
  apply elem_of_cons in Hn as [->|Hn].
  - destruct (copyAll_frame self names w1
                (Fs.key rt (Path.join [sandboxRoot self; n0]))) as [F _].
    { intros m Hm H.
      apply Hinj in H;
        [|apply list_elem_of_here | apply list_elem_of_further; exact Hm].
      subst m. contradiction. }
    rewrite F, (C2 bytes Hf). apply lookup_insert_eq.
  - apply IH.
    + exact Hnd.
    + intros a b Ha Hb. apply Hinj; apply list_elem_of_further; assumption.
    + intros a b Ha Hb. apply Hdis; apply list_elem_of_further; assumption.
    + exact Hok.
    + exact Hn.
    + destruct (files w !! Fs.key rt (Path.join [projectRoot self; n0]))
        as [b0|] eqn:E.
      * rewrite (C2 b0 eq_refl). rewrite lookup_insert_ne; [exact Hf|].
        intros H.
        apply (Hdis n n0);
          [apply list_elem_of_further; exact Hn | apply list_elem_of_here |].
        congruence.
      * rewrite (C1 eq_refl). exact Hf.
Qed.

Lemma existingFiles_spec self names : forall w,
  exists found,
    existingFiles rt self names w = (inr found, w)
    /\ (forall n, n ∈ found -> n ∈ names)
    /\ (forall n bytes,
          n ∈ names ->
          files w !! Fs.key rt (Path.join [projectRoot self; n]) = Some bytes ->
          n ∈ found)
    /\ (NoDup names -> NoDup found).
Proof.
  induction names as [|n names IH]; intros w; cbn [existingFiles]; unfold_monad.
  - exists []. split; [reflexivity|]. split; [auto|]. split.
    + intros n b Hn. apply elem_of_nil in Hn. contradiction.
    + intros _. constructor.
  - rewrite existsSync_pure. destruct (IH w) as (found & -> & S1 & S2 & S3).
    cbv beta iota.
    destruct (Fs.isFile w _ || Fs.isDir w _) eqn:E; eexists;
      (split; [reflexivity|]).
    + split.
      { intros m Hm. apply elem_of_cons in Hm as [->|Hm];
          [apply list_elem_of_here | apply list_elem_of_further, S1, Hm]. }
      split.
      * intros m b Hm Hb. apply elem_of_cons in Hm as [->|Hm];
          [apply list_elem_of_here
          | apply list_elem_of_further; eapply S2; eauto].
      * intros Hnd. apply NoDup_cons in Hnd as [H1 H2].
        apply NoDup_cons. split; [intros H; apply H1, S1, H | auto].
    + split; [intros m Hm; apply list_elem_of_further, S1, Hm|]. split.
      * intros m b Hm Hb. apply elem_of_cons in Hm as [->|Hm];
          [|eapply S2; eauto].
        rewrite (isFile_Some _ _ _ Hb) in E. discriminate.
      * intros Hnd. apply NoDup_cons in Hnd as [H1 H2]. auto.
Qed.

End CopyFacts.
Section MirrorFacts.
Import FileSystemProxy.
Variable rt : Runtime.

Lemma normalizeSegs_push (x seg : Js.str) :
  clean seg ->
  Path.normalizeSegs false (x ++ Path.slash :: seg)
  = Path.normalizeSegs false x ++ [seg].
Proof.
  intros Hc. unfold Path.normalizeSegs.
  rewrite split_app_slash.
  rewrite (split_slashFree seg) by (destruct Hc as (_ & _ & _ & H); exact H).
  rewrite fold_left_app. cbn [fold_left].
  rewrite pushSeg_clean by exact Hc. reflexivity.
Qed.

Lemma key_join_name (a n : Js.str) :
  Path.isAbsolute a = true -> clean n ->
  Fs.key rt (Path.join [a; n]) = Fs.keyOf (Path.normalizeSegs false a ++ [n]).
Proof.
  intros Ha Hn.
  destruct (join_absolute a [n] Ha) as (tr & Htr & Hj).
  assert (Hne : n <> []) by (destruct Hn as (H & _); exact H).
  rewrite filter_cons_True in Hj by exact Hne. rewrite filter_nil in Hj.
  cbn [Path.unsplit] in Hj. rewrite normalizeSegs_push in Hj by exact Hn.
  pose proof (normalizeSegs_clean (a ++ Path.slash :: n)) as Hc.
  rewrite normalizeSegs_push in Hc by exact Hn.
  transitivity (Fs.key rt (Fs.keyOf (Path.normalizeSegs false a ++ [n]) ++ tr)).
  - f_equal. exact Hj.
  - apply key_keyOf; assumption.
Qed.

Lemma clean_literals :
  clean (J ".sentvibe") /\ clean (J "sandbox")
  /\ Forall clean (List.map Js.lit importantFiles).
Proof.
  assert (T : forall s : Js.str,
            s <> [] -> s <> [Path.dot] -> s <> [Path.dot; Path.dot] ->
            existsb (N.eqb Path.slash) s = false -> clean s).
  { intros s H1 H2 H3 H4. repeat split; try assumption.
    intros Hs. assert (existsb (N.eqb Path.slash) s = true); [|congruence].
    apply existsb_exists. exists Path.slash.
    split; [apply list_elem_of_In; exact Hs | apply N.eqb_refl]. }
  split; [apply T; (discriminate || reflexivity)|].
  split; [apply T; (discriminate || reflexivity)|].
  unfold importantFiles. cbn [List.map].
  repeat (apply Forall_cons; split;
          [apply T; (discriminate || reflexivity)|]).
  apply Forall_nil. exact I.
Qed.

Lemma sandboxRoot_segs projectPath :
  Path.isAbsolute projectPath = true ->
  let P := Path.normalizeSegs false projectPath in
  exists tr,
    (tr = [] \/ tr = [Path.slash])
    /\ sandboxRoot (SandboxManager.fileSystemProxy
                      (SandboxManager.create projectPath))
       = Fs.keyOf (P ++ [J ".sentvibe"; J "sandbox"]) ++ tr
    /\ Forall clean (P ++ [J ".sentvibe"; J "sandbox"]).
Proof.
  intros Habs P.
  destruct clean_literals as (C1 & C2 & _).
  destruct (join_absolute projectPath [J ".sentvibe"; J "sandbox"] Habs)
    as (tr & Htr & Hj).
  match type of Hj with
  | _ = Fs.keyOf (Path.normalizeSegs false ?q) ++ _ =>
      pose proof (normalizeSegs_clean q) as Hc;
      assert (Hq : q = (projectPath ++ Path.slash :: J ".sentvibe")
                       ++ Path.slash :: J "sandbox")
        by (cbn; rewrite <- app_assoc; reflexivity)
  end.
  rewrite Hq in Hj, Hc.
  rewrite !normalizeSegs_push in Hj, Hc by assumption.
  rewrite <- app_assoc in Hj, Hc. cbn [app] in Hj, Hc.
  exists tr. split; [exact Htr|]. split; [exact Hj | exact Hc].
Qed.

Lemma mirror_keys projectPath n :
  Path.isAbsolute projectPath = true -> clean n ->
  let self := SandboxManager.fileSystemProxy
                (SandboxManager.create projectPath) in
  let P := Path.normalizeSegs false projectPath in
  Fs.key rt (Path.join [projectRoot self; n]) = Fs.keyOf (P ++ [n])
  /\ Fs.key rt (Path.join [sandboxRoot self; n])
     = Fs.keyOf (P ++ [J ".sentvibe"; J "sandbox"; n])
  /\ Fs.key rt (sandboxRoot self)
     = Fs.keyOf (P ++ [J ".sentvibe"; J "sandbox"])
  /\ Forall clean (P ++ [n])
  /\ Forall clean (P ++ [J ".sentvibe"; J "sandbox"; n]).
Proof.
  intros Habs Hn self P.
  destruct (sandboxRoot_segs projectPath Habs) as (tr & Htr & Hroot & Hc).
  fold self in Hroot. fold P in Hroot, Hc.
  assert (HP : Forall clean P) by (apply normalizeSegs_clean).
  split; [apply key_join_name; assumption|].
  assert (Hsb : Path.isAbsolute (sandboxRoot self) = true).
  { rewrite Hroot. reflexivity. }
  split.
  { rewrite (key_join_name (sandboxRoot self) n Hsb Hn).
    rewrite Hroot, (normalizeSegs_keyOf_tr _ tr Hc Htr).
    rewrite <- app_assoc. reflexivity. }
  split; [rewrite Hroot; apply key_keyOf; assumption|].
  split.
  - apply Forall_app. split; [exact HP | constructor; [exact Hn | constructor]].
  - replace (P ++ [J ".sentvibe"; J "sandbox"; n])
      with ((P ++ [J ".sentvibe"; J "sandbox"]) ++ [n])
      by (rewrite <- app_assoc; reflexivity).
    apply Forall_app. split; [exact Hc | constructor; [exact Hn | constructor]].
Qed.

Lemma keyOf_below (segs : list Js.str) (n : Js.str) :
  segs <> [] ->
  Fs.under (Fs.keyOf segs) (Fs.keyOf (segs ++ [n])) = true.
Proof.
  intros Hne. unfold Fs.under. apply orb_true_iff. right.
  unfold Js.startsWith, Js.isPrefix. apply bool_decide_eq_true.
  unfold Fs.keyOf. rewrite (unsplit_snoc segs n Hne).
  change (Path.slash :: Path.unsplit segs ++ Path.slash :: n)
    with ((Path.slash :: Path.unsplit segs) ++ [Path.slash] ++ n).
  rewrite app_assoc. apply take_app_length.
Qed.

Lemma copyProjectToSandbox_spec projectPath w :
  Path.isAbsolute projectPath = true ->
  let self := SandboxManager.fileSystemProxy
                (SandboxManager.create projectPath) in
  let r := copyProjectToSandbox rt self w in
  (forall k, Fs.under (Fs.key rt (sandboxRoot self)) k = false ->
             files (snd r) !! k = files w !! k)
  /\ interceptedOperations (snd r) = interceptedOperations w
  /\ (fst r = inr tt ->
      forall name bytes,
        In name importantFiles ->
        files w !! Fs.key rt (Path.join [projectRoot self; J name])
        = Some bytes ->
        files (snd r) !! Fs.key rt (Path.join [sandboxRoot self; J name])
        = Some bytes).
Proof.
  intros Habs self r.
  destruct clean_literals as (_ & _ & Hclean).
  rewrite Forall_forall in Hclean.
  assert (Hnd : NoDup (List.map Js.lit importantFiles))
    by (apply (bool_decide_unpack _); vm_compute; exact I).
  destruct (existingFiles_spec rt self (List.map Js.lit importantFiles) w)
    as (found & Hfound & S1 & S2 & S3).
  assert (Hr : r = copyAll rt self found w).
  { subst r. unfold copyProjectToSandbox, getProjectFiles. unfold_monad.
    rewrite Hfound. cbv beta iota.
    destruct (copyAll rt self found w) as [[e|[]] w']; reflexivity. }
  rewrite Hr. clear Hr r.
  assert (Hkeys : forall n, n ∈ found ->
            Fs.key rt (Path.join [projectRoot self; n])
            = Fs.keyOf (Path.normalizeSegs false projectPath ++ [n])
            /\ Fs.key rt (Path.join [sandboxRoot self; n])
               = Fs.keyOf (Path.normalizeSegs false projectPath
                           ++ [J ".sentvibe"; J "sandbox"; n])
            /\ Fs.key rt (sandboxRoot self)
               = Fs.keyOf (Path.normalizeSegs false projectPath
                           ++ [J ".sentvibe"; J "sandbox"])
            /\ Forall clean (Path.normalizeSegs false projectPath ++ [n])
            /\ Forall clean (Path.normalizeSegs false projectPath
                             ++ [J ".sentvibe"; J "sandbox"; n])).
  { intros n Hn. apply mirror_keys; [exact Habs | apply Hclean, S1, Hn]. }
  split; [|split].
  - intros k Hk. apply copyAll_frame. intros n Hn Heq.
    destruct (Hkeys n Hn) as (_ & K2 & K3 & _).
    rewrite Heq, K2, K3 in Hk.
    replace (Path.normalizeSegs false projectPath
             ++ [J ".sentvibe"; J "sandbox"; n])
      with ((Path.normalizeSegs false projectPath
             ++ [J ".sentvibe"; J "sandbox"]) ++ [n]) in Hk
      by (rewrite <- app_assoc; reflexivity).
    rewrite keyOf_below in Hk; [discriminate|].
    destruct (Path.normalizeSegs false projectPath); discriminate.
  - apply (copyAll_frame rt self found w []). intros n Hn Heq.
    destruct (Hkeys n Hn) as (_ & K2 & _). rewrite K2 in Heq. discriminate.
  - intros Hok name bytes Hname Hf.
    assert (Hin : J name ∈ List.map Js.lit importantFiles)
      by (apply list_elem_of_In, in_map, Hname).
    apply copyAll_copies; [exact (S3 Hnd) | | | exact Hok | | exact Hf].
    + intros n m Hn Hm Heq.
      destruct (Hkeys n Hn) as (_ & K2 & _ & _ & C2).
      destruct (Hkeys m Hm) as (_ & K2' & _ & _ & C2').
      rewrite K2, K2' in Heq.
      apply keyOf_injective in Heq; [|assumption..].
      apply app_inv_head in Heq. congruence.
    + intros n m Hn Hm Heq.
      destruct (Hkeys n Hn) as (K1 & _ & _ & C1 & _).
      destruct (Hkeys m Hm) as (_ & K2' & _ & _ & C2').
      rewrite K1, K2' in Heq.
      apply keyOf_injective in Heq; [|assumption..].
      apply app_inv_head in Heq. discriminate.
    + eapply S2; eauto.
Qed.

End MirrorFacts.

(** X19 (FileSystemProxy.copyProjectToSandbox, getProjectFiles).  Copying
    the project into the sandbox changes no file outside the sandbox and
    no entry of the operation log, whether it returns or throws; when it
    returns, every important file (package.json, tsconfig.json, ...) that
    is a regular file of the project has a copy in the sandbox with the
    same bytes. *)
Theorem copyProjectToSandbox_mirrors_important_files
    (rt : Runtime) (projectPath : Js.str) (w : World) :
  Path.isAbsolute projectPath = true ->
  let self := SandboxManager.fileSystemProxy
                (SandboxManager.create projectPath) in
  let r := FileSystemProxy.copyProjectToSandbox rt self w in
  (forall k,
     Fs.under (Fs.key rt (FileSystemProxy.sandboxRoot self)) k = false ->
     files (snd r) !! k = files w !! k)
  /\ interceptedOperations (snd r) = interceptedOperations w
  /\ (fst r = inr tt ->
      forall name bytes,
        In name FileSystemProxy.importantFiles ->
        files w
          !! Fs.key rt (Path.join [FileSystemProxy.projectRoot self; J name])
        = Some bytes ->
        files (snd r)
          !! Fs.key rt (Path.join [FileSystemProxy.sandboxRoot self; J name])
        = Some bytes).
Proof. intros Habs. apply copyProjectToSandbox_spec. exact Habs. Qed.

Lemma copyProjectToSandbox_mirrors_important_files_witness :
  Path.isAbsolute (J "/proj") = true
  /\ fst (FileSystemProxy.copyProjectToSandbox sampleRuntime
            (SandboxManager.fileSystemProxy
               (SandboxManager.create (J "/proj"))) sampleProject) = inr tt
  /\ In "package.json" FileSystemProxy.importantFiles
  /\ files sampleProject !! J "/proj/package.json" = Some (J "{}")
  /\ files (snd (FileSystemProxy.copyProjectToSandbox sampleRuntime
                   (SandboxManager.fileSystemProxy
                      (SandboxManager.create (J "/proj"))) sampleProject))
       !! J "/proj/.sentvibe/sandbox/package.json" = Some (J "{}").
Proof.
  assert (H1 : fst (FileSystemProxy.copyProjectToSandbox sampleRuntime
                      (SandboxManager.fileSystemProxy
                         (SandboxManager.create (J "/proj"))) sampleProject)
               = inr tt) by (vm_compute; reflexivity).
  assert (H2 : In "package.json" FileSystemProxy.importantFiles)
    by (left; reflexivity).
  split; [reflexivity|]. split; [exact H1|]. split; [exact H2|].
  split; [vm_compute; reflexivity|].
  exact (proj2 (proj2 (copyProjectToSandbox_mirrors_important_files
                         sampleRuntime (J "/proj") sampleProject eq_refl))
           H1 "package.json" (J "{}") H2 eq_refl).
Defined.
(* ===================================================================== *)
(** * Further properties: wildcard entries of the blocked list *)
(* ===================================================================== *)

Section WildcardFacts.
Import RegExp FileAccessControl.
Variable input : Js.str.

Lemma seqs_cons_snoc r l e : seqs (r :: l ++ [e]) = Seq r (seqs (l ++ [e])).
Proof. destruct l; reflexivity. Qed.

Lemma drop_nil_length (x : nat) :
  (x <= length input)%nat -> drop x input = [] -> x = length input.
Proof.
  intros Hx Hd. pose proof (length_drop input x) as L.
  rewrite Hd in L. simpl in L. lia.
Qed.

Lemma drop_cons_lookup (x : nat) ch s' :
  drop x input = ch :: s' ->
  input !! x = Some ch /\ drop (S x) input = s' /\ (S x <= length input)%nat.
Proof.
  intros Hd.
  assert (Hl : input !! x = Some ch).
  { pose proof (lookup_drop input x 0) as L. rewrite Hd in L.
    simpl in L. rewrite Nat.add_0_r in L. symmetry. exact L. }
  split; [exact Hl|]. split.
  - pose proof (drop_S input ch x Hl) as D. rewrite Hd in D.
    injection D as D. symmetry. exact D.
  - apply lookup_lt_Some in Hl. lia.
Qed.

Lemma star_exact (g : Js.str -> bool) (c : nat -> option nat) :
  forall fuel x,
    (x <= length input)%nat -> (length input - x < fuel)%nat ->
    (forall y, (x <= y <= length input)%nat ->
               c y = if g (drop y input) then Some (length input) else None) ->
    repeatMatcher fuel (compile false input Dot) 0 None true x c
    = if anyRun g (drop x input) then Some (length input) else None.
Proof.
  set (m := compile false input Dot).
  assert (Hm : forall x d,
            m x d = match input !! x with
                    | Some ch => if isLineTerminator ch then None else d (S x)
                    | None => None
                    end) by reflexivity.
  induction fuel as [|fuel IH]; intros x Hx Hf Hc; [lia|].
  cbn [repeatMatcher Nat.eqb negb andb Nat.pred fmap option_fmap option_map].
  rewrite Hm. unfold Js.str in *.
  destruct (drop x input) as [|ch s'] eqn:Hd.
  - pose proof (drop_nil_length x Hx Hd) as ->.
    rewrite (lookup_ge_None_2 input (length input)) by lia.
    rewrite Hc by lia. rewrite Hd. cbn [anyRun]. rewrite orb_false_r.
    reflexivity.
  - destruct (drop_cons_lookup x ch s' Hd) as (Hl & Hd' & Hlen).
    unfold Js.str in *. rewrite Hl.
    replace (Nat.eqb (S x) x) with false by (symmetry; apply Nat.eqb_neq; lia).
    rewrite (Hc x) by lia. rewrite Hd. cbn [anyRun].
    destruct (isLineTerminator ch).
    + cbn [negb andb]. rewrite orb_false_r. reflexivity.
    + rewrite IH; [|lia|lia|intros y Hy; apply Hc; lia].
      rewrite Hd'. cbn [negb andb].
      destruct (anyRun g s'); [rewrite orb_true_r; reflexivity|].
      rewrite orb_false_r. reflexivity.
Qed.

Lemma glob_exact (b : Js.str) : forall x,
  (x <= length input)%nat ->
  compile false input (seqs (globRe b)) x (fun y => Some y)
  = if fits b (drop x input) then Some (length input) else None.
Proof.
  unfold globRe.
  induction b as [|a b IH]; intros x Hx.
  - cbn [List.map app seqs compile fits].
    destruct (Nat.eqb_spec x (length input)) as [->|Hne].
    + rewrite drop_all. reflexivity.
    + destruct (drop x input) eqn:Hd; [|reflexivity].
      exfalso. apply Hne. apply drop_nil_length; assumption.
  - cbn [List.map]. rewrite <- app_comm_cons, seqs_cons_snoc.
    cbn [compile fits].
    destruct (a =? 42) eqn:Hstar.
    + unfold star. cbn [compile].
      apply star_exact; [exact Hx | lia |].
      intros y Hy. apply IH. lia.
    + destruct (drop x input) as [|ch s'] eqn:Hd.
      * pose proof (drop_nil_length x Hx Hd) as ->.
        destruct (a =? 46); cbn [compile]; unfold Js.str in *;
          rewrite (lookup_ge_None_2 input (length input)) by lia;
          reflexivity.
      * destruct (drop_cons_lookup x ch s' Hd) as (Hl & Hd' & Hlen).
        destruct (a =? 46); cbn [compile]; unfold Js.str in *; rewrite Hl.
        -- destruct (isLineTerminator ch); [reflexivity|].
           rewrite IH by exact Hlen. rewrite Hd'. reflexivity.
        -- unfold canon. destruct (ch =? a); [|reflexivity].
           rewrite IH by exact Hlen. rewrite Hd'. reflexivity.
Qed.

Lemma scan_anchored (r : Re) fuel : forall i,
  (0 < i)%nat -> scan false input fuel (Seq Boi r) i = None.
Proof.
  induction fuel as [|fuel IH]; intros i Hi; [reflexivity|].
  cbn [scan]. unfold matchAt. cbn [compile].
  replace (Nat.eqb i 0) with false by (symmetry; apply Nat.eqb_neq; lia).
  apply IH. lia.
Qed.

Lemma wildcard_fits (b : Js.str) :
  fst (test (wildcard b) input) = fits b input.
Proof.
  unfold test, exec, wildcard, plain.
  cbn [global source ignoreCase lastIndex].
  change ([Boi] ++ ?l) with (Boi :: l).
  fold (globRe b).
  assert (Hs : seqs (Boi :: globRe b) = Seq Boi (seqs (globRe b)))
    by (unfold globRe; apply seqs_cons_snoc).
  rewrite Hs. rewrite Nat.sub_0_r. cbn [scan]. unfold matchAt.
  cbn [compile Nat.eqb]. rewrite glob_exact by lia. rewrite drop_0.
  destruct (fits b input); [reflexivity|].
  rewrite scan_anchored by lia. reflexivity.
Qed.

End WildcardFacts.

Section WildcardUse.
Import FileAccessControl.

Lemma anyRun_all (g : Js.str -> bool) (s : Js.str) :
  g [] = true ->
  forallb (fun ch => negb (RegExp.isLineTerminator ch)) s = true ->
  anyRun g s = true.
Proof.
  intros Hg. induction s as [|ch s IH]; intros H.
  - simpl. rewrite Hg. reflexivity.
  - simpl in H. apply andb_true_iff in H as [H1 H2].
    cbn [anyRun]. rewrite H1, (IH H2). apply orb_true_r.
Qed.

Lemma slashes_keeps_lines (s : Js.str) :
  forallb (fun ch => negb (RegExp.isLineTerminator ch)) s = true ->
  forallb (fun ch => negb (RegExp.isLineTerminator ch)) (slashes s) = true.
Proof.
  unfold slashes. induction s as [|ch s IH]; intros H; [reflexivity|].
  simpl in H. apply andb_true_iff in H as [H1 H2].
  cbn [List.map forallb]. rewrite (IH H2), andb_true_r.
  destruct (ch =? 92); [reflexivity | exact H1].
Qed.

Lemma isPathBlocked_globs rt root p :
  isPathBlocked (create rt root) p = true
  <-> exists b, In b BLOCKED
        /\ (slashes p = J b
            \/ Js.startsWith (slashes p) (J b ++ [Path.slash]) = true
            \/ (Js.includes (J b) [42] = true
                /\ fits (J b) (slashes p) = true)).
Proof.
  rewrite isPathBlocked_iff. cbn [create blockedPaths]. split.
  - intros (b & Hb & H). apply list_elem_of_In, in_map_iff in Hb.
    destruct Hb as (name & <- & Hname). exists name. split; [exact Hname|].
    rewrite wildcard_fits in H. exact H.
  - intros (name & Hname & H). exists (J name).
    split; [apply list_elem_of_In, in_map, Hname|].
    rewrite wildcard_fits. exact H.
Qed.

End WildcardUse.

(** X20 (FileAccessControl.isPathBlocked).  Under the default
    configuration a relative path is blocked exactly when, with its
    backslashes turned into slashes, it is a blocked entry, begins with a
    blocked entry and a slash, or fits an entry that has a star, read as
    a glob in which the star stands for any run of characters and the dot
    for any one character (line terminators excepted).  So the entry
    [.env*] blocks every path without line terminators whose second to
    fourth characters are [env], whatever the first character is. *)
Theorem isPathBlocked_reads_wildcards_as_globs
    (rt : Runtime) (root p : Js.str) :
  (FileAccessControl.isPathBlocked (FileAccessControl.create rt root) p = true
   <-> exists b, In b FileAccessControl.BLOCKED
         /\ (slashes p = J b
             \/ Js.startsWith (slashes p) (J b ++ [Path.slash]) = true
             \/ (Js.includes (J b) [42] = true
                 /\ fits (J b) (slashes p) = true)))
  /\ (forall c rest,
        p = c :: J "env" ++ rest ->
        forallb (fun ch => negb (RegExp.isLineTerminator ch)) p = true ->
        FileAccessControl.isPathBlocked (FileAccessControl.create rt root) p
        = true).
Proof.
  split; [apply isPathBlocked_globs|].
  intros c rest -> Hl. apply isPathBlocked_globs.
  exists ".env*". split; [unfold FileAccessControl.BLOCKED; in_table|].
  right. right. split; [reflexivity|].
  apply slashes_keeps_lines in Hl.
  unfold slashes in *. cbn [List.map app] in *. rewrite map_app in *.
  change (List.map _ (J "env")) with (J "env") in *.
  cbn [forallb] in Hl. apply andb_true_iff in Hl as [H1 H2].
  rewrite forallb_app in H2. apply andb_true_iff in H2 as [_ H2].
  change (J ".env*") with [46; 101; 110; 118; 42].
  change (J "env") with [101; 110; 118]. cbn [app fits N.eqb Pos.eqb].
  rewrite H1. cbn [andb].
  apply anyRun_all; [reflexivity | exact H2].
Qed.

Lemma isPathBlocked_reads_wildcards_as_globs_witness :
  J "venv/app.py" = 118 :: J "env" ++ J "/app.py"
  /\ forallb (fun ch => negb (RegExp.isLineTerminator ch)) (J "venv/app.py")
     = true
  /\ FileAccessControl.isPathBlocked
       (FileAccessControl.create sampleRuntime (J "/proj")) (J "venv/app.py")
     = true.
Proof.
  split; [reflexivity|]. split; [reflexivity|].
  exact (proj2 (isPathBlocked_reads_wildcards_as_globs sampleRuntime
                  (J "/proj") (J "venv/app.py"))
           118 (J "/app.py") eq_refl eq_refl).
Defined.
(* ===================================================================== *)
(** * Further properties: resetting the sandbox *)
(* ===================================================================== *)

Section ResetFacts.
Variable rt : Runtime.

Lemma split_keyOf (segs : list Js.str) :
  Forall clean segs -> segs <> [] -> Path.split (Fs.keyOf segs) = [] :: segs.
Proof.
  intros Hc Hne. unfold Fs.keyOf.
  change (Path.slash :: Path.unsplit segs)
    with ([] ++ Path.slash :: Path.unsplit segs).
  rewrite split_app_slash.
  rewrite split_unsplit by (try exact Hne; apply clean_slashFree, Hc).
  reflexivity.
Qed.

Lemma under_keyOf (A B : list Js.str) :
  Forall clean A -> Forall clean B -> A <> [] ->
  Fs.under (Fs.keyOf A) (Fs.keyOf B) = true -> A `prefix_of` B.
Proof.
  intros HA HB HneA H. unfold Fs.under in H.
  apply orb_true_iff in H as [H|H].
  - apply bool_decide_eq_true in H.
    apply (keyOf_injective rt) in H; [|assumption..]. subst. reflexivity.
  - unfold Js.startsWith, Js.isPrefix in H. apply bool_decide_eq_true in H.
    pose proof (take_drop (length (Fs.keyOf A ++ [Path.slash])) (Fs.keyOf B))
      as Hsplit.
    rewrite H in Hsplit.
    set (rest := drop (length (Fs.keyOf A ++ [Path.slash])) (Fs.keyOf B))
      in Hsplit.
    rewrite <- app_assoc in Hsplit. cbn [app] in Hsplit.
    destruct B as [|b B'].
    { exfalso. unfold Fs.keyOf in Hsplit. cbn in Hsplit.
      injection Hsplit as Hsplit.
      destruct (Path.unsplit A); discriminate. }
    apply (f_equal Path.split) in Hsplit.
    rewrite split_app_slash in Hsplit.
    rewrite !split_keyOf in Hsplit by (assumption || discriminate).
    injection Hsplit as Hsplit.
    exists (Path.split rest). symmetry. exact Hsplit.
Qed.

Lemma ensureSandboxDirectory_effect self w :
  files (snd (SandboxManager.ensureSandboxDirectory rt self w)) = files w
  /\ interceptedOperations
       (snd (SandboxManager.ensureSandboxDirectory rt self w))
     = interceptedOperations w.
Proof.
  unfold SandboxManager.ensureSandboxDirectory, Fs.existsSync. unfold_monad.
  destruct (negb _); [|split; reflexivity].
  destruct (mkdirSync_effect rt (SandboxManager.sandboxPath self) w)
    as [-> | ->]; split; reflexivity.
Qed.

Lemma copyAll_only self names : forall w,
  (forall n m, n ∈ names -> m ∈ names ->
     Fs.key rt (Path.join [FileSystemProxy.projectRoot self; n])
     <> Fs.key rt (Path.join [FileSystemProxy.sandboxRoot self; m])) ->
  forall k,
    files (snd (FileSystemProxy.copyAll rt self names w)) !! k = files w !! k
    \/ exists n bytes,
         n ∈ names
         /\ k = Fs.key rt (Path.join [FileSystemProxy.sandboxRoot self; n])
         /\ files w
              !! Fs.key rt (Path.join [FileSystemProxy.projectRoot self; n])
            = Some bytes
         /\ files (snd (FileSystemProxy.copyAll rt self names w)) !! k
            = Some bytes.
Proof.
  induction names as [|file rest IH]; intros w Hd k; [left; reflexivity|].
  cbn [FileSystemProxy.copyAll]. unfold_monad.
  pose proof (copyOne_effect rt self file w) as E. cbv zeta in E.
  destruct (FileSystemProxy.copyOne rt self file w) as [[e|[]] w1].
  - destruct E as [E _]. left. cbn [snd]. rewrite E. reflexivity.
  - destruct E as (E0 & E1 & _).
    assert (Hd' : forall n m, n ∈ rest -> m ∈ rest ->
              Fs.key rt (Path.join [FileSystemProxy.projectRoot self; n])
              <> Fs.key rt (Path.join [FileSystemProxy.sandboxRoot self; m])).
    { intros n m Hn Hm. apply Hd; apply elem_of_cons; right; assumption. }
    assert (Hsrc : forall n, n ∈ file :: rest ->
              files w1
                !! Fs.key rt (Path.join [FileSystemProxy.projectRoot self; n])
              = files w
                  !! Fs.key rt
                       (Path.join [FileSystemProxy.projectRoot self; n])).
    { intros n Hn.
      destruct (files w !! Fs.key rt
                  (Path.join [FileSystemProxy.projectRoot self; file]))
        as [bytes|] eqn:Hs.
      - rewrite (E1 bytes eq_refl). apply lookup_insert_ne.
        intros Heq. apply (Hd n file Hn); [apply list_elem_of_here|].
        symmetry. exact Heq.
      - rewrite (E0 eq_refl). reflexivity. }
    destruct (IH w1 Hd' k) as [Hk | (n & bytes & Hn & -> & Hs & Hr)].
    + rewrite Hk.
      destruct (files w !! Fs.key rt
                  (Path.join [FileSystemProxy.projectRoot self; file]))
        as [bytes|] eqn:Hs.
      * rewrite (E1 bytes eq_refl).
        destruct (decide (k = Fs.key rt
                    (Path.join [FileSystemProxy.sandboxRoot self; file])))
          as [->|Hne].
        -- right. exists file, bytes.
           split; [apply list_elem_of_here|]. split; [reflexivity|].
           split; [exact Hs|].
           apply lookup_insert_eq.
        -- left. apply lookup_insert_ne. congruence.
      * left. rewrite (E0 eq_refl). reflexivity.
    + right. exists n, bytes. split; [apply list_elem_of_further, Hn|].
      split; [reflexivity|]. split; [|exact Hr].
      rewrite <- Hs. symmetry. apply Hsrc. apply list_elem_of_further, Hn.
Qed.

Lemma copyProjectToSandbox_only projectPath w :
  Path.isAbsolute projectPath = true ->
  let self := SandboxManager.fileSystemProxy
                (SandboxManager.create projectPath) in
  let r := FileSystemProxy.copyProjectToSandbox rt self w in
  forall k,
    files (snd r) !! k = files w !! k
    \/ exists name bytes,
         In name FileSystemProxy.importantFiles
         /\ k = Fs.key rt
                  (Path.join [FileSystemProxy.sandboxRoot self; J name])
         /\ files w
              !! Fs.key rt
                   (Path.join [FileSystemProxy.projectRoot self; J name])
            = Some bytes
         /\ files (snd r) !! k = Some bytes.
Proof.
  intros Habs self r k.
  destruct clean_literals as (_ & _ & Hclean).
  rewrite Forall_forall in Hclean.
  destruct (existingFiles_spec rt self
              (List.map Js.lit FileSystemProxy.importantFiles) w)
    as (found & Hfound & S1 & _).
  assert (Hr : r = FileSystemProxy.copyAll rt self found w).
  { subst r. unfold FileSystemProxy.copyProjectToSandbox,
      FileSystemProxy.getProjectFiles. unfold_monad.
    rewrite Hfound. cbv beta iota.
    destruct (FileSystemProxy.copyAll rt self found w) as [[e|[]] w'];
      reflexivity. }
  rewrite Hr.
  destruct (copyAll_only self found w) with (k := k)
    as [Hk | (n & bytes & Hn & Hkn & Hs & Hres)].
  - intros n m Hn Hm Heq.
    destruct (mirror_keys rt projectPath n Habs (Hclean n (S1 n Hn)))
      as (K1 & _ & _ & C1 & _).
    destruct (mirror_keys rt projectPath m Habs (Hclean m (S1 m Hm)))
      as (_ & K2 & _ & _ & C2).
    fold self in K1, K2. rewrite K1, K2 in Heq.
    apply (keyOf_injective rt) in Heq; [|assumption..].
    apply app_inv_head in Heq. discriminate.
  - left. exact Hk.
  - right. apply S1, list_elem_of_In, in_map_iff in Hn.
    destruct Hn as (name & <- & Hname).
    exists name, bytes. repeat split; assumption.
Qed.

Lemma source_outside_sandbox projectPath n :
  Path.isAbsolute projectPath = true -> clean n ->
  let self := SandboxManager.create projectPath in
  Fs.under (Fs.key rt (SandboxManager.sandboxPath self))
    (Fs.key rt (Path.join [projectPath; n])) = false.
Proof.
  intros Habs Hn self.
  destruct (mirror_keys rt projectPath n Habs Hn) as (K1 & _ & K3 & C1 & C2).
  change (FileSystemProxy.projectRoot _) with projectPath in K1.
  change (FileSystemProxy.sandboxRoot _)
    with (SandboxManager.sandboxPath self) in K3.
  rewrite K1, K3.
  destruct (Fs.under _ _) eqn:E; [|reflexivity]. exfalso.
  assert (C3 : Forall clean (Path.normalizeSegs false projectPath
                             ++ [J ".sentvibe"; J "sandbox"])).
  { replace (Path.normalizeSegs false projectPath
             ++ [J ".sentvibe"; J "sandbox"; n])
      with ((Path.normalizeSegs false projectPath
             ++ [J ".sentvibe"; J "sandbox"]) ++ [n]) in C2
      by (rewrite <- app_assoc; reflexivity).
    apply Forall_app in C2 as [C2 _]. exact C2. }
  apply under_keyOf in E; [|assumption..|].
  - apply prefix_length in E. rewrite !length_app in E. simpl in E. lia.
  - destruct (Path.normalizeSegs false projectPath); discriminate.
Qed.

Lemma target_inside_sandbox projectPath n :
  Path.isAbsolute projectPath = true -> clean n ->
  let self := SandboxManager.create projectPath in
  Fs.under (Fs.key rt (SandboxManager.sandboxPath self))
    (Fs.key rt (Path.join [SandboxManager.sandboxPath self; n])) = true.
Proof.
  intros Habs Hn self.
  destruct (mirror_keys rt projectPath n Habs Hn) as (_ & K2 & K3 & _).
  change (FileSystemProxy.sandboxRoot _)
    with (SandboxManager.sandboxPath self) in K2, K3.
  rewrite K2, K3.
  replace (Path.normalizeSegs false projectPath
           ++ [J ".sentvibe"; J "sandbox"; n])
    with ((Path.normalizeSegs false projectPath
           ++ [J ".sentvibe"; J "sandbox"]) ++ [n])
    by (rewrite <- app_assoc; reflexivity).
  apply keyOf_below.
  destruct (Path.normalizeSegs false projectPath); discriminate.
Qed.

Lemma syncProjectToSandbox_spec projectPath w :
  Path.isAbsolute projectPath = true ->
  let self := SandboxManager.create projectPath in
  let r := SandboxManager.syncProjectToSandbox rt self w in
  (forall k,
     files (snd r) !! k = files w !! k
     \/ exists name bytes,
          In name FileSystemProxy.importantFiles
          /\ k = Fs.key rt
                   (Path.join [SandboxManager.sandboxPath self; J name])
          /\ files w !! Fs.key rt (Path.join [projectPath; J name])
             = Some bytes
          /\ files (snd r) !! k = Some bytes)
  /\ interceptedOperations (snd r) = interceptedOperations w
  /\ (fst r = inr tt ->
      forall name bytes,
        In name FileSystemProxy.importantFiles ->
        files w !! Fs.key rt (Path.join [projectPath; J name]) = Some bytes ->
        files (snd r)
          !! Fs.key rt (Path.join [SandboxManager.sandboxPath self; J name])
        = Some bytes).
Proof.
  intros Habs self r.
  destruct (ensureSandboxDirectory_effect self w) as [F1 L1].
  pose proof (copyProjectToSandbox_only projectPath) as Ho.
  pose proof (copyProjectToSandbox_spec rt projectPath) as Hs.
  cbv zeta in Ho, Hs.
  subst r. unfold SandboxManager.syncProjectToSandbox. unfold_monad.
  destruct (SandboxManager.ensureSandboxDirectory rt self w) as [[e|[]] w1];
    cbn [fst snd] in *.
  - split; [intros k; left; rewrite F1; reflexivity|].
    split; [exact L1 | discriminate].
  - specialize (Ho w1 Habs). specialize (Hs w1 Habs).
    fold self in Ho, Hs.
    destruct Hs as (_ & Hlog & Hcopy).
    change (FileSystemProxy.projectRoot (SandboxManager.fileSystemProxy self))
      with projectPath in *.
    change (FileSystemProxy.sandboxRoot (SandboxManager.fileSystemProxy self))
      with (SandboxManager.sandboxPath self) in *.
    destruct (FileSystemProxy.copyProjectToSandbox rt
                (SandboxManager.fileSystemProxy self) w1) as [[e|[]] w2];
      cbn [fst snd] in *.
    + split; [|split; [congruence | discriminate]].
      intros k. rewrite <- F1. exact (Ho k).
    + split; [|split; [congruence|]].
      * intros k. rewrite <- F1. exact (Ho k).
      * intros _ name bytes Hname Hf. apply (Hcopy eq_refl name bytes Hname).
        rewrite F1. exact Hf.
Qed.

Lemma reset_spec projectPath w :
  Path.isAbsolute projectPath = true ->
  let self := SandboxManager.create projectPath in
  let ks := Fs.key rt (SandboxManager.sandboxPath self) in
  let r := SandboxManager.reset rt self w in
  (forall k, Fs.under ks k = false -> files (snd r) !! k = files w !! k)
  /\ interceptedOperations (snd r) = interceptedOperations w
  /\ (Fs.isFile w ks || Fs.isDir w ks = true ->
      forall k bytes,
        Fs.under ks k = true -> files (snd r) !! k = Some bytes ->
        exists name,
          In name FileSystemProxy.importantFiles
          /\ k = Fs.key rt
                   (Path.join [SandboxManager.sandboxPath self; J name])
          /\ files w !! Fs.key rt (Path.join [projectPath; J name])
             = Some bytes)
  /\ (fst r = inr tt ->
      forall name bytes,
        In name FileSystemProxy.importantFiles ->
        files w !! Fs.key rt (Path.join [projectPath; J name]) = Some bytes ->
        files (snd r)
          !! Fs.key rt (Path.join [SandboxManager.sandboxPath self; J name])
        = Some bytes).
Proof.
  intros Habs self ks r.
  destruct clean_literals as (_ & _ & Hclean).
  rewrite Forall_forall in Hclean.
  assert (Hcl : forall name, In name FileSystemProxy.importantFiles ->
                             clean (J name)).
  { intros name Hname. apply Hclean, list_elem_of_In, in_map, Hname. }
  destruct (clean_spec rt projectPath w Habs) as (C1 & C2 & _ & C4).
  fold self in C1, C2, C4. fold ks in C1, C2.
  pose proof (syncProjectToSandbox_spec projectPath) as Hs. cbv zeta in Hs.
  subst r. unfold SandboxManager.reset. unfold_monad.
  destruct (SandboxManager.clean rt self true w) as [[e|[]] w1];
    cbn [fst snd] in *.
  - split; [exact C2|]. split; [exact C4|]. split; [|discriminate].
    intros Hex k bytes Hk Hf. rewrite (C1 Hex k Hk) in Hf. discriminate.
  - destruct (Hs w1 Habs) as (S1 & S2 & S3). fold self in S1, S2, S3.
    assert (Hsrc : forall name, In name FileSystemProxy.importantFiles ->
              files w1 !! Fs.key rt (Path.join [projectPath; J name])
              = files w !! Fs.key rt (Path.join [projectPath; J name])).
    { intros name Hname. apply C2.
      apply source_outside_sandbox; [exact Habs | apply Hcl, Hname]. }
    assert (Hgoal :
      (forall k, Fs.under ks k = false ->
         files (snd (SandboxManager.syncProjectToSandbox rt self w1)) !! k
         = files w !! k)
      /\ interceptedOperations
           (snd (SandboxManager.syncProjectToSandbox rt self w1))
         = interceptedOperations w
      /\ (Fs.isFile w ks || Fs.isDir w ks = true ->
          forall k bytes,
            Fs.under ks k = true ->
            files (snd (SandboxManager.syncProjectToSandbox rt self w1)) !! k
            = Some bytes ->
            exists name,
              In name FileSystemProxy.importantFiles
              /\ k = Fs.key rt
                       (Path.join [SandboxManager.sandboxPath self; J name])
              /\ files w !! Fs.key rt (Path.join [projectPath; J name])
                 = Some bytes)
      /\ (fst (SandboxManager.syncProjectToSandbox rt self w1) = inr tt ->
          forall name bytes,
            In name FileSystemProxy.importantFiles ->
            files w !! Fs.key rt (Path.join [projectPath; J name])
            = Some bytes ->
            files (snd (SandboxManager.syncProjectToSandbox rt self w1))
              !! Fs.key rt
                   (Path.join [SandboxManager.sandboxPath self; J name])
            = Some bytes)).
    { split; [|split; [congruence|split]].
      - intros k Hk.
        destruct (S1 k) as [E | (name & bytes & Hname & -> & _)].
        + rewrite E. apply C2, Hk.
        + exfalso.
          pose proof (target_inside_sandbox projectPath (J name) Habs
                        (Hcl name Hname)) as T.
          cbv zeta in T. unfold ks, self in Hk. congruence.
      - intros Hex k bytes Hk Hf.
        destruct (S1 k) as [E | (name & bytes' & Hname & -> & Hsrc' & Hres)].
        + rewrite E, (C1 Hex k Hk) in Hf. discriminate.
        + exists name. split; [exact Hname|]. split; [reflexivity|].
          rewrite <- (Hsrc name Hname). congruence.
      - intros Hok name bytes Hname Hf. apply (S3 Hok name bytes Hname).
        rewrite (Hsrc name Hname). exact Hf. }
    destruct (SandboxManager.syncProjectToSandbox rt self w1) as [[e|[]] w2];
      exact Hgoal.
Qed.

End ResetFacts.

(** X21 (SandboxManager.reset, clean, syncProjectToSandbox).  [reset()]
    changes no file outside the sandbox directory and no entry of the
    operation log, whether it returns or throws.  If the sandbox
    directory existed, then whatever it held before is gone: every file
    found below it afterwards is the copy of an important project file,
    with the bytes that file has in the project.  When [reset()] returns,
    each important file of the project has its copy. *)
Theorem reset_rebuilds_the_sandbox_from_the_project
    (rt : Runtime) (projectPath : Js.str) (w : World) :
  Path.isAbsolute projectPath = true ->
  let self := SandboxManager.create projectPath in
  let ks := Fs.key rt (SandboxManager.sandboxPath self) in
  let r := SandboxManager.reset rt self w in
  (forall k, Fs.under ks k = false -> files (snd r) !! k = files w !! k)
  /\ interceptedOperations (snd r) = interceptedOperations w
  /\ (Fs.isFile w ks || Fs.isDir w ks = true ->
      forall k bytes,
        Fs.under ks k = true -> files (snd r) !! k = Some bytes ->
        exists name,
          In name FileSystemProxy.importantFiles
          /\ k = Fs.key rt
                   (Path.join [SandboxManager.sandboxPath self; J name])
          /\ files w !! Fs.key rt (Path.join [projectPath; J name])
             = Some bytes)
  /\ (fst r = inr tt ->
      forall name bytes,
        In name FileSystemProxy.importantFiles ->
        files w !! Fs.key rt (Path.join [projectPath; J name]) = Some bytes ->
        files (snd r)
          !! Fs.key rt (Path.join [SandboxManager.sandboxPath self; J name])
        = Some bytes).
Proof. intros Habs. apply reset_spec. exact Habs. Qed.

Lemma reset_rebuilds_the_sandbox_from_the_project_witness :
  Path.isAbsolute (J "/proj") = true
  /\ fst (SandboxManager.reset sampleRuntime
            (SandboxManager.create (J "/proj")) staleSandbox) = inr tt
  /\ In "package.json" FileSystemProxy.importantFiles
  /\ files staleSandbox !! J "/proj/package.json" = Some (J "{}")
  /\ files staleSandbox !! J "/proj/.sentvibe/sandbox/old.txt"
     = Some (J "stale")
  /\ files (snd (SandboxManager.reset sampleRuntime
                   (SandboxManager.create (J "/proj")) staleSandbox))
       !! J "/proj/.sentvibe/sandbox/old.txt" = None
  /\ files (snd (SandboxManager.reset sampleRuntime
                   (SandboxManager.create (J "/proj")) staleSandbox))
       !! J "/proj/.sentvibe/sandbox/package.json" = Some (J "{}").
Proof.
  assert (H1 : fst (SandboxManager.reset sampleRuntime
                      (SandboxManager.create (J "/proj")) staleSandbox)
               = inr tt) by (vm_compute; reflexivity).
  assert (H2 : In "package.json" FileSystemProxy.importantFiles)
    by (left; reflexivity).
  split; [reflexivity|]. split; [exact H1|]. split; [exact H2|].
  split; [vm_compute; reflexivity|]. split; [vm_compute; reflexivity|].
  split; [vm_compute; reflexivity|].
  exact (proj2 (proj2 (proj2
           (reset_rebuilds_the_sandbox_from_the_project
              sampleRuntime (J "/proj") staleSandbox eq_refl)))
           H1 "package.json" (J "{}") H2 eq_refl).
Defined.
(* ===================================================================== *)
(** * Properties of the security manager *)
(* ===================================================================== *)

Section SecurityFacts.
Variable rt : Runtime.

Lemma processFile_success self now at_ filePath st w :
  let r := fst (SecurityManager.processFile rt self now at_ filePath st w) in
  let cfg := SecurityManager.securityConfig self in
  SecurityManager.success r = true ->
  accepted rt (SecurityManager.fileAccessControl self) filePath w
  /\ exists bytes,
       files w !! Fs.key rt (Path.resolve (cwd rt) [filePath]) = Some bytes
       /\ ContentSanitizer.isSafe
            (ContentSanitizer.validateContentSafety
               (Buffer.utf8ToString bytes)) = true
       /\ exists san enc stored,
            san = fst (ContentSanitizer.sanitizeContent
                         (Buffer.utf8ToString bytes) filePath st)
            /\ SecurityManager.sanitizationResult r = Some san
            /\ SecurityManager.isEncrypted r = Some enc
            /\ SecurityManager.content r = Some stored
            /\ enc = SecurityManager.enableDatabaseEncryption cfg
                     && (ContentSanitizer.sensitiveDataFound san
                         || SecurityManager.encryptSensitiveContent cfg)
            /\ (if enc
                then DatabaseEncryption.encryptData
                       (SecurityManager.databaseEncryption self) now
                       (ContentSanitizer.sanitizedContent san) = inr stored
                else stored = ContentSanitizer.sanitizedContent san).
Proof.
  intros r cfg. subst r. unfold SecurityManager.processFile.
  pose proof (validateFilePath_spec rt (SecurityManager.fileAccessControl self)
                filePath w) as [Hacc Hpath]. cbv zeta in Hacc, Hpath.
  destruct (FileAccessControl.isValid _) eqn:Hv; cbn [negb];
    [|cbn [fst SecurityManager.success SecurityManager.refusal]; discriminate].
  destruct (Hpath eq_refl) as [Hp _]. rewrite Hp.
  unfold Fs.readFileSync.
  destruct (files w !! Fs.key rt (Path.resolve (cwd rt) [filePath]))
    as [bytes|] eqn:Hf;
    [|cbn [fst SecurityManager.success SecurityManager.processingError
           SecurityManager.refusal]; discriminate].
  destruct (ContentSanitizer.isSafe _) eqn:Hsafe; cbn [negb];
    [|cbn [fst SecurityManager.success SecurityManager.refusal]; discriminate].
  destruct (ContentSanitizer.sanitizeContent (Buffer.utf8ToString bytes)
              filePath st) as [san st'] eqn:Hsan.
  fold cfg.
  destruct (SecurityManager.enableDatabaseEncryption cfg
            && (ContentSanitizer.sensitiveDataFound san
                || SecurityManager.encryptSensitiveContent cfg)) eqn:Henc.
  - destruct (DatabaseEncryption.encryptData _ now _) as [e|stored] eqn:He;
      [cbn [fst SecurityManager.success SecurityManager.processingError
            SecurityManager.refusal]; discriminate|].
    cbn [fst SecurityManager.success SecurityManager.sanitizationResult
         SecurityManager.isEncrypted SecurityManager.content].
    intros _. split; [apply Hacc; reflexivity|].
    exists bytes. split; [reflexivity|]. split; [exact Hsafe|].
    exists san, true, stored. rewrite Hsan. cbn [fst]. rewrite Henc.
    split; [reflexivity|]. split; [reflexivity|]. split; [reflexivity|].
    split; [reflexivity|]. split; [reflexivity | exact He].
  - cbn [fst SecurityManager.success SecurityManager.sanitizationResult
         SecurityManager.isEncrypted SecurityManager.content].
    intros _. split; [apply Hacc; reflexivity|].
    exists bytes. split; [reflexivity|]. split; [exact Hsafe|].
    exists san, false, (ContentSanitizer.sanitizedContent san).
    rewrite Hsan. cbn [fst]. rewrite Henc. repeat split; reflexivity.
Qed.

Lemma retrieve_after_encrypt self now x stored :
  plain now = true -> wellFormed x = true ->
  SecurityManager.enableDatabaseEncryption
    (SecurityManager.securityConfig self) = true ->
  DatabaseEncryption.encryptData (SecurityManager.databaseEncryption self)
    now x = inr stored ->
  SecurityManager.retrieveContent self stored true = inr x.
Proof.
  intros Hnow Hwf Hen He. unfold SecurityManager.retrieveContent.
  rewrite Hen. cbn [negb].
  assert (Hkey : is_Some (DatabaseEncryption.encryptionKey
                            (SecurityManager.databaseEncryption self))).
  { unfold DatabaseEncryption.encryptData in He.
    destruct (DatabaseEncryption.encryptionKey _); [eauto | discriminate]. }
  rewrite (encryptData_text _ now x Hkey Hnow) in He. injection He as <-.
  rewrite decryptData_text by (assumption || apply base64_plain).
  rewrite base64_roundtrip by (apply utf8Write_bytes, Hwf).
  rewrite utf8_roundtrip by exact Hwf. reflexivity.
Qed.

Lemma processFile_round_trip self now at_ filePath st w :
  let r := fst (SecurityManager.processFile rt self now at_ filePath st w) in
  plain now = true ->
  SecurityManager.success r = true ->
  accepted rt (SecurityManager.fileAccessControl self) filePath w
  /\ exists bytes san enc stored,
       files w !! Fs.key rt (Path.resolve (cwd rt) [filePath]) = Some bytes
       /\ ContentSanitizer.isSafe
            (ContentSanitizer.validateContentSafety
               (Buffer.utf8ToString bytes)) = true
       /\ san = fst (ContentSanitizer.sanitizeContent
                       (Buffer.utf8ToString bytes) filePath st)
       /\ SecurityManager.sanitizationResult r = Some san
       /\ SecurityManager.isEncrypted r = Some enc
       /\ SecurityManager.content r = Some stored
       /\ (enc = false -> stored = ContentSanitizer.sanitizedContent san)
       /\ (wellFormed (ContentSanitizer.sanitizedContent san) = true ->
           SecurityManager.retrieveContent self stored enc
           = inr (ContentSanitizer.sanitizedContent san)).
Proof.
  intros r Hnow Hok.
  destruct (processFile_success self now at_ filePath st w Hok)
    as (Hacc & bytes & Hf & Hsafe & san & enc & stored
        & Hsan & Hres & Henc & Hcontent & Hwhen & Hstored).
  fold r in Hres, Henc, Hcontent.
  split; [exact Hacc|]. exists bytes, san, enc, stored.
  repeat (split; [assumption|]).
  destruct enc.
  - split; [discriminate|]. intros Hwf.
    symmetry in Hwhen. apply andb_true_iff in Hwhen as [Hen _].
    exact (retrieve_after_encrypt self now _ stored Hnow Hwf Hen Hstored).
  - split; [intros _; exact Hstored|]. intros _.
    unfold SecurityManager.retrieveContent. cbn [negb]. congruence.
Qed.

Lemma processFile_without_key self now at_ filePath st w :
  DatabaseEncryption.encryptionKey (SecurityManager.databaseEncryption self)
  = None ->
  SecurityManager.enableDatabaseEncryption
    (SecurityManager.securityConfig self) = true ->
  SecurityManager.encryptSensitiveContent
    (SecurityManager.securityConfig self) = true ->
  SecurityManager.success
    (fst (SecurityManager.processFile rt self now at_ filePath st w)) = false.
Proof.
  intros Hkey Hen Hes.
  destruct (SecurityManager.success _) eqn:Hok; [|reflexivity]. exfalso.
  destruct (processFile_success self now at_ filePath st w Hok)
    as (_ & bytes & _ & _ & san & enc & stored & _ & _ & _ & _ & Hwhen & Hst).
  rewrite Hen, Hes, orb_true_r in Hwhen. subst enc.
  unfold DatabaseEncryption.encryptData in Hst. rewrite Hkey in Hst.
  discriminate.
Qed.

End SecurityFacts.

(** X22 (SecurityManager.processFile, retrieveContent).  When
    [processFile] reports success, the path had passed every check of
    [validateFilePath], the text of the file had been judged safe, and the
    result carries the sanitized text of that file: as it is when the
    result is not marked encrypted, and otherwise in a form from which
    [retrieveContent], called with the result's content and mark, gives it
    back, provided it is well-formed UTF-16 and the time stamp taken by
    the encryption is plain text, as [toISOString] gives it.  A manager
    that has no key yet, with encryption enabled and
    [encryptSensitiveContent] set as the constructor leaves them, reports
    success for no file. *)
Theorem processFile_result_is_retrievable
    (rt : Runtime) (self : SecurityManager.t) (now at_ filePath : Js.str)
    (st : ContentSanitizer.Statics) (w : World) :
  let r := fst (SecurityManager.processFile rt self now at_ filePath st w) in
  (plain now = true ->
   SecurityManager.success r = true ->
   accepted rt (SecurityManager.fileAccessControl self) filePath w
   /\ exists bytes san enc stored,
        files w !! Fs.key rt (Path.resolve (cwd rt) [filePath]) = Some bytes
        /\ ContentSanitizer.isSafe
             (ContentSanitizer.validateContentSafety
                (Buffer.utf8ToString bytes)) = true
        /\ san = fst (ContentSanitizer.sanitizeContent
                        (Buffer.utf8ToString bytes) filePath st)
        /\ SecurityManager.sanitizationResult r = Some san
        /\ SecurityManager.isEncrypted r = Some enc
        /\ SecurityManager.content r = Some stored
        /\ (enc = false -> stored = ContentSanitizer.sanitizedContent san)
        /\ (wellFormed (ContentSanitizer.sanitizedContent san) = true ->
            SecurityManager.retrieveContent self stored enc
            = inr (ContentSanitizer.sanitizedContent san)))
  /\ (DatabaseEncryption.encryptionKey
        (SecurityManager.databaseEncryption self) = None ->
      SecurityManager.enableDatabaseEncryption
        (SecurityManager.securityConfig self) = true ->
      SecurityManager.encryptSensitiveContent
        (SecurityManager.securityConfig self) = true ->
      SecurityManager.success r = false).
Proof.
  intros r. split.
  - apply processFile_round_trip.
  - apply processFile_without_key.
Qed.

Lemma processFile_result_is_retrievable_witness :
  plain sampleTime = true
  /\ SecurityManager.success
       (fst (SecurityManager.processFile sampleRuntime sampleSecurity
               sampleTime sampleTime (J "src/app.ts")
               ContentSanitizer.initial sampleProject)) = true
  /\ accepted sampleRuntime (SecurityManager.fileAccessControl sampleSecurity)
       (J "src/app.ts") sampleProject.
Proof.
  assert (H1 : SecurityManager.success
       (fst (SecurityManager.processFile sampleRuntime sampleSecurity
               sampleTime sampleTime (J "src/app.ts")
               ContentSanitizer.initial sampleProject)) = true)
    by (vm_compute; reflexivity).
  split; [reflexivity|]. split; [exact H1|].
  exact (proj1 (proj1 (processFile_result_is_retrievable sampleRuntime
                         sampleSecurity sampleTime sampleTime (J "src/app.ts")
                         ContentSanitizer.initial sampleProject)
                  eq_refl H1)).
Defined.
Section SelfTestFacts.
Variable rt : Runtime.

Lemma pushSeg_dots (stack : list Js.str) :
  Forall clean stack ->
  Path.pushSeg false stack [Path.dot; Path.dot] = tail stack.
Proof.
  intros Hc. unfold Path.pushSeg.
  rewrite (bool_decide_eq_false_2 ([Path.dot; Path.dot] = [])) by discriminate.
  rewrite (bool_decide_eq_false_2 ([Path.dot; Path.dot] = [Path.dot]))
    by discriminate.
  cbn [orb]. unfold Path.isDots at 1.
  rewrite bool_decide_eq_true_2 by reflexivity.
  destruct stack as [|top below]; [reflexivity|].
  apply Forall_cons in Hc as [(_ & _ & Hd & _) _].
  unfold Path.isDots. rewrite bool_decide_eq_false_2 by exact Hd.
  reflexivity.
Qed.

Lemma clean_tail (stack : list Js.str) :
  Forall clean stack -> Forall clean (tail stack).
Proof. intros H. destruct H; [constructor | assumption]. Qed.

Lemma passwd_path :
  Path.isAbsolute (cwd rt) = true ->
  exists X, Path.resolve (cwd rt) [J "../../../etc/passwd"]
            = X ++ J "/etc/passwd".
Proof.
  intros Habs.
  assert (Hetc : clean (J "etc") /\ clean (J "passwd")).
  { split; repeat split; try discriminate; intros H; not_in_text H. }
  destruct Hetc as [Hetc Hpw].
  rewrite resolve_keyOf by (left; exact Habs).
  assert (HL : Path.resolveLoop (cwd rt) [J "../../../etc/passwd"] []
               = (cwd rt ++ Path.slash :: J "../../../etc/passwd"
                    ++ [Path.slash], Path.isAbsolute (cwd rt)))
    by reflexivity.
  unfold Path.resolveSegs. cbn [rev app]. rewrite HL.
  rewrite Habs. cbn [negb]. unfold Path.normalizeSegs.
  rewrite split_app_slash, fold_left_app.
  set (S0 := fold_left (Path.pushSeg false) (Path.split (cwd rt)) []).
  assert (H0 : Forall clean S0).
  { apply fold_pushSeg_keeps_clean; [apply split_all_slashFree | constructor]. }
  change (Path.split (J "../../../etc/passwd" ++ [Path.slash]))
    with [[Path.dot; Path.dot]; [Path.dot; Path.dot]; [Path.dot; Path.dot];
          J "etc"; J "passwd"; []].
  cbn [fold_left].
  rewrite (pushSeg_dots S0) by exact H0.
  rewrite (pushSeg_dots (tail S0)) by (apply clean_tail, H0).
  rewrite (pushSeg_dots (tail (tail S0)))
    by (apply clean_tail, clean_tail, H0).
  set (S3 := tail (tail (tail S0))).
  rewrite (pushSeg_clean false S3 (J "etc")) by exact Hetc.
  rewrite (pushSeg_clean false _ (J "passwd")) by exact Hpw.
  rewrite pushSeg_empty. cbn [rev]. rewrite <- !app_assoc. cbn [app].
  unfold Fs.keyOf.
  destruct (rev S3) as [|a A] eqn:HA.
  - exists []. reflexivity.
  - exists (Path.slash :: Path.unsplit (a :: A)).
    replace ((a :: A) ++ [J "etc"; J "passwd"])
      with (((a :: A) ++ [J "etc"]) ++ [J "passwd"])
      by (rewrite <- app_assoc; reflexivity).
    rewrite unsplit_snoc by discriminate.
    rewrite unsplit_snoc by discriminate.
    rewrite <- !app_assoc. reflexivity.
Qed.

Lemma dotless_tail_rejected self filePath w (X tail_ : Js.str) :
  FileAccessControl.allowedExtensions self
  = List.map Js.lit FileAccessControl.ALLOWED ->
  Path.resolve (cwd rt) [filePath] = X ++ tail_ ->
  Path.dot ∉ tail_ -> Path.slash ∈ tail_ ->
  FileAccessControl.isValid
    (FileAccessControl.validateFilePath rt self filePath w) = false.
Proof.
  intros Hall Hres Hdot Hslash.
  destruct (FileAccessControl.isValid _) eqn:E; [|reflexivity]. exfalso.
  apply (proj1 (validateFilePath_spec rt self filePath w)) in E.
  destruct E as (_ & _ & _ & _ & Hin & _).
  rewrite Hres, Hall in Hin.
  unfold FileAccessControl.getFileExtension in Hin.
  destruct (decide (Path.dot ∈ X)) as [HX|HX].
  - apply list_elem_of_split_r in HX as (p & e & -> & He).
    rewrite <- app_assoc in Hin. cbn [app] in Hin.
    rewrite (lastIndexOf_last p (e ++ tail_) Path.dot) in Hin.
    2:{ intros H. apply elem_of_app in H as [H|H]; contradiction. }
    rewrite drop_app_length in Hin.
    apply allowed_have_no_slash in Hin as [Hin _]. apply Hin.
    apply toLowerCase_keeps_slash. apply elem_of_cons. right.
    apply elem_of_app. right. exact Hslash.
  - rewrite (lastIndexOf_none (X ++ tail_) Path.dot) in Hin.
    2:{ intros H. apply elem_of_app in H as [H|H]; contradiction. }
    apply allowed_have_no_slash in Hin as [_ Hin]. congruence.
Qed.

Lemma passwd_rejected root w :
  Path.isAbsolute (cwd rt) = true ->
  FileAccessControl.isValid
    (FileAccessControl.validateFilePath rt (FileAccessControl.create rt root)
       (J "../../../etc/passwd") w) = false.
Proof.
  intros Habs. destruct (passwd_path Habs) as [X HX].
  apply (dotless_tail_rejected _ _ w X (J "/etc/passwd"));
    [reflexivity | exact HX | intros H; not_in_text H |].
  apply list_elem_of_here.
Qed.

Lemma testContent_sanitized history :
  let r := fst (ContentSanitizer.sanitizeContent SecurityManager.testContent
                  (J "test") (session history ContentSanitizer.initial)) in
  ContentSanitizer.sensitiveDataFound r
  && Js.includes (ContentSanitizer.sanitizedContent r) (J "[REDACTED_")
  = true.
Proof. cbv zeta. rewrite session_initial. vm_compute. reflexivity. Qed.

Lemma encryptionTest_spec self now :
  plain now = true ->
  SecurityManager.encryptionTest self now
  = Some (if bool_decide (is_Some (DatabaseEncryption.encryptionKey
                                     (SecurityManager.databaseEncryption self)))
          then SecurityManager.testOk "encryption"
          else SecurityManager.testFailed "encryption"
                 (J "Error: Encryption not initialized")).
Proof.
  intros Hnow. unfold SecurityManager.encryptionTest.
  destruct (DatabaseEncryption.encryptionKey
              (SecurityManager.databaseEncryption self)) as [k|] eqn:Hk.
  - assert (Hkey : is_Some (DatabaseEncryption.encryptionKey
                              (SecurityManager.databaseEncryption self)))
      by (rewrite Hk; eauto).
    rewrite (encryptData_text _ now _ Hkey Hnow).
    rewrite decryptData_text by (assumption || apply base64_plain).
    rewrite base64_roundtrip by (apply utf8Write_bytes; reflexivity).
    rewrite utf8_roundtrip by reflexivity.
    rewrite bool_decide_eq_true_2 by reflexivity.
    rewrite bool_decide_eq_true_2 by eauto. reflexivity.
  - unfold DatabaseEncryption.encryptData. rewrite Hk.
    rewrite bool_decide_eq_false_2 by (intros [x Hx]; discriminate).
    reflexivity.
Qed.

Lemma runSecuritySelfTest_spec root self now history w :
  SecurityManager.fileAccessControl self = FileAccessControl.create rt root ->
  Path.isAbsolute (cwd rt) = true ->
  plain now = true ->
  let initialized :=
    bool_decide (is_Some (DatabaseEncryption.encryptionKey
                            (SecurityManager.databaseEncryption self))) in
  let enabled :=
    SecurityManager.enableDatabaseEncryption
      (SecurityManager.securityConfig self) in
  exists res,
    fst (SecurityManager.runSecuritySelfTest rt self now
           (session history ContentSanitizer.initial) w) = Some res
    /\ SecurityManager.tests res
       = (if enabled
          then [if initialized then SecurityManager.testOk "encryption"
                else SecurityManager.testFailed "encryption"
                       (J "Error: Encryption not initialized")]
          else [])
         ++ [SecurityManager.testOk "content_sanitization";
             SecurityManager.testOk "file_access_control"]
    /\ SecurityManager.test_passed res = negb enabled || initialized.
Proof.
  intros Hfac Habs Hnow initialized enabled.
  unfold SecurityManager.runSecuritySelfTest.
  pose proof (testContent_sanitized history) as Hs. cbv zeta in Hs.
  destruct (ContentSanitizer.sanitizeContent SecurityManager.testContent
              (J "test") (session history ContentSanitizer.initial))
    as [sanitized st'].
  cbn [fst] in Hs. rewrite Hs. rewrite Hfac.
  rewrite (passwd_rejected root w Habs). cbn [negb].
  fold enabled. destruct enabled.
  - rewrite (encryptionTest_spec self now Hnow). fold initialized.
    eexists. split; [reflexivity|].
    cbn [fst SecurityManager.tests SecurityManager.test_passed app].
    split; [reflexivity|]. destruct initialized; reflexivity.
  - eexists. split; [reflexivity|].
    cbn [fst SecurityManager.tests SecurityManager.test_passed app].
    split; reflexivity.
Qed.

End SelfTestFacts.

(** X23 (SecurityManager.runSecuritySelfTest).  For a manager whose file
    access control is the one the constructor builds, in a process with an
    absolute working directory (and a time stamp of plain text, as
    [toISOString] gives it), the self test always passes its
    sanitization test and its file-access test, for every project root and
    every state of the file system; its overall verdict is therefore
    decided by the encryption test alone: the self test passes exactly
    when database encryption is disabled or the key has been initialized,
    and otherwise reports [Error: Encryption not initialized]. *)
Theorem runSecuritySelfTest_depends_on_the_key_only
    (rt : Runtime) (root : Js.str) (self : SecurityManager.t) (now : Js.str)
    (history : list (Js.str * Js.str)) (w : World) :
  SecurityManager.fileAccessControl self = FileAccessControl.create rt root ->
  Path.isAbsolute (cwd rt) = true ->
  plain now = true ->
  let initialized :=
    bool_decide (is_Some (DatabaseEncryption.encryptionKey
                            (SecurityManager.databaseEncryption self))) in
  let enabled :=
    SecurityManager.enableDatabaseEncryption
      (SecurityManager.securityConfig self) in
  exists res,
    fst (SecurityManager.runSecuritySelfTest rt self now
           (session history ContentSanitizer.initial) w) = Some res
    /\ SecurityManager.tests res
       = (if enabled
          then [if initialized then SecurityManager.testOk "encryption"
                else SecurityManager.testFailed "encryption"
                       (J "Error: Encryption not initialized")]
          else [])
         ++ [SecurityManager.testOk "content_sanitization";
             SecurityManager.testOk "file_access_control"]
    /\ SecurityManager.test_passed res = negb enabled || initialized.
Proof.
  intros Hfac Habs Hnow.
  apply (runSecuritySelfTest_spec rt root); assumption.
Qed.

Lemma runSecuritySelfTest_depends_on_the_key_only_witness :
  SecurityManager.fileAccessControl sampleSecurity
  = FileAccessControl.create sampleRuntime (J "/proj")
  /\ Path.isAbsolute (cwd sampleRuntime) = true
  /\ plain sampleTime = true
  /\ exists res,
       fst (SecurityManager.runSecuritySelfTest sampleRuntime sampleSecurity
              sampleTime (session [] ContentSanitizer.initial) sampleProject)
       = Some res
       /\ SecurityManager.test_passed res = true.
Proof.
  split; [reflexivity|]. split; [reflexivity|]. split; [reflexivity|].
  destruct (runSecuritySelfTest_depends_on_the_key_only sampleRuntime
              (J "/proj") sampleSecurity sampleTime [] sampleProject
              eq_refl eq_refl eq_refl) as (res & H1 & _ & H3).
  exists res. split; [exact H1 | exact H3].
Defined.
Section MemoryEntryFacts.
Variable rt : Runtime.

Lemma truthy_Some (field : option Js.str) text :
  SecurityManager.truthy field = Some text -> field = Some text /\ text <> [].
Proof.
  destruct field as [[|c s]|]; simpl; intros H; try discriminate.
  injection H as <-. split; [reflexivity | discriminate].
Qed.

Lemma validateMemoryEntry_spec self entry st w :
  let r := fst (SecurityManager.validateMemoryEntry rt self entry st w) in
  (SecurityManager.strictMode (SecurityManager.securityConfig self) = false ->
   SecurityManager.entry_isValid r = true)
  /\ (SecurityManager.entry_isValid r = false ->
      SecurityManager.sanitizedEntry r = None)
  /\ (forall e,
        SecurityManager.sanitizedEntry r = Some e ->
        SecurityManager.entry_securityIssues r = []
        /\ exists i o,
             SecurityManager.intent entry = Some i /\ i <> []
             /\ SecurityManager.outcome entry = Some o /\ o <> []
             /\ let ri := ContentSanitizer.sanitizeContent i
                            (J "memory_entry") st in
                let ro := ContentSanitizer.sanitizeContent o
                            (J "memory_entry") (snd ri) in
                ContentSanitizer.sensitiveDataFound (fst ri) = false
                /\ ContentSanitizer.sensitiveDataFound (fst ro) = false
                /\ e = {| SecurityManager.intent :=
                            Some (ContentSanitizer.sanitizedContent (fst ri));
                          SecurityManager.outcome :=
                            Some (ContentSanitizer.sanitizedContent (fst ro));
                          SecurityManager.codeSnippet :=
                            SecurityManager.codeSnippet entry;
                          SecurityManager.entry_filePath :=
                            SecurityManager.entry_filePath entry |}
                /\ (ContentSanitizer.maliciousPatterns (fst ri) = false ->
                    ContentSanitizer.maliciousPatterns (fst ro) = false ->
                    e = entry)).
Proof.
  intros r. subst r. unfold SecurityManager.validateMemoryEntry.
  set (label := J "memory_entry").
  set (missing := J "Missing required fields (intent, outcome)").
  set (large := J "Code snippet too large").
  set (inIntent := J "Sensitive data in intent field").
  set (inOutcome := J "Sensitive data in outcome field").
  set (invalidPath := J "Invalid file path: ").
  destruct (SecurityManager.truthy (SecurityManager.intent entry))
    as [i|] eqn:Ti;
  destruct (SecurityManager.truthy (SecurityManager.outcome entry))
    as [o|] eqn:To;
  destruct (SecurityManager.truthy (SecurityManager.codeSnippet entry))
    as [snippet|];
  try destruct (Z.of_nat (length snippet) >? _)%Z;
  try (destruct (ContentSanitizer.sanitizeContent i label st)
         as [ri st1] eqn:Hi);
  try (destruct (ContentSanitizer.sanitizeContent o label _)
         as [ro st2] eqn:Ho);
  try (destruct (ContentSanitizer.sensitiveDataFound ri) eqn:Si);
  try (destruct (ContentSanitizer.sensitiveDataFound ro) eqn:So);
  destruct (SecurityManager.truthy (SecurityManager.entry_filePath entry))
    as [path|];
  try destruct (FileAccessControl.isValid _);
  cbn [negb fst snd app length Nat.eqb orb
       SecurityManager.entry_isValid SecurityManager.sanitizedEntry
       SecurityManager.entry_securityIssues];
  (split; [intros Hs; try rewrite Hs; reflexivity|]);
  (split; [try reflexivity; try discriminate|]);
  intros e He; try discriminate He.
  all: injection He as <-.
  all: split; [reflexivity|].
  all: apply truthy_Some in Ti as [Ti Ni], To as [To No].
  all: exists i, o.
  all: rewrite Hi; cbn [fst snd]; rewrite Ho; cbn [fst snd].
  all: repeat (split; [assumption || reflexivity|]).
  all: intros Mi Mo.
  all: pose proof (sanitizeContent_keeps i label st) as [_ Ki];
       pose proof (sanitizeContent_keeps o label st1) as [_ Ko];
       rewrite Hi in Ki; rewrite Ho in Ko; cbn [fst] in Ki, Ko.
  all: rewrite (Ki Si Mi), (Ko So Mo), <- Ti, <- To.
  all: destruct entry; reflexivity.
Qed.

End MemoryEntryFacts.

(** X24 (SecurityManager.validateMemoryEntry).  Outside strict mode every
    entry is reported valid, whatever issues were found.  A sanitized
    entry is handed back only when no issue was found at all: the entry
    then had a non-empty intent and outcome in neither of which the
    sanitizer found sensitive data, so no redacted text ever reaches the
    caller, and the sanitized entry is the entry itself unless a malicious
    pattern was flagged in one of the two texts. *)
Theorem validateMemoryEntry_hands_back_no_redaction
    (rt : Runtime) (self : SecurityManager.t)
    (entry : SecurityManager.MemoryEntry)
    (st : ContentSanitizer.Statics) (w : World) :
  let r := fst (SecurityManager.validateMemoryEntry rt self entry st w) in
  (SecurityManager.strictMode (SecurityManager.securityConfig self) = false ->
   SecurityManager.entry_isValid r = true)
  /\ (SecurityManager.entry_isValid r = false ->
      SecurityManager.sanitizedEntry r = None)
  /\ (forall e,
        SecurityManager.sanitizedEntry r = Some e ->
        SecurityManager.entry_securityIssues r = []
        /\ exists i o,
             SecurityManager.intent entry = Some i /\ i <> []
             /\ SecurityManager.outcome entry = Some o /\ o <> []
             /\ let ri := ContentSanitizer.sanitizeContent i
                            (J "memory_entry") st in
                let ro := ContentSanitizer.sanitizeContent o
                            (J "memory_entry") (snd ri) in
                ContentSanitizer.sensitiveDataFound (fst ri) = false
                /\ ContentSanitizer.sensitiveDataFound (fst ro) = false
                /\ e = {| SecurityManager.intent :=
                            Some (ContentSanitizer.sanitizedContent (fst ri));
                          SecurityManager.outcome :=
                            Some (ContentSanitizer.sanitizedContent (fst ro));
                          SecurityManager.codeSnippet :=
                            SecurityManager.codeSnippet entry;
                          SecurityManager.entry_filePath :=
                            SecurityManager.entry_filePath entry |}
                /\ (ContentSanitizer.maliciousPatterns (fst ri) = false ->
                    ContentSanitizer.maliciousPatterns (fst ro) = false ->
                    e = entry)).
Proof. apply validateMemoryEntry_spec. Qed.

Lemma validateMemoryEntry_hands_back_no_redaction_witness :
  SecurityManager.strictMode (SecurityManager.securityConfig sampleSecurity)
  = false
  /\ SecurityManager.entry_securityIssues
       (fst (SecurityManager.validateMemoryEntry sampleRuntime sampleSecurity
               sampleEntry ContentSanitizer.initial sampleProject))
     = [J "Sensitive data in intent field"]
  /\ SecurityManager.sanitizedEntry
       (fst (SecurityManager.validateMemoryEntry sampleRuntime sampleSecurity
               sampleEntry ContentSanitizer.initial sampleProject)) = None
  /\ SecurityManager.entry_isValid
       (fst (SecurityManager.validateMemoryEntry sampleRuntime sampleSecurity
               sampleEntry ContentSanitizer.initial sampleProject)) = true.
Proof.
  split; [reflexivity|]. split; [vm_compute; reflexivity|].
  split; [vm_compute; reflexivity|].
  exact (proj1 (validateMemoryEntry_hands_back_no_redaction sampleRuntime
                  sampleSecurity sampleEntry ContentSanitizer.initial
                  sampleProject) eq_refl).
Defined.
